(* ===== verification/_CoqProject ===== *)
-Q . S2P
Prelude.v
GoLang.v
Core.v
Json.v
Utf8.v
World.v
Interfaces.v
Memory.v
Graph.v
Resilience.v
Engine.v
EngineSpec.v
Sessions.v
EngineEvents.v
Hooks.v
Inspector.v
Tools.v
Deadlines.v
Planner.v
TaskJson.v
Storage.v
Providers.v
Http.v
OpenAI.v
Anthropic.v
Embedding.v
Postgres.v
Rag.v
Eval.v
Security.v
A2A.v
Requests.v
TaskLife.v
Webhook.v
Sse.v
Delegate.v
Wire.v
Agents.v
Mock.v
Demo.v
Regex.v
Guard.v
RedisDriver.v
ExecContext.v
Metrics.v
Headers.v
TaskEvents.v
Auth.v
Pentest.v
Config.v
Main.v
Serving.v
Regression.v
