(* ===== verification/Prelude.v ===== *)
(** * FluxGraph: a verification library

    FluxGraph (the Go program under [src/]) runs agents as graphs of nodes: an
    engine takes a session through the nodes of a graph, saves a checkpoint
    after each step, pauses for a human and resumes; stores keep the sessions
    and the tasks; a service exposes the engine over JSON-RPC and gRPC; tools,
    planners, providers of language models, hooks, webhooks and an evaluation
    harness work around it. This library models these parts as Rocq functions
    and proves what they do.

    ** How the code is modelled

    A Go function that only computes is a function. One that reads or writes
    shared data is a computation of the monad [M E] of [World]: it takes the
    [World] - the cells of the [*core.AgentState] pointers, the answers of the
    clock, the random generator, [uuid.New] and the timers, and the state [E] of
    everything else - and ends with a value, a panic or [OutOfFuel]. A component
    owns a part of [E] through the class [Has]. Errors are values of [error],
    and [errors.As] walks their chain. Goroutines that interleave are threads of
    a step relation ([Tools.call_step]) or operations of their own that run at
    any time after the call that starts them ([A2A.Job], the pruning of a
    store, the writer of the audit log); sequences of steps are explicit lists.
    Integers are [Z] with the wrap-around of 64 bits where the code can reach
    it, floats are the binary64 numbers of [SpecFloat], strings are bytes.

    ** The files

    - [Prelude]: automation, 64-bit integers, binary64, strings, lists.
    - [GoLang]: errors, the values of an [any], contexts ([context.WithValue]).
    - [Core]: package [core], the data and the methods on it.
    - [Json], [TaskJson]: the documents [encoding/json] makes of the data, the
      decoders and their round trips.
    - [World]: the monad, its rules and the environment.
    - [Interfaces]: package [interfaces] as records of operations; the contracts
      [MemoryStoreOK], [TaskStoreOK], [EventBusOK] that the engine is proved
      against and the stores discharge.
    - [Memory]: [memory/store.go], [memory/eventbus.go].
    - [Graph]: package [graph], the builder and the checks of [Build].
    - [Resilience]: [engine/resilience.go], retries and the circuit breaker.
    - [Engine]: [engine/engine.go]; [EngineSpec]: a state machine on snapshots
      and the refinement of the loop, [Start] and [Resume] to it.
    - [Hooks]: [engine/hooks.go].
    - [Inspector]: [observability/inspector.go].
    - [Tools]: package [tools]; [Mock]: [mock/tool.go].
    - [Planner]: [planner/react.go].
    - [Storage]: [storage/redis_store.go], [storage/task_store.go].
    - [Providers]: [providers/fallback.go], [mock/llm.go].
    - [Eval]: [eval/harness.go].
    - [Security]: [security/sanitizer.go], [security/audit.go].
    - [A2A]: [a2a/server.go], [auth.go], [grpc_server.go], the models;
      [Webhook]: [a2a/webhook.go]; [Sse]: the event stream of [server.go] and
      its reader in [client.go]; [Delegate]: [client.go], [delegate_node.go].
    - [Utf8]: the runes of a Go string.
    - [Http]: what the HTTP clients share, with the libraries they call;
      [OpenAI], [Anthropic], [Embedding]: [providers/openai.go],
      [anthropic.go], [openai_embedding.go].
    - [Postgres]: [storage/postgres_store.go], [pgx_driver.go], and the meaning
      of their statements on the tables of [migrations/].
    - [Demo]: [examples/visual-demo/main.go], the demo on the whole engine.
    - [Regex]: the regular expressions of the patterns; [Guard]:
      [security/guard.go].
    - [RedisDriver]: [storage/redis_driver.go] and the closures of the stores.
    - [ExecContext]: [core/context.go].
    - [Metrics]: [observability/metrics.go], [otel.go].
    - [TaskEvents]: the subscription and the channel of [handleTaskEvents];
      [Auth]: the tokens of [a2a/auth.go].
    - [Config]: [config/config.go].
    - [Sessions]: many runs on one engine, as the service starts them.
    - [Requests]: from a message to the end of its run, [A2A] over [EngineSpec].
    - [EngineEvents]: the events a run publishes; [Wire]: the routes and the
      documents of the service; [Agents]: the delegate node of one agent on the
      service of another.
    - [Pentest]: [scripts/test_server.go] and [pentest.go] over that network;
      [Regression]: [scripts/regression.go] and the suite it runs.
    - [TaskLife]: the statuses the engine and the service write to one store of
      tasks.
    - [Main]: [cmd/fluxgraph/main.go], the program put together; [Serving]: its
      process from the listeners to the exit.
    - [Deadlines]: the tools and their dispatch in time; [Rag]: the search of
      [Postgres] over its appends, and [scripts/test_rag.go]; [Headers]: the
      headers of requests and answers.
    ** What the theorems show

    The engine: [Start] and [Resume] refine the state machine
    ([EngineSpec.Start_refines_spec], [Resume_refines_spec]) when the parts of the
    engine meet the conditions of [EngineSpec.Implements]; with any parts that end
    and leave the step counts alone, a run ends within its step limit and leaves
    the state it saved ([Engine.runLoop_ends_saved]).
    The contracts: the stores and the bus implement the interfaces
    ([Memory.InMemoryStore_refines_log], [Storage.Redis_roundtrip]). The tools:
    every interleaving of a dispatch ends and answers each call exactly as its
    authorization and its tool say ([Tools.ExecuteConcurrent_results],
    [ExecuteConcurrent_terminates]). The service: over HTTP no run is started
    without a token with the scope and a clean message ([Wire.serve_starts]); the
    gRPC service asks for neither. Retries,
    breaker, graph, planner, sanitizer, webhooks, stream, harness, inspector,
    hooks and providers: their functional behaviour on every branch. Theorems
    whose comment says that something is lost, unguarded or not seen state a
    defect of the code as it is; the manifest lists them as findings.
    The clients of the language models: every request they build is well formed,
    an answer is repeated to the vendor as it came ([OpenAI.OpenAI_remembers]),
    an error of the vendor moves the fallback chain on exactly when it is
    transient, and a stream delivers its chunks in order. PostgreSQL: a save is
    all or nothing, an append keeps the window ([Postgres.Pg_Save_atomic]). The
    demo: from any world, every message ends as its intent says
    ([Demo.demo_serves]), proved from the refinement of the engine to a machine
    whose nodes may ask a clock ([EngineSpec.Start_conforms]).

    A search finds what an append stored, and of it the messages of the user
    ([Rag.search_finds]). A dispatch of sandboxed tools is bounded by
    the timeout and the deadline of its caller at every moment of every schedule of
    its goroutines ([Deadlines.dispatch_in_time]). A session of the planner ends in
    the terminal after its rounds ([Planner.Revise_bounded]).

    The masks of the answers write stars only, and only where a pattern matches,
    whatever order the runtime takes the patterns in ([Guard.applyMask_stars],
    with the search proved against the matches of an expression in [Regex]); the
    hook changes what every state that shares the parts shows
    ([Guard.OnHook_masks]). The driver discharges the laws of the Redis stores
    ([RedisDriver.driver_serves_stores]). Execution contexts are scoped
    ([ExecContext.contexts_scoped]); the tracing hook loses a span exactly when
    two visits of a node overlap ([Metrics.spans_balanced]).
    The stream of a task delivers the events published after its subscriptions in
    order and in full to a client that stays, and loses the ones published before
    ([TaskEvents.stream_delivers]); one that goes away can block the
    run ([TaskEvents.publisher_blocks]). A token admits what it was made for
    ([Auth.token_admits]). A configuration that loads is
    one the program can start with ([Config.LoadConfig_iff]).
    A request runs the graph on its message, from the entry: to an end that is
    saved, with any parts that end, and to one the specification allows, with
    parts that meet its conditions ([Requests.request_runs]).
    Runs that share an engine are isolated from each other at every interleaving
    of their iterations ([Sessions.sessions_isolated]).
    Parts together: a run announces its pause and nothing else
    ([EngineEvents.run_announces]), so that one agent that delegates to another
    starts exactly one run there and gets nothing back
    ([Agents.delegation_brings_nothing_back]), or is refused with the text of the
    reason ([Agents.delegation_refused]).
    The penetration test passes against its server ([Pentest.pentest_passes]),
    the regression suite on its engine ([Regression.regression_passes]). No
    task is ever told that it is completed or waits for input, and the branch of
    the service that resumes one is not reached ([TaskLife.tasks_never_complete]).
    The program as [main] puts it together has no graph, and the first message
    ends it ([Main.message_ends_program]); its graceful exit waits for the
    requests and cuts the runs ([Serving.graceful_exit]).
    ** Bounds and fuel

    [Engine.loop] has one unit of fuel for each iteration; [runLoop_ends_saved]
    shows that one more than the steps that are left is enough, so [OutOfFuel] never occurs
    with it. [Graph.reach_loop] has one unit for each entry of its queue and
    [checkReachability_exact] shows that the fuel it is given is enough. The
    trimming and printing loops have the length of their text, or the number of
    digits of a 64-bit integer, as fuel. Retries recur on the number of
    attempts.

    ** Parameters and conventions

    Code that is not part of the repository is a parameter with the documented
    behaviour the proofs use as named hypotheses: the Redis server
    ([RedisLaws]), the HTTP client, the JWT library, HMAC, the sorting of
    [sort.Slice], the printing and parsing of JSON text, YAML, the file system.
    The order in which the runtime ranges over a map is an argument. A JSON
    document is a tree: its keys are matched exactly and are distinct, its
    strings are valid UTF-8; the replacement of invalid bytes is not modelled.
    User nodes, routers, conditions and tools are arbitrary computations. The
    run of one tool is one step. The parts of a message are values: that clones
    share the slices of parts is not modelled ([Core]), except where a
    component writes through them.

    ** Not modelled

    The protobuf code that protoc generates, the set-up of the loggers and what
    they print, the static files of the demo, the Prometheus page. The header of
    each file says what of its source has no definition. *)

From stdpp Require Import base gmap strings list fin_maps numbers sorting.
From Stdlib Require Import SpecFloat.

(** ** Automation *)

Create HintDb flux discriminated.

Create Rewrite HintDb flux_rw.

(** Splits a goal on every [match], [if] and [decide] of the goal. *)
Ltac split_goal :=
  repeat (case_match || case_decide; simplify_eq/=; try done).

(** Destructs the record argument of a goal and computes the projections. *)
Ltac destr x := destruct x; simpl in *.

(** Uses an equation of a pair with the value it computes to. *)
Ltac inv_pair :=
  repeat match goal with
  | H : (_, _) = (_, _) |- _ => injection H; clear H; intros; subst
  end.

(** ** 64-bit integers

    Go's [int] on the 64-bit platforms the program targets: a [Z] in
    [-2^63, 2^63), every arithmetic result wrapped back into it. *)

Definition MaxInt64 : Z := 9223372036854775807%Z.

Definition MinInt64 : Z := (-9223372036854775808)%Z.

Definition int64 (z : Z) : Z :=
  (((z + 9223372036854775808) mod 18446744073709551616) - 9223372036854775808)%Z.

Definition in_int64 (z : Z) : Prop := (MinInt64 <= z <= MaxInt64)%Z.

(** [x / y] of Go truncates towards zero. *)
Definition go_div (x y : Z) : Z := int64 (Z.quot x y).

(** ** Binary64

    Go's [float64], executable and without axioms: the Standard Library's
    [spec_float] at precision 53 and maximal exponent 1024. *)

Definition float64 := spec_float.

Definition float_of_Z (z : Z) : float64 := binary_normalize 53 1024 z 0 false.

Definition fmul (x y : float64) : float64 := SFmul 53 1024 x y.

Definition fadd (x y : float64) : float64 := SFadd 53 1024 x y.

(** [m * 2^e] rounded to binary64: used to write float constants. *)
Definition float_me (m e : Z) : float64 := binary_normalize 53 1024 m e false.

(** The truncated value of a finite float. *)
Definition float_trunc (f : float64) : Z :=
  match f with
  | S754_finite s m e =>
      let v := if (0 <=? e)%Z then (Zpos m * 2 ^ e)%Z else (Zpos m / 2 ^ (- e))%Z in
      if s then (- v)%Z else v
  | _ => 0%Z
  end.

Definition float_finite (f : float64) : bool :=
  match f with S754_finite _ _ _ | S754_zero _ => true | _ => false end.

(** [int64(f)]: truncation towards zero; a value that does not fit (which the
    language leaves to the implementation) gives the amd64 result, the least
    integer. *)
Definition int_of_float (f : float64) : Z :=
  let v := float_trunc f in
  if float_finite f && (MinInt64 <=? v)%Z && (v <=? MaxInt64)%Z then v else MinInt64.

(** ** Strings: the functions of package [strings] and the [+] of Go *)

Fixpoint has_prefix (s p : string) : bool :=
  match p, s with
  | EmptyString, _ => true
  | String a p', String b s' => bool_decide (a = b) && has_prefix s' p'
  | String _ _, EmptyString => false
  end.

Fixpoint drop_str (n : nat) (s : string) : string :=
  match n, s with
  | S n', String _ s' => drop_str n' s'
  | _, _ => s
  end.

Fixpoint take_str (n : nat) (s : string) : string :=
  match n, s with
  | S n', String a s' => String a (take_str n' s')
  | _, _ => EmptyString
  end.

Definition has_suffix (s p : string) : bool :=
  Nat.leb (String.length p) (String.length s)
  && bool_decide (drop_str (String.length s - String.length p) s = p).

Definition trim_suffix (s p : string) : string :=
  if has_suffix s p then take_str (String.length s - String.length p) s else s.

Definition trim_prefix (s p : string) : string :=
  if has_prefix s p then drop_str (String.length p) s else s.

(** [strings.Contains]. *)
Fixpoint contains (s sub : string) : bool :=
  has_prefix s sub
  || match s with EmptyString => false | String _ s' => contains s' sub end.

(** The decimal text of an integer, as [fmt]'s [%d] prints it. *)
Definition digit (n : nat) : Ascii.ascii := Ascii.ascii_of_nat (48 + n).

Fixpoint pos_dec (fuel : nat) (z : Z) (acc : string) : string :=
  match fuel with
  | O => acc
  | S f =>
      let acc' := String (digit (Z.to_nat (z mod 10))) acc in
      if (z <? 10)%Z then acc' else pos_dec f (z / 10)%Z acc'
  end.

Definition itoa (z : Z) : string :=
  if (z <? 0)%Z then String (Ascii.ascii_of_nat 45) (pos_dec 20 (- z)%Z "") else pos_dec 20 z "".

(** The line feed. *)
Definition lf : string := String (Ascii.ascii_of_nat 10) "".

(** The bytes of a text all satisfy [f]; the text is one line. *)
Fixpoint all_bytes (f : Ascii.ascii -> bool) (s : string) : bool :=
  match s with EmptyString => true | String c s' => f c && all_bytes f s' end.

Definition no_lf (s : string) : bool := all_bytes (fun c => negb (bool_decide (c = Ascii.ascii_of_nat 10))) s.

(** ** Association lists: Go maps whose only uses are lookups by key *)

Fixpoint alookup {A} (k : string) (l : list (string * A)) : option A :=
  match l with
  | [] => None
  | (k', v) :: l' => if String.eqb k k' then Some v else alookup k l'
  end.

Fixpoint aset {A} (k : string) (v : A) (l : list (string * A)) : list (string * A) :=
  match l with
  | [] => [(k, v)]
  | (k', v') :: l' => if String.eqb k k' then (k, v) :: l' else (k', v') :: aset k v l'
  end.

(** ** Options *)

(** Every element, or [None] as soon as one is missing. *)
Fixpoint all_some {A} (l : list (option A)) : option (list A) :=
  match l with
  | [] => Some []
  | None :: _ => None
  | Some x :: l' => match all_some l' with Some xs => Some (x :: xs) | None => None end
  end.

(** ** Integers: lemmas *)

Lemma int64_id z : in_int64 z -> int64 z = z.
Proof.
  unfold in_int64, int64, MinInt64, MaxInt64. intros ?.
  rewrite Z.mod_small by lia. lia.
Qed.

Lemma int64_range z : in_int64 (int64 z).
Proof.
  unfold in_int64, int64, MinInt64, MaxInt64.
  pose proof (Z.mod_pos_bound (z + 9223372036854775808) 18446744073709551616).
  lia.
Qed.

Lemma int_of_float_range f : in_int64 (int_of_float f).
Proof.
  unfold int_of_float. case_match eqn:Hc.
  - apply andb_prop in Hc as [Hc ?]. apply andb_prop in Hc as [? ?].
    unfold in_int64. lia.
  - unfold in_int64, MinInt64, MaxInt64. lia.
Qed.

#[export] Hint Resolve int64_range int_of_float_range : flux.

(** ** Strings: lemmas *)

#[local] Arguments String.append !s1 s2 /.

Lemma append_nil_r s : (s +:+ "") = s.
Proof. induction s as [|a s IH]; simpl; [done | by rewrite IH]. Qed.

Lemma append_assoc s t u : ((s +:+ t) +:+ u) = (s +:+ (t +:+ u)).
Proof. induction s as [|a s IH]; simpl; [done | by rewrite IH]. Qed.

Lemma length_append s t : String.length (s +:+ t) = String.length s + String.length t.
Proof. induction s as [|a s IH]; simpl; [done | by rewrite IH]. Qed.

Lemma append_inj_l s t u : (s +:+ t) = (s +:+ u) -> t = u.
Proof. induction s as [|a s IH]; simpl; intros H; [done|]. injection H as H. auto. Qed.

Lemma append_inj_len s s' t t' :
  String.length s = String.length s' ->
  (s +:+ t) = (s' +:+ t') -> s = s' /\ t = t'.
Proof.
  revert s'. induction s as [|a s IH]; intros [|b s']; simpl; try done.
  intros Hl H. injection H as -> H. injection Hl as Hl.
  destruct (IH s' Hl H) as [-> ->]. done.
Qed.

Lemma append_inj_r s s' t : (s +:+ t) = (s' +:+ t) -> s = s'.
Proof.
  intros H. assert (Hl : String.length s = String.length s').
  { pose proof (f_equal String.length H) as Hl. rewrite !length_append in Hl. lia. }
  by destruct (append_inj_len s s' t t Hl H).
Qed.

(** Equal texts with ends of the same length have the same ends. *)
Lemma append_ends s t u v : (s +:+ u) = (t +:+ v) -> String.length u = String.length v -> u = v.
Proof.
  intros H Hl. assert (Hs : String.length s = String.length t).
  { pose proof (f_equal String.length H) as Hl'. rewrite !length_append in Hl'. lia. }
  by destruct (append_inj_len s t u v Hs H).
Qed.

Lemma has_prefix_iff s p : has_prefix s p = true <-> exists t, s = (p +:+ t).
Proof.
  revert s. induction p as [|a p IH]; intros s; simpl.
  - split; [by exists s | by destruct s].
  - destruct s as [|b s].
    + split; [done | by intros [t ?]].
    + simpl. rewrite andb_true_iff, bool_decide_eq_true, IH. split.
      * intros [-> [t ->]]. by exists t.
      * intros [t H]. injection H as -> ->. eauto.
Qed.

Lemma drop_str_append p t : drop_str (String.length p) (p +:+ t) = t.
Proof. induction p as [|a p IH]; simpl; [by destruct t | done]. Qed.

Lemma take_str_append p t : take_str (String.length p) (p +:+ t) = p.
Proof. induction p as [|a p IH]; simpl; [by destruct t | by rewrite IH]. Qed.

Lemma take_drop_str n s : (take_str n s +:+ drop_str n s) = s.
Proof.
  revert s. induction n as [|n IH]; intros [|a s]; simpl; try done. by rewrite IH.
Qed.

Lemma has_suffix_iff s p : has_suffix s p = true <-> exists t, s = (t +:+ p).
Proof.
  unfold has_suffix. rewrite andb_true_iff, bool_decide_eq_true, Nat.leb_le. split.
  - intros [Hl Hd]. exists (take_str (String.length s - String.length p) s).
    rewrite <- Hd at 2. by rewrite take_drop_str.
  - intros [t ->]. rewrite length_append. split; [lia|].
    replace (String.length t + String.length p - String.length p) with (String.length t) by lia.
    apply drop_str_append.
Qed.

Lemma trim_suffix_append t p : trim_suffix (t +:+ p) p = t.
Proof.
  unfold trim_suffix. replace (has_suffix (t +:+ p) p) with true.
  - rewrite length_append.
    replace (String.length t + String.length p - String.length p) with (String.length t) by lia.
    apply take_str_append.
  - symmetry. apply has_suffix_iff. eauto.
Qed.

Lemma contains_iff s sub :
  contains s sub = true <-> exists pre post, s = (pre +:+ sub +:+ post).
Proof.
  induction s as [|a s IH].
  - simpl. rewrite orb_false_r.
    change (has_prefix "" sub = true <-> exists pre post, "" = (pre +:+ sub +:+ post)).
    rewrite has_prefix_iff. split.
    + intros [t ->]. by exists "", t.
    + intros (pre & post & H). destruct pre; [|done]. eauto.
  - cbn [contains]. rewrite orb_true_iff, has_prefix_iff, IH. split.
    + intros [[t ->] | (pre & post & ->)]; [by exists "", t|].
      by exists (String a pre), post.
    + intros (pre & post & H). destruct pre as [|b pre]; simpl in H; [left; eauto|].
      right. injection H as -> ->. eauto.
Qed.

(** ** Lists: lemmas *)

Lemma all_some_length {A} (l : list (option A)) xs :
  all_some l = Some xs -> length xs = length l.
Proof.
  revert xs. induction l as [|[x|] l IH]; intros xs H; simplify_eq/=; [done|].
  destruct (all_some l); simplify_eq/=. by rewrite IH.
Qed.

Lemma all_some_fmap {A B} (f : A -> option B) (g : A -> B) l :
  (forall x, x ∈ l -> f x = Some (g x)) -> all_some (f <$> l) = Some (g <$> l).
Proof.
  induction l as [|x l IH]; intros H; [done|]. rewrite fmap_cons. cbn [all_some].
  rewrite (H x) by set_solver. rewrite IH by set_solver. done.
Qed.

(** Appending at the end, and reading back what was there. *)
Lemma lookup_snoc_lt {A} (l : list A) x i : i < length l -> (l ++ [x]) !! i = l !! i.
Proof. intros. by apply lookup_app_l. Qed.

Lemma lookup_snoc_eq {A} (l : list A) x : (l ++ [x]) !! length l = Some x.
Proof. rewrite lookup_app_r by lia. by rewrite Nat.sub_diag. Qed.

Lemma filter_snoc {A} (P : A -> Prop) `{!forall x, Decision (P x)} l x :
  filter P (l ++ [x]) = filter P l ++ (if decide (P x) then [x] else []).
Proof. rewrite filter_app. by f_equal. Qed.

Lemma filter_all {A} (P : A -> Prop) `{!forall x, Decision (P x)} l : Forall P l -> filter P l = l.
Proof. induction 1 as [|x l Hx _ IH]; [done|]. by rewrite filter_cons_True, IH. Qed.

Lemma filter_none {A} (P : A -> Prop) `{!forall x, Decision (P x)} l :
  Forall (fun x => ~ P x) l -> filter P l = [].
Proof. induction 1 as [|x l Hx _ IH]; [done|]. by rewrite filter_cons_False. Qed.

Lemma aset_eq {A} k (v : A) l : alookup k (aset k v l) = Some v.
Proof.
  induction l as [|[k' v'] l IH]; simpl; [by rewrite String.eqb_refl|].
  destruct (String.eqb_spec k k') as [->|Hne]; simpl; [by rewrite String.eqb_refl|].
  apply String.eqb_neq in Hne. by rewrite Hne.
Qed.

Lemma aset_ne {A} k k' (v : A) l : k <> k' -> alookup k (aset k' v l) = alookup k l.
Proof.
  intros Hne. induction l as [|[k1 v1] l IH]; simpl.
  - destruct (String.eqb_spec k k'); done.
  - destruct (String.eqb_spec k' k1) as [->|?]; simpl; [by destruct (String.eqb_spec k k1)|].
    by destruct (String.eqb_spec k k1).
Qed.

Lemma alookup_not_elem {A} k (l : list (string * A)) : k ∉ l.*1 -> alookup k l = None.
Proof.
  induction l as [|[k' v] l IH]; simpl; [done|]. intros H.
  apply not_elem_of_cons in H as [Hne H].
  destruct (String.eqb_spec k k'); [done|]. auto.
Qed.

Lemma alookup_Some_elem {A} k (v : A) l : alookup k l = Some v -> (k, v) ∈ l.
Proof.
  induction l as [|[k' v'] l IH]; simpl; [done|].
  destruct (String.eqb_spec k k'); intros; simplify_eq; [by left | right; auto].
Qed.

#[export] Hint Rewrite @aset_eq @lookup_snoc_eq @length_append : flux_rw.

(** ** Lists: lemmas *)

Lemma filter_iff_in {A} (P Q : A -> Prop) `{!forall x, Decision (P x), !forall x, Decision (Q x)} (l : list A) :
  (forall x, x ∈ l -> P x <-> Q x) -> filter P l = filter Q l.
Proof.
  induction l as [|x l IH]; intros Hpq; [done|].
  rewrite !filter_cons, IH by (intros; apply Hpq; by right).
  destruct (Hpq x) as [H1 H2]; [left|]. do 2 case_decide; naive_solver.
Qed.

Lemma Forall_filter_keep {A} (P Q : A -> Prop) `{!forall x, Decision (P x)} (l : list A) :
  Forall Q l -> Forall Q (filter P l).
Proof. rewrite !Forall_forall. intros Hq x [_ Hx]%list_elem_of_filter. auto. Qed.
