(* ===== verification/GoLang.v ===== *)
(** * Go: errors, dynamic values, contexts

    What the program uses of the language and of its standard library and is
    not specific to one component: the [error] values with the chain that
    [errors.As] walks, the dynamic values an [any] holds in this program, and
    [context.Context] values. *)

From S2P Require Import Prelude.
From stdpp Require Import base gmap strings list.
From Stdlib Require Import SpecFloat.

(** ** time *)

(** [time.Duration] and instants are nanosecond counts. *)
Definition Duration := Z.

Definition Millisecond : Duration := 1000000%Z.

Definition Second : Duration := 1000000000%Z.

Definition Minute : Duration := 60000000000%Z.

Definition Hour : Duration := 3600000000000%Z.

(** [t.UnixMilli()] of an instant. *)
Definition UnixMilli (t : Z) : Z := (t / 1000000)%Z.

(** ** Errors

    [ErrNew] is [errors.New] or an [fmt.Errorf] with no [%w]: it is identified
    by its text. [ErrWrap] is an [fmt.Errorf] with a [%w]: its whole text and
    the error it wraps. [ErrAgent] is a [*core.AgentError]. *)
Inductive error : Type :=
  | ErrNew (msg : string)
  | ErrWrap (msg : string) (cause : error)
  | ErrAgent (Category NodeID : string) (Cause : option error) (RetryAfter : Z).

(** The record view of a [*core.AgentError]. *)
Record AgentError := mkAgentError {
  ae_Category : string;
  ae_NodeID : string;
  ae_Cause : option error;
  ae_RetryAfter : Duration;
}.

Definition agent_error (ae : AgentError) : error :=
  ErrAgent (ae_Category ae) (ae_NodeID ae) (ae_Cause ae) (ae_RetryAfter ae).

(** [errors.As(err, &ae)] for [ae] a [*core.AgentError]: the first agent error
    of the chain. *)
Fixpoint errors_As (e : error) : option AgentError :=
  match e with
  | ErrNew _ => None
  | ErrWrap _ c => errors_As c
  | ErrAgent c n cause r => Some (mkAgentError c n cause r)
  end.

(** [errors.Is(err, target)] for a sentinel [target]. *)
Fixpoint errors_Is (e target : error) : bool :=
  match e, target with
  | ErrNew m, ErrNew m' => String.eqb m m'
  | ErrWrap _ c, _ => errors_Is c target
  | ErrAgent _ _ (Some c) _, _ => errors_Is c target
  | _, _ => false
  end.

(** The type assertion of [err] to [*core.AgentError]: the error itself, not its chain. *)
Definition assert_AgentError (e : error) : option AgentError :=
  match e with
  | ErrAgent c n cause r => Some (mkAgentError c n cause r)
  | _ => None
  end.

#[export] Instance error_eq_dec : EqDecision error.
Proof.
  refine (fix go (e1 e2 : error) {struct e1} : Decision (e1 = e2) :=
    match e1, e2 with
    | ErrNew m1, ErrNew m2 => cast_if (decide (m1 = m2))
    | ErrWrap m1 c1, ErrWrap m2 c2 => cast_if_and (decide (m1 = m2)) (go c1 c2)
    | ErrAgent k1 n1 (Some c1) r1, ErrAgent k2 n2 (Some c2) r2 =>
        cast_if_and4 (decide (k1 = k2)) (decide (n1 = n2)) (decide (r1 = r2)) (go c1 c2)
    | ErrAgent k1 n1 None r1, ErrAgent k2 n2 None r2 =>
        cast_if_and3 (decide (k1 = k2)) (decide (n1 = n2)) (decide (r1 = r2))
    | _, _ => right _
    end); clear go; abstract congruence.
Defined.

(** ** Dynamic values

    The Go values the program stores in an [any]. [AToolCall] is a
    [*core.ToolCallPart], [APlan] a [*planner.Plan] (a location in the store of
    plans), [ATools] an [[]interfaces.Tool] (the tools named by handles),
    [AUsage] a value of the type [usage] that is local to
    [TokenCounterHook.OnHook], [ATimeText] the string that is the RFC 3339
    text of an instant, [AOther] a value of a type that [encoding/json]
    refuses (a function, a channel). *)
Inductive any : Type :=
  | ANil
  | ABool (b : bool)
  | AInt (z : Z)
  | AFloat (f : float64)
  | AString (s : string)
  | ATimeText (t : Z)
  | AList (l : list any)
  | AStrings (l : list string)
  | AMap (m : list (string * any))
  | AToolCall (CallID ToolName : string) (Arguments : list (string * any))
  | APlan (l : nat)
  | ATools (l : list nat)
  | AUsage (In Out : Z)
  | AOther (ty : string).

(** [map[string]any] used only by key. *)
Definition amap := list (string * any).

(** The induction principle that goes through the nested lists. *)
Section any_ind.
Variable P : any -> Prop.
Hypothesis Hnil : P ANil.
Hypothesis Hbool : forall b, P (ABool b).
Hypothesis Hint : forall z, P (AInt z).
Hypothesis Hfloat : forall f, P (AFloat f).
Hypothesis Hstring : forall s, P (AString s).
Hypothesis Htime : forall t, P (ATimeText t).
Hypothesis Hlist : forall l, Forall P l -> P (AList l).
Hypothesis Hstrings : forall l, P (AStrings l).
Hypothesis Hmap : forall m, Forall (fun kv => P kv.2) m -> P (AMap m).
Hypothesis Hcall : forall c t m, Forall (fun kv => P kv.2) m -> P (AToolCall c t m).
Hypothesis Hplan : forall l, P (APlan l).
Hypothesis Htools : forall l, P (ATools l).
Hypothesis Husage : forall i o, P (AUsage i o).
Hypothesis Hother : forall t, P (AOther t).

Fixpoint any_nested_ind (v : any) : P v :=
  let entries :=
    fix go (m : list (string * any)) : Forall (fun kv => P kv.2) m :=
      match m with
      | [] => Forall_nil_2 _
      | kv :: m' => Forall_cons_2 _ kv m' (any_nested_ind kv.2) (go m')
      end in
  match v with
  | ANil => Hnil
  | ABool b => Hbool b
  | AInt z => Hint z
  | AFloat f => Hfloat f
  | AString s => Hstring s
  | ATimeText t => Htime t
  | AList l =>
      Hlist l ((fix go (l : list any) : Forall P l :=
        match l with
        | [] => Forall_nil_2 _
        | x :: l' => Forall_cons_2 _ x l' (any_nested_ind x) (go l')
        end) l)
  | AStrings l => Hstrings l
  | AMap m => Hmap m (entries m)
  | AToolCall c t m => Hcall c t m (entries m)
  | APlan l => Hplan l
  | ATools l => Htools l
  | AUsage i o => Husage i o
  | AOther t => Hother t
  end.
End any_ind.

(** The comma-ok assertion [v.(string)] on a map read: [""] when the key is
    missing or holds another type. *)
Definition as_string (v : option any) : option string :=
  match v with Some (AString s) => Some s | _ => None end.

Definition string_or_empty (v : option any) : string :=
  match as_string v with Some s => s | None => "" end.

(** ** Contexts

    A context is the list of its [WithValue] layers, innermost first. A key is
    compared with its type: the untyped string ["tenantID"] and the
    [core.ContextKey] ["tenant_id"] are different keys. *)
Inductive ctx_key := KString (s : string) | KContextKey (s : string).

#[export] Instance ctx_key_eq_dec : EqDecision ctx_key.
Proof. solve_decision. Defined.

Definition context := list (ctx_key * any).

Definition Background : context := [].

Definition WithValue (ctx : context) (k : ctx_key) (v : any) : context := (k, v) :: ctx.

(** [ctx.Value(k)]. *)
Fixpoint ctx_Value (ctx : context) (k : ctx_key) : option any :=
  match ctx with
  | [] => None
  | (k', v) :: ctx' => if decide (k = k') then Some v else ctx_Value ctx' k
  end.

Lemma ctx_Value_WithValue_eq ctx k v : ctx_Value (WithValue ctx k v) k = Some v.
Proof. simpl. by rewrite decide_True. Qed.

Lemma ctx_Value_WithValue_ne ctx k k' v :
  k <> k' -> ctx_Value (WithValue ctx k' v) k = ctx_Value ctx k.
Proof. intros. simpl. by rewrite decide_False. Qed.
