(* ===== verification/Core.v ===== *)
(** * Package core: the domain vocabulary

    The data every package shares ([core/part.go], [core/message.go],
    [core/artifact.go], [core/agent_state.go], [core/task.go],
    [core/errors.go]) and the pure part of their operations. The pointer part
    of [AgentState] (its cells and their sharing) is in [World.v]. *)

From S2P Require Import Prelude GoLang.
From stdpp Require Import base gmap strings list.
From Stdlib Require Import SpecFloat.

(** ** core/part.go *)

(** [PartType] is an open string type: a decoded message may hold any text. *)
Definition PartType := string.

Definition PartTypeText : PartType := "Text".

Definition PartTypeFile : PartType := "File".

Definition PartTypeStructuredData : PartType := "StructuredData".

Definition PartTypeToolCall : PartType := "ToolCall".

Definition PartTypeToolResult : PartType := "ToolResult".

Record FileRef := mkFileRef { URI : string; MIMEType : string }.

Record ToolCallPart := mkToolCallPart {
  tc_CallID : string;
  tc_ToolName : string;
  tc_Arguments : option amap;
}.

(** The arguments as a reader of keys sees them: a nil map has none. *)
Definition tc_args (c : ToolCallPart) : amap := default [] (tc_Arguments c).

Record ToolResultPart := mkToolResultPart {
  tr_CallID : string;
  tr_Result : string;
  tr_IsError : bool;
}.

Record Part := mkPart {
  part_Type : PartType;
  part_Text : string;
  part_File : option FileRef;
  part_StructuredData : amap;
  part_ToolCall : option ToolCallPart;
  part_ToolResult : option ToolResultPart;
}.

(** [core.Part{}]. *)
Definition zero_Part : Part := mkPart "" "" None [] None None.

(** [core.Part{Type: PartTypeText, Text: t}]. *)
Definition text_part (t : string) : Part := mkPart PartTypeText t None [] None None.

Definition tool_call_part (c : ToolCallPart) : Part :=
  mkPart PartTypeToolCall "" None [] (Some c) None.

Definition tool_result_part (r : ToolResultPart) : Part :=
  mkPart PartTypeToolResult "" None [] None (Some r).

(** ** core/message.go *)

Definition Role := string.

Definition RoleUser : Role := "User".

Definition RoleAssistant : Role := "Assistant".

Definition RoleSystem : Role := "System".

Definition RoleTool : Role := "Tool".

Definition ErrInvalidMessageParts : error := ErrNew "invalid message parts for role".

(** [time.Time{}], the first instant of year 1, in nanoseconds of Unix time. *)
Definition zero_Time : Z := (-62135596800000000000)%Z.

(** [Message]; the timestamp is the instant in nanoseconds. *)
Record Message := mkMessage {
  msg_ID : string;
  msg_Role : Role;
  msg_Parts : list Part;
  msg_Timestamp : Z;
  msg_Metadata : amap;
  msg_ContextID : string;
  msg_TaskID : string;
}.

Definition zero_Message : Message := mkMessage "" "" [] zero_Time [] "" "".

(** [core.Message{Role: r, Parts: ps}]. *)
Definition message (r : Role) (ps : list Part) : Message := mkMessage "" r ps zero_Time [] "" "".

(** The test of one part in the loop of [Validate]: [true] when the [switch]
    returns the error. *)
Definition part_rejected (r : Role) (p : Part) : bool :=
  if decide (r = RoleTool) then bool_decide (part_Type p <> PartTypeToolResult)
  else if decide (r = RoleAssistant) then bool_decide (part_Type p = PartTypeToolResult)
  else if decide (r = RoleSystem) then bool_decide (part_Type p <> PartTypeText)
  else if decide (r = RoleUser) then
    bool_decide (part_Type p = PartTypeToolCall) || bool_decide (part_Type p = PartTypeToolResult)
  else false.

Fixpoint validate_parts (r : Role) (ps : list Part) : option error :=
  match ps with
  | [] => None
  | p :: ps' => if part_rejected r p then Some ErrInvalidMessageParts else validate_parts r ps'
  end.

Definition Validate (m : Message) : option error := validate_parts (msg_Role m) (msg_Parts m).

(** ** core/artifact.go *)

Record Artifact := mkArtifact {
  art_ID : string;
  art_Name : string;
  art_Parts : list Part;
  art_Metadata : amap;
}.

Definition AppendPart (a : Artifact) (p : Part) : Artifact :=
  mkArtifact (art_ID a) (art_Name a) (art_Parts a ++ [p]) (art_Metadata a).

Definition ReplaceParts (a : Artifact) (ps : list Part) : Artifact :=
  mkArtifact (art_ID a) (art_Name a) ps (art_Metadata a).

(** ** core/agent_state.go *)

Definition AgentStatus := string.

Definition StatusRunning : AgentStatus := "Running".

Definition StatusPaused : AgentStatus := "Paused".

Definition StatusWaitingHuman : AgentStatus := "WaitingHuman".

Definition StatusCompleted : AgentStatus := "Completed".

Definition StatusFailed : AgentStatus := "Failed".

Definition ErrVariableNotFound : error := ErrNew "variable not found or type mismatch".

(** The struct; [Variables] is [None] for the nil map. *)
Record AgentState := mkAgentState {
  Messages : list Message;
  Variables : option (gmap string any);
  Artifacts : list Artifact;
  StepCount : Z;
  RetryCount : Z;
  LastNodeID : string;
  Status : AgentStatus;
  CheckpointID : string;
  TaskID : string;
  ContextID : string;
}.

(** [core.AgentState{}]. *)
Definition zero_AgentState : AgentState := mkAgentState [] None [] 0 0 "" "" "" "" "".

(** [NewState]. *)
Definition NewState : AgentState :=
  mkAgentState [] (Some ∅) [] 0 0 "" StatusRunning "" "" "".

(** The map read of [state.Variables[key]]: reading a nil map finds nothing. *)
Definition var_get (s : AgentState) (key : string) : option any :=
  match Variables s with Some m => m !! key | None => None end.

(** [clone]: every slice and the map are copied, so a nil map becomes an empty
    one. *)
Definition clone (s : AgentState) : AgentState :=
  mkAgentState (Messages s) (Some (default ∅ (Variables s))) (Artifacts s)
    (StepCount s) (RetryCount s) (LastNodeID s) (Status s) (CheckpointID s) (TaskID s)
    (ContextID s).

(** Field assignments [s.F = v] on the struct. *)
Definition set_Messages (v : list Message) (s : AgentState) : AgentState :=
  mkAgentState v (Variables s) (Artifacts s) (StepCount s) (RetryCount s) (LastNodeID s)
    (Status s) (CheckpointID s) (TaskID s) (ContextID s).

Definition set_Variables (v : option (gmap string any)) (s : AgentState) : AgentState :=
  mkAgentState (Messages s) v (Artifacts s) (StepCount s) (RetryCount s) (LastNodeID s)
    (Status s) (CheckpointID s) (TaskID s) (ContextID s).

Definition set_Artifacts (v : list Artifact) (s : AgentState) : AgentState :=
  mkAgentState (Messages s) (Variables s) v (StepCount s) (RetryCount s) (LastNodeID s)
    (Status s) (CheckpointID s) (TaskID s) (ContextID s).

Definition set_StepCount (v : Z) (s : AgentState) : AgentState :=
  mkAgentState (Messages s) (Variables s) (Artifacts s) v (RetryCount s) (LastNodeID s)
    (Status s) (CheckpointID s) (TaskID s) (ContextID s).

Definition set_LastNodeID (v : string) (s : AgentState) : AgentState :=
  mkAgentState (Messages s) (Variables s) (Artifacts s) (StepCount s) (RetryCount s) v
    (Status s) (CheckpointID s) (TaskID s) (ContextID s).

Definition set_Status (v : AgentStatus) (s : AgentState) : AgentState :=
  mkAgentState (Messages s) (Variables s) (Artifacts s) (StepCount s) (RetryCount s)
    (LastNodeID s) v (CheckpointID s) (TaskID s) (ContextID s).

Definition set_TaskID (v : string) (s : AgentState) : AgentState :=
  mkAgentState (Messages s) (Variables s) (Artifacts s) (StepCount s) (RetryCount s)
    (LastNodeID s) (Status s) (CheckpointID s) v (ContextID s).

Definition set_ContextID (v : string) (s : AgentState) : AgentState :=
  mkAgentState (Messages s) (Variables s) (Artifacts s) (StepCount s) (RetryCount s)
    (LastNodeID s) (Status s) (CheckpointID s) (TaskID s) v.

(** The snapshots the copying methods build. *)
Definition with_message (m : Message) (s : AgentState) : AgentState :=
  let ns := clone s in set_Messages (Messages ns ++ [m]) ns.

Definition with_variable (key : string) (val : any) (s : AgentState) : AgentState :=
  let ns := clone s in set_Variables ((<[key := val]>) <$> Variables ns) ns.

Definition with_status (status : AgentStatus) (s : AgentState) : AgentState :=
  set_Status status (clone s).

(** The loop [for k, v := range injection { state = state.WithVariable(k, v) }]
    over one order of the keys. *)
Definition with_variables (kvs : list (string * any)) (s : AgentState) : AgentState :=
  foldl (fun s kv => with_variable kv.1 kv.2 s) s kvs.

Definition LastMessage (s : AgentState) : Message :=
  match last (Messages s) with Some m => m | None => zero_Message end.

(** [GetStringVariable]: the string, or the error. *)
Definition GetStringVariable (s : AgentState) (key : string) : string + error :=
  match var_get s key with
  | None => inr ErrVariableNotFound
  | Some v =>
      match as_string (Some v) with
      | None => inr ErrVariableNotFound
      | Some str => inl str
      end
  end.

(** ** core/task.go *)

Definition TaskState := string.

Definition TaskStateSubmitted : TaskState := "submitted".

Definition TaskStateWorking : TaskState := "working".

Definition TaskStateInputRequired : TaskState := "input_required".

Definition TaskStateAuthRequired : TaskState := "auth_required".

Definition TaskStateCompleted : TaskState := "completed".

Definition TaskStateFailed : TaskState := "failed".

Definition TaskStateCanceled : TaskState := "canceled".

Definition TaskStateRejected : TaskState := "rejected".

Record WebhookConfig := mkWebhookConfig {
  wh_ID : string;
  wh_URL : string;
  wh_Secret : string;
  wh_EventTypes : list string;
  wh_Headers : list (string * string);
}.

Record TaskStatus := mkTaskStatus {
  ts_State : TaskState;
  ts_Timestamp : Z;
  ts_Message : string;
}.

Record Task := mkTask {
  task_ID : string;
  task_ContextID : string;
  task_TenantID : string;
  task_Status : TaskStatus;
  task_History : list Message;
  task_Artifacts : list Artifact;
  task_Webhooks : list WebhookConfig;
  task_Metadata : amap;
  task_CreatedAt : Z;
  task_UpdatedAt : Z;
}.

Definition MapAgentStatusToTaskState (s : AgentStatus) : TaskState :=
  if decide (s = StatusRunning) then TaskStateWorking
  else if decide (s = StatusPaused) then TaskStateInputRequired
  else if decide (s = StatusWaitingHuman) then TaskStateInputRequired
  else if decide (s = StatusCompleted) then TaskStateCompleted
  else if decide (s = StatusFailed) then TaskStateFailed
  else TaskStateWorking.

(** ** core/errors.go *)

Definition ErrCategoryRetriable : string := "Retriable".

Definition ErrCategoryFatal : string := "Fatal".

Definition ErrCategoryHumanNeeded : string := "HumanNeeded".

Definition ErrCategoryStateCorrupt : string := "StateCorrupted".

Definition NewRetriableError (nodeID : string) (cause : error) (retryAfter : Duration) : error :=
  ErrAgent ErrCategoryRetriable nodeID (Some cause) retryAfter.

Definition NewFatalError (nodeID : string) (cause : option error) : error :=
  ErrAgent ErrCategoryFatal nodeID cause 0.

(** [err.Error()]. *)
Fixpoint Error (e : error) : string :=
  match e with
  | ErrNew m => m
  | ErrWrap m _ => m
  | ErrAgent c n (Some cause) _ => "[" +:+ c +:+ "] Node " +:+ n +:+ ": " +:+ Error cause
  | ErrAgent c n None _ => "[" +:+ c +:+ "] Node " +:+ n +:+ ": unknown error"
  end.

(** [errors.Unwrap]. *)
Definition Unwrap (e : error) : option error :=
  match e with
  | ErrNew _ => None
  | ErrWrap _ c => Some c
  | ErrAgent _ _ cause _ => cause
  end.

(** ** Lemmas *)

Lemma part_rejected_user p :
  part_rejected RoleUser p =
  bool_decide (part_Type p = PartTypeToolCall) || bool_decide (part_Type p = PartTypeToolResult).
Proof. done. Qed.

Lemma validate_parts_ok r ps :
  validate_parts r ps = None <-> Forall (fun p => part_rejected r p = false) ps.
Proof.
  induction ps as [|p ps IH]; simpl.
  - split; [constructor | done].
  - rewrite Forall_cons. destruct (part_rejected r p).
    + split; [done | by intros [? _]].
    + rewrite IH. naive_solver.
Qed.

Lemma validate_parts_cases r ps :
  validate_parts r ps = None \/ validate_parts r ps = Some ErrInvalidMessageParts.
Proof. induction ps as [|p ps IH]; simpl; [auto | destruct (part_rejected r p); auto]. Qed.

Lemma var_get_clone s key : var_get (clone s) key = var_get s key.
Proof. unfold var_get. simpl. by destruct (Variables s). Qed.

Lemma var_get_with_variable s k v key :
  var_get (with_variable k v s) key = if decide (k = key) then Some v else var_get s key.
Proof.
  unfold var_get, with_variable. simpl. rewrite lookup_insert.
  case_decide; [done|]. by destruct (Variables s).
Qed.

Lemma clone_clone s : clone (clone s) = clone s.
Proof. done. Qed.

(** Setting variables one after the other: the order of two different keys does
    not matter. *)
Lemma with_variable_comm s k1 v1 k2 v2 :
  k1 <> k2 ->
  with_variable k1 v1 (with_variable k2 v2 s) = with_variable k2 v2 (with_variable k1 v1 s).
Proof.
  intros Hne. unfold with_variable, clone, set_Variables. simpl.
  by rewrite insert_insert_ne.
Qed.

Lemma with_variables_swap kv1 kv2 kvs s :
  kv1.1 <> kv2.1 ->
  with_variables (kv1 :: kv2 :: kvs) s = with_variables (kv2 :: kv1 :: kvs) s.
Proof. intros. unfold with_variables. simpl. by rewrite with_variable_comm. Qed.

Lemma var_get_with_variables kvs s key :
  NoDup kvs.*1 ->
  var_get (with_variables kvs s) key =
  match alookup key kvs with Some v => Some v | None => var_get s key end.
Proof.
  revert s. induction kvs as [|[k v] kvs IH]; intros s Hnd; [done|].
  apply NoDup_cons in Hnd as [Hk Hnd].
  change (with_variables ((k, v) :: kvs) s) with (with_variables kvs (with_variable k v s)).
  rewrite IH by done. simpl. rewrite var_get_with_variable.
  destruct (String.eqb_spec key k) as [->|Hd].
  - by rewrite (alookup_not_elem k kvs Hk), decide_True by done.
  - by rewrite decide_False by done.
Qed.
