(* ===== verification/Json.v ===== *)
(** * encoding/json as the stores use it

    Documents are trees. [marshal_*] is [json.Marshal] on the program's types,
    [unmarshal_*] is [json.Unmarshal] into them; both follow the struct tags of
    [core/*.go]. A number written from an [int] is [JInt], one written from a
    [float64] is [JFloat]; either decodes into an [any] as a [float64]. [JTime]
    is a string that holds the RFC 3339 text of an instant. The text layer
    below the trees is not modelled: strings are valid UTF-8, the keys of an
    object are distinct, and a nil slice or nil map of an [amap] reads back as
    the empty one. *)

From S2P Require Import Prelude GoLang Core.
From stdpp Require Import base gmap strings list fin_maps.
From Stdlib Require Import SpecFloat.

Inductive json : Type :=
  | JNull
  | JBool (b : bool)
  | JInt (z : Z)
  | JFloat (f : float64)
  | JString (s : string)
  | JTime (t : Z)
  | JArr (l : list json)
  | JObj (m : list (string * json)).

Section json_ind.
Variable P : json -> Prop.
Hypothesis Hnull : P JNull.
Hypothesis Hbool : forall b, P (JBool b).
Hypothesis Hint : forall z, P (JInt z).
Hypothesis Hfloat : forall f, P (JFloat f).
Hypothesis Hstring : forall s, P (JString s).
Hypothesis Htime : forall t, P (JTime t).
Hypothesis Harr : forall l, Forall P l -> P (JArr l).
Hypothesis Hobj : forall m, Forall (fun kv => P kv.2) m -> P (JObj m).

Fixpoint json_nested_ind (j : json) : P j :=
  match j with
  | JNull => Hnull
  | JBool b => Hbool b
  | JInt z => Hint z
  | JFloat f => Hfloat f
  | JString s => Hstring s
  | JTime t => Htime t
  | JArr l =>
      Harr l ((fix go (l : list json) : Forall P l :=
        match l with
        | [] => Forall_nil_2 _
        | x :: l' => Forall_cons_2 _ x l' (json_nested_ind x) (go l')
        end) l)
  | JObj m =>
      Hobj m ((fix go (m : list (string * json)) : Forall (fun kv => P kv.2) m :=
        match m with
        | [] => Forall_nil_2 _
        | kv :: m' => Forall_cons_2 _ kv m' (json_nested_ind kv.2) (go m')
        end) m)
  end.
End json_ind.

(** ** Encoding *)

(** Encodes the values of an object and keeps the keys. *)
Definition keyed {A B} (f : A -> option B) (kv : string * A) : option (string * B) :=
  match f kv.2 with Some j => Some (kv.1, j) | None => None end.

Section marshal.
(** The document of the plan a [*planner.Plan] points to. *)
Context (plan_json : nat -> option json).

(** A number must be finite, a function or a channel is an
    [UnsupportedTypeError]. The tools of an [[]interfaces.Tool] have no exported
    field: each encodes as the empty object. *)
Fixpoint marshal_any (v : any) : option json :=
  match v with
  | ANil => Some JNull
  | ABool b => Some (JBool b)
  | AInt z => Some (JInt z)
  | AFloat f => if float_finite f then Some (JFloat f) else None
  | AString s => Some (JString s)
  | ATimeText t => Some (JTime t)
  | AList l => JArr <$> all_some (map marshal_any l)
  | AStrings l => Some (JArr (map JString l))
  | AMap m =>
      JObj <$> all_some (map (fun kv => keyed (fun v => v) (kv.1, marshal_any kv.2)) m)
  | AToolCall c t m =>
      (fun args => JObj [("CallID", JString c); ("ToolName", JString t); ("Arguments", JObj args)])
      <$> all_some (map (fun kv => keyed (fun v => v) (kv.1, marshal_any kv.2)) m)
  | APlan l => plan_json l
  | ATools l => Some (JArr (map (fun _ => JObj []) l))
  | AUsage i o => Some (JObj [("In", JInt i); ("Out", JInt o)])
  | AOther _ => None
  end.

Definition marshal_amap (m : amap) : option json :=
  JObj <$> all_some (keyed marshal_any <$> m).

Definition marshal_FileRef (f : FileRef) : json :=
  JObj [("URI", JString (URI f)); ("MIMEType", JString (MIMEType f))].

(** A map that may be nil. *)
Definition marshal_Arguments (args : option amap) : option json :=
  match args with Some m => marshal_amap m | None => Some JNull end.

Definition marshal_ToolCallPart (c : ToolCallPart) : option json :=
  match marshal_Arguments (tc_Arguments c) with
  | Some a =>
      Some (JObj [("CallID", JString (tc_CallID c)); ("ToolName", JString (tc_ToolName c));
                  ("Arguments", a)])
  | None => None
  end.

Definition marshal_ToolResultPart (r : ToolResultPart) : json :=
  JObj [("CallID", JString (tr_CallID r)); ("Result", JString (tr_Result r));
        ("IsError", JBool (tr_IsError r))].

(** A field with [omitempty]: absent when it has the empty value. *)
Definition omitempty (empty : bool) (key : string) (v : option json) : option (list (string * json)) :=
  if empty then Some [] else match v with Some j => Some [(key, j)] | None => None end.

Definition str_empty (s : string) : bool := bool_decide (s = "").

Definition is_None {A} (o : option A) : bool := match o with None => true | Some _ => false end.

Definition is_nil {A} (l : list A) : bool := match l with [] => true | _ => false end.

Definition marshal_Part (p : Part) : option json :=
  match
    omitempty (is_nil (part_StructuredData p)) "StructuredData"
      (marshal_amap (part_StructuredData p)),
    omitempty (is_None (part_ToolCall p)) "ToolCall"
      (match part_ToolCall p with Some c => marshal_ToolCallPart c | None => Some JNull end)
  with
  | Some sd, Some tc =>
      Some (JObj (
        [("Type", JString (part_Type p))]
        ++ (if str_empty (part_Text p) then [] else [("Text", JString (part_Text p))])
        ++ (match part_File p with Some f => [("File", marshal_FileRef f)] | None => [] end)
        ++ sd ++ tc
        ++ (match part_ToolResult p with
            | Some r => [("ToolResult", marshal_ToolResultPart r)]
            | None => [] end)))
  | _, _ => None
  end.

Definition marshal_list {A} (f : A -> option json) (l : list A) : option json :=
  JArr <$> all_some (f <$> l).

Definition marshal_Message (m : Message) : option json :=
  match marshal_list marshal_Part (msg_Parts m), marshal_amap (msg_Metadata m) with
  | Some ps, Some md =>
      Some (JObj [("ID", JString (msg_ID m)); ("Role", JString (msg_Role m)); ("Parts", ps);
                  ("Timestamp", JTime (msg_Timestamp m)); ("Metadata", md);
                  ("ContextID", JString (msg_ContextID m)); ("TaskID", JString (msg_TaskID m))])
  | _, _ => None
  end.

Definition marshal_Artifact (a : Artifact) : option json :=
  match marshal_list marshal_Part (art_Parts a), marshal_amap (art_Metadata a) with
  | Some ps, Some md =>
      Some (JObj [("ID", JString (art_ID a)); ("Name", JString (art_Name a)); ("Parts", ps);
                  ("Metadata", md)])
  | _, _ => None
  end.

(** [map[string]any] with the nil map written [null]. *)
Definition marshal_Variables (vs : option (gmap string any)) : option json :=
  match vs with
  | None => Some JNull
  | Some m => marshal_amap (map_to_list m)
  end.

(** [json.Marshal(state)]: [AgentState] has no tags, the keys are the field
    names. *)
Definition marshal_AgentState (s : AgentState) : option json :=
  match
    marshal_list marshal_Message (Messages s), marshal_Variables (Variables s),
    marshal_list marshal_Artifact (Artifacts s)
  with
  | Some ms, Some vs, Some arts =>
      Some (JObj [("Messages", ms); ("Variables", vs); ("Artifacts", arts);
                  ("StepCount", JInt (StepCount s)); ("RetryCount", JInt (RetryCount s));
                  ("LastNodeID", JString (LastNodeID s)); ("Status", JString (Status s));
                  ("CheckpointID", JString (CheckpointID s)); ("TaskID", JString (TaskID s));
                  ("ContextID", JString (ContextID s))])
  | _, _, _ => None
  end.
End marshal.

(** ** Decoding *)

(** Decoding into an [any]. *)
Fixpoint unmarshal_any (j : json) : any :=
  match j with
  | JNull => ANil
  | JBool b => ABool b
  | JInt z => AFloat (float_of_Z z)
  | JFloat f => AFloat f
  | JString s => AString s
  | JTime t => ATimeText t
  | JArr l => AList (map unmarshal_any l)
  | JObj m => AMap (map (fun kv => (kv.1, unmarshal_any kv.2)) m)
  end.

(** A struct field: a missing key or [null] leaves the zero value. *)
Definition field {A} (zero : A) (dec : json -> option A) (key : string)
    (m : list (string * json)) : option A :=
  match alookup key m with
  | None => Some zero
  | Some JNull => Some zero
  | Some j => dec j
  end.

Definition dec_string (j : json) : option string :=
  match j with JString s => Some s | _ => None end.

Definition dec_int (j : json) : option Z :=
  match j with JInt z => Some z | _ => None end.

Definition dec_bool (j : json) : option bool :=
  match j with JBool b => Some b | _ => None end.

Definition dec_time (j : json) : option Z :=
  match j with JTime t => Some t | _ => None end.

Definition dec_amap (j : json) : option amap :=
  match j with
  | JObj m => Some ((fun kv => (kv.1, unmarshal_any kv.2)) <$> m)
  | _ => None
  end.

Definition dec_list {A} (dec : json -> option A) (j : json) : option (list A) :=
  match j with JArr l => all_some (dec <$> l) | _ => None end.

Definition dec_FileRef (j : json) : option FileRef :=
  match j with
  | JObj m =>
      match field "" dec_string "URI" m, field "" dec_string "MIMEType" m with
      | Some u, Some t => Some (mkFileRef u t)
      | _, _ => None
      end
  | _ => None
  end.

(** Decoding into a pointer or a map that may be nil. *)
Definition dec_ptr {A} (dec : json -> option A) (j : json) : option (option A) := Some <$> dec j.

Definition dec_ToolCallPart (j : json) : option ToolCallPart :=
  match j with
  | JObj m =>
      match field "" dec_string "CallID" m, field "" dec_string "ToolName" m,
            field None (dec_ptr dec_amap) "Arguments" m with
      | Some c, Some t, Some a => Some (mkToolCallPart c t a)
      | _, _, _ => None
      end
  | _ => None
  end.

Definition dec_ToolResultPart (j : json) : option ToolResultPart :=
  match j with
  | JObj m =>
      match field "" dec_string "CallID" m, field "" dec_string "Result" m,
            field false dec_bool "IsError" m with
      | Some c, Some r, Some e => Some (mkToolResultPart c r e)
      | _, _, _ => None
      end
  | _ => None
  end.

Definition dec_Part (j : json) : option Part :=
  match j with
  | JObj m =>
      match field "" dec_string "Type" m, field "" dec_string "Text" m,
            field None (dec_ptr dec_FileRef) "File" m, field [] dec_amap "StructuredData" m,
            field None (dec_ptr dec_ToolCallPart) "ToolCall" m,
            field None (dec_ptr dec_ToolResultPart) "ToolResult" m with
      | Some ty, Some tx, Some f, Some sd, Some tc, Some tr => Some (mkPart ty tx f sd tc tr)
      | _, _, _, _, _, _ => None
      end
  | _ => None
  end.

Definition dec_Message (j : json) : option Message :=
  match j with
  | JObj m =>
      match field "" dec_string "ID" m, field "" dec_string "Role" m,
            field [] (dec_list dec_Part) "Parts" m, field zero_Time dec_time "Timestamp" m,
            field [] dec_amap "Metadata" m, field "" dec_string "ContextID" m,
            field "" dec_string "TaskID" m with
      | Some i, Some r, Some ps, Some t, Some md, Some c, Some tk =>
          Some (mkMessage i r ps t md c tk)
      | _, _, _, _, _, _, _ => None
      end
  | _ => None
  end.

Definition dec_Artifact (j : json) : option Artifact :=
  match j with
  | JObj m =>
      match field "" dec_string "ID" m, field "" dec_string "Name" m,
            field [] (dec_list dec_Part) "Parts" m, field [] dec_amap "Metadata" m with
      | Some i, Some n, Some ps, Some md => Some (mkArtifact i n ps md)
      | _, _, _, _ => None
      end
  | _ => None
  end.

Definition dec_Variables (j : json) : option (option (gmap string any)) :=
  match dec_amap j with Some m => Some (Some (list_to_map m)) | None => None end.

(** [json.Unmarshal(data, &state)]. *)
Definition unmarshal_AgentState (j : json) : option AgentState :=
  match j with
  | JObj m =>
      match field [] (dec_list dec_Message) "Messages" m, field None dec_Variables "Variables" m,
            field [] (dec_list dec_Artifact) "Artifacts" m, field 0%Z dec_int "StepCount" m,
            field 0%Z dec_int "RetryCount" m, field "" dec_string "LastNodeID" m,
            field "" dec_string "Status" m, field "" dec_string "CheckpointID" m,
            field "" dec_string "TaskID" m, field "" dec_string "ContextID" m with
      | Some ms, Some vs, Some arts, Some sc, Some rc, Some ln, Some st, Some ck, Some tk, Some cx =>
          Some (mkAgentState ms vs arts sc rc ln st ck tk cx)
      | _, _, _, _, _, _, _, _, _, _ => None
      end
  | _ => None
  end.

(** ** What a round trip does to a value

    The values a document can hold: the ones that survive a save and a load. *)
Fixpoint json_native (v : any) : bool :=
  match v with
  | ANil | ABool _ | AString _ | ATimeText _ => true
  | AFloat f => float_finite f
  | AList l => forallb json_native l
  | AMap m => forallb (fun kv => json_native kv.2) m
  | _ => false
  end.

(** All the numbers of a document are finite. *)
Fixpoint json_finite (j : json) : bool :=
  match j with
  | JFloat f => float_finite f
  | JInt z => float_finite (float_of_Z z)
  | JArr l => forallb json_finite l
  | JObj m => forallb (fun kv => json_finite kv.2) m
  | _ => true
  end.

Section norm.
Context (plan_json : nat -> option json).

(** A value after a save and a load. *)
Definition norm_any (v : any) : any :=
  match marshal_any plan_json v with Some j => unmarshal_any j | None => v end.

Definition norm_amap (m : amap) : amap := (fun kv => (kv.1, norm_any kv.2)) <$> m.

Definition norm_ToolCallPart (c : ToolCallPart) : ToolCallPart :=
  mkToolCallPart (tc_CallID c) (tc_ToolName c) (norm_amap <$> tc_Arguments c).

Definition norm_Part (p : Part) : Part :=
  mkPart (part_Type p) (part_Text p) (part_File p) (norm_amap (part_StructuredData p))
    (norm_ToolCallPart <$> part_ToolCall p) (part_ToolResult p).

Definition norm_Message (m : Message) : Message :=
  mkMessage (msg_ID m) (msg_Role m) (norm_Part <$> msg_Parts m) (msg_Timestamp m)
    (norm_amap (msg_Metadata m)) (msg_ContextID m) (msg_TaskID m).

Definition norm_Artifact (a : Artifact) : Artifact :=
  mkArtifact (art_ID a) (art_Name a) (norm_Part <$> art_Parts a) (norm_amap (art_Metadata a)).

(** A state after a save and a load: the control fields, the identifiers, the
    roles and the texts are unchanged; the dynamic values are decoded ones. *)
Definition norm_AgentState (s : AgentState) : AgentState :=
  mkAgentState (norm_Message <$> Messages s) ((fun m : gmap string any => norm_any <$> m) <$> Variables s)
    (norm_Artifact <$> Artifacts s) (StepCount s) (RetryCount s) (LastNodeID s) (Status s)
    (CheckpointID s) (TaskID s) (ContextID s).
End norm.

(** ** Lemmas *)

Section lemmas.
Context (plan_json : nat -> option json).

Lemma all_some_decode {A B C} (enc : A -> option B) (dec : B -> option C) (g : A -> C) l bs :
  all_some (enc <$> l) = Some bs ->
  (forall a b, a ∈ l -> enc a = Some b -> dec b = Some (g a)) ->
  all_some (dec <$> bs) = Some (g <$> l).
Proof.
  revert bs. induction l as [|a l IH]; intros bs Henc Hdec; csimpl in Henc; [by simplify_eq|].
  destruct (enc a) as [b|] eqn:Ha; [|done].
  destruct (all_some (enc <$> l)) as [bs'|] eqn:Hl; simplify_eq.
  csimpl. rewrite (Hdec a b) by (done || left).
  rewrite (IH bs' eq_refl); [done|]. intros a' b' Hin. apply Hdec. by right.
Qed.

Lemma norm_any_Some v j : marshal_any plan_json v = Some j -> norm_any plan_json v = unmarshal_any j.
Proof. unfold norm_any. by intros ->. Qed.

Lemma keyed_decode m js :
  all_some (keyed (marshal_any plan_json) <$> m) = Some js ->
  (fun kv => (kv.1, unmarshal_any kv.2)) <$> js = norm_amap plan_json m.
Proof.
  revert js. unfold norm_amap.
  induction m as [|[k v] m IH]; intros js H; csimpl in H; [by simplify_eq|].
  unfold keyed in H at 1. csimpl in H.
  destruct (marshal_any plan_json v) as [j|] eqn:Hv; [|done].
  destruct (all_some _) as [js'|] eqn:Hm; simplify_eq. csimpl.
  by rewrite (norm_any_Some v j Hv), (IH js').
Qed.

Lemma dec_marshal_amap m j :
  marshal_amap plan_json m = Some j -> dec_amap j = Some (norm_amap plan_json m).
Proof.
  unfold marshal_amap. destruct (all_some _) as [js|] eqn:H; simpl; intros; simplify_eq.
  simpl. by rewrite (keyed_decode m js).
Qed.

(** Reading a field that is present with a value that is not [null]. *)
Lemma field_present {A} (zero : A) dec key m j :
  alookup key m = Some j -> j <> JNull -> field zero dec key m = dec j.
Proof. unfold field. intros ->. by destruct j. Qed.

Lemma marshal_amap_obj m j : marshal_amap plan_json m = Some j -> exists o, j = JObj o.
Proof. unfold marshal_amap. destruct (all_some _); simpl; intros; simplify_eq; eauto. Qed.

Lemma dec_marshal_list {A} (enc : A -> option json) (dec : json -> option A) (g : A -> A) l j :
  marshal_list enc l = Some j ->
  (forall a b, a ∈ l -> enc a = Some b -> dec b = Some (g a)) ->
  exists js, j = JArr js /\ dec_list dec j = Some (g <$> l).
Proof.
  unfold marshal_list. destruct (all_some _) as [js|] eqn:H; simpl; intros Hj Hd; simplify_eq.
  exists js. split; [done|]. simpl. eapply all_some_decode; eauto.
Qed.

Lemma dec_marshal_ToolCallPart c j :
  marshal_ToolCallPart plan_json c = Some j ->
  (exists o, j = JObj o) /\ dec_ToolCallPart j = Some (norm_ToolCallPart plan_json c).
Proof.
  unfold marshal_ToolCallPart, dec_ToolCallPart, field. destruct c as [id t [m|]]; cbn -[marshal_amap dec_amap].
  - destruct (marshal_amap plan_json m) as [a|] eqn:Ha; [|done]. intros [= <-]. split; [eauto|].
    destruct (marshal_amap_obj _ _ Ha) as [o ->]. apply dec_marshal_amap in Ha. cbn -[dec_amap].
    unfold dec_ptr. by rewrite Ha.
  - intros [= <-]. split; [eauto | done].
Qed.

Lemma str_empty_true s : str_empty s = true -> s = "".
Proof. unfold str_empty. apply bool_decide_eq_true. Qed.

Lemma dec_marshal_FileRef f : dec_FileRef (marshal_FileRef f) = Some f.
Proof. by destruct f. Qed.

Lemma dec_marshal_ToolResultPart r : dec_ToolResultPart (marshal_ToolResultPart r) = Some r.
Proof. by destruct r. Qed.

Lemma dec_marshal_Part p j :
  marshal_Part plan_json p = Some j -> dec_Part j = Some (norm_Part plan_json p).
Proof.
  destruct p as [ty tx f sd tc tr]. unfold marshal_Part, norm_Part, omitempty. cbn -[marshal_amap].
  destruct (is_nil sd) eqn:Esd; [destruct sd; [|done] | destruct (marshal_amap plan_json sd) eqn:Hsd; [|done]];
  (destruct tc as [c|]; cbn -[marshal_amap]; [destruct (marshal_ToolCallPart plan_json c) eqn:Hc; [|done]|]);
  intros; simplify_eq;
  repeat match goal with
  | H : marshal_ToolCallPart _ _ = Some _ |- _ =>
      apply dec_marshal_ToolCallPart in H as [[? ->] H]
  | H : marshal_amap _ _ = Some _ |- _ =>
      pose proof (marshal_amap_obj _ _ H) as [? ->]; apply dec_marshal_amap in H
  end;
  unfold dec_Part, field, dec_ptr;
  destruct (str_empty tx) eqn:Htx; try (apply str_empty_true in Htx; subst tx);
  destruct f, tr; cbn -[dec_amap dec_ToolCallPart dec_FileRef dec_ToolResultPart
    marshal_FileRef marshal_ToolResultPart];
  rewrite ?Hsd, ?Hc, ?dec_marshal_FileRef, ?dec_marshal_ToolResultPart; done.
Qed.

(** Decodes a struct field by field: the lists and maps with the equations in
    the context, the rest by computation. *)
Ltac dec_fields :=
  repeat match goal with
  | H : marshal_amap _ _ = Some _ |- _ =>
      pose proof (marshal_amap_obj _ _ H) as [? ->]; apply dec_marshal_amap in H
  end;
  unfold field; cbn -[dec_amap dec_list dec_Variables];
  repeat match goal with
  | H : dec_amap _ = Some _ |- _ => rewrite H; clear H
  | H : dec_list _ _ = Some _ |- _ => rewrite H; clear H
  end;
  cbn -[dec_amap dec_list dec_Variables].

Lemma dec_marshal_Parts ps j :
  marshal_list (marshal_Part plan_json) ps = Some j ->
  exists js, j = JArr js /\ dec_list dec_Part j = Some (norm_Part plan_json <$> ps).
Proof. intros H. apply (dec_marshal_list _ _ _ _ _ H). intros. by apply dec_marshal_Part. Qed.

Lemma dec_marshal_Message m j :
  marshal_Message plan_json m = Some j -> dec_Message j = Some (norm_Message plan_json m).
Proof.
  unfold marshal_Message. destruct (marshal_list _ _) as [ps|] eqn:Hps; [|done].
  destruct (marshal_amap _ _) as [md|] eqn:Hmd; [|done]. intros; simplify_eq.
  apply dec_marshal_Parts in Hps as (js & -> & Hps).
  unfold dec_Message. dec_fields. done.
Qed.

Lemma dec_marshal_Artifact a j :
  marshal_Artifact plan_json a = Some j -> dec_Artifact j = Some (norm_Artifact plan_json a).
Proof.
  unfold marshal_Artifact. destruct (marshal_list _ _) as [ps|] eqn:Hps; [|done].
  destruct (marshal_amap _ _) as [md|] eqn:Hmd; [|done]. intros; simplify_eq.
  apply dec_marshal_Parts in Hps as (js & -> & Hps).
  unfold dec_Artifact. dec_fields. done.
Qed.

Lemma norm_amap_map_to_list (m : gmap string any) :
  list_to_map (norm_amap plan_json (map_to_list m)) = norm_any plan_json <$> m.
Proof.
  unfold norm_amap.
  change (fun kv : string * any => (kv.1, norm_any plan_json kv.2))
    with (prod_map (fun k : string => k) (norm_any plan_json)).
  rewrite <- (list_to_map_to_list m) at 2. rewrite list_to_map_fmap. done.
Qed.

Lemma dec_marshal_Variables vs j m :
  marshal_Variables plan_json vs = Some j -> alookup "Variables" m = Some j ->
  field None dec_Variables "Variables" m =
    Some ((fun m : gmap string any => norm_any plan_json <$> m) <$> vs).
Proof.
  intros Hj Hm. unfold field. rewrite Hm. destruct vs as [vs|]; simpl in Hj; simplify_eq; [|done].
  destruct (marshal_amap_obj _ _ Hj) as [o ->]. apply dec_marshal_amap in Hj.
  unfold dec_Variables. rewrite Hj. csimpl. by rewrite norm_amap_map_to_list.
Qed.

Lemma unmarshal_marshal_AgentState s j :
  marshal_AgentState plan_json s = Some j ->
  unmarshal_AgentState j = Some (norm_AgentState plan_json s).
Proof.
  unfold marshal_AgentState. destruct (marshal_list _ (Messages s)) as [ms|] eqn:Hms; [|done].
  destruct (marshal_Variables _ _) as [vs|] eqn:Hvs; [|done].
  destruct (marshal_list _ (Artifacts s)) as [arts|] eqn:Harts; [|done]. intros; simplify_eq.
  destruct (dec_marshal_list _ _ _ _ _ Hms (fun a b _ => dec_marshal_Message a b)) as (js & -> & H1).
  destruct (dec_marshal_list _ _ _ _ _ Harts (fun a b _ => dec_marshal_Artifact a b)) as (js' & -> & H2).
  unfold unmarshal_AgentState. rewrite (dec_marshal_Variables _ _ _ Hvs) by done.
  dec_fields. done.
Qed.

(** Decoding twice is decoding once. *)
Lemma unmarshal_marshal_unmarshal j j' :
  marshal_any plan_json (unmarshal_any j) = Some j' -> unmarshal_any j' = unmarshal_any j.
Proof.
  revert j'. induction j as [| | | | | |l IH|m IH] using json_nested_ind; intros j' H; simpl in *;
    try (case_match; simplify_eq); simplify_eq; try done.
  - destruct (all_some _) as [js|] eqn:Hl; simplify_eq/=. f_equal.
    revert js Hl. induction IH as [|x l Hx _ IHl]; intros js Hl; simpl in Hl; simplify_eq/=; [done|].
    destruct (marshal_any _ _) as [jx|] eqn:Ex; [|done].
    destruct (all_some _) as [js'|] eqn:El; simplify_eq/=. by rewrite (Hx jx), (IHl js').
  - destruct (all_some _) as [js|] eqn:Hl; simplify_eq/=. f_equal.
    revert js Hl. induction IH as [|x l Hx _ IHl]; intros js Hl; simpl in Hl; simplify_eq/=; [done|].
    unfold keyed in Hl at 1. simpl in Hl.
    destruct (marshal_any _ _) as [jx|] eqn:Ex; [|done].
    destruct (all_some _) as [js'|] eqn:El; simplify_eq/=. by rewrite (Hx jx), (IHl js').
Qed.

Lemma norm_any_idemp v : norm_any plan_json (norm_any plan_json v) = norm_any plan_json v.
Proof.
  unfold norm_any at 2 3. destruct (marshal_any plan_json v) as [j|] eqn:Hv.
  - unfold norm_any. case_match eqn:Hj; [|done]. by eapply unmarshal_marshal_unmarshal.
  - unfold norm_any. by rewrite Hv.
Qed.

(** A decodable value is encoded as it is and read back unchanged. *)
Lemma norm_any_native v :
  json_native v = true ->
  is_Some (marshal_any plan_json v) /\ norm_any plan_json v = v.
Proof.
  intros Hn. enough (exists j, marshal_any plan_json v = Some j /\ unmarshal_any j = v) as (j & Hj & Hu).
  { unfold norm_any. rewrite Hj. eauto. }
  induction v using any_nested_ind; simpl in *; try done; try (eexists; split; [done|done]).
  - rewrite Hn. eexists; split; done.
  - rename H into IH.
    assert (exists js, all_some (map (marshal_any plan_json) l) = Some js /\ map unmarshal_any js = l)
      as (js & -> & Hjs).
    { induction IH as [|x l Hx _ IHl]; simpl in *; [by exists []|].
      apply andb_prop in Hn as [H1 H2]. destruct (Hx H1) as (jx & -> & Hjx).
      destruct (IHl H2) as (js & -> & Hjs). exists (jx :: js). simpl. by rewrite Hjx, Hjs. }
    eexists; split; [done|]. simpl. by rewrite Hjs.
  - rename H into IH.
    assert (exists js, all_some (map (fun kv => keyed (fun v => v) (kv.1, marshal_any plan_json kv.2)) m) = Some js
      /\ map (fun kv => (kv.1, unmarshal_any kv.2)) js = m) as (js & -> & Hjs).
    { induction IH as [|[k x] m Hx _ IHl]; simpl in *; [by exists []|].
      apply andb_prop in Hn as [H1 H2]. destruct (Hx H1) as (jx & Hm & Hjx).
      destruct (IHl H2) as (js & -> & Hjs). exists ((k, jx) :: js).
      unfold keyed. simpl. rewrite Hm. simpl. by rewrite Hjx, Hjs. }
    eexists; split; [done|]. simpl. by rewrite Hjs.
Qed.
End lemmas.
