(* ===== verification/Utf8.v ===== *)
(** * Text: the runes of a Go string

    [range] over a string and [strings.Map] walk the runes of its UTF-8
    encoding; a byte that begins no valid encoding is read as U+FFFD and one byte
    is consumed (package [unicode/utf8]). A rune is kept as the text
    [string(r)] that encodes it. *)

From S2P Require Import Prelude.
From stdpp Require Import base strings list.

(** [string(utf8.RuneError)]. *)
Definition rune_error : string :=
  String (Ascii.ascii_of_nat 239) (String (Ascii.ascii_of_nat 191) (String (Ascii.ascii_of_nat 189) "")).

Definition in_bytes (lo hi : nat) (c : Ascii.ascii) : bool :=
  let n := Ascii.nat_of_ascii c in (Nat.leb lo n && Nat.leb n hi)%bool.

(** The ranges of the bytes that follow a first byte; none for a byte that
    begins no encoding. *)
Definition continuation (c : Ascii.ascii) : option (list (nat * nat)) :=
  let n := Ascii.nat_of_ascii c in
  if Nat.ltb n 128 then Some []
  else if Nat.ltb n 194 then None
  else if Nat.ltb n 224 then Some [(128, 191)]
  else if Nat.eqb n 224 then Some [(160, 191); (128, 191)]
  else if Nat.eqb n 237 then Some [(128, 159); (128, 191)]
  else if Nat.ltb n 240 then Some [(128, 191); (128, 191)]
  else if Nat.eqb n 240 then Some [(144, 191); (128, 191); (128, 191)]
  else if Nat.ltb n 244 then Some [(128, 191); (128, 191); (128, 191)]
  else if Nat.eqb n 244 then Some [(128, 143); (128, 191); (128, 191)]
  else None.

(** The bytes of [s] that the ranges accept. *)
Fixpoint accept (ranges : list (nat * nat)) (s : string) : option string :=
  match ranges, s with
  | [], _ => Some ""
  | (lo, hi) :: rs, String c s' =>
      if in_bytes lo hi c then String c <$> accept rs s' else None
  | _, EmptyString => None
  end.

(** [utf8.DecodeRuneInString] on a text that begins with [c]: the text of the
    rune and its width in [s]. *)
Definition decode_rune (c : Ascii.ascii) (s : string) : string * nat :=
  match continuation c ≫= fun rs => accept rs s with
  | Some t => (String c t, S (String.length t))
  | None => (rune_error, 1)
  end.

(** The runes of a text; each takes at least one byte. *)
Fixpoint runes_fuel (fuel : nat) (s : string) : list string :=
  match fuel, s with
  | S f, String c s' =>
      let (r, n) := decode_rune c s' in r :: runes_fuel f (drop_str n s)
  | _, _ => []
  end.

Definition runes (s : string) : list string := runes_fuel (String.length s) s.

Definition concat_str (l : list string) : string := foldr String.append "" l.

(** [utf8.ValidString]. *)
Fixpoint valid_fuel (fuel : nat) (s : string) : bool :=
  match fuel, s with
  | S f, String c s' =>
      match continuation c ≫= fun rs => accept rs s' with
      | Some t => valid_fuel f (drop_str (S (String.length t)) s)
      | None => false
      end
  | _, _ => true
  end.

Definition valid_utf8 (s : string) : bool := valid_fuel (String.length s) s.

(** ** Lemmas *)

#[local] Arguments String.append !s1 s2 /.

Lemma concat_str_app l1 l2 : concat_str (l1 ++ l2) = (concat_str l1 +:+ concat_str l2).
Proof. induction l1 as [|x l1 IH]; simpl; [done | by rewrite IH, append_assoc]. Qed.

Lemma accept_prefix rs s t : accept rs s = Some t -> exists u, s = (t +:+ u).
Proof.
  revert s t. induction rs as [|[lo hi] rs IH]; intros s t; simpl; [intros [= <-]; by exists s|].
  destruct s as [|c s]; [done|]. destruct (in_bytes lo hi c); [|done].
  destruct (accept rs s) as [t'|] eqn:Ht; simpl; [|done]. intros [= <-].
  destruct (IH _ _ Ht) as [u ->]. by exists u.
Qed.

(** The runes of a valid text are a partition of it. *)
Lemma runes_valid s : valid_utf8 s = true -> concat_str (runes s) = s.
Proof.
  unfold valid_utf8, runes. generalize (Nat.le_refl (String.length s)).
  generalize (String.length s) at 2 3 4. intros n. revert s.
  induction n as [|n IH]; intros s Hn Hv; [by destruct s; simpl in *; [|lia]|].
  destruct s as [|c s]; [done|]. cbn [runes_fuel valid_fuel] in *. unfold decode_rune.
  destruct (continuation c ≫= fun rs => accept rs s) as [t|] eqn:Ht; [|done].
  destruct (continuation c) as [rs|]; [|done]. apply accept_prefix in Ht as [u ->].
  cbn [concat_str foldr]. fold (concat_str (runes_fuel n (drop_str (S (String.length t)) (String c (t +:+ u))))).
  cbn [drop_str] in *. rewrite drop_str_append in *. rewrite IH; [done | | done].
  simpl in Hn. rewrite length_append in Hn. lia.
Qed.

(** A text of ASCII bytes is valid and its runes are its bytes. *)
Lemma runes_ascii s :
  Forall (fun c => Ascii.nat_of_ascii c < 128) (String.list_ascii_of_string s) ->
  valid_utf8 s = true /\ runes s = (fun c => String c "") <$> String.list_ascii_of_string s.
Proof.
  unfold valid_utf8, runes. induction s as [|c s IH]; intros H; [done|].
  cbn [String.list_ascii_of_string] in H. apply Forall_cons in H as [Hc H].
  destruct (IH H) as [IH1 IH2]. cbn [String.length valid_fuel runes_fuel].
  assert (Hk : continuation c = Some []).
  { unfold continuation. by apply Nat.ltb_lt in Hc as ->. }
  unfold decode_rune. rewrite Hk. cbn [mbind option_bind accept String.length drop_str].
  split; [done|]. by rewrite IH2.
Qed.

(** A rune is an ASCII byte, or its bytes are not ASCII. *)
Definition rune_shape (r : string) : Prop :=
  (exists c, r = String c "" /\ Ascii.nat_of_ascii c < 128) \/
  Forall (fun c => 128 <= Ascii.nat_of_ascii c) (String.list_ascii_of_string r).

Lemma accept_high rs s t :
  Forall (fun x : nat * nat => 128 <= x.1) rs -> accept rs s = Some t ->
  Forall (fun c => 128 <= Ascii.nat_of_ascii c) (String.list_ascii_of_string t).
Proof.
  intros H. revert s t. induction H as [|[lo hi] rs Hlo _ IH]; intros s t; simpl; [by intros [= <-]|].
  destruct s as [|c s]; [done|]. destruct (in_bytes lo hi c) eqn:Hc; [|done].
  destruct (accept rs s) as [t'|] eqn:Ht; simpl; [|done]. intros [= <-]. simpl. constructor; [|by eapply IH].
  unfold in_bytes in Hc. apply andb_prop in Hc as [Hc _]. apply Nat.leb_le in Hc. simpl in Hlo. lia.
Qed.

Lemma continuation_high c rs :
  continuation c = Some rs -> Forall (fun x : nat * nat => 128 <= x.1) rs /\
  (rs = [] \/ 128 <= Ascii.nat_of_ascii c) /\ (rs = [] -> Ascii.nat_of_ascii c < 128).
Proof.
  unfold continuation. destruct (Nat.ltb_spec (Ascii.nat_of_ascii c) 128).
  { intros [= <-]. split; [constructor|]. split; [by left | done]. }
  intros Hc. repeat (case_match; [simplify_eq; try done; (split; [repeat constructor; simpl; lia|];
    split; [right; lia | done])|]). done.
Qed.

Lemma runes_shape s : Forall rune_shape (runes s).
Proof.
  unfold runes. generalize (String.length s). intros n. revert s.
  induction n as [|n IH]; intros s; [by destruct s|]. destruct s as [|c s]; [constructor|].
  cbn [runes_fuel]. unfold decode_rune.
  destruct (continuation c ≫= fun rs => accept rs s) as [t|] eqn:Ht; (constructor; [|apply IH]).
  - destruct (continuation c) as [rs|] eqn:Hc; [|done]. simpl in Ht.
    destruct (continuation_high _ _ Hc) as (H1 & H2 & H3). destruct rs as [|r rs].
    + injection Ht as <-. left. exists c. auto.
    + right. cbn [String.list_ascii_of_string]. constructor; [by destruct H2|]. by eapply accept_high.
  - right. repeat constructor; vm_compute; lia.
Qed.

Lemma list_ascii_app s t :
  String.list_ascii_of_string (s +:+ t) = String.list_ascii_of_string s ++ String.list_ascii_of_string t.
Proof. induction s as [|c s IH]; [done|]. simpl. by rewrite IH. Qed.
