(* ===== verification/World.v ===== *)
(** * The running program: outcomes, the store of states, the environment

    A Go function of the program is a computation of the monad [M E]: it reads
    and writes a [World] and ends with a value, a panic, or - for a function
    whose recursion is cut by a bound of the model - [OutOfFuel]. The world
    holds the [AgentState] objects (a pointer [*core.AgentState] is the index
    of a cell, a nil pointer is no index), the answers of the clock, of the
    random generator, of [uuid.New] and of the timers, and the state [E] of
    everything else: stores, buses, user nodes. *)

From S2P Require Import Prelude GoLang Core.
From stdpp Require Import base gmap strings list.

Inductive outcome (A : Type) : Type :=
  | Ret (a : A)
  | Panic (v : string)
  | OutOfFuel.

Arguments Ret {A} a.
Arguments Panic {A} v.
Arguments OutOfFuel {A}.

(** ** The environment

    The answers of the environment, as functions of the number of questions
    asked so far; [or_done] answers a [select] between [ctx.Done()] and a timer:
    the error of the context, or nothing when the timer fires. [or_slept] is a
    record of the timers the program waited on, latest first. *)
Record Oracle := mkOracle {
  or_now : nat -> Z;
  or_rand : nat -> float64;
  or_uuid : nat -> string;
  or_done : nat -> option error;
  or_tick : nat;
  or_slept : list Duration;
}.

Definition next_tick (o : Oracle) : Oracle :=
  mkOracle (or_now o) (or_rand o) (or_uuid o) (or_done o) (S (or_tick o)) (or_slept o).

Definition log_sleep (d : Duration) (o : Oracle) : Oracle :=
  mkOracle (or_now o) (or_rand o) (or_uuid o) (or_done o) (or_tick o) (d :: or_slept o).

(** A cell of the store of agent states. *)
Definition loc := nat.

Record World (E : Type) := mkWorld {
  w_heap : list AgentState;
  w_orc : Oracle;
  w_ext : E;
}.

Arguments mkWorld {E} w_heap w_orc w_ext.
Arguments w_heap {E} w.
Arguments w_orc {E} w.
Arguments w_ext {E} w.

Definition set_heap {E} (h : list AgentState) (w : World E) : World E :=
  mkWorld h (w_orc w) (w_ext w).

Definition set_orc {E} (o : Oracle) (w : World E) : World E := mkWorld (w_heap w) o (w_ext w).

Definition set_ext {E} (e : E) (w : World E) : World E := mkWorld (w_heap w) (w_orc w) e.

(** ** The monad *)

Definition M (E A : Type) : Type := World E -> outcome A * World E.

Declare Scope go_scope.
Delimit Scope go_scope with go.

Definition ret {E A} (a : A) : M E A := fun w => (Ret a, w).

Definition panic {E A} (v : string) : M E A := fun w => (Panic v, w).

Definition out_of_fuel {E A} : M E A := fun w => (OutOfFuel, w).

Definition bind {E A B} (m : M E A) (k : A -> M E B) : M E B := fun w =>
  match m w with
  | (Ret a, w') => k a w'
  | (Panic v, w') => (Panic v, w')
  | (OutOfFuel, w') => (OutOfFuel, w')
  end.

Notation "x <- m ;; k" := (bind m (fun x => k))
  (at level 100, m at next level, right associativity) : go_scope.

Notation "'let*' p ':=' m 'in' k" := (bind m (fun x => match x with p => k end))
  (at level 10, p pattern, m at level 100, k at level 200) : go_scope.

Notation "m ;; k" := (bind m (fun _ => k)) (at level 100, right associativity) : go_scope.

#[local] Open Scope go_scope.

(** [defer func() { recover() }()] around [m]: a panic of [m] stops [m] only. *)
Definition recovering {E} (m : M E unit) : M E unit := fun w =>
  match m w with
  | (Panic _, w') => (Ret tt, w')
  | r => r
  end.

(** A loop over a list. *)
Fixpoint for_each {E A} (f : A -> M E unit) (l : list A) : M E unit :=
  match l with
  | [] => ret tt
  | x :: l' => f x ;; for_each f l'
  end.

(** ** Pointers to states *)

Definition nil_deref : string := "invalid memory address or nil pointer dereference".

Definition load {E} (l : loc) : M E AgentState := fun w =>
  match w_heap w !! l with
  | Some s => (Ret s, w)
  | None => (Panic nil_deref, w)
  end.

Definition store {E} (l : loc) (s : AgentState) : M E unit := fun w =>
  match w_heap w !! l with
  | Some _ => (Ret tt, set_heap (<[l := s]> (w_heap w)) w)
  | None => (Panic nil_deref, w)
  end.

Definition alloc {E} (s : AgentState) : M E loc := fun w =>
  (Ret (length (w_heap w)), set_heap (w_heap w ++ [s]) w).

(** [p.F = v] through a pointer. *)
Definition modify {E} (l : loc) (f : AgentState -> AgentState) : M E unit :=
  s <- load l ;; store l (f s).

(** The dereference of a pointer that may be nil. *)
Definition deref {E A} (p : option A) : M E A :=
  match p with Some a => ret a | None => panic nil_deref end.

(** [s.WithMessage(m)], [s.WithVariable(k, v)], [s.WithStatus(st)]: a new cell,
    the old one is not written. *)
Definition WithMessage {E} (l : loc) (m : Message) : M E loc :=
  s <- load l ;; alloc (with_message m s).

Definition WithVariable {E} (l : loc) (key : string) (val : any) : M E loc :=
  s <- load l ;; alloc (with_variable key val s).

Definition WithStatus {E} (l : loc) (status : AgentStatus) : M E loc :=
  s <- load l ;; alloc (with_status status s).

(** ** Questions to the environment *)

Definition ask {E A} (f : Oracle -> A) : M E A := fun w =>
  (Ret (f (w_orc w)), set_orc (next_tick (w_orc w)) w).

(** [time.Now()]. *)
Definition now {E} : M E Z := ask (fun o => or_now o (or_tick o)).

(** [rand.Float64()]. *)
Definition rand_Float64 {E} : M E float64 := ask (fun o => or_rand o (or_tick o)).

(** [uuid.New().String()]. *)
Definition uuid_New {E} : M E string := ask (fun o => or_uuid o (or_tick o)).

(** [select { case <-ctx.Done(): case <-time.After(d): }]. *)
Definition wait {E} (ctx : context) (d : Duration) : M E (option error) := fun w =>
  ask (fun o => or_done o (or_tick o)) (set_orc (log_sleep d (w_orc w)) w).

(** ** The part of [E] a component owns *)

Class Has (T E : Type) := {
  get_of : E -> T;
  set_of : T -> E -> E;
  get_set_of : forall t e, get_of (set_of t e) = t;
  set_get_of : forall e, set_of (get_of e) e = e;
}.

#[export] Instance Has_refl T : Has T T.
Proof. refine {| get_of e := e; set_of t _ := t |}; done. Defined.

#[export] Instance Has_fst A B : Has A (A * B).
Proof. refine {| get_of e := e.1; set_of t e := (t, e.2) |}; [done | by intros []]. Defined.

#[export] Instance Has_snd A B : Has B (A * B).
Proof. refine {| get_of e := e.2; set_of t e := (e.1, t) |}; [done | by intros []]. Defined.

Definition get {T E} `{Has T E} : M E T := fun w => (Ret (get_of (w_ext w)), w).

Definition put {T E} `{Has T E} (t : T) : M E unit := fun w =>
  (Ret tt, set_ext (set_of t (w_ext w)) w).

(** ** Postconditions *)

Definition wp {E A} (m : M E A) (Q : outcome A -> World E -> Prop) (w : World E) : Prop :=
  Q (m w).1 (m w).2.

(** The postcondition of a computation that must not panic nor run out of fuel. *)
Definition returns {A} {E} (Q : A -> World E -> Prop) (o : outcome A) (w : World E) : Prop :=
  match o with Ret a => Q a w | _ => False end.

(** The postcondition of a computation that may panic. *)
Definition if_returns {A} {E} (Q : A -> World E -> Prop) (o : outcome A) (w : World E) : Prop :=
  match o with Ret a => Q a w | _ => True end.

(** The postcondition of a computation that may panic and ends. *)
Definition may_panic {A} {E} (Q : A -> World E -> Prop) (o : outcome A) (w : World E) : Prop :=
  match o with Ret a => Q a w | Panic _ => True | OutOfFuel => False end.

Section rules.
Context {E : Type}.
Implicit Types w : World E.

Lemma wp_ret {A} (a : A) (Q : outcome A -> World E -> Prop) w : Q (Ret a) w -> wp (ret a) Q w.
Proof. done. Qed.

Lemma wp_panic {A} v (Q : outcome A -> World E -> Prop) w : Q (Panic v) w -> wp (panic v) Q w.
Proof. done. Qed.

Lemma wp_bind {A B} (m : M E A) (k : A -> M E B) Q w :
  wp m (fun o w' => match o with
                    | Ret a => wp (k a) Q w'
                    | Panic v => Q (Panic v) w'
                    | OutOfFuel => Q OutOfFuel w'
                    end) w ->
  wp (bind m k) Q w.
Proof. unfold wp, bind. destruct (m w) as [[] ?]; done. Qed.

Lemma wp_mono {A} (m : M E A) (Q R : outcome A -> World E -> Prop) w :
  wp m Q w -> (forall o w', Q o w' -> R o w') -> wp m R w.
Proof. unfold wp. auto. Qed.

Lemma wp_and {A} (m : M E A) (Q R : outcome A -> World E -> Prop) w :
  wp m Q w -> wp m R w -> wp m (fun o w' => Q o w' /\ R o w') w.
Proof. unfold wp. auto. Qed.

Lemma wp_load l s (Q : outcome AgentState -> World E -> Prop) w :
  w_heap w !! l = Some s -> Q (Ret s) w -> wp (load l) Q w.
Proof. unfold wp, load. by intros ->. Qed.

Lemma wp_store l s s0 (Q : outcome unit -> World E -> Prop) w :
  w_heap w !! l = Some s0 -> Q (Ret tt) (set_heap (<[l := s]> (w_heap w)) w) ->
  wp (store l s) Q w.
Proof. unfold wp, store. by intros ->. Qed.

Lemma wp_alloc s (Q : outcome loc -> World E -> Prop) w :
  Q (Ret (length (w_heap w))) (set_heap (w_heap w ++ [s]) w) -> wp (alloc s) Q w.
Proof. done. Qed.

Lemma wp_modify l f s (Q : outcome unit -> World E -> Prop) w :
  w_heap w !! l = Some s -> Q (Ret tt) (set_heap (<[l := f s]> (w_heap w)) w) ->
  wp (modify l f) Q w.
Proof.
  intros Hl HQ. unfold modify. apply wp_bind. eapply wp_load; [done|]. by eapply wp_store.
Qed.

Lemma wp_WithStatus l st s (Q : outcome loc -> World E -> Prop) w :
  w_heap w !! l = Some s ->
  Q (Ret (length (w_heap w))) (set_heap (w_heap w ++ [with_status st s]) w) ->
  wp (WithStatus l st) Q w.
Proof.
  intros Hl HQ. unfold WithStatus. apply wp_bind. eapply wp_load; [done|]. by apply wp_alloc.
Qed.

Lemma wp_for_each {A} (f : A -> M E unit) l (I : World E -> Prop) w :
  (forall x w, x ∈ l -> I w -> wp (f x) (returns (fun _ => I)) w) ->
  I w -> wp (for_each f l) (returns (fun _ => I)) w.
Proof.
  revert w. induction l as [|x l IH]; intros w Hf Hw; [done|]. simpl. apply wp_bind.
  eapply wp_mono; [apply Hf; [left | done]|]. intros [] w' H'; simpl in *; try done.
  apply IH; [|done]. intros. apply Hf; [by right | done].
Qed.

(** The equations of a computation whose parts are known. *)
Lemma bind_Ret {A B} (m : M E A) (k : A -> M E B) a w w' :
  m w = (Ret a, w') -> bind m k w = k a w'.
Proof. unfold bind. by intros ->. Qed.

Lemma run_eq {A} (m : M E A) o w : (m w).1 = o -> m w = (o, (m w).2).
Proof. intros <-. by destruct (m w). Qed.

Lemma wp_bind_Ret {A B} (m : M E A) (k : A -> M E B) Q a w w' :
  m w = (Ret a, w') -> wp (k a) Q w' -> wp (bind m k) Q w.
Proof. intros Hm Hk. unfold wp. by rewrite (bind_Ret _ _ _ _ _ Hm). Qed.

Lemma bind_assoc {A B C} (m : M E A) (f : A -> M E B) (g : B -> M E C) w :
  bind (bind m f) g w = bind m (fun a => bind (f a) g) w.
Proof. unfold bind. by destruct (m w) as [[] ?]. Qed.

Lemma bind_load {B} l s (k : AgentState -> M E B) w :
  w_heap w !! l = Some s -> bind (load l) k w = k s w.
Proof. intros Hl. apply bind_Ret. unfold load. by rewrite Hl. Qed.

Lemma WithMessage_eq l m s w :
  w_heap w !! l = Some s ->
  WithMessage l m w = (Ret (length (w_heap w)), set_heap (w_heap w ++ [with_message m s]) w).
Proof. intros Hl. unfold WithMessage. by rewrite (bind_load l s). Qed.

Lemma WithVariable_eq l key val s w :
  w_heap w !! l = Some s ->
  WithVariable l key val w = (Ret (length (w_heap w)), set_heap (w_heap w ++ [with_variable key val s]) w).
Proof. intros Hl. unfold WithVariable. by rewrite (bind_load l s). Qed.

Lemma bind_modify {B} l f s (k : unit -> M E B) w :
  w_heap w !! l = Some s ->
  bind (modify l f) k w = k tt (set_heap (<[l := f s]> (w_heap w)) w).
Proof.
  intros Hl. apply bind_Ret. unfold modify. rewrite (bind_load _ s) by done.
  unfold store. by rewrite Hl.
Qed.

(** The equation of the first part, for postconditions that name its worlds. *)
Lemma ir_bind {A B} (m : M E A) (k : A -> M E B) Q w :
  (forall a w', m w = (Ret a, w') -> wp (k a) (if_returns Q) w') ->
  wp (bind m k) (if_returns Q) w.
Proof. intros Hk. unfold wp, bind. destruct (m w) as [[a|v|] w'] eqn:Hm; [by apply Hk|done|done]. Qed.

Lemma rt_bind {A B} (m : M E A) (k : A -> M E B) P Q w :
  wp m (returns P) w -> (forall a w', P a w' -> wp (k a) (returns Q) w') ->
  wp (bind m k) (returns Q) w.
Proof.
  intros Hm Hk. apply wp_bind. eapply wp_mono; [exact Hm|]. intros [] w'; simpl; auto; done.
Qed.

Lemma rt_load {B} l s (k : AgentState -> M E B) Q w :
  w_heap w !! l = Some s -> wp (k s) (returns Q) w -> wp (bind (load l) k) (returns Q) w.
Proof. intros Hl Hk. by eapply rt_bind; [eapply (wp_load _ _ (returns (fun a w' => a = s /\ w' = w)))|]; [done|done|intros ? ? [-> ->]]. Qed.

Lemma rt_modify {B} l f s (k : unit -> M E B) Q w :
  w_heap w !! l = Some s ->
  wp (k tt) (returns Q) (set_heap (<[l := f s]> (w_heap w)) w) ->
  wp (bind (modify l f) k) (returns Q) w.
Proof. intros Hl Hk. apply wp_bind. by eapply wp_modify. Qed.

Lemma mp_bind {A B} (m : M E A) (k : A -> M E B) P Q w :
  wp m (may_panic P) w -> (forall a w', P a w' -> wp (k a) (may_panic Q) w') ->
  wp (bind m k) (may_panic Q) w.
Proof.
  intros Hm Hk. apply wp_bind. eapply wp_mono; [exact Hm|]. intros [] w'; simpl; auto.
Qed.

Lemma mp_load {B} l (k : AgentState -> M E B) Q w :
  (forall s, w_heap w !! l = Some s -> wp (k s) (may_panic Q) w) ->
  wp (bind (load l) k) (may_panic Q) w.
Proof.
  intros Hk. unfold wp, bind, load. destruct (w_heap w !! l) as [s|] eqn:Hl; [|done].
  by apply Hk.
Qed.

Lemma mp_modify l f Q w :
  (forall s, w_heap w !! l = Some s -> Q tt (set_heap (<[l := f s]> (w_heap w)) w)) ->
  wp (modify l f) (may_panic Q) w.
Proof.
  intros HQ. apply mp_load. intros s Hl. eapply wp_store; [done|]. by apply HQ.
Qed.

Lemma mp_deref {A B} (p : option A) (k : A -> M E B) Q w :
  (forall a, p = Some a -> wp (k a) (may_panic Q) w) -> wp (bind (deref p) k) (may_panic Q) w.
Proof. destruct p; [|done]. intros Hk. apply wp_bind, wp_ret. by apply Hk. Qed.
End rules.

Arguments wp : simpl never.
