(* ===== verification/Interfaces.v ===== *)
(** * Package interfaces: what the components promise to each other

    The Go interfaces as records of operations over the world, the data they
    exchange, and, for the ones the engine depends on, the contract an
    implementation must meet as a class. *)

From S2P Require Import Prelude GoLang Core World.
From stdpp Require Import base gmap strings list.

(** ** interfaces/node.go *)

Definition InterruptType := string.

Definition InterruptHumanApproval : InterruptType := "HumanApproval".

Definition InterruptInputRequired : InterruptType := "InputRequired".

Definition InterruptExternalEvent : InterruptType := "ExternalEvent".

Record InterruptSignal := mkInterruptSignal {
  int_Type : InterruptType;
  int_Payload : amap;
  int_ResumeKey : string;
}.

(** [NodeResult]: the state is a pointer, possibly nil. *)
Record NodeResult := mkNodeResult {
  nr_State : option loc;
  nr_NextNodes : list string;
  nr_Interrupt : option InterruptSignal;
}.

(** A [Node]: user code. [Process] gets a pointer to the current state. *)
Record Node (E : Type) := mkNode {
  node_ID : string;
  node_Process : context -> loc -> M E (option NodeResult * option error);
}.

Arguments mkNode {E} node_ID node_Process.
Arguments node_ID {E} n.
Arguments node_Process {E} n.

(** ** interfaces/memory.go *)

Record CheckpointMeta := mkCheckpointMeta {
  cm_CheckpointID : string;
  cm_SessionID : string;
  cm_CreatedAt : Z;
}.

Record MemoryStore (E : Type) := mkMemoryStore {
  ms_Save : context -> string -> loc -> M E (string * option error);
  ms_Load : context -> string -> M E (option loc * option error);
  ms_LoadCheckpoint : context -> string -> M E (option loc * option error);
  ms_ListCheckpoints : context -> string -> M E (list CheckpointMeta * option error);
  ms_AppendMessages : context -> string -> list Message -> M E (option error);
  ms_Search : context -> string -> string -> Z -> M E (list Message * option error);
}.

Arguments mkMemoryStore {E}.
Arguments ms_Save {E} m.
Arguments ms_Load {E} m.
Arguments ms_LoadCheckpoint {E} m.
Arguments ms_ListCheckpoints {E} m.
Arguments ms_AppendMessages {E} m.
Arguments ms_Search {E} m.

(** ** interfaces/task.go *)

Record TaskStore (E : Type) := mkTaskStore {
  tks_Create : context -> Task -> M E (option error);
  tks_GetByID : context -> string -> M E (option Task * option error);
  tks_UpdateStatus : context -> string -> TaskStatus -> M E (option error);
  tks_AppendMessage : context -> string -> Message -> M E (option error);
  tks_AppendArtifact : context -> string -> Artifact -> M E (option error);
  tks_AddWebhook : context -> string -> WebhookConfig -> M E (option error);
  tks_ListByContextID : context -> string -> M E (list Task * option error);
  tks_ListByTenantID : context -> string -> Z -> string -> M E (list Task * string * option error);
}.

Arguments mkTaskStore {E}.
Arguments tks_Create {E} t.
Arguments tks_GetByID {E} t.
Arguments tks_UpdateStatus {E} t.
Arguments tks_AppendMessage {E} t.
Arguments tks_AppendArtifact {E} t.
Arguments tks_AddWebhook {E} t.
Arguments tks_ListByContextID {E} t.
Arguments tks_ListByTenantID {E} t.

(** ** interfaces/eventbus.go *)

Definition EventType := string.

Definition EventAgentPaused : EventType := "AgentPaused".

Definition EventAgentResumed : EventType := "AgentResumed".

Definition EventTaskCompleted : EventType := "TaskCompleted".

Definition EventNodeStarted : EventType := "NodeStarted".

Definition EventNodeCompleted : EventType := "NodeCompleted".

Definition EventToolCalled : EventType := "ToolCalled".

Record Event := mkEvent {
  ev_Type : EventType;
  ev_SessionID : string;
  ev_TaskID : string;
  ev_Payload : amap;
  ev_Timestamp : Z;
}.

Definition SubscriptionID := string.

(** Handlers are named: a bus keeps names, the program that owns the bus says
    what each name runs. *)
Definition EventHandler := string.

Record EventBus (E : Type) := mkEventBus {
  bus_Publish : Event -> M E (option error);
  bus_Subscribe : EventType -> EventHandler -> M E (SubscriptionID * option error);
  bus_Unsubscribe : SubscriptionID -> M E (option error);
}.

Arguments mkEventBus {E}.
Arguments bus_Publish {E} e.
Arguments bus_Subscribe {E} e.
Arguments bus_Unsubscribe {E} e.

(** ** interfaces/llm.go *)

Record TokenUsage := mkTokenUsage {
  tu_InputTokens : Z;
  tu_OutputTokens : Z;
  tu_TotalTokens : Z;
}.

Record ModelInfo := mkModelInfo {
  mi_Name : string;
  mi_MaxTokens : Z;
  mi_MaxOutputTokens : Z;
  mi_SupportsTools : bool;
}.

Record LLMResponse := mkLLMResponse {
  lr_Message : Message;
  lr_TokenUsage : TokenUsage;
  lr_FinishReason : string;
}.

Definition FinishReasonStop : string := "Stop".

Definition FinishReasonLength : string := "Length".

Definition FinishReasonToolCalls : string := "ToolCalls".

Definition FinishReasonContentFilter : string := "ContentFilter".

Definition DeltaType := string.

Definition DeltaTypeText : DeltaType := "Text".

Definition DeltaTypeToolCall : DeltaType := "ToolCall".

Definition DeltaTypeDone : DeltaType := "Done".

Record TokenDelta := mkTokenDelta {
  td_Type : DeltaType;
  td_Content : string;
}.

(** The two channels of a stream, as a consumer that reads them to the end sees
    them: the deltas and the error. The goroutine behind them polls [ctx.Done()], alone or
    in a [select] with a send;
    the argument answers the [i]-th poll with the error of the context, if that
    case is taken. *)
Definition TokenStream := (nat -> option error) -> list TokenDelta * option error.

Record LLMProvider (E : Type) := mkLLMProvider {
  llm_ModelInfo : ModelInfo;
  llm_Generate : context -> loc -> M E (option LLMResponse * option error);
  llm_GenerateStream : context -> loc -> M E (option TokenStream * option error);
}.

Arguments mkLLMProvider {E}.
Arguments llm_ModelInfo {E} l.
Arguments llm_Generate {E} l.
Arguments llm_GenerateStream {E} l.

(** A vector of [float32]: the numbers are the JSON library's. *)
Record EmbeddingProvider (E V : Type) := mkEmbeddingProvider {
  emb_EmbedText : context -> string -> M E (V * option error);
}.

Arguments mkEmbeddingProvider {E V}.
Arguments emb_EmbedText {E V} e.

(** ** interfaces/tool.go *)

Record ToolInputSchema := mkToolInputSchema {
  sch_Type : string;
  sch_Properties : list (string * amap);
  sch_Required : list string;
}.

Record Tool (E : Type) := mkTool {
  tool_Name : string;
  tool_Description : string;
  tool_InputSchema : ToolInputSchema;
  tool_RequiredPermissions : list string;
  tool_Execute : context -> amap -> M E (string * option error);
}.

Arguments mkTool {E}.
Arguments tool_Name {E} t.
Arguments tool_Description {E} t.
Arguments tool_InputSchema {E} t.
Arguments tool_RequiredPermissions {E} t.
Arguments tool_Execute {E} t.

(** ** interfaces/planner.go *)

Record PlannerOutput := mkPlannerOutput {
  po_NextNodeID : string;
  po_State : loc;
}.

(** ** Contracts *)

(** Between two worlds every cell that existed still exists. *)
Definition heap_grows {E} (w w' : World E) : Prop :=
  length (w_heap w) <= length (w_heap w').

(** A component that does not write the states it is given: it may only add
    cells. *)
Definition heap_frame {E} (w w' : World E) : Prop :=
  exists new, w_heap w' = w_heap w ++ new.

(** A component that may write the states it is given, but not their step
    count: only the engine counts steps. *)
Definition keeps_steps {E} (w w' : World E) : Prop :=
  forall l s, w_heap w !! l = Some s ->
  exists s', w_heap w' !! l = Some s' /\ StepCount s' = StepCount s.

(** A computation that ends, with a value or a panic, and relates the world it
    started in to the one it ends in. *)
Definition ends {E A} (R : relation (World E)) (m : M E A) : Prop :=
  forall w, wp m (fun o w' => o <> OutOfFuel /\ R w w') w.

(** A computation that ends and leaves the states as they were. *)
Definition frames {E A} (m : M E A) : Prop := ends heap_frame m.

(** A computation that returns and leaves the states as they were. *)
Definition quiet {E A} (P : A -> Prop) (m : M E A) : Prop :=
  forall w, wp m (returns (fun a w' => P a /\ heap_frame w w')) w.

(** What the engine relies on in a memory store: a call returns and does not
    write the states. *)
Class MemoryStoreOK {E} (ms : MemoryStore E) : Prop := {
  save_frames : forall ctx sid l, frames (ms_Save ms ctx sid l);
  load_frames : forall ctx sid, frames (ms_Load ms ctx sid);
}.

Class TaskStoreOK {E} (ts : TaskStore E) : Prop := {
  update_status_frames : forall ctx tid st, frames (tks_UpdateStatus ts ctx tid st);
  append_artifact_frames : forall ctx tid a, frames (tks_AppendArtifact ts ctx tid a);
}.

(** The calls of the engine return, whatever the errors, and write no state. *)
Class TaskStoreQuiet {E} (ts : TaskStore E) : Prop := {
  tq_update : forall ctx tid st, quiet (fun _ => True) (tks_UpdateStatus ts ctx tid st);
  tq_append : forall ctx tid a, quiet (fun _ => True) (tks_AppendArtifact ts ctx tid a);
}.

Class EventBusOK {E} (bus : EventBus E) : Prop := {
  publish_frames : forall ev, frames (bus_Publish bus ev);
}.

(** ** Lemmas *)

Section lemmas.
Context {E : Type}.
Implicit Types w : World E.

Lemma heap_frame_refl w : heap_frame w w.
Proof. exists []. by rewrite app_nil_r. Qed.

Lemma heap_frame_eq w w' : w_heap w' = w_heap w -> heap_frame w w'.
Proof. intros H. exists []. by rewrite app_nil_r. Qed.

Lemma heap_frame_trans w1 w2 w3 : heap_frame w1 w2 -> heap_frame w2 w3 -> heap_frame w1 w3.
Proof. intros [n1 H1] [n2 H2]. exists (n1 ++ n2). by rewrite H2, H1, app_assoc. Qed.

Lemma heap_frame_lookup w w' l s :
  heap_frame w w' -> w_heap w !! l = Some s -> w_heap w' !! l = Some s.
Proof. intros [n Hn] Hl. rewrite Hn. by apply lookup_app_l_Some. Qed.

Lemma heap_frame_length w w' : heap_frame w w' -> length (w_heap w) <= length (w_heap w').
Proof. intros [n ->]. rewrite length_app. lia. Qed.

Lemma frames_ret {A} (a : A) : frames (ret (E := E) a).
Proof. intros w. apply wp_ret. split; [done | apply heap_frame_refl]. Qed.

#[global] Instance heap_frame_preorder : PreOrder (heap_frame (E := E)).
Proof. split; [exact heap_frame_refl | exact heap_frame_trans]. Qed.

#[global] Instance keeps_steps_preorder : PreOrder (keeps_steps (E := E)).
Proof.
  split; [by intros w l s Hl; eauto|]. intros w1 w2 w3 H1 H2 l s Hl.
  destruct (H1 l s Hl) as (s2 & Hl2 & Hs2). destruct (H2 l s2 Hl2) as (s3 & Hl3 & Hs3).
  exists s3. split; [done | congruence].
Qed.

Lemma heap_frame_keeps w w' : heap_frame w w' -> keeps_steps w w'.
Proof. intros Hf l s Hl. exists s. split; [by eapply heap_frame_lookup | done]. Qed.

Lemma ends_weaken {A} (R R' : relation (World E)) (m : M E A) :
  (forall w w', R w w' -> R' w w') -> ends R m -> ends R' m.
Proof. intros HR Hm w. eapply wp_mono; [apply Hm|]. naive_solver. Qed.

Lemma frames_keeps {A} (m : M E A) : frames m -> ends keeps_steps m.
Proof. apply ends_weaken, heap_frame_keeps. Qed.

Section ends_lemmas.
Context (R : relation (World E)) `{!PreOrder R}.

Lemma ends_ret {A} (a : A) : ends R (ret a).
Proof. intros w. apply wp_ret. split; [done | reflexivity]. Qed.

Lemma ends_panic {A} v : ends R (panic (A := A) v).
Proof. intros w. apply wp_panic. split; [done | reflexivity]. Qed.

Lemma ends_bind {A B} (m : M E A) (k : A -> M E B) :
  ends R m -> (forall a, ends R (k a)) -> ends R (bind m k).
Proof.
  intros Hm Hk w. apply wp_bind. eapply wp_mono; [apply Hm|].
  intros [a|v|] w' [Hf Hw]; [|done|done].
  eapply wp_mono; [apply Hk|]. intros o w'' [Hf' Hw']. split; [done|]. by etransitivity.
Qed.

Lemma ends_recovering (m : M E unit) : ends R m -> ends R (recovering m).
Proof.
  intros Hm w. specialize (Hm w). unfold wp, recovering in *.
  destruct (m w) as [[] w']; naive_solver.
Qed.

Lemma ends_for_each {A} (f : A -> M E unit) l :
  (forall x, x ∈ l -> ends R (f x)) -> ends R (for_each f l).
Proof.
  induction l as [|x l IH]; intros Hf; [apply ends_ret|].
  apply ends_bind; [apply Hf; by left|]. intros _. apply IH. intros y ?. apply Hf. by right.
Qed.

Lemma ends_deref {A} (p : option A) : ends R (deref p).
Proof. destruct p; [apply ends_ret | apply ends_panic]. Qed.

Lemma ends_deref_bind {A B} (p : option A) (k : A -> M E B) :
  (forall a, p = Some a -> ends R (k a)) -> ends R (bind (deref p) k).
Proof. destruct p as [a|]; intros Hk; [exact (Hk a eq_refl) | apply ends_panic]. Qed.

Lemma mp_bind_ends {A B} (m : M E A) (k : A -> M E B) Q w :
  ends R m -> (forall a w', R w w' -> wp (k a) (may_panic Q) w') ->
  wp (bind m k) (may_panic Q) w.
Proof.
  intros Hm Hk. apply wp_bind. eapply wp_mono; [apply Hm|].
  intros [] w' [Hf Hw]; simpl; auto.
Qed.

(** A computation that does not touch the world. *)
Lemma ends_load l : ends R (load l).
Proof. intros w. unfold wp, load. case_match; (split; [done | reflexivity]). Qed.
End ends_lemmas.

Lemma frames_bind {A B} (m : M E A) (k : A -> M E B) :
  frames m -> (forall a, frames (k a)) -> frames (bind m k).
Proof. apply ends_bind, _. Qed.

Lemma rt_bind_quiet {A B} P (m : M E A) (k : A -> M E B) Q w :
  quiet P m -> (forall a w', P a -> heap_frame w w' -> wp (k a) (returns Q) w') ->
  wp (bind m k) (returns Q) w.
Proof. intros Hm Hk. eapply rt_bind; [apply Hm|]. intros a w' [? ?]. auto. Qed.

Lemma quiet_ask {A} (f : Oracle -> A) : quiet (fun _ => True) (ask (E := E) f).
Proof. intros w. split; [done | by apply heap_frame_eq]. Qed.

Lemma quiet_ret {A} (P : A -> Prop) a : P a -> quiet P (ret (E := E) a).
Proof. intros ? w. apply wp_ret. by split. Qed.

(** The hooks of a list: none stops the others, whatever it does. *)
Lemma quiet_recovering (m : M E unit) : frames m -> quiet (fun _ => True) (recovering m).
Proof.
  intros Hm w. specialize (Hm w). unfold wp, recovering in *.
  destruct (m w) as [[[]|v|] w']; simpl in *; naive_solver.
Qed.

Lemma quiet_for_each {A} (f : A -> M E unit) l :
  (forall x, x ∈ l -> quiet (fun _ => True) (f x)) -> quiet (fun _ => True) (for_each f l).
Proof.
  induction l as [|x l IH]; intros Hf; [by apply quiet_ret|]. intros w. simpl.
  eapply rt_bind_quiet; [apply Hf; by left | intros _ w1 _ Hw1].
  eapply wp_mono; [apply IH; intros y ?; apply Hf; by right|].
  intros [] w2; simpl; try done. intros [_ Hw2]. split; [done | by eapply heap_frame_trans].
Qed.

Lemma frames_ask {A} (f : Oracle -> A) : frames (ask (E := E) f).
Proof. intros w. split; [done | by apply heap_frame_eq]. Qed.

Lemma frames_wait ctx d : frames (wait (E := E) ctx d).
Proof. intros w. split; [done | by apply heap_frame_eq]. Qed.

Lemma frames_get {T} `{Has T E} : frames (get (T := T) (E := E)).
Proof. intros w. split; [done | by apply heap_frame_eq]. Qed.

Lemma frames_put {T} `{Has T E} (t : T) : frames (put (T := T) (E := E) t).
Proof. intros w. split; [done | by apply heap_frame_eq]. Qed.

Lemma frames_alloc s : frames (alloc (E := E) s).
Proof. intros w. split; [done | by exists [s]]. Qed.

Lemma frames_load l : frames (load (E := E) l).
Proof. intros w. unfold wp, load. case_match; (split; [done | apply heap_frame_refl]). Qed.
End lemmas.

#[export] Hint Resolve heap_frame_refl heap_frame_trans frames_ret frames_bind frames_ask frames_wait
  frames_get frames_put frames_alloc frames_load : flux.
