(* ===== verification/Memory.v ===== *)
(** * Package memory: the store and the event bus of one process

    [memory/store.go] and [memory/eventbus.go]. Each critical section of a
    mutex is one step. The store keeps documents, never pointers: what it is
    given is encoded, what it returns is decoded into a new cell. The
    specification of the store is a log of saves ([represents]). *)

From S2P Require Import Prelude GoLang Core Json World Interfaces.
From stdpp Require Import base gmap strings list fin_maps sets.

#[local] Open Scope go_scope.

(** The documents of the plans that states point to, when there are plans. *)
Class PlanDocs (E : Type) := plan_doc : E -> nat -> option json.

(** ** memory/store.go *)

Definition ErrSessionNotFound : error := ErrNew "session not found".

Definition ErrCheckpointNotFound : error := ErrNew "checkpoint not found".

(** The errors of [encoding/json]; their text is the library's. *)
Definition ErrMarshal : error := ErrNew "json: unsupported value".

Definition ErrUnmarshal : error := ErrNew "json: cannot unmarshal".

Record InMemoryStore := mkInMemoryStore {
  im_states : gmap string json;
  im_checkpoints : gmap string (list CheckpointMeta);
  im_ckptData : gmap string json;
}.

Definition NewInMemoryStore : InMemoryStore := mkInMemoryStore ∅ ∅ ∅.

(** The locked section of [Save]. *)
Definition put_checkpoint (sessionID : string) (meta : CheckpointMeta) (data : json)
    (st : InMemoryStore) : InMemoryStore :=
  mkInMemoryStore
    (<[sessionID := data]> (im_states st))
    (<[sessionID := default [] (im_checkpoints st !! sessionID) ++ [meta]]> (im_checkpoints st))
    (<[cm_CheckpointID meta := data]> (im_ckptData st)).

Section store.
Context {E : Type} `{!PlanDocs E} `{!Has InMemoryStore E}.

(** [json.Marshal(state)]: reads the cell and the plans it points to. *)
Definition json_Marshal (l : loc) : M E (option json) :=
  s <- load l ;;
  fun w => (Ret (marshal_AgentState (plan_doc (w_ext w)) s), w).

(** [var state core.AgentState; json.Unmarshal(data, &state)]. *)
Definition json_Unmarshal (data : json) : M E (option loc * option error) :=
  match unmarshal_AgentState data with
  | None => ret (None, Some ErrUnmarshal)
  | Some s => l <- alloc s ;; ret (Some l, None)
  end.

Definition Save (ctx : context) (sessionID : string) (state : loc) : M E (string * option error) :=
  data <- json_Marshal state ;;
  match data with
  | None => ret ("", Some ErrMarshal)
  | Some data =>
      ckptID <- uuid_New ;;
      t <- now ;;
      st <- get (T := InMemoryStore) ;;
      put (put_checkpoint sessionID (mkCheckpointMeta ckptID sessionID t) data st) ;;
      ret (ckptID, None)
  end.

Definition Load (ctx : context) (sessionID : string) : M E (option loc * option error) :=
  st <- get (T := InMemoryStore) ;;
  match im_states st !! sessionID with
  | None => ret (None, Some ErrSessionNotFound)
  | Some data => json_Unmarshal data
  end.

Definition LoadCheckpoint (ctx : context) (checkpointID : string) :
    M E (option loc * option error) :=
  st <- get (T := InMemoryStore) ;;
  match im_ckptData st !! checkpointID with
  | None => ret (None, Some ErrCheckpointNotFound)
  | Some data => json_Unmarshal data
  end.

Definition ListCheckpoints (ctx : context) (sessionID : string) :
    M E (list CheckpointMeta * option error) :=
  st <- get (T := InMemoryStore) ;;
  match im_checkpoints st !! sessionID with
  | None => ret ([], Some ErrSessionNotFound)
  | Some metas => ret (metas, None)
  end.

(** [AppendMessages] takes the mutex twice: to load a copy, and, after the
    append to that copy, to save it. Between the two another call may run. *)
Definition append_and_save (ctx : context) (sessionID : string) (messages : list Message)
    (copy : option loc * option error) : M E (option error) :=
  match copy.2 with
  | Some x => ret (Some x)
  | None =>
      l <- deref copy.1 ;;
      modify l (fun s => set_Messages (Messages s ++ messages) s) ;;
      let* (_, err) := Save ctx sessionID l in
      ret err
  end.

Definition AppendMessages (ctx : context) (sessionID : string) (messages : list Message) :
    M E (option error) :=
  copy <- Load ctx sessionID ;;
  append_and_save ctx sessionID messages copy.

Definition Search (ctx : context) (sessionID query : string) (topK : Z) :
    M E (list Message * option error) := ret ([], None).

Definition InMemory : MemoryStore E :=
  mkMemoryStore Save Load LoadCheckpoint ListCheckpoints AppendMessages Search.
End store.

(** ** The specification of the store: a log of saves *)

Record Saved := mkSaved { sv_meta : CheckpointMeta; sv_doc : json }.

Definition of_session (sid : string) (log : list Saved) : list Saved :=
  filter (fun e => cm_SessionID (sv_meta e) = sid) log.

Definition ckpt_ids (log : list Saved) : list string := cm_CheckpointID ∘ sv_meta <$> log.

(** The store answers from the log: the last document of a session, the
    checkpoints of a session in the order of their saves, the document of a
    checkpoint. *)
Record represents (st : InMemoryStore) (log : list Saved) : Prop := {
  rep_states : forall sid, im_states st !! sid = sv_doc <$> last (of_session sid log);
  rep_checkpoints : forall sid,
    im_checkpoints st !! sid =
    match of_session sid log with [] => None | es => Some (sv_meta <$> es) end;
  rep_ckptData : forall id,
    im_ckptData st !! id =
    sv_doc <$> last (filter (fun e => cm_CheckpointID (sv_meta e) = id) log);
}.

(** ** memory/eventbus.go *)

(** The subscribers of each event type, by subscription. *)
Record InMemoryEventBus := mkInMemoryEventBus {
  subscribers : gmap EventType (gmap SubscriptionID EventHandler);
}.

Definition NewInMemoryEventBus : InMemoryEventBus := mkInMemoryEventBus ∅.

(** The loop of [Unsubscribe] over the event types, in the order [types] in
    which the runtime ranges over them. *)
Fixpoint unsubscribe_from (types : list EventType) (id : SubscriptionID) (b : InMemoryEventBus) :
    InMemoryEventBus :=
  match types with
  | [] => b
  | ty :: types' =>
      match subscribers b !! ty with
      | Some handlers =>
          match handlers !! id with
          | Some _ => mkInMemoryEventBus (<[ty := delete id handlers]> (subscribers b))
          | None => unsubscribe_from types' id b
          end
      | None => unsubscribe_from types' id b
      end
  end.

Section bus.
Context {E : Type} `{!Has InMemoryEventBus E}.
(** What a handler runs, and the order of a [range] over a map. *)
Context (run : EventHandler -> Event -> M E unit).
Context (range : forall A, list (string * A) -> list (string * A)).

Definition Publish (event : Event) : M E (option error) :=
  b <- get (T := InMemoryEventBus) ;;
  match subscribers b !! ev_Type event with
  | None => ret None
  | Some handlersMap =>
      for_each (fun handler => run handler event) (range EventHandler (map_to_list handlersMap)).*2 ;;
      ret None
  end.

Definition Subscribe (eventType : EventType) (handler : EventHandler) :
    M E (SubscriptionID * option error) :=
  subID <- uuid_New ;;
  b <- get (T := InMemoryEventBus) ;;
  put (mkInMemoryEventBus
         (<[eventType := <[subID := handler]> (default ∅ (subscribers b !! eventType))]>
            (subscribers b))) ;;
  ret (subID, None).

Definition Unsubscribe (id : SubscriptionID) : M E (option error) :=
  b <- get (T := InMemoryEventBus) ;;
  put (unsubscribe_from (range _ (map_to_list (subscribers b))).*1 id b) ;;
  ret None.

Definition InMemoryBus : EventBus E := mkEventBus Publish Subscribe Unsubscribe.
End bus.

(** The specification of the bus: the subscriptions that were made and not
    cancelled, as (subscription, type, handler). *)
Definition bus_represents (b : InMemoryEventBus)
    (subs : list (SubscriptionID * EventType * EventHandler)) : Prop :=
  NoDup subs.*1.*1 /\
  forall ty id h,
    (subscribers b !! ty ≫= fun handlers => handlers !! id) = Some h <-> (id, ty, h) ∈ subs.

Definition handlers_of (ty : EventType) (subs : list (SubscriptionID * EventType * EventHandler)) :
    list EventHandler :=
  (filter (fun x => x.1.2 = ty) subs).*2.

(** ** Lemmas: the store *)

Lemma of_session_snoc sid log e :
  of_session sid (log ++ [e]) =
  of_session sid log ++ (if decide (cm_SessionID (sv_meta e) = sid) then [e] else []).
Proof. unfold of_session. by rewrite filter_snoc. Qed.

Lemma represents_new : represents NewInMemoryStore [].
Proof. by split. Qed.

Lemma represents_put st log sid meta data :
  represents st log -> cm_SessionID meta = sid ->
  represents (put_checkpoint sid meta data st) (log ++ [mkSaved meta data]).
Proof.
  intros [H1 H2 H3] Hsid. split; intros key; simpl.
  - rewrite of_session_snoc. simpl. rewrite Hsid. destruct (decide (sid = key)) as [->|Hne].
    + by rewrite lookup_insert_eq, last_snoc.
    + by rewrite lookup_insert_ne, app_nil_r by done.
  - rewrite of_session_snoc. simpl. rewrite Hsid. destruct (decide (sid = key)) as [->|Hne].
    + rewrite lookup_insert_eq, H2. destruct (of_session key log) as [|e es]; [done|].
      simpl. by rewrite fmap_app.
    + by rewrite lookup_insert_ne, app_nil_r by done.
  - rewrite filter_snoc. simpl. destruct (decide (cm_CheckpointID meta = key)) as [->|Hne].
    + by rewrite lookup_insert_eq, last_snoc.
    + by rewrite lookup_insert_ne, app_nil_r by done.
Qed.

Section store_lemmas.
Context {E : Type} `{!PlanDocs E} `{!Has InMemoryStore E}.
Implicit Types w : World E.

(** The identifier and the instant of the next save. *)
Definition next_meta (sid : string) (w : World E) : CheckpointMeta :=
  let o := w_orc w in
  mkCheckpointMeta (or_uuid o (or_tick o)) sid (or_now o (S (or_tick o))).

Definition after_save (sid : string) (data : json) (w : World E) : World E :=
  mkWorld (w_heap w) (next_tick (next_tick (w_orc w)))
    (set_of (put_checkpoint sid (next_meta sid w) data (get_of (w_ext w))) (w_ext w)).

Lemma Save_eq ctx sid l s w :
  w_heap w !! l = Some s ->
  Save ctx sid l w =
  match marshal_AgentState (plan_doc (w_ext w)) s with
  | None => (Ret ("", Some ErrMarshal), w)
  | Some data => (Ret (cm_CheckpointID (next_meta sid w), None), after_save sid data w)
  end.
Proof.
  intros Hl. unfold Save, json_Marshal, bind, load. rewrite Hl.
  by destruct (marshal_AgentState _ s).
Qed.

Lemma append_and_save_eq ctx sid ms l s doc w :
  w_heap w !! l = Some s ->
  marshal_AgentState (plan_doc (w_ext w)) (set_Messages (Messages s ++ ms) s) = Some doc ->
  append_and_save ctx sid ms (Some l, None) w =
  (Ret None, after_save sid doc (set_heap (<[l := set_Messages (Messages s ++ ms) s]> (w_heap w)) w)).
Proof.
  intros Hl Hdoc. unfold append_and_save, modify, bind, load, store, deref. cbn -[Save].
  rewrite Hl. cbn -[Save]. rewrite Hl. erewrite Save_eq.
  - cbn -[marshal_AgentState]. by rewrite Hdoc.
  - simpl. apply list_lookup_insert_eq. by eapply lookup_lt_Some.
Qed.

(** A decoded document, in a new cell. *)
Definition loaded (s : AgentState) (w : World E) : outcome (option loc * option error) * World E :=
  (Ret (Some (length (w_heap w)), None), set_heap (w_heap w ++ [s]) w).

Lemma json_Unmarshal_eq data s w :
  unmarshal_AgentState data = Some s -> json_Unmarshal data w = loaded s w.
Proof. unfold json_Unmarshal. by intros ->. Qed.

#[export] Instance InMemory_ok : MemoryStoreOK (InMemory (E := E)).
Proof.
  assert (Hu : forall data, frames (json_Unmarshal (E := E) data)).
  { intros data. unfold json_Unmarshal. case_match; auto with flux. }
  split; intros ctx sid.
  - intros l. apply frames_bind; [|intros [data|]; [|auto with flux]].
    + apply frames_bind; [auto with flux|]. intros s w. split; [done | apply heap_frame_refl].
    + apply frames_bind; [apply frames_ask | intros id]. apply frames_bind; [apply frames_ask | intros t].
      apply frames_bind; [apply frames_get | intros st]. apply frames_bind; auto with flux.
  - apply frames_bind; [apply frames_get | intros st]. case_match; [done | auto with flux].
Qed.
End store_lemmas.

(** ** Lemmas: the bus *)

Lemma elem_of_handlers_perm subs ty handlers b :
  bus_represents b subs -> subscribers b !! ty = Some handlers ->
  (map_to_list handlers).*2 ≡ₚ handlers_of ty subs.
Proof.
  intros [Hnd Hrep] Hty. unfold handlers_of.
  transitivity ((fun x : SubscriptionID * EventType * EventHandler => (x.1.1, x.2))
                  <$> filter (fun x => x.1.2 = ty) subs).*2;
    [|by rewrite <- list_fmap_compose].
  apply fmap_Permutation, NoDup_Permutation; [apply NoDup_map_to_list| |].
  - apply (NoDup_fmap_1 fst). rewrite <- list_fmap_compose.
    change (NoDup ((fst ∘ fst) <$> filter (fun x => x.1.2 = ty) subs)).
    rewrite <- list_fmap_compose in Hnd. eapply sublist_NoDup; [exact Hnd|].
    apply fmap_sublist, sublist_filter.
  - intros [id h]. rewrite elem_of_map_to_list, list_elem_of_fmap. split.
    + intros Hh. exists (id, ty, h). rewrite list_elem_of_filter, <- Hrep, Hty. done.
    + intros ([[id' ty'] h'] & ? & [? Hin]%list_elem_of_filter). simplify_eq/=.
      apply Hrep in Hin. by rewrite Hty in Hin.
Qed.

Lemma bus_represents_new : bus_represents NewInMemoryEventBus [].
Proof. split; [constructor|]. intros ty id h. simpl. rewrite lookup_empty. simpl. set_solver. Qed.

Lemma bus_represents_subscribe b subs id ty h :
  bus_represents b subs -> id ∉ subs.*1.*1 ->
  bus_represents
    (mkInMemoryEventBus (<[ty := <[id := h]> (default ∅ (subscribers b !! ty))]> (subscribers b)))
    (subs ++ [(id, ty, h)]).
Proof.
  intros [Hnd Hrep] Hid. split.
  - rewrite !fmap_app. apply NoDup_app. split_and!; [done | set_solver | apply NoDup_singleton].
  - intros ty' id' h'. simpl. rewrite elem_of_app, list_elem_of_singleton, <- Hrep.
    assert (Hfresh : forall ty h, (subscribers b !! ty ≫= fun hs => hs !! id) <> Some h).
    { intros ty1 h1 Hh%Hrep. apply Hid, list_elem_of_fmap. exists (id, ty1).
      split; [done|]. apply list_elem_of_fmap. by exists (id, ty1, h1). }
    destruct (decide (ty = ty')) as [<-|Hty].
    + rewrite lookup_insert_eq. simpl. destruct (decide (id = id')) as [<-|Hne].
      * rewrite lookup_insert_eq. specialize (Hfresh ty). naive_solver.
      * rewrite lookup_insert_ne by done. destruct (subscribers b !! ty); simpl; [naive_solver|].
        rewrite lookup_empty. naive_solver.
    + rewrite lookup_insert_ne by done. naive_solver.
Qed.

Definition has_sub (b : InMemoryEventBus) (ty : EventType) (id : SubscriptionID) (h : EventHandler) :
    Prop :=
  (subscribers b !! ty ≫= fun handlers => handlers !! id) = Some h.

Lemma has_sub_unsubscribe b types id :
  (forall ty1 ty2 h1 h2, has_sub b ty1 id h1 -> has_sub b ty2 id h2 -> ty1 = ty2) ->
  (forall ty h, has_sub b ty id h -> ty ∈ types) ->
  forall ty id' h,
    has_sub (unsubscribe_from types id b) ty id' h <-> id' <> id /\ has_sub b ty id' h.
Proof.
  intros Hu. induction types as [|ty0 types IH]; intros Hall ty id' h.
  { simpl. split; [|naive_solver]. intros Hs. split; [|done]. intros ->.
    specialize (Hall _ _ Hs). set_solver. }
  simpl. destruct (subscribers b !! ty0) as [hs|] eqn:Hty0; [destruct (hs !! id) as [h0|] eqn:Hh0|].
  - unfold has_sub at 1. simpl. destruct (decide (ty0 = ty)) as [<-|Hne].
    + rewrite lookup_insert_eq. simpl. unfold has_sub. rewrite Hty0. simpl.
      destruct (decide (id = id')) as [<-|Hid].
      * rewrite lookup_delete_eq. naive_solver.
      * rewrite lookup_delete_ne by done. naive_solver.
    + rewrite lookup_insert_ne by done. fold (has_sub b ty id' h).
      assert (has_sub b ty0 id h0) as H0 by (unfold has_sub; by rewrite Hty0).
      split; [|naive_solver]. intros Hs. split; [|done]. intros ->. eauto.
  - apply IH. intros ty1 h1 H1. pose proof (Hall _ _ H1) as [->|?]%elem_of_cons; [|done].
    unfold has_sub in H1. rewrite Hty0 in H1. simpl in H1. congruence.
  - apply IH. intros ty1 h1 H1. pose proof (Hall _ _ H1) as [->|?]%elem_of_cons; [|done].
    unfold has_sub in H1. by rewrite Hty0 in H1.
Qed.

(** A subscription belongs to one type: the order of the loop does not matter. *)
Lemma bus_represents_unsubscribe b subs id types :
  bus_represents b subs -> (forall ty, is_Some (subscribers b !! ty) -> ty ∈ types) ->
  bus_represents (unsubscribe_from types id b) (filter (fun x => x.1.1 <> id) subs).
Proof.
  intros [Hnd Hrep] Hall. split.
  { rewrite <- list_fmap_compose in *. eapply sublist_NoDup; [exact Hnd|].
    apply fmap_sublist, sublist_filter. }
  intros ty id' h. rewrite list_elem_of_filter, <- Hrep. simpl.
  apply has_sub_unsubscribe.
  - intros ty1 ty2 h1 h2 H1%Hrep H2%Hrep. rewrite <- list_fmap_compose in Hnd.
    apply list_elem_of_lookup_1 in H1 as [i Hi]. apply list_elem_of_lookup_1 in H2 as [j Hj].
    assert (i = j) as ->; [|congruence].
    eapply NoDup_lookup; [exact Hnd | by rewrite list_lookup_fmap, Hi | by rewrite list_lookup_fmap, Hj].
  - intros ty1 h1 H1. apply Hall. unfold has_sub in H1. destruct (subscribers b !! ty1); naive_solver.
Qed.

(** ** Properties *)

Section properties.
Context {E : Type} `{!PlanDocs E} `{!Has InMemoryStore E}.

(** C20: the store refines a log of saves. A save that encodes appends one entry
    (the new checkpoint, for its session, with the document of the state at that
    moment) and writes no state; a state that does not encode changes nothing.
    The reads answer from the log: the last document of the session, the
    document of the checkpoint, the checkpoints of the session in the order they
    were saved; they change nothing but the new cell of a decoded state. *)
Theorem InMemoryStore_refines_log (ctx : context) (sid id : string) (l : loc) (s : AgentState)
    (log : list Saved) (w : World E) :
  represents (get_of (w_ext w)) log -> w_heap w !! l = Some s ->
  match marshal_AgentState (plan_doc (w_ext w)) s with
  | None => Save ctx sid l w = (Ret ("", Some ErrMarshal), w)
  | Some doc => exists meta w',
      Save ctx sid l w = (Ret (cm_CheckpointID meta, None), w') /\ cm_SessionID meta = sid /\
      w_heap w' = w_heap w /\ represents (get_of (w_ext w')) (log ++ [mkSaved meta doc])
  end /\
  Load ctx sid w =
    match last (of_session sid log) with
    | None => (Ret (None, Some ErrSessionNotFound), w)
    | Some e => json_Unmarshal (sv_doc e) w
    end /\
  LoadCheckpoint ctx id w =
    match last (filter (fun e => cm_CheckpointID (sv_meta e) = id) log) with
    | None => (Ret (None, Some ErrCheckpointNotFound), w)
    | Some e => json_Unmarshal (sv_doc e) w
    end /\
  ListCheckpoints ctx sid w =
    (match of_session sid log with
     | [] => Ret ([], Some ErrSessionNotFound)
     | es => Ret (sv_meta <$> es, None)
     end, w).
Proof.
  intros Hrep Hl. split_and!.
  - pose proof (Save_eq ctx sid l s w Hl) as HS. destruct (marshal_AgentState _ s) as [doc|]; [|done].
    exists (next_meta sid w), (after_save sid doc w). split_and!; [done..|]. simpl.
    rewrite get_set_of. by apply represents_put.
  - unfold Load, bind, get. rewrite (rep_states _ _ Hrep). by destruct (last _).
  - unfold LoadCheckpoint, bind, get. rewrite (rep_ckptData _ _ Hrep). by destruct (last _).
  - unfold ListCheckpoints, bind, get. rewrite (rep_checkpoints _ _ Hrep). by destruct (of_session _ _).
Qed.

(** What is saved is what is loaded, up to the decoding of dynamic values:
    after a save that encodes, loading the session and loading the returned
    checkpoint both give a new cell with the saved state's messages, artifacts,
    counters, last node, status and identifiers; writes to the saved pointer
    after the save do not show; the loads of other sessions give what they gave
    before. *)
Theorem InMemoryStore_roundtrip (ctx : context) (sid : string) (l : loc) (s : AgentState)
    (f : AgentState -> AgentState) (w : World E) (doc : json) :
  w_heap w !! l = Some s -> marshal_AgentState (plan_doc (w_ext w)) s = Some doc ->
  exists id w1 w2,
    Save ctx sid l w = (Ret (id, None), w1) /\ modify l f w1 = (Ret tt, w2) /\
    Load ctx sid w2 = loaded (norm_AgentState (plan_doc (w_ext w)) s) w2 /\
    LoadCheckpoint ctx id w2 = loaded (norm_AgentState (plan_doc (w_ext w)) s) w2 /\
    forall sid', sid' <> sid -> (Load ctx sid' w2).1 = (Load ctx sid' w).1.
Proof.
  intros Hl Hdoc. pose proof (Save_eq ctx sid l s w Hl) as HS. rewrite Hdoc in HS.
  pose proof (unmarshal_marshal_AgentState _ _ _ Hdoc) as Hdec.
  exists (cm_CheckpointID (next_meta sid w)), (after_save sid doc w),
    (set_heap (<[l := f s]> (w_heap w)) (after_save sid doc w)).
  split_and!; [done | | | |].
  - unfold modify, bind, load, store. cbn. rewrite Hl. cbn. by rewrite Hl.
  - unfold Load, bind, get. simpl. rewrite get_set_of. simpl. rewrite lookup_insert_eq.
    by apply json_Unmarshal_eq.
  - unfold LoadCheckpoint, bind, get. simpl. rewrite get_set_of. simpl. rewrite lookup_insert_eq.
    by apply json_Unmarshal_eq.
  - intros sid' Hne. unfold Load, bind, get. simpl. rewrite get_set_of. simpl.
    rewrite lookup_insert_ne by done. destruct (_ !! sid') as [d|]; [|done].
    unfold json_Unmarshal. destruct (unmarshal_AgentState d); [|done].
    cbn. by rewrite length_insert.
Qed.

(** [AppendMessages] is not atomic: when two calls on a session both load
    before either saves, both report success and the session keeps the messages
    of the second save only. *)
Theorem AppendMessages_lost_update (ctx : context) (sid : string) (s : AgentState)
    (doc doc1 doc2 : json) (m1 m2 : list Message) (w : World E) :
  im_states (get_of (w_ext w)) !! sid = Some doc -> unmarshal_AgentState doc = Some s ->
  (forall e, marshal_AgentState (plan_doc e) (set_Messages (Messages s ++ m1) s) = Some doc1) ->
  (forall e, marshal_AgentState (plan_doc e) (set_Messages (Messages s ++ m2) s) = Some doc2) ->
  exists w',
    (copy1 <- Load ctx sid ;;
     copy2 <- Load ctx sid ;;
     err1 <- append_and_save ctx sid m1 copy1 ;;
     err2 <- append_and_save ctx sid m2 copy2 ;;
     ret (err1, err2)) w = (Ret (None, None), w') /\
    im_states (get_of (w_ext w')) !! sid = Some doc2.
Proof.
  intros Hst Hdec Hm1 Hm2.
  assert (Hload : forall w,
    im_states (get_of (w_ext w)) !! sid = Some doc -> Load ctx sid w = loaded s w).
  { intros w0 H0. unfold Load, bind, get. rewrite H0. by apply json_Unmarshal_eq. }
  unfold bind at 1. rewrite Hload by done. unfold loaded, bind at 1. rewrite Hload by done.
  set (w1 := set_heap (w_heap w ++ [s]) w). set (w2 := set_heap (w_heap w1 ++ [s]) w1).
  assert (H1 : w_heap w2 !! length (w_heap w) = Some s).
  { simpl. rewrite lookup_snoc_lt by (rewrite length_app; simpl; lia). apply lookup_snoc_eq. }
  assert (H2 : w_heap w2 !! length (w_heap w ++ [s]) = Some s) by apply lookup_snoc_eq.
  unfold loaded, bind at 1. rewrite (append_and_save_eq ctx sid m1 _ s doc1 w2 H1 (Hm1 _)).
  unfold bind at 1. rewrite (append_and_save_eq ctx sid m2 _ s doc2).
  - eexists. split; [done|]. simpl. rewrite get_set_of. simpl. by rewrite lookup_insert_eq.
  - simpl. rewrite list_lookup_insert_ne; [exact H2|]. rewrite length_app. simpl. lia.
  - apply Hm2.
Qed.
End properties.

(** The bus delivers to its subscribers: starting from the subscriptions
    [subs] that were made and not cancelled, a subscription adds itself under a
    fresh identifier, a cancellation removes exactly its subscription, and a
    publication calls each handler subscribed to the type of the event as often
    as it is subscribed, the others never, whatever order the runtime chooses. *)
Theorem InMemoryBus_delivers {E} `{!Has InMemoryEventBus E} (run : EventHandler -> Event -> M E unit)
    (range : forall A, list (string * A) -> list (string * A))
    (subs : list (SubscriptionID * EventType * EventHandler)) (w : World E) :
  (forall A l, range A l ≡ₚ l) ->
  bus_represents (get_of (w_ext w)) subs ->
  (forall ty h, or_uuid (w_orc w) (or_tick (w_orc w)) ∉ subs.*1.*1 ->
     exists id w', Subscribe ty h w = (Ret (id, None), w') /\
       bus_represents (get_of (w_ext w')) (subs ++ [(id, ty, h)])) /\
  (forall id, exists w', Unsubscribe range id w = (Ret None, w') /\
     bus_represents (get_of (w_ext w')) (filter (fun x => x.1.1 <> id) subs)) /\
  (forall ev, exists hs, hs ≡ₚ handlers_of (ev_Type ev) subs /\
     Publish run range ev w = (for_each (fun h => run h ev) hs ;; ret None) w).
Proof.
  intros Hrange Hrep. split_and!.
  - intros ty h Hid. eexists _, _. split; [reflexivity|]. simpl. rewrite get_set_of.
    by apply bus_represents_subscribe.
  - intros id. eexists. split; [reflexivity|]. simpl. rewrite get_set_of.
    apply bus_represents_unsubscribe; [done|]. intros ty [hs Hty].
    apply list_elem_of_fmap. exists (ty, hs). split; [done|].
    rewrite Hrange. by apply elem_of_map_to_list.
  - intros ev. unfold Publish, bind at 1, get. destruct (subscribers _ !! _) as [hs|] eqn:Hty.
    + eexists. split; [|reflexivity]. rewrite Hrange. by eapply elem_of_handlers_perm.
    + exists []. split; [|done]. unfold handlers_of.
      destruct (filter _ subs) as [|[[id ty] h] rest] eqn:Hf; [done|].
      assert ((id, ty, h) ∈ filter (fun x => x.1.2 = ev_Type ev) subs) as Hin by (rewrite Hf; left).
      apply list_elem_of_filter in Hin as [? Hin]. simplify_eq/=.
      destruct Hrep as [_ Hrep]. apply Hrep in Hin. by rewrite Hty in Hin.
Qed.

(** ** Witnesses *)

#[export] Instance no_plans E : PlanDocs E | 100 := fun _ _ => None.

(** An environment: the clock and the identifiers count, nothing is cancelled. *)
Definition demo_oracle : Oracle :=
  mkOracle Z.of_nat (fun _ => float_of_Z 0) (fun n => itoa (Z.of_nat n)) (fun _ => None) 0 [].

Definition demo_state : AgentState :=
  set_LastNodeID "a" (with_variable "k" (AString "v") (with_message (message RoleUser [text_part "hi"]) NewState)).

Definition demo_world : World InMemoryStore := mkWorld [demo_state] demo_oracle NewInMemoryStore.

Definition demo_doc : json := default JNull (marshal_AgentState (fun _ => None) demo_state).

Lemma InMemoryStore_refines_log_witness :
  represents (get_of (w_ext demo_world)) [] /\ w_heap demo_world !! 0 = Some demo_state /\
  exists meta w',
    Save Background "s" 0 demo_world = (Ret (cm_CheckpointID meta, None), w') /\
    cm_SessionID meta = "s" /\ w_heap w' = w_heap demo_world /\
    represents (get_of (w_ext w')) ([] ++ [mkSaved meta demo_doc]).
Proof.
  split; [apply represents_new|]. split; [reflexivity|].
  apply (proj1 (@InMemoryStore_refines_log InMemoryStore (no_plans _) (Has_refl _) Background "s" "x" 0 demo_state [] demo_world
                  represents_new eq_refl)).
Defined.

Lemma InMemoryStore_roundtrip_witness :
  w_heap demo_world !! 0 = Some demo_state /\
  marshal_AgentState (plan_doc (w_ext demo_world)) demo_state = Some demo_doc /\
  exists id w1 w2,
    Save Background "s" 0 demo_world = (Ret (id, None), w1) /\
    modify 0 (set_Status StatusFailed) w1 = (Ret tt, w2) /\
    Load Background "s" w2 = loaded (norm_AgentState (plan_doc (w_ext demo_world)) demo_state) w2 /\
    LoadCheckpoint Background id w2 =
      loaded (norm_AgentState (plan_doc (w_ext demo_world)) demo_state) w2 /\
    forall sid', sid' <> "s" -> (Load Background sid' w2).1 = (Load Background sid' demo_world).1.
Proof.
  split; [reflexivity|]. split; [reflexivity|].
  apply (InMemoryStore_roundtrip Background "s" 0 demo_state (set_Status StatusFailed) demo_world
           demo_doc); reflexivity.
Defined.

Definition demo_saved_world : World InMemoryStore := (Save Background "s" 0 demo_world).2.

(** The state the document decodes to, and its documents after each append. *)
Definition demo_loaded : AgentState := default zero_AgentState (unmarshal_AgentState demo_doc).

Definition demo_appended (t : string) : json :=
  default JNull (marshal_AgentState (fun _ => None)
    (set_Messages (Messages demo_loaded ++ [message RoleUser [text_part t]]) demo_loaded)).

Lemma AppendMessages_lost_update_witness :
  im_states (get_of (w_ext demo_saved_world)) !! "s" = Some demo_doc /\
  exists w',
    (copy1 <- Load Background "s" ;;
     copy2 <- Load Background "s" ;;
     err1 <- append_and_save Background "s" [message RoleUser [text_part "one"]] copy1 ;;
     err2 <- append_and_save Background "s" [message RoleUser [text_part "two"]] copy2 ;;
     ret (err1, err2)) demo_saved_world = (Ret (None, None), w') /\
    im_states (get_of (w_ext w')) !! "s" = Some (demo_appended "two").
Proof.
  split; [reflexivity|].
  apply (AppendMessages_lost_update Background "s" demo_loaded demo_doc (demo_appended "one")
           (demo_appended "two")); intros; reflexivity.
Defined.

Definition demo_bus_world : World InMemoryEventBus :=
  (Subscribe EventAgentPaused "h" (mkWorld [] demo_oracle NewInMemoryEventBus)).2.

Lemma InMemoryBus_delivers_witness :
  bus_represents (get_of (w_ext (mkWorld [] demo_oracle NewInMemoryEventBus))) [] /\
  exists id w', Subscribe EventAgentPaused "h" (mkWorld [] demo_oracle NewInMemoryEventBus)
      = (Ret (id, None), w') /\
    bus_represents (get_of (w_ext w')) ([] ++ [(id, EventAgentPaused, "h")]).
Proof.
  split; [apply bus_represents_new|].
  apply (proj1 (@InMemoryBus_delivers InMemoryEventBus (Has_refl _) (fun _ _ => ret tt) (fun _ l => l) []
    (mkWorld [] demo_oracle NewInMemoryEventBus) (fun _ _ => reflexivity _) bus_represents_new)).
  simpl. set_solver.
Defined.
