(* ===== verification/Graph.v ===== *)
(** * Package graph: the builder and the immutable graph

    [graph/graph.go] and [graph/builder.go]. A map iteration whose order the
    runtime chooses takes the order as an argument. *)

From S2P Require Import Prelude GoLang Core World Interfaces.
From stdpp Require Import base gmap strings list fin_maps sets relations.

(** [RouterFunc]. *)
Definition RouterFunc (E : Type) := context -> loc -> M E (string * option error).

Record Edge (E : Type) := mkEdge {
  FromID : string;
  ToID : string;
  IsCond : bool;
  Router : option (RouterFunc E);
}.

Arguments mkEdge {E}.
Arguments FromID {E} e.
Arguments ToID {E} e.
Arguments IsCond {E} e.
Arguments Router {E} e.

Record Graph (E : Type) := mkGraph {
  Nodes : gmap string (Node E);
  Edges : list (Edge E);
  Entry : string;
  Terminals : gmap string bool;
}.

Arguments mkGraph {E}.
Arguments Nodes {E} g.
Arguments Edges {E} g.
Arguments Entry {E} g.
Arguments Terminals {E} g.

Record Builder (E : Type) := mkBuilder {
  b_nodes : gmap string (Node E);
  b_edges : list (Edge E);
  b_entry : string;
  b_terminals : gmap string bool;
}.

Arguments mkBuilder {E}.
Arguments b_nodes {E} b.
Arguments b_edges {E} b.
Arguments b_entry {E} b.
Arguments b_terminals {E} b.

Definition ErrNodeAlreadyExists : error := ErrNew "node already exists".

Definition ErrEntryNotSet : error := ErrNew "entry node not set".

Definition ErrGraphValidation : error := ErrNew "graph validation failed".

(** [fmt.Errorf("%w: ...", ErrGraphValidation, ...)]. *)
Definition validation_error (detail : string) : error :=
  ErrWrap ("graph validation failed: " +:+ detail) ErrGraphValidation.

Section defs.
Context {E : Type}.
Implicit Types b : Builder E.

(** [Graph.Node]. *)
Definition Graph_Node (g : Graph E) (id : string) : option (Node E) := Nodes g !! id.

(** [e.graph.Terminals[id]]. *)
Definition is_terminal (g : Graph E) (id : string) : bool := default false (Terminals g !! id).

Definition NewBuilder : Builder E := mkBuilder ∅ [] "" ∅.

Definition AddNode (n : Node E) (b : Builder E) : Builder E * option error :=
  let id := node_ID n in
  match b_nodes b !! id with
  | Some _ => (b, Some (ErrWrap ("node already exists: " +:+ id) ErrNodeAlreadyExists))
  | None => (mkBuilder (<[id := n]> (b_nodes b)) (b_edges b) (b_entry b) (b_terminals b), None)
  end.

Definition SetEntry (nodeID : string) (b : Builder E) : Builder E :=
  mkBuilder (b_nodes b) (b_edges b) nodeID (b_terminals b).

Definition SetTerminal (nodeIDs : list string) (b : Builder E) : Builder E :=
  mkBuilder (b_nodes b) (b_edges b) (b_entry b)
    (foldl (fun ts id => <[id := true]> ts) (b_terminals b) nodeIDs).

Definition AddEdge (fromID toID : string) (b : Builder E) : Builder E :=
  mkBuilder (b_nodes b) (b_edges b ++ [mkEdge fromID toID false None]) (b_entry b) (b_terminals b).

Definition AddConditionalEdge (fromID : string) (router : RouterFunc E) (b : Builder E) : Builder E :=
  mkBuilder (b_nodes b) (b_edges b ++ [mkEdge fromID "" true (Some router)]) (b_entry b)
    (b_terminals b).

(** The edges the inner loop of [checkReachability] pushes for [curr]. *)
Definition successors (es : list (Edge E)) (curr : string) : list string :=
  ToID <$> filter (fun e => FromID e = curr /\ IsCond e = false) es.

(** The queue loop: one unit of fuel for each element taken from the queue. *)
Fixpoint reach_loop (fuel : nat) (es : list (Edge E)) (queue : list string)
    (reachable : gset string) : option (gset string) :=
  match queue with
  | [] => Some reachable
  | curr :: queue' =>
      match fuel with
      | O => None
      | S f =>
          if decide (curr ∈ reachable) then reach_loop f es queue' reachable
          else reach_loop f es (queue' ++ successors es curr) ({[curr]} ∪ reachable)
      end
  end.

(** [checkReachability]: the identifiers a warning is logged for, in the order
    [order] in which the runtime ranges over [b.nodes]. *)
Definition checkReachability (b : Builder E) (order : list string) : option (list string) :=
  match reach_loop (S (length (b_edges b))) (b_edges b) [b_entry b] ∅ with
  | Some reachable => Some (filter (fun id => id ∉ reachable) order)
  | None => None
  end.

(** The edge test of [Build]. *)
Definition check_edge (ns : gmap string (Node E)) (e : Edge E) : option error :=
  match ns !! FromID e with
  | None => Some (validation_error ("edge references missing from node " +:+ FromID e))
  | Some _ =>
      if IsCond e then None
      else match ns !! ToID e with
           | None => Some (validation_error ("static edge references missing to node " +:+ ToID e))
           | Some _ => None
           end
  end.

Fixpoint first_error {A} (check : A -> option error) (l : list A) : option error :=
  match l with
  | [] => None
  | x :: l' => match check x with Some err => Some err | None => first_error check l' end
  end.

Definition check_terminal (ns : gmap string (Node E)) (t : string) : option error :=
  match ns !! t with
  | None => Some (validation_error ("terminal node " +:+ t +:+ " not registered"))
  | Some _ => None
  end.

(** [Build]; [order] is the order in which the runtime ranges over
    [b.terminals]. *)
Definition Build (b : Builder E) (order : list string) : Graph E + error :=
  if decide (b_entry b = "") then inr ErrEntryNotSet
  else match b_nodes b !! b_entry b with
  | None => inr (validation_error ("entry node " +:+ b_entry b +:+ " not registered"))
  | Some _ =>
      match first_error (check_edge (b_nodes b)) (b_edges b) with
      | Some err => inr err
      | None =>
          match first_error (check_terminal (b_nodes b)) order with
          | Some err => inr err
          | None => inl (mkGraph (b_nodes b) (b_edges b) (b_entry b) (b_terminals b))
          end
      end
  end.

(** What a valid topology is, without reference to the order of the checks. *)
Record graph_wf (g : Graph E) : Prop := mkGraphWf {
  wf_entry_set : Entry g <> "";
  wf_entry : is_Some (Nodes g !! Entry g);
  wf_from : forall e, e ∈ Edges g -> is_Some (Nodes g !! FromID e);
  wf_to : forall e, e ∈ Edges g -> IsCond e = false -> is_Some (Nodes g !! ToID e);
  wf_terminals : forall t, t ∈ dom (Terminals g) -> is_Some (Nodes g !! t);
}.

(** The graph the builder describes. *)
Definition drafted (b : Builder E) : Graph E :=
  mkGraph (b_nodes b) (b_edges b) (b_entry b) (b_terminals b).

(** One step along a static edge. *)
Definition static_step (es : list (Edge E)) (x y : string) : Prop :=
  exists e, e ∈ es /\ FromID e = x /\ ToID e = y /\ IsCond e = false.
End defs.

(** ** Lemmas *)

Section lemmas.
Context {E : Type}.
Implicit Types b : Builder E.

Lemma first_error_None {A} (check : A -> option error) l :
  first_error check l = None <-> forall x, x ∈ l -> check x = None.
Proof.
  induction l as [|x l IH]; simpl; [by split; intros; set_solver|].
  destruct (check x) eqn:Hx.
  - split; [done|]. intros H. by rewrite H in Hx by left.
  - rewrite IH. split; [|intros H y ?; apply H; by right].
    intros H y [->|?]%elem_of_cons; auto.
Qed.

Lemma check_edge_None (ns : gmap string (Node E)) e :
  check_edge ns e = None <->
  is_Some (ns !! FromID e) /\ (IsCond e = false -> is_Some (ns !! ToID e)).
Proof.
  unfold check_edge. destruct (ns !! FromID e), (IsCond e), (ns !! ToID e);
    split; try done; try (by intros [[] _]); try (intros [_ H]; by destruct (H eq_refl));
    intros _; (split; [by eexists|]); intros; try done; by eexists.
Qed.

Lemma check_terminal_None (ns : gmap string (Node E)) t :
  check_terminal ns t = None <-> is_Some (ns !! t).
Proof.
  unfold check_terminal. destruct (ns !! t); split; try done; by intros [].
Qed.

Lemma elem_of_successors (es : list (Edge E)) x y :
  y ∈ successors es x <-> static_step es x y.
Proof.
  unfold successors, static_step. rewrite list_elem_of_fmap. split.
  - intros (e & -> & He). apply list_elem_of_filter in He as [[? ?] ?]. eauto.
  - intros (e & ? & ? & <- & ?). exists e. split; [done|]. by apply list_elem_of_filter.
Qed.

(** The edges that leave a node that is not yet marked. *)
Definition pending (es : list (Edge E)) (reachable : gset string) : nat :=
  length (filter (fun e => FromID e ∉ reachable) es).

Lemma pending_mark es curr reachable :
  curr ∉ reachable ->
  length (successors es curr) + pending es ({[curr]} ∪ reachable) <= pending es reachable.
Proof.
  intros Hc. unfold successors, pending. rewrite length_fmap.
  induction es as [|e es IH]; [done|]. rewrite !filter_cons.
  repeat case_decide; simpl in *; try lia; try set_solver.
Qed.

(** The loop needs no more fuel than the queue and the edges still to follow. *)
Lemma reach_loop_total fuel (es : list (Edge E)) queue reachable :
  length queue + pending es reachable <= fuel ->
  is_Some (reach_loop fuel es queue reachable).
Proof.
  revert queue reachable. induction fuel as [|f IH]; intros [|curr queue] reachable Hf;
    simpl in *; try done; [lia|].
  case_decide as Hc; [apply IH; lia|].
  apply IH. rewrite length_app. pose proof (pending_mark es curr reachable Hc). lia.
Qed.

(** When the queue is empty the marked set is closed, hence exact. *)
Lemma closed_is_reachable (es : list (Edge E)) (R : gset string) root :
  (forall x, x ∈ R \/ x ∈ @nil string -> rtc (static_step es) root x) ->
  (forall x y, x ∈ R -> static_step es x y -> y ∈ R \/ y ∈ @nil string) ->
  root ∈ R \/ root ∈ @nil string ->
  forall x, x ∈ R <-> rtc (static_step es) root x.
Proof.
  intros Hin Hcl Hr x. split; [intros; apply Hin; by left|].
  assert (Hr' : root ∈ R) by set_solver.
  revert x. apply (rtc_ind_r (fun x => x ∈ R)); [done|].
  intros y z _ Hyz IH. destruct (Hcl y z IH Hyz); set_solver.
Qed.

(** Everything marked or queued is reachable, and the successors of a marked
    node are marked or queued. *)
Lemma reach_loop_spec fuel (es : list (Edge E)) queue reachable root R :
  reach_loop fuel es queue reachable = Some R ->
  (forall x, x ∈ reachable \/ x ∈ queue -> rtc (static_step es) root x) ->
  (forall x y, x ∈ reachable -> static_step es x y -> y ∈ reachable \/ y ∈ queue) ->
  root ∈ reachable \/ root ∈ queue ->
  forall x, x ∈ R <-> rtc (static_step es) root x.
Proof.
  revert queue reachable. induction fuel as [|f IH]; intros [|curr queue] reachable H Hin Hcl Hr;
    simpl in H; try done.
  - simplify_eq. by eapply closed_is_reachable.
  - simplify_eq. by eapply closed_is_reachable.
  - case_decide as Hc.
    + apply (IH _ _ H); [set_solver | | set_solver].
      intros x y Hx Hxy. destruct (Hcl x y Hx Hxy) as [?|[->|?]%elem_of_cons]; auto.
    + apply (IH _ _ H).
      * intros x [Hx|Hx]; [apply Hin; set_solver|].
        apply elem_of_app in Hx as [Hx|Hx]; [apply Hin; set_solver|].
        apply elem_of_successors in Hx. eapply rtc_r; [apply Hin; right; left | done].
      * intros x y [->%elem_of_singleton|Hx]%elem_of_union Hxy.
        -- right. apply elem_of_app. right. by apply elem_of_successors.
        -- destruct (Hcl x y Hx Hxy) as [?|[->|?]%elem_of_cons]; set_solver.
      * set_solver.
Qed.

Lemma checkReachability_fuel b :
  is_Some (reach_loop (S (length (b_edges b))) (b_edges b) [b_entry b] ∅).
Proof.
  apply reach_loop_total. unfold pending. cbn [length].
  apply (le_n_S _ _ (length_filter _ _)).
Qed.
End lemmas.

(** ** Properties *)

(** C24: [Build] accepts exactly the valid topologies - an entry that is set and
    registered, edges that start at registered nodes, static edges that end at
    registered nodes, registered terminals - whatever the order in which the
    runtime ranges over the terminals, and returns the graph that was drafted. *)
Theorem Build_iff {E} (b : Builder E) (order : list string) (g : Graph E) :
  (forall t, t ∈ order <-> t ∈ dom (b_terminals b)) ->
  Build b order = inl g <-> g = drafted b /\ graph_wf (drafted b).
Proof.
  intros Hord. unfold Build. destruct (decide (b_entry b = "")) as [He|He].
  { split; [done|]. by intros [-> [? _ _ _ _]]. }
  destruct (b_nodes b !! b_entry b) as [n|] eqn:Hn.
  2: { split; [done|]. intros [-> [_ [n' Hn'] _ _ _]]. simpl in Hn'. congruence. }
  destruct (first_error (check_edge (b_nodes b)) (b_edges b)) as [err|] eqn:Hedges.
  { split; [done|]. intros [-> [_ _ Hf Ht _]]. simpl in *.
    assert (first_error (check_edge (b_nodes b)) (b_edges b) = None) as Hc; [|congruence].
    apply first_error_None. intros e ?. apply check_edge_None. auto. }
  destruct (first_error (check_terminal (b_nodes b)) order) as [err|] eqn:Hterm.
  { split; [done|]. intros [-> [_ _ _ _ Ht]]. simpl in *.
    assert (first_error (check_terminal (b_nodes b)) order = None) as Hc; [|congruence].
    apply first_error_None. intros t ?. apply check_terminal_None, Ht, Hord. done. }
  pose proof (proj1 (first_error_None _ _) Hedges) as Hedges'.
  pose proof (proj1 (first_error_None _ _) Hterm) as Hterm'.
  split; [|by intros [-> _]]. intros; simplify_eq. split; [done|]. split; simpl; try done.
  - intros e Hin. by apply check_edge_None, Hedges'.
  - intros e Hin. by apply check_edge_None, Hedges'.
  - intros t Hin. by apply check_terminal_None, Hterm', Hord.
Qed.

(** The breadth-first loop of [checkReachability] always ends within one
    iteration per edge plus one, and the nodes it warns about are exactly the
    ones that no path of static edges links to the entry. *)
Theorem checkReachability_exact {E} (b : Builder E) (order : list string) :
  exists warned, checkReachability b order = Some warned /\
    forall id, id ∈ warned <-> id ∈ order /\ ~ rtc (static_step (b_edges b)) (b_entry b) id.
Proof.
  unfold checkReachability. destruct (checkReachability_fuel b) as [R HR]. rewrite HR.
  eexists. split; [done|]. intros id. rewrite list_elem_of_filter.
  rewrite (reach_loop_spec _ _ _ _ (b_entry b) R HR); [naive_solver| | |set_solver].
  - intros x [?|Hx]; [set_solver|]. apply list_elem_of_singleton in Hx as ->. done.
  - set_solver.
Qed.

(** ** Witnesses *)

Definition demo_node {E} (id : string) : Node E :=
  mkNode id (fun _ l => ret (Some (mkNodeResult (Some l) [] None), None)).

Definition demo_builder : Builder unit :=
  SetTerminal ["b"] (AddEdge "a" "b" (SetEntry "a"
    (AddNode (demo_node "b") (AddNode (demo_node "a") NewBuilder).1).1)).

Lemma Build_iff_witness :
  (forall t, t ∈ ["b"] <-> t ∈ dom (b_terminals demo_builder)) /\
  Build demo_builder ["b"] = inl (drafted demo_builder) /\ graph_wf (drafted demo_builder).
Proof.
  assert (H : forall t, t ∈ ["b"] <-> t ∈ dom (b_terminals demo_builder)).
  { intros t. unfold demo_builder. simpl. rewrite dom_insert_L. set_solver. }
  split; [exact H|]. split; [reflexivity|].
  apply (Build_iff demo_builder ["b"] (drafted demo_builder) H). reflexivity.
Defined.
