(* ===== verification/Resilience.v ===== *)
(** * engine/resilience.go: retries and the circuit breaker *)

From S2P Require Import Prelude GoLang Core World Interfaces.
From stdpp Require Import base gmap strings list.

#[local] Open Scope go_scope.

(** ** RetryPolicy *)

Record RetryPolicy := mkRetryPolicy {
  MaxAttempts : Z;
  BaseDelay : Duration;
  MaxDelay : Duration;
  Multiplier : float64;
}.

(** The constants [2.0], [0.8] and [0.4] as binary64 numbers. *)
Definition float_2_0 : float64 := float_of_Z 2.

Definition float_0_8 : float64 := float_me 7205759403792794 (-53).

Definition float_0_4 : float64 := float_me 7205759403792794 (-54).

Definition DefaultRetryPolicy : RetryPolicy :=
  mkRetryPolicy 3 (200 * Millisecond)%Z (10 * Second)%Z float_2_0.

(** [if d > MaxDelay { d = MaxDelay }]. *)
Definition clamp (p : RetryPolicy) (d : Duration) : Duration :=
  if (MaxDelay p <? d)%Z then MaxDelay p else d.

(** [time.Duration(float64(delay) * (0.8 + 0.4*u))], clamped. *)
Definition jittered (p : RetryPolicy) (delay : Duration) (u : float64) : Duration :=
  clamp p (int_of_float (fmul (float_of_Z delay) (fadd float_0_8 (fmul float_0_4 u)))).

Definition next_delay (p : RetryPolicy) (delay : Duration) : Duration :=
  clamp p (int_of_float (fmul (float_of_Z delay) (Multiplier p))).

Definition retriable (e : error) : option AgentError :=
  match errors_As e with
  | Some ae => if decide (ae_Category ae = ErrCategoryRetriable) then Some ae else None
  | None => None
  end.

Section retry.
Context {E R : Type}.

(** The loop of [Execute]; [remaining] is [MaxAttempts - attempt]. The closure
    [fn] may assign a variable it captures: it gets the variable's value and
    returns the new one with its error. *)
Fixpoint execute_loop (p : RetryPolicy) (ctx : context) (fn : R -> M E (R * option error))
    (remaining : nat) (attempt : Z) (delay : Duration) (r : R) : M E (R * option error) :=
  match remaining with
  | O => ret (r, None)
  | S remaining' =>
      let* (r', err) := fn r in
      match err with
      | None => ret (r', None)
      | Some e =>
          match retriable e with
          | None => ret (r', Some e)
          | Some ae =>
              if (attempt =? MaxAttempts p - 1)%Z
              then ret (r', Some (NewFatalError (ae_NodeID ae) (ae_Cause ae)))
              else
                u <- rand_Float64 ;;
                done <- wait ctx (jittered p delay u) ;;
                match done with
                | Some ctx_err => ret (r', Some ctx_err)
                | None =>
                    execute_loop p ctx fn remaining' (attempt + 1) (next_delay p delay) r'
                end
          end
      end
  end.

Definition Execute (p : RetryPolicy) (ctx : context) (fn : R -> M E (R * option error)) (r : R) :
    M E (R * option error) :=
  execute_loop p ctx fn (Z.to_nat (MaxAttempts p)) 0 (BaseDelay p) r.
End retry.

(** What [Execute] means, without delays: the outcome of a sequence of attempts
    and the number of attempts made. [cancel i] is the error of the context when
    it is cancelled while the policy waits after attempt [i]. *)
Fixpoint retry_outcome (attempts : nat) (cancel : nat -> option error)
    (outs : list (option error)) : option error * nat :=
  match attempts with
  | O => (None, 0)
  | S n =>
      match default None (head outs) with
      | None => (None, 1)
      | Some e =>
          match retriable e with
          | None => (Some e, 1)
          | Some ae =>
              match n with
              | O => (Some (NewFatalError (ae_NodeID ae) (ae_Cause ae)), 1)
              | S _ =>
                  match cancel 0 with
                  | Some ctx_err => (Some ctx_err, 1)
                  | None =>
                      let r := retry_outcome n (fun i => cancel (S i)) (tail outs) in
                      (r.1, S r.2)
                  end
              end
          end
      end
  end.

(** A function whose outcomes are scripted; it succeeds when the script ends. *)
Definition scripted {E} `{Has (list (option error)) E} (r : unit) : M E (unit * option error) :=
  outs <- get (T := list (option error)) ;;
  put (tail outs) ;;
  ret (r, default None (head outs)).

(** ** CircuitBreaker *)

Inductive cbState := cbClosed | cbOpen | cbHalfOpen.

#[export] Instance cbState_eq_dec : EqDecision cbState.
Proof. solve_decision. Defined.

Record CircuitBreaker := mkCircuitBreaker {
  cb_state : cbState;
  cb_failures : Z;
  cb_successes : Z;
  cb_threshold : Z;
  cb_openTimeout : Duration;
  cb_openedAt : Z;
  cb_FallbackMsg : string;
}.

Definition NewCircuitBreaker (threshold : Z) (openTimeout : Duration) : CircuitBreaker :=
  mkCircuitBreaker cbClosed 0 0 threshold openTimeout zero_Time
    "service temporarily unavailable, please retry later".

(** The three mutators run under the mutex: each is one atomic step; [t] is the
    instant the clock gives. *)
Definition Allow (t : Z) (cb : CircuitBreaker) : bool * CircuitBreaker :=
  match cb_state cb with
  | cbClosed => (true, cb)
  | cbOpen =>
      if (cb_openTimeout cb <=? t - cb_openedAt cb)%Z
      then (true, mkCircuitBreaker cbHalfOpen (cb_failures cb) (cb_successes cb) (cb_threshold cb)
                    (cb_openTimeout cb) (cb_openedAt cb) (cb_FallbackMsg cb))
      else (false, cb)
  | cbHalfOpen => (true, cb)
  end.

Definition RecordSuccess (cb : CircuitBreaker) : CircuitBreaker :=
  mkCircuitBreaker cbClosed 0 (int64 (cb_successes cb + 1)) (cb_threshold cb)
    (cb_openTimeout cb) (cb_openedAt cb) (cb_FallbackMsg cb).

Definition RecordFailure (t : Z) (cb : CircuitBreaker) : CircuitBreaker :=
  let failures := int64 (cb_failures cb + 1) in
  if bool_decide (cb_state cb = cbHalfOpen) || (cb_threshold cb <=? failures)%Z
  then mkCircuitBreaker cbOpen 0 0 (cb_threshold cb) (cb_openTimeout cb) t (cb_FallbackMsg cb)
  else mkCircuitBreaker (cb_state cb) failures 0 (cb_threshold cb) (cb_openTimeout cb)
         (cb_openedAt cb) (cb_FallbackMsg cb).

Definition State (cb : CircuitBreaker) : string :=
  match cb_state cb with cbOpen => "Open" | cbHalfOpen => "HalfOpen" | cbClosed => "Closed" end.

(** The calls that goroutines make, in the order in which they take the mutex. *)
Inductive cb_call := CallAllow (t : Z) | CallSuccess | CallFailure (t : Z).

Definition cb_step (cb : CircuitBreaker) (c : cb_call) : CircuitBreaker :=
  match c with
  | CallAllow t => (Allow t cb).2
  | CallSuccess => RecordSuccess cb
  | CallFailure t => RecordFailure t cb
  end.

Definition cb_run (cb : CircuitBreaker) (h : list cb_call) : CircuitBreaker := foldl cb_step cb h.

(** The failures recorded since the last success. *)
Definition count_failure (n : nat) (c : cb_call) : nat :=
  match c with CallAllow _ => n | CallSuccess => 0 | CallFailure _ => S n end.

Definition consecutive_failures (h : list cb_call) : nat := foldl count_failure 0 h.

(** ** Lemmas: retries *)

Lemma clamp_le p d : (clamp p d <= MaxDelay p)%Z.
Proof. unfold clamp. destruct (Z.ltb_spec (MaxDelay p) d); lia. Qed.

Lemma retry_outcome_ext n f g outs :
  (forall i, f i = g i) -> retry_outcome n f outs = retry_outcome n g outs.
Proof.
  revert f g outs. induction n as [|n IH]; intros f g outs Hfg; simpl; [done|].
  destruct (default None (head outs)); [|done]. destruct (retriable _); [|done].
  destruct n as [|n]; [done|]. rewrite Hfg. destruct (g 0); [done|].
  by rewrite (IH _ (fun i => g (S i))).
Qed.

Section retry_lemmas.
Context {E : Type} `{Has (list (option error)) E}.
Implicit Types w : World E.

Lemma retry_outcome_calls n cancel outs : (retry_outcome n cancel outs).2 <= n.
Proof.
  revert cancel outs. induction n as [|n IH]; intros cancel outs; simpl; [done|].
  destruct (default None (head outs)); simpl; [|lia].
  destruct (retriable e); simpl; [|lia]. destruct n as [|n]; simpl in *; [lia|].
  destruct (cancel 0); simpl; [lia|].
  specialize (IH (fun i => cancel (S i)) (tail outs)). lia.
Qed.

(** The answers the context gives after each failed attempt, from [w] on. *)
Definition cancellation (w : World E) (i : nat) : option error :=
  or_done (w_orc w) (or_tick (w_orc w) + 2 * i + 1).

(** The world after one scripted attempt, and after the wait that follows it. *)
Definition after_attempt (w : World E) : World E :=
  set_ext (set_of (tail (get_of (w_ext w))) (w_ext w)) w.

Definition after_wait (d : Duration) (w : World E) : World E :=
  set_orc (next_tick (log_sleep d (next_tick (w_orc w)))) w.

Lemma execute_loop_step p ctx n attempt delay w :
  execute_loop p ctx scripted (S n) attempt delay tt w =
  match default None (head (get_of (w_ext w))) with
  | None => (Ret (tt, None), after_attempt w)
  | Some e =>
      match retriable e with
      | None => (Ret (tt, Some e), after_attempt w)
      | Some ae =>
          if (attempt =? MaxAttempts p - 1)%Z
          then (Ret (tt, Some (NewFatalError (ae_NodeID ae) (ae_Cause ae))), after_attempt w)
          else
            let d := jittered p delay (or_rand (w_orc w) (or_tick (w_orc w))) in
            match or_done (w_orc w) (S (or_tick (w_orc w))) with
            | Some ctx_err => (Ret (tt, Some ctx_err), after_wait d (after_attempt w))
            | None =>
                execute_loop p ctx scripted n (attempt + 1) (next_delay p delay) tt
                  (after_wait d (after_attempt w))
            end
      end
  end.
Proof.
  cbn [execute_loop]. unfold bind at 1. unfold scripted, bind, get, put, ret.
  cbn -[execute_loop jittered]. destruct (default None (head _)) as [e|]; [|done].
  destruct (retriable e) as [ae|]; [|done]. destruct (attempt =? _)%Z; [done|].
  cbn -[execute_loop jittered]. destruct (or_done _ _); done.
Qed.

Lemma execute_loop_spec p ctx n attempt delay w :
  Z.of_nat n = (MaxAttempts p - attempt)%Z ->
  let r := retry_outcome n (cancellation w) (get_of (w_ext w)) in
  exists w' slept,
    execute_loop p ctx scripted n attempt delay tt w = (Ret (tt, r.1), w') /\
    get_of (w_ext w') = drop r.2 (get_of (w_ext w)) /\
    or_slept (w_orc w') = slept ++ or_slept (w_orc w) /\
    Forall (fun d => (d <= MaxDelay p)%Z) slept /\ length slept <= r.2.
Proof.
  assert (Hone : forall w, get_of (w_ext (after_attempt w)) = drop 1 (get_of (w_ext w))).
  { intros w'. unfold after_attempt. simpl. rewrite get_set_of. by destruct (get_of _). }
  revert attempt delay w. induction n as [|n IH]; intros attempt delay w Hn.
  { exists w, []. simpl. repeat split; [by constructor | done]. }
  rewrite execute_loop_step. cbn [retry_outcome].
  destruct (default None (head _)) as [e|] eqn:He.
  2: { exists (after_attempt w), []. repeat split; [apply Hone | by constructor | simpl; lia]. }
  destruct (retriable e) as [ae|].
  2: { exists (after_attempt w), []. repeat split; [apply Hone | by constructor | simpl; lia]. }
  destruct n as [|n].
  { replace (attempt =? MaxAttempts p - 1)%Z with true by lia.
    exists (after_attempt w), []. repeat split; [apply Hone | by constructor | simpl; lia]. }
  replace (attempt =? MaxAttempts p - 1)%Z with false by lia.
  set (d := jittered _ _ _). cbn zeta.
  replace (cancellation w 0) with (or_done (w_orc w) (S (or_tick (w_orc w))))
    by (unfold cancellation; f_equal; lia).
  assert (Hd : (d <= MaxDelay p)%Z) by apply clamp_le.
  destruct (or_done _ _) as [ctx_err|] eqn:Hdone.
  { exists (after_wait d (after_attempt w)), [d].
    repeat split; [apply Hone | by repeat constructor | simpl; lia]. }
  destruct (IH (attempt + 1)%Z (next_delay p delay) (after_wait d (after_attempt w)))
    as (w' & slept & Hrun & Hext & Hsl & Hle & Hlen); [lia|].
  change (w_ext (after_wait d (after_attempt w))) with (w_ext (after_attempt w)) in *.
  rewrite Hone in *.
  rewrite (retry_outcome_ext _ (fun i => cancellation w (S i))
             (cancellation (after_wait d (after_attempt w))))
    by (intros i; unfold cancellation; simpl; f_equal; lia).
  replace (tail (get_of (w_ext w))) with (drop 1 (get_of (w_ext w))) by by destruct (get_of _).
  exists w', (slept ++ [d]). rewrite Hrun. repeat split.
  - rewrite Hext, drop_drop. done.
  - rewrite Hsl. by rewrite <- app_assoc.
  - apply Forall_app. by repeat constructor.
  - rewrite length_app. cbn -[retry_outcome]. lia.
Qed.
End retry_lemmas.

(** ** Lemmas: the circuit breaker *)

Lemma cb_run_snoc cb h c : cb_run cb (h ++ [c]) = cb_step (cb_run cb h) c.
Proof. unfold cb_run. by rewrite foldl_app. Qed.

Lemma consecutive_failures_snoc h c :
  consecutive_failures (h ++ [c]) = count_failure (consecutive_failures h) c.
Proof. unfold consecutive_failures. by rewrite foldl_app. Qed.

Lemma cb_config cb c :
  cb_threshold (cb_step cb c) = cb_threshold cb /\ cb_openTimeout (cb_step cb c) = cb_openTimeout cb.
Proof.
  destruct c; simpl; [|done|].
  - unfold Allow. destruct (cb_state cb); try done. by destruct (_ <=? _)%Z.
  - unfold RecordFailure. by destruct (_ || _).
Qed.

(** The breaker as a function of the history: closed with the number of
    consecutive failures while that number is below the threshold, not closed
    from then on, and an open breaker remembers the instant of a failure. *)
Record cb_inv (k : Z) (T : Duration) (h : list cb_call) (cb : CircuitBreaker) : Prop := {
  inv_threshold : cb_threshold cb = k;
  inv_timeout : cb_openTimeout cb = T;
  inv_closed : cb_state cb = cbClosed -> cb_failures cb = Z.of_nat (consecutive_failures h);
  inv_state : cb_state cb = cbClosed <-> (Z.of_nat (consecutive_failures h) < k)%Z;
  inv_open : cb_state cb = cbOpen -> CallFailure (cb_openedAt cb) ∈ h;
}.

Lemma cb_inv_run k T h :
  (0 < k <= MaxInt64)%Z -> cb_inv k T h (cb_run (NewCircuitBreaker k T) h).
Proof.
  intros Hk. induction h as [|c h IH] using rev_ind.
  { split; simpl; try done. cbn. split; [lia | done]. }
  rewrite cb_run_snoc. set (cb := cb_run _ h) in *. destruct IH as [H1 H2 H3 H4 H5].
  destruct (cb_config cb c) as [Ht Ho].
  assert (Hmem : forall t, CallFailure t ∈ h -> CallFailure t ∈ h ++ [c]) by set_solver.
  split; [congruence | congruence | | | ]; rewrite ?consecutive_failures_snoc;
    destruct c as [t| |t]; simpl.
  - unfold Allow. destruct (cb_state cb) eqn:Hs; simpl; [auto| |congruence].
    destruct (_ <=? _)%Z; simpl; [done | congruence].
  - done.
  - unfold RecordFailure. destruct (_ || _) eqn:Hc; simpl; [done|]. intros Hs.
    rewrite H3 by done. apply H4 in Hs. rewrite int64_id; [lia|]. unfold in_int64, MinInt64 in *. lia.
  - rewrite <- H4. unfold Allow. destruct (cb_state cb) eqn:Hs; simpl; [by rewrite Hs| |by rewrite Hs].
    destruct (_ <=? _)%Z; simpl; [done | by rewrite Hs].
  - cbn. split; [lia | done].
  - unfold RecordFailure. destruct (decide (cb_state cb = cbClosed)) as [Hs|Hs].
    + rewrite Hs. rewrite (H3 Hs), H1. apply H4 in Hs.
      rewrite int64_id by (unfold in_int64, MinInt64 in *; lia). simpl.
      destruct (Z.leb_spec k (Z.of_nat (consecutive_failures h) + 1)); simpl; (split; [|try done]); try done; lia.
    + assert (~ (Z.of_nat (consecutive_failures h) < k)%Z) by (by rewrite <- H4).
      destruct (_ || _); simpl; split; try done; lia.
  - unfold Allow. destruct (cb_state cb) eqn:Hs; simpl; [congruence| |congruence].
    destruct (_ <=? _)%Z; simpl; auto.
  - done.
  - unfold RecordFailure. destruct (_ || _); simpl; [set_solver | auto].
Qed.

(** ** Properties *)

(** C23: [RetryPolicy.Execute] is the reference retry: it calls the function
    until an attempt succeeds, fails with an error that is not retriable, is the
    last of [MaxAttempts] (the error is then escalated to a fatal one) or the
    context is cancelled during a wait; it makes exactly the attempts the
    reference makes, at most [MaxAttempts], and never waits longer than
    [MaxDelay]. *)
Theorem Execute_spec {E} `{Has (list (option error)) E} (p : RetryPolicy) (ctx : context)
    (w : World E) :
  let r := retry_outcome (Z.to_nat (MaxAttempts p)) (cancellation w) (get_of (w_ext w)) in
  exists w' slept,
    Execute p ctx scripted tt w = (Ret (tt, r.1), w') /\
    get_of (w_ext w') = drop r.2 (get_of (w_ext w)) /\
    r.2 <= Z.to_nat (MaxAttempts p) /\
    or_slept (w_orc w') = slept ++ or_slept (w_orc w) /\
    Forall (fun d => (d <= MaxDelay p)%Z) slept /\ length slept <= r.2.
Proof.
  intros r. unfold Execute. destruct (Z.leb_spec 0 (MaxAttempts p)) as [Hp|Hp].
  - destruct (execute_loop_spec p ctx (Z.to_nat (MaxAttempts p)) 0 (BaseDelay p) w)
      as (w' & slept & H1 & H2 & H3 & H4 & H5); [lia|].
    exists w', slept. fold r in H1, H2, H5. repeat split; try done. apply retry_outcome_calls.
  - subst r. replace (Z.to_nat (MaxAttempts p)) with 0 by lia.
    exists w, []. repeat split; [done | by constructor | done].
Qed.

(** C38: the breaker is a function of its history: it is closed exactly while
    fewer than [threshold] failures were recorded since the last success (or
    since its creation), so the [threshold]-th consecutive failure opens it and
    only a success closes it again. *)
Theorem breaker_closed_iff (k : Z) (T : Duration) (h : list cb_call) :
  (0 < k <= MaxInt64)%Z ->
  State (cb_run (NewCircuitBreaker k T) h) = "Closed" <->
  (Z.of_nat (consecutive_failures h) < k)%Z.
Proof.
  intros Hk. destruct (cb_inv_run k T h Hk) as [_ _ _ Hs _]. rewrite <- Hs.
  unfold State. by destruct (cb_state _).
Qed.

(** An open breaker fails fast only for the timeout: a call is refused only
    when a failure was recorded less than [openTimeout] before it, and once the
    timeout has elapsed since that failure the next call is let through as a
    probe, after which one more failure opens the breaker again. *)
Theorem breaker_refuses (k : Z) (T : Duration) (h : list cb_call) (t : Z) :
  (0 < k <= MaxInt64)%Z ->
  let cb := cb_run (NewCircuitBreaker k T) h in
  ((Allow t cb).1 = false -> exists t', CallFailure t' ∈ h /\ (t - t' < T)%Z) /\
  (cb_state cb = cbOpen -> (T <= t - cb_openedAt cb)%Z ->
     (Allow t cb).1 = true /\
     forall t2, cb_state (RecordFailure t2 (Allow t cb).2) = cbOpen).
Proof.
  intros Hk cb. destruct (cb_inv_run k T h Hk) as [_ HT _ _ Ho]. fold cb in HT, Ho.
  unfold Allow. rewrite HT. split.
  - destruct (cb_state cb) eqn:Hs; try done. destruct (Z.leb_spec T (t - cb_openedAt cb)); [done|].
    intros _. eauto.
  - intros -> Ht. by replace (T <=? t - cb_openedAt cb)%Z with true by lia.
Qed.

(** ** Witnesses *)

Lemma breaker_closed_iff_witness :
  (0 < 2 <= MaxInt64)%Z /\
  (State (cb_run (NewCircuitBreaker 2 Second) [CallFailure 5; CallFailure 6]) = "Closed" <->
   (Z.of_nat (consecutive_failures [CallFailure 5; CallFailure 6]) < 2)%Z).
Proof.
  assert (H : (0 < 2 <= MaxInt64)%Z) by (unfold MaxInt64; lia).
  split; [exact H|]. apply (breaker_closed_iff 2 Second [CallFailure 5; CallFailure 6] H).
Defined.

Lemma breaker_refuses_witness :
  (0 < 1 <= MaxInt64)%Z /\
  (Allow 6 (cb_run (NewCircuitBreaker 1 10%Z) [CallFailure 5])).1 = false /\
  exists t', CallFailure t' ∈ [CallFailure 5] /\ (6 - t' < 10)%Z.
Proof.
  assert (H : (0 < 1 <= MaxInt64)%Z) by (unfold MaxInt64; lia).
  split; [exact H|]. split; [reflexivity|].
  apply (proj1 (breaker_refuses 1 10%Z [CallFailure 5] 6 H)). reflexivity.
Defined.
