(* ===== verification/Engine.v ===== *)
(** * engine/engine.go: the execution loop

    [Engine] with its options, the hook dispatch of [fireHooks], [Start],
    [Resume], [resolveNextNode], [processNodeWithRetry] and [runLoop]. The
    [for] loop of [runLoop] runs on fuel: one unit for each iteration. The
    stores, the bus, the hooks and the nodes are arbitrary computations; a
    theorem that needs more of them says so. *)

From S2P Require Import Prelude GoLang Core Json World Interfaces Memory Graph Resilience.
From stdpp Require Import base gmap strings list.

#[local] Open Scope go_scope.

(** ** engine/hooks.go: the interface *)

Definition HookPoint := string.

Definition HookBeforeNode : HookPoint := "BeforeNode".

Definition HookAfterNode : HookPoint := "AfterNode".

Definition HookOnError : HookPoint := "OnError".

Record HookMeta := mkHookMeta {
  hm_Point : HookPoint;
  hm_NodeID : string;
  hm_StepCount : Z;
  hm_Elapsed : Duration;
  hm_Err : option error;
}.

(** A hook gets the pointer to the state, nil when the node returned none. *)
Record LifecycleHook (E : Type) := mkLifecycleHook {
  OnHook : option loc -> HookMeta -> M E unit;
}.

Arguments mkLifecycleHook {E} OnHook.
Arguments OnHook {E} l.

(** ** The engine *)

Definition ErrMaxStepsExceeded : error := ErrNew "max steps exceeded".

Definition ErrNoNextNode : error :=
  ErrNew "no next node found for execution, and current node is not marked as Terminal".

Record Engine (E : Type) := mkEngine {
  graph : option (Graph E);
  memoryStore : MemoryStore E;
  taskStore : option (TaskStore E);
  eventBus : option (EventBus E);
  hooks : list (LifecycleHook E);
  retry : RetryPolicy;
  maxSteps : Z;
}.

Arguments mkEngine {E}.
Arguments graph {E} e.
Arguments memoryStore {E} e.
Arguments taskStore {E} e.
Arguments eventBus {E} e.
Arguments hooks {E} e.
Arguments retry {E} e.
Arguments maxSteps {E} e.

Definition EngineOptions (E : Type) := Engine E -> Engine E.

Definition WithMaxSteps {E} (steps : Z) : EngineOptions E := fun e =>
  mkEngine (graph e) (memoryStore e) (taskStore e) (eventBus e) (hooks e) (retry e) steps.

Definition WithHooks {E} (hs : list (LifecycleHook E)) : EngineOptions E := fun e =>
  mkEngine (graph e) (memoryStore e) (taskStore e) (eventBus e) (hooks e ++ hs) (retry e)
    (maxSteps e).

Definition WithRetryPolicy {E} (rp : RetryPolicy) : EngineOptions E := fun e =>
  mkEngine (graph e) (memoryStore e) (taskStore e) (eventBus e) (hooks e) rp (maxSteps e).

Definition WithTaskStore {E} (ts : TaskStore E) : EngineOptions E := fun e =>
  mkEngine (graph e) (memoryStore e) (Some ts) (eventBus e) (hooks e) (retry e) (maxSteps e).

Definition NewEngine {E} (g : option (Graph E)) (mem : MemoryStore E) (bus : option (EventBus E))
    (opts : list (EngineOptions E)) : Engine E :=
  foldl (fun e opt => opt e) (mkEngine g mem None bus [] DefaultRetryPolicy 100) opts.

Definition slice_bounds : string := "slice bounds out of range".

Section engine.
Context {E : Type}.
Implicit Types e : Engine E.

Definition fireHooks e (state : option loc) (meta : HookMeta) : M E unit :=
  for_each (fun h => recovering (OnHook h state meta)) (hooks e).

(** The first edge that leaves the last node; a conditional edge with a nil
    router panics. *)
Fixpoint first_edge (es : list (Edge E)) (from : string) : option (Edge E) :=
  match es with
  | [] => None
  | edge :: es' => if decide (FromID edge = from) then Some edge else first_edge es' from
  end.

Definition resolveNextNode e (ctx : context) (state : loc) : M E (string * option error) :=
  g <- deref (graph e) ;;
  s <- load state ;;
  match first_edge (Edges g) (LastNodeID s) with
  | None => ret ("", None)
  | Some edge =>
      if IsCond edge then
        router <- deref (Router edge) ;;
        router ctx state
      else ret (ToID edge, None)
  end.

(** The closure assigns the captured [result] only when the node succeeds. *)
Definition processNodeWithRetry e (ctx : context) (node : Node E) (state : loc) :
    M E (option NodeResult * option error) :=
  Execute (retry e) ctx
    (fun result =>
       let* (r, err) := node_Process node ctx state in
       match err with
       | Some x => ret (result, Some x)
       | None => ret (r, None)
       end)
    None.

(** [state = state.WithStatus(st); _, _ = e.memoryStore.Save(ctx, sessionID, state)]. *)
Definition save_as e (ctx : context) (sessionID : string) (st : AgentStatus) (state : loc) :
    M E loc :=
  state' <- WithStatus state st ;;
  ms_Save (memoryStore e) ctx sessionID state' ;;
  ret state'.

(** [if e.eventBus != nil { _ = e.eventBus.Publish(AgentPaused ...) }]; the
    payload is computed only when there is a bus. *)
Definition publish_paused e (sessionID : string) (payload : M E amap) : M E unit :=
  match eventBus e with
  | None => ret tt
  | Some bus =>
      p <- payload ;;
      bus_Publish bus (mkEvent EventAgentPaused sessionID "" p zero_Time) ;;
      ret tt
  end.

(** [if state.TaskID != "" && e.taskStore != nil { ... UpdateStatus ... }]. *)
Definition update_task e (ctx : context) (state : loc) (st : TaskState) (msg : string) : M E unit :=
  s <- load state ;;
  match taskStore e with
  | Some ts =>
      if bool_decide (TaskID s = "") then ret tt
      else
        t <- now ;;
        tks_UpdateStatus ts ctx (TaskID s) (mkTaskStatus st t msg) ;;
        ret tt
  | None => ret tt
  end.

(** The branch [if err != nil] of the loop. *)
Definition handle_error e (ctx : context) (sessionID nodeID : string) (elapsed : Duration)
    (state : loc) (err : error) : M E (option loc * option error) :=
  s <- load state ;;
  fireHooks e (Some state) (mkHookMeta HookOnError nodeID (StepCount s) elapsed (Some err)) ;;
  update_task e ctx state TaskStateFailed (Error err) ;;
  match errors_As err with
  | Some ae =>
      if decide (ae_Category ae = ErrCategoryHumanNeeded) then
        state' <- save_as e ctx sessionID StatusPaused state ;;
        publish_paused e sessionID
          (cause <- deref (ae_Cause ae) ;; ret [("reason", AString (Error cause))]) ;;
        ret (Some state', None)
      else
        state' <- save_as e ctx sessionID StatusFailed state ;;
        ret (Some state', Some err)
  | None =>
      state' <- save_as e ctx sessionID StatusFailed state ;;
      ret (Some state', Some err)
  end.

(** [result.State.Artifacts[len(state.Artifacts):]] panics when the result has
    fewer artifacts. Each call reads [result.State.TaskID] again. *)
Definition sync_task e (ctx : context) (nodeID : string) (state rs : loc) : M E unit :=
  r <- load rs ;;
  match taskStore e with
  | None => ret tt
  | Some ts =>
      if bool_decide (TaskID r = "") then ret tt
      else
        s <- load state ;;
        if Nat.ltb (length (Artifacts r)) (length (Artifacts s)) then panic slice_bounds
        else
          for_each (fun a =>
              r' <- load rs ;;
              tks_AppendArtifact ts ctx (TaskID r') a ;;
              ret tt)
            (drop (length (Artifacts s)) (Artifacts r)) ;;
          r' <- load rs ;;
          t <- now ;;
          tks_UpdateStatus ts ctx (TaskID r')
            (mkTaskStatus (MapAgentStatusToTaskState (Status r')) t ("Completed node " +:+ nodeID)) ;;
          ret tt
  end.

(** [if result.State != nil { ... state = result.State }]. *)
Definition adopt_state e (ctx : context) (nodeID : string) (state : loc) (rs : option loc) :
    M E loc :=
  match rs with
  | None => ret state
  | Some rs =>
      s <- load state ;;
      modify rs (set_StepCount (StepCount s)) ;;
      modify rs (set_LastNodeID nodeID) ;;
      sync_task e ctx nodeID state rs ;;
      ret rs
  end.

(** [nextNodeID], or the error of a router. *)
Definition choose_next e (ctx : context) (state : loc) (next : list string) :
    M E (string * option error) :=
  match next with
  | n :: _ => ret (n, None)
  | [] => resolveNextNode e ctx state
  end.

(** The rest of the iteration after a node succeeded: [inl] when the loop goes
    on with this state, [inr] when it returns. *)
Definition handle_result e (ctx : context) (sessionID nodeID : string) (elapsed : Duration)
    (state : loc) (res : option NodeResult) : M E (loc + (option loc * option error)) :=
  result <- deref res ;;
  s <- load state ;;
  fireHooks e (nr_State result) (mkHookMeta HookAfterNode nodeID (StepCount s) elapsed None) ;;
  state <- adopt_state e ctx nodeID state (nr_State result) ;;
  match nr_Interrupt result with
  | Some signal =>
      state' <- save_as e ctx sessionID StatusPaused state ;;
      publish_paused e sessionID (ret (int_Payload signal)) ;;
      ret (inr (Some state', None))
  | None =>
      let* (nextNodeID, rErr) := choose_next e ctx state (nr_NextNodes result) in
      match rErr with
      | Some x =>
          state' <- save_as e ctx sessionID StatusFailed state ;;
          ret (inr (Some state', Some x))
      | None =>
          if bool_decide (nextNodeID = "") then
            g <- deref (graph e) ;;
            if is_terminal g nodeID then
              state' <- save_as e ctx sessionID StatusCompleted state ;;
              ret (inr (Some state', None))
            else
              state' <- save_as e ctx sessionID StatusFailed state ;;
              ret (inr (Some state', Some ErrNoNextNode))
          else
            modify state (set_LastNodeID nextNodeID) ;;
            ret (inl state)
      end
  end.

(** One iteration of the loop. *)
Definition loop_body e (ctx : context) (sessionID : string) (state : loc) :
    M E (loc + (option loc * option error)) :=
  s <- load state ;;
  if bool_decide (Status s = StatusFailed) || bool_decide (Status s = StatusCompleted) then
    let* (_, err) := ms_Save (memoryStore e) ctx sessionID state in
    ret (inr (Some state, err))
  else if (maxSteps e <=? StepCount s)%Z then
    state' <- save_as e ctx sessionID StatusFailed state ;;
    ret (inr (Some state', Some ErrMaxStepsExceeded))
  else
    let currentNodeID := LastNodeID s in
    g <- deref (graph e) ;;
    match Graph_Node g currentNodeID with
    | None =>
        state' <- save_as e ctx sessionID StatusFailed state ;;
        ret (inr (Some state', Some ErrNoNextNode))
    | Some node =>
        fireHooks e (Some state) (mkHookMeta HookBeforeNode currentNodeID (StepCount s) 0%Z None) ;;
        nodeStart <- now ;;
        let* (result, err) := processNodeWithRetry e ctx node state in
        t <- now ;;
        let elapsed := (t - nodeStart)%Z in
        modify state (fun s => set_StepCount (int64 (StepCount s + 1)) s) ;;
        match err with
        | Some x =>
            r <- handle_error e ctx sessionID currentNodeID elapsed state x ;;
            ret (inr r)
        | None => handle_result e ctx sessionID currentNodeID elapsed state result
        end
    end.

Fixpoint loop (fuel : nat) e (ctx : context) (sessionID : string) (state : loc) :
    M E (option loc * option error) :=
  match fuel with
  | O => out_of_fuel
  | S f =>
      r <- loop_body e ctx sessionID state ;;
      match r with
      | inl state' => loop f e ctx sessionID state'
      | inr r => ret r
      end
  end.

(** [runLoop] puts the session in the context before it loops. *)
Definition runLoop (fuel : nat) e (ctx : context) (sessionID : string) (currentState : loc) :
    M E (option loc * option error) :=
  loop fuel e (WithValue ctx (KContextKey "session_id") (AString sessionID)) sessionID currentState.

Definition Start (fuel : nat) e (ctx : context) (sessionID : string) (initialState : option loc) :
    M E (option loc * option error) :=
  state <- match initialState with Some l => ret l | None => alloc NewState end ;;
  state <- WithStatus state StatusRunning ;;
  s <- load state ;;
  (if bool_decide (LastNodeID s = "") then g <- deref (graph e) ;; modify state (set_LastNodeID (Entry g))
   else ret tt) ;;
  runLoop fuel e ctx sessionID state.

(** [for k, v := range injection { state = state.WithVariable(k, v) }] in the
    order [injection] in which the runtime ranges over the map. *)
Fixpoint inject (injection : list (string * any)) (state : loc) : M E loc :=
  match injection with
  | [] => ret state
  | kv :: rest =>
      state' <- WithVariable state kv.1 kv.2 ;;
      inject rest state'
  end.

Definition Resume (fuel : nat) e (ctx : context) (sessionID : string)
    (injection : list (string * any)) : M E (option loc * option error) :=
  let* (loaded, err) := ms_Load (memoryStore e) ctx sessionID in
  match err with
  | Some x => ret (None, Some x)
  | None =>
      state <- deref loaded ;;
      s <- load state ;;
      if bool_decide (Status s = StatusPaused) then
        state <- inject injection state ;;
        state <- WithStatus state StatusRunning ;;
        let* (nextNodeID, rErr) := resolveNextNode e ctx state in
        match rErr with
        | Some x => ret (None, Some x)
        | None =>
            if bool_decide (nextNodeID = "") then
              s <- load state ;;
              g <- deref (graph e) ;;
              if is_terminal g (LastNodeID s) then
                state' <- save_as e ctx sessionID StatusCompleted state ;;
                ret (Some state', None)
              else ret (None, Some ErrNoNextNode)
            else
              modify state (set_LastNodeID nextNodeID) ;;
              runLoop fuel e ctx sessionID state
        end
      else ret (Some state, None)
  end.
End engine.

(** ** Contracts and specifications *)

(** What the engine needs to end: every part it calls ends, and leaves the step
    counts to the engine. *)
Class EngineOK {E} (e : Engine E) : Prop := {
  ok_hooks : forall h p meta, h ∈ hooks e -> ends keeps_steps (OnHook h p meta);
  ok_nodes : forall g id n ctx l,
    graph e = Some g -> Nodes g !! id = Some n -> ends keeps_steps (node_Process n ctx l);
  ok_routers : forall g edge r ctx l,
    graph e = Some g -> edge ∈ Edges g -> Router edge = Some r -> ends keeps_steps (r ctx l);
  ok_memory :: MemoryStoreOK (memoryStore e);
  ok_tasks : forall ts, taskStore e = Some ts -> TaskStoreOK ts;
  ok_bus : forall bus, eventBus e = Some bus -> EventBusOK bus;
}.

Definition steps_at {E} (n : Z) (l : loc) (w : World E) : Prop :=
  exists s, w_heap w !! l = Some s /\ StepCount s = n.

(** The state a [return] of the loop hands back and its step count, when the
    iteration began at [n] steps. *)
Definition returned_steps {E} (e : Engine E) (n : Z) (r : option loc * option error)
    (w : World E) : Prop :=
  exists l' n', r.1 = Some l' /\ steps_at n' l' w /\ (n <= n' <= Z.max n (maxSteps e))%Z.

(** How the loop returns, of the status of the returned state, the returned
    error, the error of the last [Save] and whether the pause is announced: the
    status a node set itself, a failure, a completion or a pause. *)
Inductive exit_kind : AgentStatus -> option error -> option error -> bool -> Prop :=
  | exit_own st serr :
      st = StatusFailed \/ st = StatusCompleted -> exit_kind st serr serr false
  | exit_failed err serr : exit_kind StatusFailed (Some err) serr false
  | exit_completed serr : exit_kind StatusCompleted None serr false
  | exit_paused serr : exit_kind StatusPaused None serr true.

Definition announced {E} (e : Engine E) (sid : string) (w1 w' : World E) : Prop :=
  match eventBus e with
  | None => w' = w1
  | Some bus => exists payload err,
      bus_Publish bus (mkEvent EventAgentPaused sid "" payload zero_Time) w1 = (Ret err, w')
  end.

(** The returned state was saved with the status it is returned with, and
    nothing ran after that [Save] but the announcement of a pause. *)
Definition saved_exit {E} (e : Engine E) (ctx : context) (sid : string)
    (r : option loc * option error) (w' : World E) : Prop :=
  exists l s ckpt serr w0 w1 (pause : bool),
    r.1 = Some l /\ w_heap w0 !! l = Some s /\
    ms_Save (memoryStore e) ctx sid l w0 = (Ret (ckpt, serr), w1) /\
    exit_kind (Status s) r.2 serr pause /\
    (if pause then announced e sid w1 w' else w' = w1).

(** The tasks' store that records what it is told. *)
Definition recording_store {E} `{Has (list (string * string)) E} : TaskStore E :=
  let log (what : string) (arg : string) : M E (option error) :=
    h <- get (T := list (string * string)) ;; put (h ++ [(what, arg)]) ;; ret None in
  mkTaskStore
    (fun _ t => log "Create" (task_ID t))
    (fun _ _ => ret (None, None))
    (fun _ _ st => log "UpdateStatus" (ts_State st))
    (fun _ _ _ => ret None)
    (fun _ _ a => log "AppendArtifact" (art_ID a))
    (fun _ _ _ => ret None)
    (fun _ _ => ret ([], None))
    (fun _ _ _ _ => ret ([], "", None)).

(** ** Lemmas *)

Section lemmas.
Context {E : Type}.
Implicit Types (e : Engine E) (w : World E).

Lemma steps_at_keeps n l w w' : steps_at n l w -> keeps_steps w w' -> steps_at n l w'.
Proof. intros (s & Hl & <-) Hk. destruct (Hk l s Hl) as (s' & ? & ?). by exists s'. Qed.

Lemma frames_WithStatus l st : frames (WithStatus (E := E) l st).
Proof. apply frames_bind; auto with flux. Qed.

Lemma ends_execute {R} p ctx (fn : R -> M E (R * option error)) n attempt delay r :
  (forall r, ends keeps_steps (fn r)) ->
  ends keeps_steps (execute_loop p ctx fn n attempt delay r).
Proof.
  intros Hfn. revert attempt delay r.
  induction n as [|n IH]; intros attempt delay r; simpl; [apply ends_ret, _|].
  apply ends_bind; [apply _ | apply Hfn | intros [r' err]].
  destruct err as [err|]; [|apply ends_ret, _]. destruct (retriable err); [|apply ends_ret, _].
  destruct (_ =? _)%Z; [apply ends_ret, _|].
  apply ends_bind; [apply _ | apply frames_keeps, frames_ask | intros u].
  apply ends_bind; [apply _ | apply frames_keeps, frames_wait | intros [err'|]]; [apply ends_ret, _|].
  apply IH.
Qed.

Section ok.
Context (e : Engine E) `{!EngineOK e}.

Lemma ends_fireHooks p meta : ends keeps_steps (fireHooks e p meta).
Proof.
  apply ends_for_each; [apply _|]. intros h Hh. apply ends_recovering. by apply ok_hooks.
Qed.

Lemma ends_process g ctx id node l :
  graph e = Some g -> Nodes g !! id = Some node -> ends keeps_steps (processNodeWithRetry e ctx node l).
Proof.
  intros Hg Hn. apply ends_execute. intros r.
  apply ends_bind; [apply _ | by eapply ok_nodes | intros [r' err]].
  destruct err; apply ends_ret, _.
Qed.

Lemma first_edge_elem es from (edge : Edge E) : first_edge es from = Some edge -> edge ∈ es.
Proof.
  induction es as [|x es IH]; simpl; [done|]. case_decide; intros; simplify_eq; [left | right; auto].
Qed.

Lemma ends_resolve ctx l : ends keeps_steps (resolveNextNode e ctx l).
Proof.
  apply ends_deref_bind; [apply _ | intros g Hg].
  apply ends_bind; [apply _ | apply ends_load, _ | intros s].
  destruct (first_edge _ _) as [edge|] eqn:He; [|apply ends_ret, _].
  destruct (IsCond edge); [|apply ends_ret, _]. destruct (Router edge) as [r|] eqn:Hr.
  - intros w. apply wp_bind, wp_ret. eapply ok_routers; [done | by eapply first_edge_elem | done].
  - intros w. apply wp_bind, wp_panic. split; [done | reflexivity].
Qed.

Lemma frames_save_as ctx sid st l : frames (save_as e ctx sid st l).
Proof.
  apply frames_bind; [apply frames_WithStatus | intros l'].
  apply frames_bind; [apply save_frames | auto with flux].
Qed.

Lemma frames_publish_paused sid payload : frames payload -> frames (publish_paused e sid payload).
Proof.
  intros Hp. unfold publish_paused. destruct (eventBus e) as [bus|] eqn:Hbus; [|auto with flux].
  pose proof (ok_bus bus Hbus) as Hok.
  apply frames_bind; [done | intros p]. apply frames_bind; [|auto with flux].
  apply publish_frames.
Qed.

Lemma frames_update_task ctx l st msg : frames (update_task e ctx l st msg).
Proof.
  apply frames_bind; [apply frames_load | intros s].
  destruct (taskStore e) as [ts|] eqn:Hts; [|auto with flux].
  pose proof (ok_tasks ts Hts) as Hok. case_match; [auto with flux|]. apply frames_bind; [apply frames_ask | intros t].
  apply frames_bind; [apply update_status_frames | auto with flux].
Qed.

Lemma frames_sync_task ctx id l rs : frames (sync_task e ctx id l rs).
Proof.
  apply frames_bind; [apply frames_load | intros r].
  destruct (taskStore e) as [ts|] eqn:Hts; [|auto with flux].
  pose proof (ok_tasks ts Hts) as Hok. case_match; [auto with flux|]. apply frames_bind; [apply frames_load | intros s].
  case_match; [apply ends_panic, _|]. apply frames_bind; [|intros _].
  - apply ends_for_each; [apply _ | intros a _].
    apply frames_bind; [apply frames_load | intros r'].
    apply frames_bind; [apply append_artifact_frames | auto with flux].
  - apply frames_bind; [apply frames_load | intros r']. apply frames_bind; [apply frames_ask | intros t].
    apply frames_bind; [apply update_status_frames | auto with flux].
Qed.

(** From here on: the step count through one iteration. *)
Lemma steps_save_as n ctx sid st l w :
  steps_at n l w -> wp (save_as e ctx sid st l) (may_panic (fun l' => steps_at n l')) w.
Proof.
  intros (s & Hl & <-). apply wp_bind. eapply wp_WithStatus; [done|].
  eapply (mp_bind_ends keeps_steps); [apply frames_keeps, save_frames | intros _ w' Hw].
  apply wp_ret. eapply steps_at_keeps; [|exact Hw]. exists (with_status st s).
  split; [apply lookup_snoc_eq | done].
Qed.

Lemma steps_return n (err : option error) l w :
  steps_at n l w ->
  wp (ret (E := E) (Some l, err)) (may_panic (fun r w' => exists l', r.1 = Some l' /\ steps_at n l' w')) w.
Proof. intros. apply wp_ret. by exists l. Qed.

Lemma steps_save_return n ctx sid st (err : option error) l w :
  steps_at n l w ->
  wp (state' <- save_as e ctx sid st l ;; ret (Some state', err))
    (may_panic (fun r w' => exists l', r.1 = Some l' /\ steps_at n l' w')) w.
Proof.
  intros. eapply mp_bind; [by apply steps_save_as|]. intros l' w' ?. by apply steps_return.
Qed.

Lemma steps_handle_error n ctx sid id d l err w :
  steps_at n l w ->
  wp (handle_error e ctx sid id d l err)
    (may_panic (fun r w' => exists l', r.1 = Some l' /\ steps_at n l' w')) w.
Proof.
  intros Hn. unfold handle_error. apply mp_load. intros s _.
  eapply (mp_bind_ends keeps_steps); [apply ends_fireHooks | intros _ w1 Hw1].
  eapply (mp_bind_ends keeps_steps); [apply frames_keeps, frames_update_task | intros _ w2 Hw2].
  assert (steps_at n l w2) as Hn2 by (eapply steps_at_keeps; [|done]; by eapply steps_at_keeps).
  destruct (errors_As err) as [ae|]; [|by apply steps_save_return].
  case_decide; [|by apply steps_save_return].
  eapply mp_bind; [by apply steps_save_as | intros l' w3 Hw3].
  eapply (mp_bind_ends keeps_steps); [apply frames_keeps, frames_publish_paused | intros _ w4 Hw4].
  - apply frames_bind; [apply ends_deref, _ | auto with flux].
  - apply steps_return. by eapply steps_at_keeps.
Qed.

Lemma steps_adopt n ctx id l rs w :
  steps_at n l w -> wp (adopt_state e ctx id l rs) (may_panic (fun l' => steps_at n l')) w.
Proof.
  intros Hn. unfold adopt_state. destruct rs as [rs|]; [|by apply wp_ret].
  apply mp_load. intros s Hl. destruct Hn as (s0 & Hl0 & <-).
  assert (s0 = s) as -> by congruence.
  eapply mp_bind; [apply (mp_modify _ _ (fun _ => steps_at (StepCount s) rs))|].
  { intros r Hr. exists (set_StepCount (StepCount s) r). split; [|done]. simpl.
    rewrite list_lookup_insert_eq; [done | by eapply lookup_lt_Some]. }
  intros _ w1 (r1 & Hr1 & Hs1).
  eapply mp_bind; [apply (mp_modify _ _ (fun _ => steps_at (StepCount s) rs))|].
  { intros r Hr. exists (set_LastNodeID id r). simpl. split; [|congruence].
    rewrite list_lookup_insert_eq; [done | by eapply lookup_lt_Some]. }
  intros ? w2 Hw2. eapply (mp_bind_ends keeps_steps);
    [apply frames_keeps, frames_sync_task | intros _ w3 Hw3].
  apply wp_ret. eapply steps_at_keeps; [exact Hw2 | done].
Qed.

Lemma ends_choose_next ctx l next : ends keeps_steps (choose_next e ctx l next).
Proof. destruct next; [apply ends_resolve | apply ends_ret, _]. Qed.

(** What an iteration that counted a step hands on. *)
Definition stepped (n : Z) (r : loc + (option loc * option error)) (w : World E) : Prop :=
  match r with
  | inl l' => steps_at n l' w
  | inr r => exists l', r.1 = Some l' /\ steps_at n l' w
  end.

Lemma stepped_save n ctx sid st (err : option error) l w :
  steps_at n l w ->
  wp (state' <- save_as e ctx sid st l ;; ret (inr (Some state', err))) (may_panic (stepped n)) w.
Proof.
  intros. eapply mp_bind; [by apply steps_save_as | intros l' w' ?]. apply wp_ret. by exists l'.
Qed.

Lemma steps_handle_result n ctx sid id d l res w :
  steps_at n l w ->
  wp (handle_result e ctx sid id d l res) (may_panic (stepped n)) w.
Proof.
  intros Hn. unfold handle_result. apply mp_deref. intros result _. apply mp_load. intros s _.
  eapply (mp_bind_ends keeps_steps); [apply ends_fireHooks | intros _ w1 Hw1].
  eapply mp_bind; [eapply steps_adopt, steps_at_keeps; done | intros l2 w2 Hn2].
  destruct (nr_Interrupt result) as [signal|].
  - eapply mp_bind; [by apply steps_save_as | intros l' w3 Hw3].
    eapply (mp_bind_ends keeps_steps); [apply frames_keeps, frames_publish_paused | intros _ w4 Hw4].
    { auto with flux. }
    apply wp_ret. exists l'. split; [done | by eapply steps_at_keeps].
  - eapply (mp_bind_ends keeps_steps); [apply ends_choose_next | intros [next rerr] w3 Hw3].
    assert (steps_at n l2 w3) as Hn3 by by eapply steps_at_keeps.
    destruct rerr; [by apply stepped_save|].
    case_match; [apply mp_deref; intros g Hg; case_match; by apply stepped_save|].
    eapply mp_bind; [apply (mp_modify _ _ (fun _ => steps_at n l2)) | intros ? w4 ?; by apply wp_ret].
    intros r Hr. destruct Hn3 as (r' & Hr' & <-).
    assert (r' = r) as -> by congruence. exists (set_LastNodeID next r).
    split; [|done]. simpl. rewrite list_lookup_insert_eq; [done | by eapply lookup_lt_Some].
Qed.

Definition iterated (n : Z) (r : loc + (option loc * option error)) (w : World E) : Prop :=
  match r with
  | inl l' => (n < maxSteps e)%Z /\ steps_at (n + 1) l' w
  | inr r => returned_steps e n r w
  end.

(** One iteration begun at [n] steps: it goes on with exactly one step more,
    which the bound allowed, or it returns within the bound. *)
Lemma loop_body_steps n ctx sid l w :
  in_int64 n -> in_int64 (maxSteps e) -> steps_at n l w ->
  wp (loop_body e ctx sid l) (may_panic (iterated n)) w.
Proof.
  intros Hn Hm Hs. unfold loop_body. apply mp_load. intros s Hl.
  assert (StepCount s = n) as Hsn by (destruct Hs as (s0 & ? & <-); by simplify_eq).
  case_match.
  { eapply (mp_bind_ends keeps_steps); [apply frames_keeps, save_frames | intros [? err] w' Hw].
    apply wp_ret. exists l, n. split_and!; [done | by eapply steps_at_keeps | lia | lia]. }
  assert (Hsave : forall err,
    wp (state' <- save_as e ctx sid StatusFailed l ;; ret (inr (Some state', err)))
      (may_panic (iterated n)) w).
  { intros err. eapply mp_bind; [by apply steps_save_as | intros l' w' ?]. apply wp_ret.
    exists l', n. split_and!; [done | done | lia | lia]. }
  destruct (Z.leb_spec (maxSteps e) (StepCount s)) as [Hle|Hlt]; [apply Hsave|].
  apply mp_deref. intros g Hg. destruct (Graph_Node _ _) as [node|] eqn:Hnode; [|apply Hsave]. clear Hsave.
  eapply (mp_bind_ends keeps_steps); [apply ends_fireHooks | intros _ w1 Hw1].
  eapply (mp_bind_ends keeps_steps); [apply frames_keeps, frames_ask | intros t1 w2 Hw2].
  eapply (mp_bind_ends keeps_steps); [by eapply ends_process | intros [res err] w3 Hw3].
  eapply (mp_bind_ends keeps_steps); [apply frames_keeps, frames_ask | intros t2 w4 Hw4].
  assert (steps_at n l w4) as (s4 & Hl4 & Hs4) by (repeat (eapply steps_at_keeps; [|done]); done).
  eapply mp_bind; [apply (mp_modify _ _ (fun _ => steps_at (n + 1) l))|].
  { intros r Hr. assert (s4 = r) as -> by congruence. exists (set_StepCount (int64 (StepCount r + 1)) r). simpl.
    rewrite list_lookup_insert_eq by by eapply lookup_lt_Some. split; [done|].
    rewrite Hs4. apply int64_id. unfold in_int64 in *. lia. }
  intros ? w5 Hw5. destruct err as [err|].
  - eapply mp_bind; [eapply steps_handle_error; exact Hw5 | intros r w6 (l' & Hr & Hl')]. apply wp_ret.
    exists l', (n + 1)%Z. split_and!; [done | done | lia | lia].
  - eapply wp_mono; [apply steps_handle_result; exact Hw5|]. intros [[l'|r]|v|] w6; simpl; try done.
    + intros ?. split; [lia | done].
    + intros (l' & Hr & Hl'). exists l', (n + 1)%Z. split_and!; [done | done | lia | lia].
Qed.

Lemma loop_steps fuel n ctx sid l w :
  in_int64 n -> in_int64 (maxSteps e) -> steps_at n l w ->
  Z.to_nat (maxSteps e - n) < fuel ->
  wp (loop fuel e ctx sid l) (may_panic (returned_steps e n)) w.
Proof.
  revert n l w. induction fuel as [|fuel IH]; intros n l w Hn Hm Hs Hf; [lia|].
  simpl. eapply mp_bind; [by apply (loop_body_steps n)|]. intros [l'|r] w'; [|by intros; apply wp_ret].
  intros [Hlt Hs']. eapply wp_mono; [apply (IH (n + 1)%Z); try done; unfold in_int64 in *; lia|].
  intros [r|v|] w''; simpl; try done. intros (l'' & n'' & ? & ? & ?).
  exists l'', n''. split_and!; [done | done | lia | lia].
Qed.
End ok.
End lemmas.

(** ** Lemmas: how the loop returns *)

Section exits.
Context {E : Type} (e : Engine E) (ctx : context) (sid : string).
Implicit Types w : World E.

Definition just_saved (st : AgentStatus) (l : loc) (w : World E) : Prop :=
  exists s ckpt serr w0,
    w_heap w0 !! l = Some s /\ Status s = st /\
    ms_Save (memoryStore e) ctx sid l w0 = (Ret (ckpt, serr), w).

Lemma exit_save_as st l w : wp (save_as e ctx sid st l) (if_returns (just_saved st)) w.
Proof.
  unfold save_as. apply ir_bind. intros l' w1 H1. apply ir_bind. intros [ckpt serr] w2 H2.
  apply wp_ret. unfold WithStatus, bind, load in H1. destruct (w_heap w !! l) as [s|]; [|done].
  injection H1 as <- <-.
  exists (with_status st s), ckpt, serr, (set_heap (w_heap w ++ [with_status st s]) w).
  split_and!; [apply lookup_snoc_eq | done | done].
Qed.

Lemma exit_publish payload w :
  (forall p w1, payload w = (Ret p, w1) -> w1 = w) ->
  wp (publish_paused e sid payload) (if_returns (fun _ => announced e sid w)) w.
Proof.
  intros Hp. unfold publish_paused, announced. destruct (eventBus e) as [bus|]; [|by apply wp_ret].
  apply ir_bind. intros p w1 H1. apply Hp in H1 as ->. apply ir_bind. intros err w2 H2.
  apply wp_ret. by exists p, err.
Qed.

Definition exits (r : loc + (option loc * option error)) (w' : World E) : Prop :=
  match r with inl _ => True | inr r => saved_exit e ctx sid r w' end.

Lemma exit_saved st err l w :
  (forall serr, exit_kind st err serr false) ->
  wp (state' <- save_as e ctx sid st l ;; ret (Some state', err)) (if_returns (saved_exit e ctx sid)) w.
Proof.
  intros Hk. apply ir_bind. intros l' w1 H1. apply wp_ret.
  pose proof (exit_save_as st l w) as Hs. unfold wp in Hs. rewrite H1 in Hs.
  destruct Hs as (s & ckpt & serr & w0 & Hl & Hst & Hsave).
  exists l', s, ckpt, serr, w0, w1, false. rewrite Hst. by split_and!.
Qed.

Lemma exit_paused_saved payload l w :
  (forall p w w1, payload w = (Ret p, w1) -> w1 = w) ->
  wp (state' <- save_as e ctx sid StatusPaused l ;;
      publish_paused e sid payload ;;
      ret (Some state', None)) (if_returns (saved_exit e ctx sid)) w.
Proof.
  intros Hp. apply ir_bind. intros l' w1 H1.
  pose proof (exit_save_as StatusPaused l w) as Hs. unfold wp in Hs. rewrite H1 in Hs.
  destruct Hs as (s & ckpt & serr & w0 & Hl & Hst & Hsave).
  apply ir_bind. intros ? w2 H2. apply wp_ret.
  pose proof (exit_publish payload w1 (fun p w' => Hp p w1 w')) as Ha. unfold wp in Ha.
  rewrite H2 in Ha. exists l', s, ckpt, serr, w0, w1, true. rewrite Hst.
  split_and!; try done. constructor.
Qed.

(** A [return] of the branch of a successful node. *)
Lemma exits_inr (m : M E (option loc * option error)) w :
  wp m (if_returns (saved_exit e ctx sid)) w ->
  wp (r <- m ;; ret (inr r)) (if_returns exits) w.
Proof. intros Hm. unfold wp, bind in *. by destruct (m w) as [[] w']. Qed.

Lemma exits_save st err l w :
  (forall serr, exit_kind st err serr false) ->
  wp (state' <- save_as e ctx sid st l ;; ret (inr (Some state', err))) (if_returns exits) w.
Proof.
  intros Hk. pose proof (exit_saved st err l w Hk) as Hs. unfold wp, bind in *.
  by destruct (save_as e ctx sid st l w) as [[] ?].
Qed.

Lemma exits_pause payload l w :
  (forall p w w1, payload w = (Ret p, w1) -> w1 = w) ->
  wp (state' <- save_as e ctx sid StatusPaused l ;;
      publish_paused e sid payload ;;
      ret (inr (Some state', None))) (if_returns exits) w.
Proof.
  intros Hp. pose proof (exit_paused_saved payload l w Hp) as Hs. unfold wp, bind in *.
  destruct (save_as e ctx sid _ l w) as [[] ?]; try done.
  by destruct (publish_paused e sid payload _) as [[] ?].
Qed.

Lemma exit_handle_error id d l err w :
  wp (handle_error e ctx sid id d l err) (if_returns (saved_exit e ctx sid)) w.
Proof.
  unfold handle_error. do 3 (apply ir_bind; intros ? ? _).
  assert (Hf : forall w, wp (state' <- save_as e ctx sid StatusFailed l ;; ret (Some state', Some err))
                           (if_returns (saved_exit e ctx sid)) w).
  { intros. apply exit_saved. constructor. }
  destruct (errors_As err) as [ae|]; [|done]. case_decide; [|done].
  apply exit_paused_saved. intros p w1 w2. unfold bind, deref.
  destruct (ae_Cause ae); [|done]. intros Hr. by injection Hr.
Qed.

Lemma exit_handle_result id d l res w :
  wp (handle_result e ctx sid id d l res) (if_returns exits) w.
Proof.
  unfold handle_result. apply ir_bind. intros result w1 _. do 2 (apply ir_bind; intros ? ? _).
  apply ir_bind. intros l2 w4 _. destruct (nr_Interrupt result).
  { apply exits_pause. intros p w5 w6 Hp. by injection Hp. }
  apply ir_bind. intros [next [x|]] w5 _; [apply exits_save; constructor|].
  case_match; [apply ir_bind; intros g w6 _; case_match; apply exits_save; constructor|].
  by apply ir_bind.
Qed.

Lemma exit_loop_body l w : wp (loop_body e ctx sid l) (if_returns exits) w.
Proof.
  unfold loop_body. apply ir_bind. intros s w1 H1.
  assert (w1 = w /\ w_heap w !! l = Some s) as [-> Hl].
  { unfold load in H1. destruct (w_heap w !! l); simplify_eq. done. }
  destruct (bool_decide _ || bool_decide _) eqn:Hst.
  { apply ir_bind. intros [ckpt serr] w2 H2. apply wp_ret.
    exists l, s, ckpt, serr, w, w2, false. split_and!; try done. constructor.
    apply orb_prop in Hst as [?%bool_decide_eq_true|?%bool_decide_eq_true]; auto. }
  case_match; [apply exits_save; constructor|].
  apply ir_bind. intros g w1 _. destruct (Graph_Node _ _) as [node|]; [|apply exits_save; constructor].
  apply ir_bind. intros ? w2 _. apply ir_bind. intros t1 w3 _.
  apply ir_bind. intros [res err] w4 _. do 2 (apply ir_bind; intros ? ? _).
  destruct err; [apply exits_inr, exit_handle_error | apply exit_handle_result].
Qed.

Lemma exit_loop fuel l w : wp (loop fuel e ctx sid l) (if_returns (saved_exit e ctx sid)) w.
Proof.
  revert l w. induction fuel as [|fuel IH]; intros l w; [done|]. simpl.
  apply ir_bind. intros r w1 H1. pose proof (exit_loop_body l w) as Hb. unfold wp in Hb.
  rewrite H1 in Hb. destruct r; [apply IH | by apply wp_ret].
Qed.
End exits.

(** ** Lemmas: hooks and tasks *)

Section more_lemmas.
Context {E : Type}.
Implicit Types (e : Engine E) (w : World E).

Lemma recovering_eq (m : M E unit) w :
  (m w).1 <> OutOfFuel -> recovering m w = (Ret tt, (m w).2).
Proof. unfold recovering. by destruct (m w) as [[[]|v|] w']. Qed.

Lemma for_each_eq {A} (f : A -> M E unit) l w :
  (forall x w, x ∈ l -> (f x w).1 = Ret tt) ->
  for_each f l w = (Ret tt, foldl (fun w x => (f x w).2) w l).
Proof.
  revert w. induction l as [|x l IH]; intros w Hf; [done|]. simpl. unfold bind.
  destruct (f x w) as [o w'] eqn:Hx. pose proof (Hf x w) as H. rewrite Hx in H.
  simpl in *. rewrite H by left. apply IH. intros y w1 Hy. apply Hf. by right.
Qed.

Context `{!Has (list (string * string)) E}.

Definition add_log (h : list (string * string)) (w : World E) : World E :=
  set_ext (set_of (get_of (w_ext w) ++ h) (w_ext w)) w.

Lemma get_add_log h w : get_of (w_ext (add_log h w)) = get_of (w_ext w) ++ h.
Proof. simpl. by rewrite get_set_of. Qed.

(** The appends of the artifacts to the recording store, one call each. *)
Lemma append_artifacts_log ctx rs r (arts : list Artifact) w :
  w_heap w !! rs = Some r ->
  exists w', for_each (fun a =>
      r' <- load rs ;; tks_AppendArtifact recording_store ctx (TaskID r') a ;; ret tt) arts w
    = (Ret tt, w') /\ w_heap w' = w_heap w /\
    get_of (w_ext w') = get_of (w_ext w) ++ ((fun a => ("AppendArtifact", art_ID a)) <$> arts).
Proof.
  revert w. induction arts as [|a arts IH]; intros w Hr.
  { exists w. split_and!; [done | done | by rewrite app_nil_r]. }
  destruct (IH (add_log [("AppendArtifact", art_ID a)] w) Hr) as (w' & H1 & H2 & H3).
  exists w'. split_and!.
  - rewrite <- H1. cbn [for_each]. unfold bind at 1. unfold bind at 1. unfold load at 1. by rewrite Hr.
  - done.
  - rewrite H3, get_add_log, <- app_assoc. done.
Qed.

#[export] Instance recording_store_ok : TaskStoreOK (E := E) recording_store.
Proof.
  split; intros; (apply frames_bind; [apply frames_get | intros h];
    apply frames_bind; [apply frames_put | auto with flux]).
Qed.
End more_lemmas.

(** The two results on the loop together. *)
Lemma loop_ends_saved {E} (e : Engine E) fuel n ctx sid l (w : World E) :
  EngineOK e -> in_int64 n -> in_int64 (maxSteps e) -> steps_at n l w -> Z.to_nat (maxSteps e - n) < fuel ->
  wp (runLoop fuel e ctx sid l)
    (may_panic (fun r w' => returned_steps e n r w' /\
       saved_exit e (WithValue ctx (KContextKey "session_id") (AString sid)) sid r w')) w.
Proof.
  intros Hok Hn Hm Hs Hf. unfold runLoop. set (ctx' := WithValue _ _ _).
  pose proof (loop_steps e fuel n ctx' sid l w Hn Hm Hs Hf) as H1.
  pose proof (exit_loop e ctx' sid fuel l w) as H2. unfold wp in *.
  destruct (loop fuel e ctx' sid l w) as [[] ?]; simpl in *; auto.
Qed.

(** ** Properties *)

Section properties.
Context {E : Type}.
Implicit Types (e : Engine E) (w : World E).

(** C2: the loop always ends, within the step bound, and leaves the session
    saved. Whatever the nodes, the routers, the hooks and the stores do (short of
    running for ever or writing the step count), from a state that made [n] steps
    [maxSteps - n + 1] iterations are enough; a call that returns hands back a
    state with between [n] and [max n maxSteps] steps; that state is Failed,
    Completed or Paused, it was saved with this status by a [Save] that nothing
    follows but the event of a pause, a pause is announced and returned without
    error, a failure is returned with its error, a completion without one. *)
Theorem runLoop_ends_saved e (fuel : nat) (n : Z) (ctx : context) (sid : string) (l : loc) w :
  EngineOK e -> in_int64 n -> in_int64 (maxSteps e) -> steps_at n l w ->
  Z.to_nat (maxSteps e - n) < fuel ->
  wp (runLoop fuel e ctx sid l)
    (may_panic (fun r w' =>
       returned_steps e n r w' /\
       saved_exit e (WithValue ctx (KContextKey "session_id") (AString sid)) sid r w')) w.
Proof. apply loop_ends_saved. Qed.

(** A hook cannot stop the loop or another hook: whatever the hooks do -
    they may panic - every hook of the list runs, in order, on the world the
    previous ones left, and the dispatch returns. *)
Theorem fireHooks_isolated e (state : option loc) (meta : HookMeta) w :
  (forall h w, h ∈ hooks e -> (OnHook h state meta w).1 <> OutOfFuel) ->
  fireHooks e state meta w =
  (Ret tt, foldl (fun w h => (OnHook h state meta w).2) w (hooks e)).
Proof.
  intros Hends. unfold fireHooks. rewrite for_each_eq.
  - f_equal. clear -Hends. revert w Hends. induction (hooks e) as [|h hs IH]; intros w Hends; [done|].
    simpl. rewrite recovering_eq by (apply Hends; left). apply IH. intros. apply Hends. by right.
  - intros h w' Hh. rewrite recovering_eq by auto. done.
Qed.

(** A retry policy with no attempt breaks the engine: [Execute] returns nil
    without having called the node, and the loop dereferences the nil result. *)
Theorem no_attempts_panics e (g : Graph E) (node : Node E) (ctx : context) (sid : string) (l : loc) (s : AgentState) w :
  (MaxAttempts (retry e) <= 0)%Z ->
  (forall h p meta, h ∈ hooks e -> frames (OnHook h p meta)) ->
  w_heap w !! l = Some s -> Status s = StatusRunning -> (StepCount s < maxSteps e)%Z ->
  graph e = Some g -> Graph_Node g (LastNodeID s) = Some node ->
  (loop_body e ctx sid l w).1 = Panic nil_deref.
Proof.
  intros Hp Hh Hl Hst Hsc Hg Hn. change (wp (loop_body e ctx sid l) (fun o _ => o = Panic nil_deref) w).
  unfold loop_body. apply wp_bind. eapply wp_load; [done|]. rewrite Hst. cbn -[Z.leb].
  replace (maxSteps e <=? StepCount s)%Z with false by lia. rewrite Hg. apply wp_bind, wp_ret. rewrite Hn.
  assert (quiet (fun _ => True) (fireHooks e (Some l)
    (mkHookMeta HookBeforeNode (LastNodeID s) (StepCount s) 0%Z None))) as Hq.
  { apply quiet_for_each. intros h ?. by apply quiet_recovering, Hh. }
  apply wp_bind. eapply wp_mono; [apply Hq|]. intros [[]|?|] w1; simpl; try done. intros [_ Hw1].
  unfold wp, bind, processNodeWithRetry, Execute.
  replace (Z.to_nat (MaxAttempts (retry e))) with 0 by lia. cbn.
  unfold modify, bind, load, store. cbn.
  assert (Hl1 : w_heap w1 !! l = Some s) by by eapply heap_frame_lookup.
  rewrite Hl1. cbn. by rewrite Hl1.
Qed.
End properties.

Section task_properties.
Context {E : Type} `{!Has (list (string * string)) E}.
Implicit Types (e : Engine E) (w : World E).

(** The artifacts of a step reach the task: when a node hands back a state
    of a task, the store gets exactly the artifacts past the ones the current
    state had, in order, and then one status update; a state with fewer artifacts
    than the current one panics. A node that hands back the pointer it was given
    has, by then, grown the current state too, and none of its artifacts is
    delivered. *)
Theorem adopt_state_syncs_artifacts e (ctx : context) (id : string) (l rs : loc) (s r : AgentState) w :
  taskStore e = Some recording_store ->
  w_heap w !! l = Some s -> w_heap w !! rs = Some r -> TaskID r <> "" ->
  let new := drop (length (Artifacts s)) (Artifacts r) in
  if Nat.ltb (length (Artifacts r)) (length (Artifacts s))
  then (adopt_state e ctx id l (Some rs) w).1 = Panic slice_bounds
  else
    (l = rs -> new = []) /\
    exists w', adopt_state e ctx id l (Some rs) w = (Ret rs, w') /\
      get_of (w_ext w') = get_of (w_ext w) ++ ((fun a => ("AppendArtifact", art_ID a)) <$> new)
                          ++ [("UpdateStatus", MapAgentStatusToTaskState (Status r))] /\
      w_heap w' !! rs = Some (set_LastNodeID id (set_StepCount (StepCount s) r)).
Proof.
  intros Hts Hl Hrs Htask new. set (r2 := set_LastNodeID id (set_StepCount (StepCount s) r)).
  set (w2 := set_heap (<[rs := r2]> (<[rs := set_StepCount (StepCount s) r]> (w_heap w))) w).
  assert (Hrs_lt : rs < length (w_heap w)) by by eapply lookup_lt_Some.
  assert (Hrs2 : w_heap w2 !! rs = Some r2).
  { simpl. apply list_lookup_insert_eq. by rewrite length_insert. }
  assert (Hl2 : exists s2, w_heap w2 !! l = Some s2 /\ Artifacts s2 = Artifacts s).
  { destruct (decide (l = rs)) as [->|Hne].
    - exists r2. split; [done|]. simpl. congruence.
    - exists s. simpl. by rewrite !list_lookup_insert_ne by done. }
  destruct Hl2 as (s2 & Hl2 & Ha2).
  assert (Heq : adopt_state e ctx id l (Some rs) w = (sync_task e ctx id l rs ;; ret rs) w2).
  { unfold adopt_state. rewrite (bind_load _ s), (bind_modify _ _ r) by done.
    erewrite bind_modify by (by apply list_lookup_insert_eq). done. }
  rewrite Heq. clear Heq. unfold sync_task.
  rewrite bind_assoc, (bind_load _ r2) by done. rewrite Hts, bool_decide_eq_false_2 by done.
  rewrite bind_assoc, (bind_load _ s2), Ha2 by done.
  change (Artifacts r2) with (Artifacts r).
  destruct (Nat.ltb _ _); [done|]. fold new. split.
  { intros ->. assert (r = s) as -> by congruence. subst new. by rewrite drop_all. }
  destruct (append_artifacts_log ctx rs r2 new w2 Hrs2) as (w3 & H1 & H2 & H3).
  exists (add_log [("UpdateStatus", MapAgentStatusToTaskState (Status r))] (set_orc (next_tick (w_orc w3)) w3)).
  split_and!.
  - rewrite bind_assoc, (bind_Ret _ _ _ _ _ H1), bind_assoc, (bind_load _ r2); [done|].
    by rewrite H2.
  - rewrite get_add_log. cbn [w_ext set_orc]. rewrite H3, <- app_assoc. done.
  - cbn [w_heap add_log set_ext set_orc]. by rewrite H2.
Qed.

(** An error that needs a human pauses the session but fails its task: the
    state is returned Paused and without error, and the task was told [failed]. *)
Theorem human_needed_fails_task e (ctx : context) (sid id : string) (d : Duration) (l : loc)
    (s : AgentState) (nid : string) (cause : error) w :
  taskStore e = Some recording_store -> eventBus e = None -> hooks e = [] ->
  w_heap w !! l = Some s -> TaskID s <> "" ->
  exists w1, get_of (w_ext w1) = get_of (w_ext w) ++ [("UpdateStatus", TaskStateFailed)] /\
    handle_error e ctx sid id d l (ErrAgent ErrCategoryHumanNeeded nid (Some cause) 0) w =
      (l' <- save_as e ctx sid StatusPaused l ;; ret (Some l', None)) w1.
Proof.
  intros Hts Hbus Hh Hl Htask.
  exists (add_log [("UpdateStatus", TaskStateFailed)] (set_orc (next_tick (w_orc w)) w)).
  split; [by rewrite get_add_log|].
  unfold handle_error, fireHooks, update_task, publish_paused. rewrite Hh, Hts, Hbus.
  rewrite (bind_load _ s) by done. cbn [for_each]. rewrite (bind_Ret (ret tt) _ tt w w) by done.
  rewrite bind_assoc, (bind_load _ s) by done. by rewrite bool_decide_eq_false_2.
Qed.
End task_properties.

(** ** Witnesses *)

Definition demo_graph {E} : Graph E :=
  mkGraph (<["a" := demo_node "a"]> {["b" := demo_node "b"]}) [mkEdge "a" "b" false None] "a"
    {["b" := true]}.

(** The store of one process and a record of what the task store is told. *)
Definition demo_ext : Type := InMemoryStore * list (string * string).

Definition demo_hook : LifecycleHook demo_ext := mkLifecycleHook (fun _ _ => panic "broken hook").

Definition demo_engine (attempts : Z) : Engine demo_ext :=
  NewEngine (Some demo_graph) InMemory None
    [WithMaxSteps 5; WithTaskStore recording_store; WithHooks [demo_hook];
     WithRetryPolicy (mkRetryPolicy attempts Second Second float_2_0)].

Definition demo_session : AgentState := set_TaskID "t" demo_state.

Definition demo_engine_world (states : list AgentState) : World demo_ext :=
  mkWorld states demo_oracle (NewInMemoryStore, []).

#[local] Instance demo_engine_ok attempts : EngineOK (demo_engine attempts).
Proof.
  split.
  - intros h p meta Hh. apply list_elem_of_singleton in Hh as ->. apply ends_panic, _.
  - intros g id n ctx l [= <-] Hn. simpl in Hn.
    assert (exists id', n = demo_node id') as [id' ->].
    { apply lookup_insert_Some in Hn as [[_ <-]|[_ Hn]]; [by exists "a"|].
      apply lookup_singleton_Some in Hn as [_ <-]. by exists "b". }
    apply ends_ret, _.
  - intros g edge r ctx l [= <-] He Hr. apply list_elem_of_singleton in He as ->. done.
  - apply InMemory_ok.
  - intros ts Hts. injection Hts as <-. apply _.
  - done.
Defined.

Lemma runLoop_ends_saved_witness :
  steps_at 0 0 (demo_engine_world [demo_session]) /\ Z.to_nat (5 - 0) < 6 /\
  wp (runLoop 6 (demo_engine 1) Background "s" 0)
    (may_panic (fun r w' =>
       returned_steps (demo_engine 1) 0 r w' /\
       saved_exit (demo_engine 1) (WithValue Background (KContextKey "session_id") (AString "s"))
         "s" r w')) (demo_engine_world [demo_session]).
Proof.
  assert (H : steps_at 0 0 (demo_engine_world [demo_session])) by (exists demo_session; done).
  split; [exact H|]. split; [lia|].
  apply (runLoop_ends_saved (demo_engine 1) 6 0 Background "s" 0 (demo_engine_world [demo_session])
           (demo_engine_ok 1)); [split; vm_compute; discriminate..| exact H | cbn; lia].
Defined.

Lemma fireHooks_isolated_witness :
  hooks (demo_engine 1) = [demo_hook] /\
  fireHooks (demo_engine 1) None (mkHookMeta HookBeforeNode "a" 0%Z 0%Z None) (demo_engine_world [])
    = (Ret tt, demo_engine_world []).
Proof.
  split; [reflexivity|].
  apply (fireHooks_isolated (demo_engine 1) None (mkHookMeta HookBeforeNode "a" 0%Z 0%Z None)
           (demo_engine_world [])).
  intros h w Hh. apply list_elem_of_singleton in Hh as ->. done.
Defined.

Lemma no_attempts_panics_witness :
  w_heap (demo_engine_world [demo_session]) !! 0 = Some demo_session /\
  (loop_body (demo_engine 0) Background "s" 0 (demo_engine_world [demo_session])).1 = Panic nil_deref.
Proof.
  split; [reflexivity|].
  apply (no_attempts_panics (demo_engine 0) demo_graph (demo_node "a") Background "s" 0 demo_session);
    try reflexivity.
  intros h p meta Hh. apply list_elem_of_singleton in Hh as ->. apply ends_panic, _.
Defined.

Definition demo_artifact (id : string) : Artifact := mkArtifact id id [] [].

Definition demo_grown : AgentState :=
  set_Artifacts [demo_artifact "x"; demo_artifact "y"] demo_session.

Lemma adopt_state_syncs_artifacts_witness :
  taskStore (demo_engine 1) = Some recording_store /\
  (0 = 1 -> drop 0 [demo_artifact "x"; demo_artifact "y"] = []) /\
  exists w', adopt_state (demo_engine 1) Background "a" 0 (Some 1) (demo_engine_world [demo_session; demo_grown])
      = (Ret 1, w') /\
  get_of (w_ext w') = [] ++ [("AppendArtifact", "x"); ("AppendArtifact", "y")] ++
                        [("UpdateStatus", TaskStateWorking)] /\
  w_heap w' !! 1 = Some (set_LastNodeID "a" (set_StepCount 0 demo_grown)).
Proof.
  split; [reflexivity|].
  pose proof (adopt_state_syncs_artifacts (demo_engine 1) Background "a" 0 1 demo_session demo_grown
    (demo_engine_world [demo_session; demo_grown]) eq_refl eq_refl eq_refl ltac:(done)) as [H1 H2].
  split; [exact H1|]. destruct H2 as (w' & H2 & H3 & H4). exists w'.
  split; [exact H2|]. split; [exact H3 | exact H4].
Defined.

Lemma human_needed_fails_task_witness :
  TaskID demo_session <> "" /\
  exists w1 : World demo_ext, get_of (T := list (string * string)) (w_ext w1) = [] ++ [("UpdateStatus", TaskStateFailed)] /\
  handle_error (NewEngine (Some demo_graph) InMemory None [WithTaskStore recording_store]) Background "s"
      "a" 0%Z 0 (ErrAgent ErrCategoryHumanNeeded "a" (Some (ErrNew "ask")) 0)
      (demo_engine_world [demo_session]) =
      (l' <- save_as (NewEngine (Some demo_graph) InMemory None [WithTaskStore recording_store]) Background
               "s" StatusPaused 0 ;;
       ret (Some l', None)) w1.
Proof.
  split; [done|].
  destruct (human_needed_fails_task (NewEngine (Some demo_graph) InMemory None [WithTaskStore recording_store])
    Background "s" "a" 0%Z 0 demo_session "a" (ErrNew "ask") (demo_engine_world [demo_session])
    eq_refl eq_refl eq_refl eq_refl ltac:(done)) as (w1 & H1 & H2).
  exists w1. split; [exact H1 | exact H2].
Defined.
