(* ===== verification/EngineSpec.v ===== *)
(** * The engine against its specification

    [spec_run] is what the engine promises: a state machine on snapshots, with
    no pointers, hooks, clocks, stores or retries. [loop_refines] shows that the
    loop of [engine/engine.go] computes it when its nodes and routers compute the
    functions of a [program]. The second part is about [Start] and [Resume]. *)

From S2P Require Import Prelude GoLang Core Json World Interfaces Memory Graph Resilience Engine.
From stdpp Require Import base gmap strings list.

#[local] Open Scope go_scope.

(** ** The specification *)

(** What a node does to a snapshot: it hands back a new state, or none, or
    fails. *)
Inductive behaviour :=
  | Yields (s' : AgentState) (next : list string) (signal : option InterruptSignal)
  | Keeps (next : list string) (signal : option InterruptSignal)
  | Fails (err : error).

(** The nodes, the routers, and the error of saving a snapshot. *)
Record program := mkProgram {
  pg_node : string -> AgentState -> behaviour;
  pg_route : string -> AgentState -> string * option error;
  pg_save : AgentState -> option error;
}.

(** A program whose parts may do several things, as a node that asks a clock or a
    language model: the contexts its nodes are called in, the snapshots the loop
    may be at, and what the parts may do to one. *)
Record behaviours := mkBehaviours {
  may_call : context -> Prop;
  may_visit : AgentState -> Prop;
  may_node : string -> AgentState -> behaviour -> Prop;
  may_route : string -> AgentState -> string * option error -> Prop;
  may_save : AgentState -> option error -> Prop;
}.

(** What the pointer of an engine that has a graph points to. *)
Definition graph_of {E} (e : Engine E) : Graph E := default (mkGraph ∅ [] "" ∅) (graph e).

Section spec.
Context {E : Type} (e : Engine E) (p : program) (q : behaviours).

Definition verdict : Type := AgentState + (AgentState * option error).

Definition spec_route (s : AgentState) : string * option error :=
  match first_edge (Edges (graph_of e)) (LastNodeID s) with
  | None => ("", None)
  | Some edge => if IsCond edge then pg_route p (LastNodeID s) s else (ToID edge, None)
  end.

Definition spec_stop (st : AgentStatus) (s : AgentState) (err : option error) : verdict :=
  inr (with_status st s, err).

(** The verdict on the successor a node or an edge names. *)
Definition settle (id : string) (s : AgentState) (choice : string * option error) : verdict :=
  match choice.2 with
  | Some x => spec_stop StatusFailed s (Some x)
  | None =>
      if bool_decide (choice.1 = "") then
        if is_terminal (graph_of e) id then spec_stop StatusCompleted s None
        else spec_stop StatusFailed s (Some ErrNoNextNode)
      else inl (set_LastNodeID choice.1 s)
  end.

(** After the node [id] succeeded with the state [s]. *)
Definition spec_advance (id : string) (s : AgentState) (next : list string)
    (signal : option InterruptSignal) : verdict :=
  match signal with
  | Some _ => spec_stop StatusPaused s None
  | None => settle id s (match next with n :: _ => (n, None) | [] => spec_route s end)
  end.

Definition needs_human (err : error) : bool :=
  match errors_As err with
  | Some ae => bool_decide (ae_Category ae = ErrCategoryHumanNeeded)
  | None => false
  end.

Definition spec_step (s : AgentState) : verdict :=
  if bool_decide (Status s = StatusFailed) || bool_decide (Status s = StatusCompleted)
  then inr (s, pg_save p s)
  else if (maxSteps e <=? StepCount s)%Z then spec_stop StatusFailed s (Some ErrMaxStepsExceeded)
  else
    let id := LastNodeID s in
    let n := int64 (StepCount s + 1) in
    match Graph_Node (graph_of e) id with
    | None => spec_stop StatusFailed s (Some ErrNoNextNode)
    | Some _ =>
        match pg_node p id s with
        | Yields s' next signal => spec_advance id (set_LastNodeID id (set_StepCount n s')) next signal
        | Keeps next signal => spec_advance id (set_StepCount n s) next signal
        | Fails err =>
            if needs_human err then spec_stop StatusPaused (set_StepCount n s) None
            else spec_stop StatusFailed (set_StepCount n s) (Some err)
        end
    end.

Fixpoint spec_run (fuel : nat) (s : AgentState) : option (AgentState * option error) :=
  match fuel with
  | O => None
  | S f => match spec_step s with inl s' => spec_run f s' | inr r => Some r end
  end.

(** The same machine with the choices of [q]. *)
Definition routes (s : AgentState) (choice : string * option error) : Prop :=
  match first_edge (Edges (graph_of e)) (LastNodeID s) with
  | None => choice = ("", None)
  | Some edge =>
      if IsCond edge then may_route q (LastNodeID s) s choice else choice = (ToID edge, None)
  end.

Definition advances (id : string) (s : AgentState) (next : list string)
    (signal : option InterruptSignal) (v : verdict) : Prop :=
  match signal with
  | Some _ => v = spec_stop StatusPaused s None
  | None => exists choice, v = settle id s choice /\
      match next with n :: _ => choice = (n, None) | [] => routes s choice end
  end.

Definition after (id : string) (s : AgentState) (b : behaviour) (v : verdict) : Prop :=
  let n := int64 (StepCount s + 1) in
  match b with
  | Yields s' next signal => advances id (set_LastNodeID id (set_StepCount n s')) next signal v
  | Keeps next signal => advances id (set_StepCount n s) next signal v
  | Fails err =>
      v = if needs_human err then spec_stop StatusPaused (set_StepCount n s) None
          else spec_stop StatusFailed (set_StepCount n s) (Some err)
  end.

Definition steps_to (s : AgentState) (v : verdict) : Prop :=
  if bool_decide (Status s = StatusFailed) || bool_decide (Status s = StatusCompleted)
  then exists serr, may_save q s serr /\ v = inr (s, serr)
  else if (maxSteps e <=? StepCount s)%Z
  then v = spec_stop StatusFailed s (Some ErrMaxStepsExceeded)
  else
    match Graph_Node (graph_of e) (LastNodeID s) with
    | None => v = spec_stop StatusFailed s (Some ErrNoNextNode)
    | Some _ => exists b, may_node q (LastNodeID s) s b /\ after (LastNodeID s) s b v
    end.

Inductive runs_to : AgentState -> AgentState * option error -> Prop :=
  | runs_stop s r : steps_to s (inr r) -> runs_to s r
  | runs_on s s' r : steps_to s (inl s') -> runs_to s' r -> runs_to s r.

(** The snapshots that [Start] and [Resume] hand to the loop. *)
Definition spec_start (s : AgentState) : AgentState :=
  let s1 := with_status StatusRunning s in
  if bool_decide (LastNodeID s1 = "") then set_LastNodeID (Entry (graph_of e)) s1 else s1.

Definition spec_injected (injection : list (string * any)) (s : AgentState) : AgentState :=
  with_status StatusRunning (with_variables injection s).

Definition spec_resume (fuel : nat) (injection : list (string * any)) (s : AgentState) :
    option (option AgentState * option error) :=
  if bool_decide (Status s = StatusPaused) then
    let s1 := spec_injected injection s in
    match spec_route s1 with
    | (_, Some x) => Some (None, Some x)
    | (next, None) =>
        if bool_decide (next = "") then
          if is_terminal (graph_of e) (LastNodeID s)
          then Some (Some (with_status StatusCompleted s1), None)
          else Some (None, Some ErrNoNextNode)
        else
          match spec_run fuel (set_LastNodeID next s1) with
          | Some (s', err) => Some (Some s', err)
          | None => None
          end
    end
  else Some (Some s, None).

(** What a call hands back, read through its pointer. *)
Definition hands_back (ms : option AgentState) (err : option error) (r : option loc * option error)
    (w : World E) : Prop :=
  r.2 = err /\
  match ms, r.1 with
  | Some s, Some l => w_heap w !! l = Some s
  | None, None => True
  | _, _ => False
  end.

(** The result of a node against its behaviour. A new state is in a new cell. *)
Definition behaves (w w' : World E) (b : behaviour) (r : option NodeResult * option error) : Prop :=
  match b, r with
  | Yields s' next signal, (Some res, None) =>
      nr_NextNodes res = next /\ nr_Interrupt res = signal /\
      exists l', nr_State res = Some l' /\ length (w_heap w) <= l' /\ w_heap w' !! l' = Some s'
  | Keeps next signal, (Some res, None) =>
      nr_NextNodes res = next /\ nr_Interrupt res = signal /\ nr_State res = None
  | Fails err, (_, Some err') =>
      err' = err /\ retriable err = None /\
      (forall ae, errors_As err = Some ae -> is_Some (ae_Cause ae))
  | _, _ => False
  end.

(** A new state of a task has at least the artifacts of the one before, so that the
    slice of the new ones that the engine sends to the task store is in bounds. *)
Definition grows_artifacts (s s' : AgentState) : Prop :=
  TaskID s' <> "" -> length (Artifacts s) <= length (Artifacts s').

(** The engine runs the program [p]: it has a graph and makes an attempt, its parts
    return, hooks may panic, nobody writes a state that exists, and a node that
    fails is not tried again. *)
Class Implements : Prop := {
  imp_graph : graph e <> None;
  imp_nodes : forall id node ctx l s w,
    Nodes (graph_of e) !! id = Some node -> w_heap w !! l = Some s ->
    wp (node_Process node ctx l)
      (returns (fun r w' => heap_frame w w' /\ behaves w w' (pg_node p id s) r)) w;
  imp_routers : forall edge ctx l s w,
    edge ∈ Edges (graph_of e) -> IsCond edge = true -> w_heap w !! l = Some s ->
    exists r, Router edge = Some r /\
    wp (r ctx l) (returns (fun res w' => res = pg_route p (FromID edge) s /\ heap_frame w w')) w;
  imp_save : forall ctx sid l s w,
    w_heap w !! l = Some s ->
    wp (ms_Save (memoryStore e) ctx sid l)
      (returns (fun r w' => r.2 = pg_save p s /\ heap_frame w w')) w;
  imp_bus : forall bus ev, eventBus e = Some bus -> quiet (fun _ => True) (bus_Publish bus ev);
  imp_hooks : forall h pt meta, h ∈ hooks e -> frames (OnHook h pt meta);
  imp_tasks : forall ts, taskStore e = Some ts -> TaskStoreQuiet ts;
  imp_artifacts : taskStore e <> None -> forall id s s' next signal,
    pg_node p id s = Yields s' next signal -> grows_artifacts s s';
  imp_attempts : (0 < MaxAttempts (retry e))%Z;
}.

(** The same with the choices of [q], for the nodes at the snapshots and in the
    contexts it lists. *)
Class Conforms : Prop := {
  cf_graph : graph e <> None;
  cf_nodes : forall node ctx l s w,
    may_call q ctx -> Nodes (graph_of e) !! LastNodeID s = Some node -> may_visit q s ->
    w_heap w !! l = Some s ->
    wp (node_Process node ctx l)
      (returns (fun r w' =>
         heap_frame w w' /\ exists b, may_node q (LastNodeID s) s b /\ behaves w w' b r)) w;
  cf_visits : forall s s', may_visit q s -> steps_to s (inl s') -> may_visit q s';
  cf_routers : forall edge ctx l s w,
    edge ∈ Edges (graph_of e) -> IsCond edge = true -> w_heap w !! l = Some s ->
    exists r, Router edge = Some r /\
    wp (r ctx l) (returns (fun res w' => may_route q (FromID edge) s res /\ heap_frame w w')) w;
  cf_save : forall ctx sid l s w,
    w_heap w !! l = Some s ->
    wp (ms_Save (memoryStore e) ctx sid l)
      (returns (fun r w' => may_save q s r.2 /\ heap_frame w w')) w;
  cf_bus : forall bus ev, eventBus e = Some bus -> quiet (fun _ => True) (bus_Publish bus ev);
  cf_hooks : forall h pt meta, h ∈ hooks e -> frames (OnHook h pt meta);
  cf_tasks : forall ts, taskStore e = Some ts -> TaskStoreQuiet ts;
  cf_artifacts : taskStore e <> None -> forall s s' next signal, may_visit q s ->
    may_node q (LastNodeID s) s (Yields s' next signal) -> grows_artifacts s s';
  cf_attempts : (0 < MaxAttempts (retry e))%Z;
}.
End spec.

(** The only choices of a program. *)
Definition only (p : program) : behaviours :=
  mkBehaviours (fun _ => True) (fun _ => True) (fun id s b => b = pg_node p id s) (fun id s r => r = pg_route p id s)
    (fun s err => err = pg_save p s).

(** ** Lemmas *)

(** The program's verdict against what the loop does. *)
Definition agrees {E} (v : verdict) (r : loc + (option loc * option error)) (w : World E) : Prop :=
  match v, r with
  | inl s, inl l => w_heap w !! l = Some s
  | inr (s, err), inr (Some l, err') => w_heap w !! l = Some s /\ err' = err
  | _, _ => False
  end.

Lemma first_edge_from {E} (es : list (Edge E)) from edge :
  first_edge es from = Some edge -> FromID edge = from.
Proof. induction es as [|x es IH]; simpl; [done|]. case_decide; intros; simplify_eq; auto. Qed.

Lemma heap_frame_modify {E} (w : World E) l s f :
  w_heap w !! l = Some s -> w_heap (set_heap (<[l := f s]> (w_heap w)) w) !! l = Some (f s).
Proof. intros Hl. simpl. apply list_lookup_insert_eq. by eapply lookup_lt_Some. Qed.

Lemma with_variables_fields injection s :
  StepCount (with_variables injection s) = StepCount s /\
  LastNodeID (with_variables injection s) = LastNodeID s /\
  Messages (with_variables injection s) = Messages s.
Proof.
  revert s. induction injection as [|kv rest IH]; intros s; [done|].
  destruct (IH (with_variable kv.1 kv.2 s)) as (H1 & H2 & H3). done.
Qed.

Lemma LastNodeID_injected injection s : LastNodeID (spec_injected injection s) = LastNodeID s.
Proof. apply with_variables_fields. Qed.

(** The order in which the runtime ranges over the injected map is not seen. *)
Lemma with_variables_perm kvs kvs' s :
  kvs ≡ₚ kvs' -> NoDup kvs.*1 -> with_variables kvs s = with_variables kvs' s.
Proof.
  intros Hp. revert s. induction Hp as [|kv kvs kvs' _ IH|kv1 kv2 kvs|k1 k2 k3 H12 IH1 _ IH2];
    intros s Hnd; [done| | |].
  - apply NoDup_cons in Hnd as [_ Hnd]. by apply (IH (with_variable kv.1 kv.2 s)).
  - apply with_variables_swap. csimpl in Hnd. apply NoDup_cons in Hnd as [Hin _]. set_solver.
  - rewrite IH1 by done. apply IH2. by rewrite <- H12.
Qed.

Section conformance.
Context {E : Type} (e : Engine E) (q : behaviours) `{!Conforms e q}.
Implicit Types w : World E.

Lemma rt_graph {A} (k : Graph E -> M E A) Q w :
  wp (k (graph_of e)) Q w -> wp (bind (deref (graph e)) k) Q w.
Proof.
  intros Hk. assert (Hg : graph e <> None) by (by eapply cf_graph). unfold graph_of in Hk.
  destruct (graph e); [exact Hk | done].
Qed.

Lemma quiet_fireHooks st meta : quiet (fun _ => True) (fireHooks e st meta).
Proof. apply quiet_for_each. intros h ?. eapply quiet_recovering, cf_hooks; done. Qed.

Lemma spec_save_as ctx sid st l s w :
  w_heap w !! l = Some s ->
  wp (save_as e ctx sid st l)
    (returns (fun l' w' => w_heap w' !! l' = Some (with_status st s))) w.
Proof.
  intros Hl. apply wp_bind. eapply wp_WithStatus; [done|].
  eapply rt_bind; [eapply cf_save; [done | apply lookup_snoc_eq] | intros r w' [_ Hw]]. apply wp_ret.
  eapply heap_frame_lookup; [exact Hw | apply lookup_snoc_eq].
Qed.

Lemma spec_stop_ok ctx sid st err l s w :
  w_heap w !! l = Some s ->
  wp (state' <- save_as e ctx sid st l ;; ret (inr (Some state', err)))
    (returns (agrees (spec_stop st s err))) w.
Proof.
  intros Hl. eapply rt_bind; [by apply spec_save_as | intros l' w' Hl']. by apply wp_ret.
Qed.

Lemma spec_stop_error ctx sid st err l s w :
  w_heap w !! l = Some s ->
  wp (state' <- save_as e ctx sid st l ;; ret (Some state', err))
    (returns (fun r => agrees (spec_stop st s err) (inr r))) w.
Proof.
  intros Hl. eapply rt_bind; [by apply spec_save_as | intros l' w' Hl']. by apply wp_ret.
Qed.

Lemma quiet_publish_paused sid payload :
  quiet (fun _ => True) payload -> quiet (fun _ => True) (publish_paused e sid payload).
Proof.
  intros Hp w. unfold publish_paused. destruct (eventBus e) as [bus|] eqn:Hbus.
  - eapply rt_bind_quiet; [exact Hp | intros a w1 _ H1].
    eapply rt_bind_quiet; [by eapply cf_bus | intros b w2 _ H2].
    apply wp_ret. split; [done | by eapply heap_frame_trans].
  - apply wp_ret. split; [done | apply heap_frame_refl].
Qed.

Lemma spec_route_ok ctx l s w :
  w_heap w !! l = Some s ->
  wp (resolveNextNode e ctx l) (returns (fun r w' => routes e q s r /\ heap_frame w w')) w.
Proof.
  intros Hl. unfold resolveNextNode. apply rt_graph. eapply rt_load; [done|]. unfold routes.
  destruct (first_edge _ _) as [edge|] eqn:He; [|apply wp_ret; split; [done | apply heap_frame_refl]].
  destruct (IsCond edge) eqn:Hc; [|apply wp_ret; split; [done | apply heap_frame_refl]].
  destruct (cf_routers e q edge ctx l s w (first_edge_elem _ _ _ He) Hc Hl) as (r & Hr & Hwp).
  rewrite Hr. apply wp_bind, wp_ret. by rewrite (first_edge_from _ _ _ He) in Hwp.
Qed.

(** The retries do not show: a node that fails with an error that is not
    retriable runs once, and so does a node that succeeds. *)
Lemma process_ok node ctx l s w :
  may_call q ctx -> Nodes (graph_of e) !! LastNodeID s = Some node -> may_visit q s ->
  w_heap w !! l = Some s ->
  wp (processNodeWithRetry e ctx node l)
    (returns (fun r w' =>
       heap_frame w w' /\ exists b, may_node q (LastNodeID s) s b /\ behaves w w' b r)) w.
Proof.
  intros Hctx Hn Hv Hl. unfold processNodeWithRetry, Execute.
  assert (0 < MaxAttempts (retry e))%Z as Ha by (eapply cf_attempts; done).
  destruct (Z.to_nat (MaxAttempts (retry e))) as [|k] eqn:Hk; [lia|]. cbn [execute_loop].
  eapply (rt_bind _ _ (fun r w' =>
    heap_frame w w' /\ exists b, may_node q (LastNodeID s) s b /\ behaves w w' b r)).
  - eapply rt_bind; [by eapply cf_nodes|]. intros [r [x|]] w1 [Hw1 (b & Hm & Hb)]; apply wp_ret.
    { split; [done|]. exists b. split; [done|]. by destruct b, r. }
    split; [done|]. by exists b.
  - intros [r [x|]] w1 [Hw1 (b & Hm & Hb)]; [|apply wp_ret; split; [done|]; by exists b].
    assert (retriable x = None) as -> by (destruct b, r; naive_solver).
    apply wp_ret. split; [done|]. by exists b.
Qed.

Lemma spec_settle_ok ctx sid id l s nextNodeID rErr w :
  w_heap w !! l = Some s ->
  wp (match rErr with
      | Some x =>
          state' <- save_as e ctx sid StatusFailed l ;;
          ret (inr (Some state', Some x))
      | None =>
          if bool_decide (nextNodeID = "") then
            g <- deref (graph e) ;;
            if is_terminal g id then
              state' <- save_as e ctx sid StatusCompleted l ;;
              ret (inr (Some state', None))
            else
              state' <- save_as e ctx sid StatusFailed l ;;
              ret (inr (Some state', Some ErrNoNextNode))
          else
            modify l (set_LastNodeID nextNodeID) ;;
            ret (inl l)
      end)
    (returns (agrees (settle e id s (nextNodeID, rErr)))) w.
Proof.
  intros Hl. unfold settle. simpl.
  destruct rErr; [by apply spec_stop_ok|]. case_match; [apply rt_graph; case_match; by apply spec_stop_ok|].
  eapply rt_modify; [done|]. apply wp_ret. simpl. apply list_lookup_insert_eq.
  by eapply lookup_lt_Some.
Qed.

(** The loop does one of the things that [Q] allows. *)
Definition one_of (Q : verdict -> Prop) (r : loc + (option loc * option error)) w : Prop :=
  exists v, Q v /\ agrees v r w.

Lemma one_of_stop (Q : verdict -> Prop) v (m : M E (loc + (option loc * option error))) w :
  Q v -> wp m (returns (agrees v)) w -> wp m (returns (one_of Q)) w.
Proof. intros HQ Hm. eapply wp_mono; [exact Hm|]. intros [] w' H; [by exists v | done | done]. Qed.

Lemma quiet_update_task ctx l s st msg w : w_heap w !! l = Some s ->
  wp (update_task e ctx l st msg) (returns (fun _ w' => heap_frame w w')) w.
Proof.
  intros Hl. unfold update_task. eapply rt_load; [done|].
  destruct (taskStore e) as [ts|] eqn:Hts; [|apply wp_ret, heap_frame_refl].
  assert (TaskStoreQuiet ts) by (by eapply cf_tasks). case_match; [apply wp_ret, heap_frame_refl|].
  eapply rt_bind_quiet; [apply quiet_ask | intros t w1 _ H1].
  eapply rt_bind_quiet; [apply tq_update | intros r w2 _ H2]. apply wp_ret. by eapply heap_frame_trans.
Qed.

(** The new artifacts and the status go to the task store. *)
Lemma quiet_sync_task ctx id l rs s s' w :
  w_heap w !! l = Some s -> w_heap w !! rs = Some s' -> (taskStore e <> None -> grows_artifacts s s') ->
  wp (sync_task e ctx id l rs) (returns (fun _ w' => heap_frame w w')) w.
Proof.
  intros Hl Hrs Hgrow. unfold sync_task. eapply rt_load; [done|].
  destruct (taskStore e) as [ts|] eqn:Hts; [|apply wp_ret, heap_frame_refl].
  assert (TaskStoreQuiet ts) by (by eapply cf_tasks). case_bool_decide as Hid; [apply wp_ret, heap_frame_refl|].
  eapply rt_load; [done|]. specialize (Hgrow ltac:(done) Hid). rewrite (proj2 (Nat.ltb_ge _ _)) by lia.
  eapply (rt_bind _ _ (fun _ w1 => heap_frame w w1)).
  { generalize (drop (length (Artifacts s)) (Artifacts s')) as arts. intros arts.
    assert (Hgen : forall w0, heap_frame w w0 -> wp (for_each (fun a => r' <- load rs ;; tks_AppendArtifact ts ctx (TaskID r') a ;; ret tt) arts)
      (returns (fun _ w1 => heap_frame w w1)) w0); [|apply Hgen, heap_frame_refl].
    induction arts as [|a arts IH]; intros w0 H0; [by apply wp_ret|]. cbn [for_each].
    eapply (rt_bind _ _ (fun _ w1 => heap_frame w w1)); [|by intros _ w1 H1; apply IH].
    eapply rt_load; [by eapply heap_frame_lookup|]. eapply rt_bind_quiet; [apply tq_append | intros r w2 _ H2].
    apply wp_ret. by eapply heap_frame_trans. }
  intros ? w1 H1. eapply rt_load; [by eapply heap_frame_lookup|].
  eapply rt_bind_quiet; [apply quiet_ask | intros t w2 _ H2].
  eapply rt_bind_quiet; [apply tq_update | intros r w3 _ H3]. apply wp_ret. cbn.
  exact (heap_frame_trans _ _ _ H1 (heap_frame_trans _ _ _ H2 H3)).
Qed.

Lemma spec_error_ok ctx sid id d l s err w :
  w_heap w !! l = Some s -> (forall ae, errors_As err = Some ae -> is_Some (ae_Cause ae)) ->
  wp (handle_error e ctx sid id d l err)
    (returns (fun r => agrees
       (if needs_human err then spec_stop StatusPaused s None else spec_stop StatusFailed s (Some err))
       (inr r))) w.
Proof.
  intros Hl Hc. unfold handle_error. eapply rt_load; [done|].
  eapply rt_bind_quiet; [apply quiet_fireHooks | intros _ w1 _ Hw1].
  apply (heap_frame_lookup _ _ _ _ Hw1) in Hl.
  eapply rt_bind; [by eapply quiet_update_task | intros ? w1' Hw1'].
  apply (heap_frame_lookup _ _ _ _ Hw1') in Hl. unfold needs_human. destruct (errors_As err) as [ae|]; [|by apply spec_stop_error].
  case_decide as Hcat; [rewrite bool_decide_eq_true_2 | rewrite bool_decide_eq_false_2]; try done;
    [|by apply spec_stop_error].
  eapply rt_bind; [by apply spec_save_as | intros l' w2 Hl'].
  eapply rt_bind_quiet; [apply quiet_publish_paused | intros _ w3 _ Hw3].
  - destruct (Hc ae eq_refl) as [cause ->]. intros w3. apply wp_bind, wp_ret, wp_ret.
    split; [done | apply heap_frame_refl].
  - apply wp_ret. split; [by eapply heap_frame_lookup | done].
Qed.

Lemma adopt_some ctx id l s l' s' w :
  w_heap w !! l = Some s -> w_heap w !! l' = Some s' -> l <> l' -> (taskStore e <> None -> grows_artifacts s s') ->
  wp (adopt_state e ctx id l (Some l'))
    (returns (fun r w' => r = l' /\
       w_heap w' !! l' = Some (set_LastNodeID id (set_StepCount (StepCount s) s')))) w.
Proof.
  intros Hl Hl' Hne Hgrow. unfold adopt_state. eapply rt_load; [done|].
  eapply rt_modify; [done|]. eapply rt_modify; [by apply heap_frame_modify|]. set (w' := set_heap _ _).
  assert (Hl2 : w_heap w' !! l' = Some (set_LastNodeID id (set_StepCount (StepCount s) s'))).
  { by apply heap_frame_modify, heap_frame_modify. }
  assert (Hl1 : w_heap w' !! l = Some s) by (unfold w'; cbn; by rewrite !list_lookup_insert_ne by done).
  eapply rt_bind; [by eapply quiet_sync_task | intros ? w1 H1]. apply wp_ret. split; [done|]. cbn in H1.
  by eapply heap_frame_lookup.
Qed.

(** The rest of the iteration once the state of the result is known. *)
Lemma result_conforms ctx sid id d l s1 res w (l2 : loc) s2 :
  w_heap w !! l = Some s1 ->
  (forall w1, heap_frame w w1 ->
     wp (adopt_state e ctx id l (nr_State res))
       (returns (fun r w' => r = l2 /\ w_heap w' !! l2 = Some s2)) w1) ->
  wp (handle_result e ctx sid id d l (Some res))
    (returns (one_of (advances e q id s2 (nr_NextNodes res) (nr_Interrupt res)))) w.
Proof.
  intros Hl Hadopt. unfold handle_result. apply wp_bind, wp_ret. eapply rt_load; [done|].
  eapply rt_bind_quiet; [apply quiet_fireHooks | intros _ w1 _ Hw1].
  eapply rt_bind; [by apply Hadopt|]. intros ? w2 [-> Hl2].
  unfold advances. destruct (nr_Interrupt res) as [signal|].
  { eapply one_of_stop; [done|]. eapply rt_bind; [by apply spec_save_as | intros l' w3 Hl'].
    eapply rt_bind_quiet; [by apply quiet_publish_paused, quiet_ret | intros _ w4 _ Hw4].
    apply wp_ret. split; [by eapply heap_frame_lookup | done]. }
  eapply (rt_bind _ _ (fun r w' =>
    match nr_NextNodes res with n :: _ => r = (n, None) | [] => routes e q s2 r end /\ heap_frame w2 w')).
  { destruct (nr_NextNodes res); [by apply spec_route_ok|]. apply wp_ret. split; [done | apply heap_frame_refl]. }
  intros [n err] w3 [Hr Hw3]. apply (heap_frame_lookup _ _ _ _ Hw3) in Hl2.
  eapply one_of_stop; [|by apply spec_settle_ok]. by exists (n, err).
Qed.

(** What follows a node that returned [r]. *)
Lemma after_conforms ctx sid id d l s r err b w w0 w' :
  w_heap w' !! l = Some (set_StepCount (int64 (StepCount s + 1)) s) -> behaves w w0 b (r, err) ->
  (forall l' s', length (w_heap w) <= l' -> w_heap w0 !! l' = Some s' -> w_heap w' !! l' = Some s') ->
  l < length (w_heap w) ->
  (taskStore e <> None -> match b with Yields s' _ _ => grows_artifacts s s' | _ => True end) ->
  wp (match err with
      | Some x => r' <- handle_error e ctx sid id d l x ;; ret (inr r')
      | None => handle_result e ctx sid id d l r
      end) (returns (one_of (after e q id s b))) w'.
Proof.
  intros Hl Hb Hkeep Hlt Hgrow. set (s1 := set_StepCount (int64 (StepCount s + 1)) s) in *.
  destruct b as [s' next sig|next sig|x], err as [x'|], r as [res|]; simpl in Hb; try done.
  - destruct Hb as (<- & <- & l' & Hres & Hfresh & Hl'). apply Hkeep in Hl'; [|done].
    eapply (result_conforms _ _ _ _ _ s1 _ _ l'); [done|]. intros w6 Hw6. rewrite Hres.
    eapply wp_mono; [apply (adopt_some ctx _ l s1 l' s')|]; [by eapply heap_frame_lookup.. | lia | exact Hgrow | done].
  - destruct Hb as (<- & <- & Hres).
    eapply (result_conforms _ _ _ _ _ s1 _ _ l); [done|]. intros w6 Hw6. rewrite Hres.
    apply wp_ret. split; [done | by eapply heap_frame_lookup].
  - destruct Hb as (-> & _ & Hc).
    eapply one_of_stop; [reflexivity|]. eapply rt_bind; [by apply spec_error_ok | intros r' w6 Hr].
    apply wp_ret. by destruct (needs_human x).
  - destruct Hb as (-> & _ & Hc).
    eapply one_of_stop; [reflexivity|]. eapply rt_bind; [by apply spec_error_ok | intros r' w6 Hr].
    apply wp_ret. by destruct (needs_human x).
Qed.

Lemma body_conforms ctx sid l s w :
  may_call q ctx -> may_visit q s -> w_heap w !! l = Some s ->
  wp (loop_body e ctx sid l) (returns (one_of (steps_to e q s))) w.
Proof.
  intros Hctx Hvisit Hl. unfold loop_body, steps_to. eapply rt_load; [done|].
  destruct (bool_decide _ || bool_decide _).
  { eapply rt_bind; [by eapply cf_save | intros [ck err] w1 [Herr Hw1]]. apply wp_ret.
    exists (inr (s, err)). split; [by exists err | split; [by eapply heap_frame_lookup | done]]. }
  case_match; [eapply one_of_stop; [done | by apply spec_stop_ok]|].
  apply rt_graph. destruct (Graph_Node _ _) as [node|] eqn:Hn; [|eapply one_of_stop; [done | by apply spec_stop_ok]].
  eapply rt_bind_quiet; [apply quiet_fireHooks | intros _ w1 _ Hw1].
  apply (heap_frame_lookup _ _ _ _ Hw1) in Hl.
  eapply rt_bind_quiet; [apply quiet_ask | intros t1 w2 _ Hw2].
  apply (heap_frame_lookup _ _ _ _ Hw2) in Hl.
  eapply rt_bind; [by eapply process_ok | intros [r err] w3 [Hw3 (b & Hm & Hb)]].
  pose proof (lookup_lt_Some _ _ _ Hl) as Hlt. apply (heap_frame_lookup _ _ _ _ Hw3) in Hl.
  eapply rt_bind_quiet; [apply quiet_ask | intros t2 w4 _ Hw4].
  apply (heap_frame_lookup _ _ _ _ Hw4) in Hl. eapply rt_modify; [done|].
  eapply wp_mono; [eapply (after_conforms ctx sid _ _ l s r err b w2 w3)|].
  - by apply heap_frame_modify.
  - done.
  - intros l' s' Hfresh Hl'. simpl. rewrite list_lookup_insert_ne by lia. by eapply heap_frame_lookup.
  - done.
  - intros Hts. destruct b; [|done..]. by eapply cf_artifacts.
  - intros [] w6; [|done..]. intros (v & Hv & Hag). exists v. split; [by exists b | done].
Qed.

Lemma inject_ok injection l s w :
  w_heap w !! l = Some s ->
  wp (inject injection l)
    (returns (fun l' w' => w_heap w' !! l' = Some (with_variables injection s))) w.
Proof.
  revert l s w. induction injection as [|[k v] rest IH]; intros l s w Hl; [by apply wp_ret|].
  simpl. eapply (rt_bind _ _ (fun l' w' => w_heap w' !! l' = Some (with_variable k v s)));
    [|intros l' w' Hl'; by apply (IH l' (with_variable k v s))].
  eapply rt_load; [done|]. apply wp_alloc. apply lookup_snoc_eq.
Qed.

Lemma WithStatus_ok l st s w :
  w_heap w !! l = Some s ->
  wp (WithStatus l st) (returns (fun l' w' => w_heap w' !! l' = Some (with_status st s))) w.
Proof. intros Hl. eapply wp_WithStatus; [done|]. apply lookup_snoc_eq. Qed.

(** The context that [runLoop] hands to the nodes. *)
Definition in_session (ctx : context) (sid : string) : context :=
  WithValue ctx (KContextKey "session_id") (AString sid).

(** What a call hands back is what a run ends with. *)
Definition ran (s : AgentState) (r : option loc * option error) w : Prop :=
  exists s' err, runs_to e q s (s', err) /\ hands_back (Some s') err r w.

Lemma steps_to_count s s' :
  in_int64 (StepCount s) -> in_int64 (maxSteps e) -> steps_to e q s (inl s') -> (StepCount s < maxSteps e)%Z /\ StepCount s' = (StepCount s + 1)%Z.
Proof.
  intros Hs Hm. unfold steps_to. case_match; [intros (? & _ & ?); done|].
  destruct (Z.leb_spec (maxSteps e) (StepCount s)); [done|]. case_match; [|done]. intros (b & _ & Hb).
  assert (int64 (StepCount s + 1) = StepCount s + 1)%Z as Hi
    by (apply int64_id; unfold in_int64 in *; lia).
  assert (Ha : forall id s0 next signal, advances e q id s0 next signal (inl s') ->
    StepCount s' = StepCount s0).
  { intros id s0 next signal. unfold advances, settle, spec_stop. case_match; [done|].
    intros (choice & Hv & _). repeat case_match; by simplify_eq/=. }
  split; [lia|]. destruct b; simpl in Hb.
  - apply Ha in Hb as ->. exact Hi.
  - apply Ha in Hb as ->. exact Hi.
  - unfold spec_stop in Hb. by case_match.
Qed.

Lemma loop_runs fuel ctx sid l s w :
  may_call q ctx -> may_visit q s -> w_heap w !! l = Some s ->
  in_int64 (StepCount s) -> in_int64 (maxSteps e) ->
  Z.to_nat (maxSteps e - StepCount s) < fuel ->
  wp (loop fuel e ctx sid l) (returns (ran s)) w.
Proof.
  revert l s w. induction fuel as [|fuel IH]; intros l s w Hctx Hvis Hl Hs Hm Hf; [lia|]. simpl.
  eapply rt_bind; [by apply body_conforms|]. intros v w1 (v' & Hv & Hag).
  destruct v' as [s1|[s1 err1]], v as [l1|[[l1|] err2]]; simpl in Hag; try done.
  - destruct (steps_to_count _ _ Hs Hm Hv) as [? Hc].
    eapply wp_mono; [apply (IH l1 s1); [done | by eapply cf_visits | done | unfold in_int64 in *; lia | done | lia]|].
    intros [] w2; [|done..]. intros (s' & err & Hr & Hh). exists s', err. split; [by eapply runs_on | done].
  - destruct Hag as [Hl1 ->]. apply wp_ret. exists s1, err1. split; [by apply runs_stop | by split].
Qed.

Lemma start_runs fuel ctx sid l s w :
  may_call q (in_session ctx sid) -> may_visit q (spec_start e s) -> w_heap w !! l = Some s -> in_int64 (StepCount s) -> in_int64 (maxSteps e) ->
  Z.to_nat (maxSteps e - StepCount s) < fuel ->
  wp (Start fuel e ctx sid (Some l)) (returns (ran (spec_start e s))) w.
Proof.
  intros Hctx Hv Hl Hs Hm Hf. unfold Start. eapply wp_bind_Ret; [reflexivity|].
  eapply rt_bind; [by apply WithStatus_ok | cbv beta; intros l1 w1 Hl1]. eapply rt_load; [done|].
  unfold spec_start in *. case_match.
  - apply wp_bind, rt_graph. eapply wp_modify; [done|]. apply loop_runs; [done | done | by apply heap_frame_modify | done..].
  - eapply wp_bind_Ret; [reflexivity|]. by apply loop_runs.
Qed.

(** A paused session whose last node has a successor. *)
Lemma resume_runs fuel ctx sid injection l s next w0 w :
  ms_Load (memoryStore e) ctx sid w0 = (Ret (Some l, None), w) -> w_heap w !! l = Some s ->
  Status s = StatusPaused -> in_int64 (StepCount s) -> in_int64 (maxSteps e) ->
  Z.to_nat (maxSteps e - StepCount s) < fuel -> next <> "" ->
  may_call q (in_session ctx sid) -> may_visit q (set_LastNodeID next (spec_injected injection s)) ->
  (forall choice, routes e q (spec_injected injection s) choice -> choice = (next, None)) ->
  wp (Resume fuel e ctx sid injection)
    (returns (ran (set_LastNodeID next (spec_injected injection s)))) w0.
Proof.
  intros Hload Hl Hst Hs Hm Hf Hne Hctx Hvis Hroute. unfold Resume. eapply wp_bind_Ret; [done|]. simpl.
  eapply wp_bind_Ret; [reflexivity|]. eapply rt_load; [done|]. rewrite bool_decide_eq_true_2 by done.
  eapply rt_bind; [by apply inject_ok | intros l1 w1 Hl1].
  eapply rt_bind; [eapply WithStatus_ok; exact Hl1 | cbv beta; intros l2 w2 Hl2].
  fold (spec_injected injection s) in Hl2. set (s2 := spec_injected injection s) in *.
  eapply rt_bind; [by apply spec_route_ok | intros choice w3 [Hr Hw3]]. apply Hroute in Hr as ->.
  rewrite bool_decide_eq_false_2 by done. apply (heap_frame_lookup _ _ _ _ Hw3) in Hl2.
  assert (StepCount s2 = StepCount s) as Hsc by apply with_variables_fields.
  eapply rt_modify; [done|]. eapply loop_runs; [done | done | by apply heap_frame_modify | unfold s2 in Hsc; simpl in *; rewrite ?Hsc; done..].
Qed.
End conformance.

(** A program is the behaviours that leave no choice. *)
Section refinement.
Context {E : Type} (e : Engine E) (p : program) `{!Implements e p}.
Implicit Types w : World E.

#[local] Instance implements_conforms : Conforms e (only p).
Proof.
  split.
  - by eapply imp_graph.
  - intros node ctx l s w _ Hn _ Hl. eapply wp_mono; [by eapply imp_nodes|].
    intros [] w'; [|done..]. intros [Hw Hb]. split; [done | by eexists].
  - done.
  - by apply imp_routers.
  - by apply imp_save.
  - by eapply imp_bus.
  - by eapply imp_hooks.
  - by apply (imp_tasks e p).
  - intros Hts s s' next signal _ Hn. by apply (imp_artifacts e p Hts (LastNodeID s) s s' next signal).
  - by eapply imp_attempts.
Qed.

Lemma routes_only s choice : routes e (only p) s choice -> choice = spec_route e p s.
Proof. unfold routes, spec_route. by repeat case_match. Qed.

Lemma steps_to_only s v : steps_to e (only p) s v -> v = spec_step e p s.
Proof.
  assert (Ha : forall id s0 next signal, advances e (only p) id s0 next signal v ->
    v = spec_advance e p id s0 next signal).
  { intros id s0 next signal. unfold advances, spec_advance. case_match; [done|].
    intros (choice & -> & Hc). case_match; [by apply routes_only in Hc as -> | by subst]. }
  unfold steps_to, spec_step. case_match; [by intros (serr & -> & ->)|]. case_match; [done|].
  case_match; [|done]. intros (b & Hb & Hv). simpl in Hb. subst b. destruct (pg_node p _ s); [by apply Ha..|done].
Qed.

Lemma body_refines ctx sid l s w :
  w_heap w !! l = Some s ->
  wp (loop_body e ctx sid l) (returns (agrees (spec_step e p s))) w.
Proof.
  intros Hl. eapply wp_mono; [by apply (body_conforms e (only p))|].
  intros [] w'; [|done..]. intros (v & Hv%steps_to_only & Hag). by subst v.
Qed.

Lemma loop_refines fuel ctx sid l s s' err w :
  w_heap w !! l = Some s -> spec_run e p fuel s = Some (s', err) ->
  wp (loop fuel e ctx sid l) (returns (hands_back (Some s') err)) w.
Proof.
  revert l s w. induction fuel as [|fuel IH]; intros l s w Hl Hrun; simpl in *; [done|].
  eapply rt_bind; [by apply body_refines|]. intros v w1.
  destruct (spec_step e p s) as [s1|[s1 err1]], v as [l1|[[l1|] err2]]; simpl; try done.
  - intros Hl1. by eapply IH.
  - intros [Hl1 ->]. simplify_eq. by apply wp_ret.
Qed.

Lemma resume_ok fuel ctx sid injection l s w0 w ms err :
  ms_Load (memoryStore e) ctx sid w0 = (Ret (Some l, None), w) -> w_heap w !! l = Some s ->
  spec_resume e p fuel injection s = Some (ms, err) ->
  wp (Resume fuel e ctx sid injection) (returns (hands_back ms err)) w0.
Proof.
  intros Hload Hl Hspec. unfold Resume. eapply wp_bind_Ret; [done|]. simpl.
  eapply wp_bind_Ret; [reflexivity|]. eapply rt_load; [done|].
  unfold spec_resume in Hspec. case_match; [|by simplify_eq; apply wp_ret].
  eapply rt_bind; [by apply inject_ok | intros l1 w1 Hl1].
  eapply rt_bind; [eapply WithStatus_ok; exact Hl1 | cbv beta; intros l2 w2 Hl2].
  fold (spec_injected injection s) in Hl2. set (s2 := spec_injected injection s) in *.
  eapply rt_bind; [by apply (spec_route_ok e (only p)) | intros [next rerr] w3 [Hr%routes_only Hw3]].
  rewrite <- Hr in Hspec.
  destruct rerr as [x|]; [simplify_eq; by apply wp_ret|].
  apply (heap_frame_lookup _ _ _ _ Hw3) in Hl2. case_match.
  - eapply rt_load; [done|]. apply (rt_graph e (only p)).
    assert (LastNodeID s2 = LastNodeID s) as -> by apply LastNodeID_injected.
    case_match; simplify_eq; [|by apply wp_ret].
    eapply rt_bind; [by apply (spec_save_as e (only p)) | intros l4 w4 Hl4]. by apply wp_ret.
  - destruct (spec_run _ _ _ _) as [[s' err']|] eqn:Hrun; simplify_eq.
    eapply rt_modify; [done|]. eapply loop_refines; [|done]. by apply heap_frame_modify.
Qed.

Lemma start_ok fuel ctx sid l s w s' err :
  w_heap w !! l = Some s -> spec_run e p fuel (spec_start e s) = Some (s', err) ->
  wp (Start fuel e ctx sid (Some l)) (returns (hands_back (Some s') err)) w.
Proof.
  intros Hl Hrun. unfold Start. eapply wp_bind_Ret; [reflexivity|].
  eapply rt_bind; [by apply WithStatus_ok | cbv beta; intros l1 w1 Hl1]. eapply rt_load; [done|].
  unfold spec_start in Hrun. case_match.
  - apply wp_bind, (rt_graph e (only p)). eapply wp_modify; [done|]. eapply loop_refines; [|done]. by apply heap_frame_modify.
  - eapply wp_bind_Ret; [reflexivity|]. by eapply loop_refines.
Qed.
End refinement.

Section termination.
Context {E : Type} (e : Engine E) (p : program).

Lemma spec_step_steps s s' :
  in_int64 (StepCount s) -> in_int64 (maxSteps e) -> spec_step e p s = inl s' ->
  (StepCount s < maxSteps e)%Z /\ StepCount s' = (StepCount s + 1)%Z.
Proof.
  intros Hs Hm. unfold spec_step. case_match; [done|].
  destruct (Z.leb_spec (maxSteps e) (StepCount s)); [done|]. case_match; [|done].
  assert (int64 (StepCount s + 1) = StepCount s + 1)%Z as ->
    by (apply int64_id; unfold in_int64 in *; lia).
  assert (Ha : forall id s0 next signal, spec_advance e p id s0 next signal = inl s' ->
    StepCount s' = StepCount s0).
  { intros id s0 next signal. unfold spec_advance, settle, spec_stop. repeat case_match; intros; by simplify_eq/=. }
  destruct (pg_node _ _ _).
  - intros Hi%Ha. done.
  - intros Hi%Ha. done.
  - unfold spec_stop. by case_match.
Qed.

Lemma spec_run_total fuel s :
  in_int64 (StepCount s) -> in_int64 (maxSteps e) ->
  Z.to_nat (maxSteps e - StepCount s) < fuel -> is_Some (spec_run e p fuel s).
Proof.
  revert s. induction fuel as [|fuel IH]; intros s Hs Hm Hf; [lia|]. simpl.
  destruct (spec_step e p s) as [s'|r] eqn:Hst; [|done].
  destruct (spec_step_steps _ _ Hs Hm Hst) as [? Hsc].
  apply IH; [unfold in_int64 in *; lia | done | lia].
Qed.
End termination.

(** ** Properties *)

(** C1: the engine refines its specification. Of an engine that implements a
    program, [Start] returns, and the state and error it hands back are the ones of
    the pure state machine [spec_run] on the starting snapshot, on every branch:
    step limit, unknown node, node failure, request for a human, interrupt,
    explicit and routed successor, router failure, terminal and dead end.
    [maxSteps - steps + 1] iterations are enough. This is not about every engine:
    [Implements] asks for a graph and at least one attempt; for nodes that compute
    the program, return, write no state that exists and hand back a new state in a
    new cell, whose failures are not retriable and whose [AgentError]s have a
    cause; for conditional edges with routers that compute the program and write
    nothing, and saves that fail as the program says; for a bus and a task store,
    if there are any, whose calls return and write no state, the nodes never
    dropping an artifact of a task; and for hooks that end - they may panic - and
    write no state, which [OutputGuardHook] does not meet. *)
Theorem Start_refines_spec {E} (e : Engine E) (p : program) (fuel : nat) (ctx : context) (sid : string)
    (l : loc) (s : AgentState) (w : World E) :
  Implements e p -> w_heap w !! l = Some s ->
  in_int64 (StepCount s) -> in_int64 (maxSteps e) -> Z.to_nat (maxSteps e - StepCount s) < fuel ->
  exists s' err, spec_run e p fuel (spec_start e s) = Some (s', err) /\
    wp (Start fuel e ctx sid (Some l)) (returns (hands_back (Some s') err)) w.
Proof.
  intros Hi Hl Hs Hm Hf.
  assert (StepCount (spec_start e s) = StepCount s) as Hsc by (unfold spec_start; by case_match).
  destruct (spec_run_total e p fuel (spec_start e s)) as [[s' err] Hrun]; [congruence..|].
  exists s', err. split; [done|]. by eapply start_ok.
Qed.

(** C3: [Resume] goes on after the paused node. Of an engine that implements a
    program, under the conditions of [Implements] that [Start_refines_spec] lists, a
    session that is not paused is handed back as it was loaded; a paused one gets
    the injected variables, in any order, runs from the successor of its last node -
    that node itself is not run again, even when it asked for a human before doing
    its work - and ends as the specification says; without a successor it completes
    at a terminal and fails elsewhere. *)
Theorem Resume_refines_spec {E} (e : Engine E) (p : program) (fuel : nat) (ctx : context) (sid : string)
    (injection order : list (string * any)) (l : loc) (s : AgentState) (w0 w : World E) :
  Implements e p -> injection ≡ₚ order -> NoDup injection.*1 ->
  ms_Load (memoryStore e) ctx sid w0 = (Ret (Some l, None), w) -> w_heap w !! l = Some s ->
  in_int64 (StepCount s) -> in_int64 (maxSteps e) -> Z.to_nat (maxSteps e - StepCount s) < fuel ->
  exists ms err, spec_resume e p fuel injection s = Some (ms, err) /\
    wp (Resume fuel e ctx sid order) (returns (hands_back ms err)) w0.
Proof.
  intros Hi Hperm Hnd Hload Hl Hs Hm Hf.
  assert (is_Some (spec_resume e p fuel injection s)) as [[ms err] Hr].
  { unfold spec_resume. case_match; [|done]. destruct (spec_route _ _ _) as [next [x|]]; [done|].
    case_match; [by case_match|].
    destruct (spec_run_total e p fuel (set_LastNodeID next (spec_injected injection s)))
      as [[s' err] Hrun]; simpl; rewrite ?(proj1 (with_variables_fields _ _)); try done.
    by rewrite Hrun. }
  exists ms, err. split; [done|]. eapply resume_ok; [done..|]. rewrite <- Hr.
  unfold spec_resume, spec_injected. by rewrite (with_variables_perm injection order).
Qed.

(** C4: the engine refines the nondeterministic machine. For nodes whose work also
    depends on a clock, random numbers or another service - each may do any of the
    things [q] lists for a snapshot - [Start] returns, and what it hands back is
    the end of a run of [runs_to], the step relation of the specification with the
    choices of [q]. [Conforms] has the conditions of [Implements] on the parts: a
    graph, failures that are not retriable, new states in new cells, and hooks,
    routers, stores and a bus that write no state. *)
Theorem Start_conforms {E} (e : Engine E) (q : behaviours) (fuel : nat) (ctx : context) (sid : string)
    (l : loc) (s : AgentState) (w : World E) :
  Conforms e q -> may_call q (in_session ctx sid) -> may_visit q (spec_start e s) ->
  w_heap w !! l = Some s ->
  in_int64 (StepCount s) -> in_int64 (maxSteps e) -> Z.to_nat (maxSteps e - StepCount s) < fuel ->
  wp (Start fuel e ctx sid (Some l)) (returns (ran e q (spec_start e s))) w.
Proof. intros. by apply start_runs. Qed.

(** ** Witnesses *)

(** A node that computes a behaviour. *)
Definition node_of {E} (id : string) (b : AgentState -> behaviour) : Node E :=
  mkNode id (fun _ l =>
    s <- load l ;;
    match b s with
    | Yields s' next signal =>
        l' <- alloc s' ;;
        ret (Some (mkNodeResult (Some l') next signal), None)
    | Keeps next signal => ret (Some (mkNodeResult None next signal), None)
    | Fails err => ret (None, Some err)
    end).

Definition router_of {E} (f : AgentState -> string * option error) : RouterFunc E := fun _ l =>
  s <- load l ;;
  ret (f s).

(** The node [a] says something and asks for an approval, [b] ends. *)
Definition demo_program : program :=
  mkProgram
    (fun id s =>
       if String.eqb id "a"
       then Yields (with_message (message RoleAssistant [text_part "ok?"]) s) []
              (Some (mkInterruptSignal InterruptHumanApproval [] ""))
       else Keeps [] None)
    (fun _ s => (string_or_empty (var_get s "goto"), None))
    (fun s => match marshal_AgentState (fun _ => None) s with
              | None => Some ErrMarshal
              | Some _ => None
              end).

Definition approval_graph : Graph InMemoryStore :=
  mkGraph
    (<["a" := node_of "a" (pg_node demo_program "a")]>
       {["b" := node_of "b" (pg_node demo_program "b")]})
    [mkEdge "a" "" true (Some (router_of (pg_route demo_program "a")))] "a" {["b" := true]}.

Definition silent_tasks : TaskStore InMemoryStore :=
  mkTaskStore (fun _ _ => ret None) (fun _ _ => ret (None, None)) (fun _ _ _ => ret None) (fun _ _ _ => ret None)
    (fun _ _ _ => ret None) (fun _ _ _ => ret None) (fun _ _ => ret ([], None)) (fun _ _ _ _ => ret ([], "", None)).

#[local] Instance silent_tasks_quiet : TaskStoreQuiet silent_tasks.
Proof. split; intros; by apply quiet_ret. Qed.

Definition approval_engine : Engine InMemoryStore :=
  NewEngine (Some approval_graph) InMemory None [WithMaxSteps 9; WithTaskStore silent_tasks].

#[local] Instance approval_implements : Implements approval_engine demo_program.
Proof.
  assert (Hnode : forall id ctx l s (w : World InMemoryStore), id = "a" \/ id = "b" ->
    w_heap w !! l = Some s ->
    wp (node_Process (node_of id (pg_node demo_program id)) ctx l)
      (returns (fun r w' => heap_frame w w' /\ behaves w w' (pg_node demo_program id s) r)) w).
  { intros id ctx l s w Hid Hl. eapply rt_load; [done|]. destruct Hid as [-> | ->]; simpl.
    - apply wp_bind, wp_alloc, wp_ret. simpl. split; [by eexists [_]|]. split_and!; [done|done|].
      exists (length (w_heap w)). split_and!; [done | done | apply lookup_snoc_eq].
    - apply wp_ret. split; [apply heap_frame_refl | done]. }
  split; [done|..].
  - intros id node ctx l s w Hn Hl. simpl in Hn.
    apply lookup_insert_Some in Hn as [[<- <-]|[_ Hn]]; [by apply Hnode; [left|]|].
    apply lookup_singleton_Some in Hn as [<- <-]. by apply Hnode; [right|].
  - intros edge ctx l s w He _ Hl. apply list_elem_of_singleton in He as ->.
    eexists. split; [reflexivity|]. eapply rt_load; [done|]. apply wp_ret.
    split; [done | apply heap_frame_refl].
  - intros ctx sid l s w Hl. unfold wp. simpl. rewrite (Save_eq ctx sid l s w Hl). simpl.
    change (plan_doc (w_ext w)) with (fun _ : nat => @None json).
    destruct (marshal_AgentState _ s); simpl; (split; [done|]); [by apply heap_frame_eq | apply heap_frame_refl].
  - done.
  - intros h pt meta Hh. by apply elem_of_nil in Hh.
  - intros ts Hts. injection Hts as <-. apply silent_tasks_quiet.
  - intros _ id s s' next signal Hy _. cbn in Hy. destruct (String.eqb id "a"); by simplify_eq/=.
  - done.
Defined.

Lemma Start_refines_spec_witness :
  w_heap demo_world !! 0 = Some demo_state /\
  exists s' err, spec_run approval_engine demo_program 10 (spec_start approval_engine demo_state)
      = Some (s', err) /\
    wp (Start 10 approval_engine Background "s" (Some 0)) (returns (hands_back (Some s') err)) demo_world.
Proof.
  split; [reflexivity|].
  apply (Start_refines_spec approval_engine demo_program 10 Background "s" 0 demo_state demo_world
           approval_implements); [reflexivity | split; vm_compute; discriminate .. | cbn; lia].
Defined.

(** The session after the first run: paused at [a]. *)
Definition paused_world : World InMemoryStore := (Start 10 approval_engine Background "s" (Some 0) demo_world).2.

Definition paused_state : AgentState :=
  match (Load Background "s" paused_world).1 with
  | Ret (Some l, _) => default zero_AgentState (w_heap (Load Background "s" paused_world).2 !! l)
  | _ => zero_AgentState
  end.

Lemma Resume_refines_spec_witness :
  Status paused_state = StatusPaused /\ LastNodeID paused_state = "a" /\
  exists ms err,
    spec_resume approval_engine demo_program 10 [("ok", ABool true); ("goto", AString "b")] paused_state
      = Some (ms, err) /\
    wp (Resume 10 approval_engine Background "s" [("goto", AString "b"); ("ok", ABool true)])
      (returns (hands_back ms err)) paused_world.
Proof.
  split; [reflexivity|]. split; [reflexivity|].
  eapply (Resume_refines_spec approval_engine demo_program 10 Background "s"
    [("ok", ABool true); ("goto", AString "b")] [("goto", AString "b"); ("ok", ABool true)]
    (length (w_heap paused_world)) paused_state paused_world
    (ms_Load (memoryStore approval_engine) Background "s" paused_world).2
    approval_implements).
  - apply Permutation_swap.
  - by apply (bool_decide_unpack _).
  - apply run_eq. vm_compute. reflexivity.
  - vm_compute. reflexivity.
  - split; vm_compute; discriminate.
  - split; vm_compute; discriminate.
  - vm_compute. lia.
Defined.

(** A node that stamps the session with the time. *)
Definition stamp_node : Node InMemoryStore :=
  mkNode "a" (fun _ l =>
    t <- now ;;
    s <- load l ;;
    l' <- alloc (with_variable "at" (AInt t) s) ;;
    ret (Some (mkNodeResult (Some l') [] None), None)).

Definition stamp_engine : Engine InMemoryStore :=
  NewEngine (Some (mkGraph {["a" := stamp_node]} [] "a" {["a" := true]})) InMemory None [WithMaxSteps 9].

(** Any time may be stamped. *)
Definition stamps : behaviours :=
  mkBehaviours (fun _ => True) (fun _ => True)
    (fun _ s b => exists t, b = Yields (with_variable "at" (AInt t) s) [] None)
    (fun _ _ _ => False) (fun _ _ => True).

#[local] Instance stamp_conforms : Conforms stamp_engine stamps.
Proof.
  split; try done.
  - intros node ctx l s w _ Hn _ Hl. simpl in Hn. apply lookup_singleton_Some in Hn as [_ <-].
    eapply wp_bind_Ret; [reflexivity|]. eapply rt_load; [done|]. apply wp_bind, wp_alloc, wp_ret.
    split; [by eexists [_]|]. eexists. split; [by eexists|]. split_and!; [done|done|].
    eexists. split_and!; [done | simpl; lia | apply lookup_snoc_eq].
  - intros edge ctx l s w He. by apply elem_of_nil in He.
  - intros ctx sid l s w Hl. unfold wp. simpl. rewrite (Save_eq ctx sid l s w Hl).
    destruct (marshal_AgentState _ s); (split; [done|]); by apply heap_frame_eq.
  - intros h pt meta Hh. by apply elem_of_nil in Hh.
Qed.

Lemma Start_conforms_witness :
  w_heap demo_world !! 0 = Some demo_state /\
  wp (Start 10 stamp_engine Background "s" (Some 0))
    (returns (ran stamp_engine stamps (spec_start stamp_engine demo_state))) demo_world.
Proof.
  split; [reflexivity|].
  apply (Start_conforms stamp_engine stamps 10 Background "s" 0 demo_state demo_world stamp_conforms);
    [done | done | reflexivity | split; vm_compute; discriminate .. | cbn; lia].
Defined.
