(* ===== verification/Sessions.v ===== *)
(** * Many runs at once: engine/engine.go under the goroutines of a2a/server.go

    The service starts every run in a goroutine of its own, and all runs share one
    engine, its stores and its environment. A system is a list of runs and the
    world: a step begins a run, makes one iteration of the loop of some run, or
    changes the world as the rest of the program may - its handlers, its buses,
    the clock - which adds states and writes none that exists. The iterations of
    different runs interleave in any order; an iteration is one step. *)

From S2P Require Import Prelude GoLang Core World Interfaces Memory Graph Resilience Engine EngineSpec.
From stdpp Require Import base gmap strings list relations.

#[local] Open Scope go_scope.

(** ** The system *)

(** The head of [Start], up to the call of [runLoop]. *)
Definition enter {E} (e : Engine E) (initialState : option loc) : M E loc :=
  state <- match initialState with Some l => ret l | None => alloc NewState end ;;
  state <- WithStatus state StatusRunning ;;
  s <- load state ;;
  (if bool_decide (LastNodeID s = "") then g <- deref (graph e) ;; modify state (set_LastNodeID (Entry g))
   else ret tt) ;;
  ret state.

Inductive progress :=
  | Running (state : loc)
  | Returned (r : option loc * option error).

(** A run: the context and the session it was started with, the snapshot its loop
    began with, how often the loop went round, and where it is. *)
Record run := mkRun {
  run_ctx : context;
  run_sid : string;
  run_from : AgentState;
  run_rounds : nat;
  run_at : progress;
}.

(** The run after an iteration that ended with [r]. *)
Definition advance (t : run) (r : loc + (option loc * option error)) : run :=
  mkRun (run_ctx t) (run_sid t) (run_from t) (S (run_rounds t))
    (match r with inl l => Running l | inr r => Returned r end).

Section system.
Context {E : Type} (e : Engine E) (q : behaviours).

Inductive sys_step : list run * World E -> list run * World E -> Prop :=
  | sys_begin ts ctx sid init l s w w' :
      may_call q (in_session ctx sid) -> may_visit q s -> in_int64 (StepCount s) ->
      enter e init w = (Ret l, w') -> w_heap w' !! l = Some s ->
      sys_step (ts, w) (ts ++ [mkRun ctx sid s 0 (Running l)], w')
  | sys_iterate ts i t l r w w' :
      ts !! i = Some t -> run_at t = Running l ->
      loop_body e (in_session (run_ctx t) (run_sid t)) (run_sid t) l w = (Ret r, w') ->
      sys_step (ts, w) (<[i := advance t r]> ts, w')
  | sys_other ts w w' : heap_frame w w' -> sys_step (ts, w) (ts, w').

(** ** What every run is, whatever the others do *)

(** An iteration of the specification that goes on. *)
Definition goes_on_to (s s' : AgentState) : Prop := steps_to e q s (inl s').

(** The run is where the specification alone, from the same snapshot, may be, and
    it has made no more iterations than its step limit allows. *)
Definition run_ok (w : World E) (t : run) : Prop :=
  may_call q (in_session (run_ctx t) (run_sid t)) /\ in_int64 (StepCount (run_from t)) /\
  match run_at t with
  | Running l => exists s, w_heap w !! l = Some s /\ may_visit q s /\ in_int64 (StepCount s) /\
      rtc goes_on_to (run_from t) s /\
      (run_rounds t = 0 \/ (StepCount s <= maxSteps e)%Z) /\
      StepCount s = (StepCount (run_from t) + Z.of_nat (run_rounds t))%Z
  | Returned r => ran e q (run_from t) r w /\
      (Z.of_nat (run_rounds t) <= Z.max 0 (maxSteps e - StepCount (run_from t)) + 1)%Z
  end.

(** The state a run works on or hands back. *)
Definition owns (t : run) : option loc :=
  match run_at t with Running l => Some l | Returned r => r.1 end.

Record system_ok (ts : list run) (w : World E) : Prop := {
  so_runs : Forall (run_ok w) ts;
  so_apart : forall i j ti tj l,
    ts !! i = Some ti -> ts !! j = Some tj -> owns ti = Some l -> owns tj = Some l -> i = j;
  so_alive : forall i t l, ts !! i = Some t -> owns t = Some l -> l < length (w_heap w);
}.
End system.

(** ** Lemmas: what an iteration writes *)

Section writes.
Context {E : Type} (e : Engine E) (q : behaviours) `{!Conforms e q}.
(** The heap at the beginning of the iteration and the state of the run. *)
Context (h0 : list AgentState) (l0 : loc).
Implicit Types w : World E.

(** The states of the others are as they were. *)
Definition kept w : Prop :=
  length h0 <= length (w_heap w) /\ forall k s, k <> l0 -> h0 !! k = Some s -> w_heap w !! k = Some s.

(** The state of the run, or a new one. *)
Definition mine (l : loc) : Prop := l = l0 \/ length h0 <= l.

Definition safe {A} (Q : A -> Prop) (m : M E A) : Prop :=
  forall w, kept w -> wp m (if_returns (fun a w' => Q a /\ kept w')) w.

Lemma kept_frame w w' : kept w -> heap_frame w w' -> kept w'.
Proof.
  intros [Hlen Hk] Hf. split; [by etransitivity; [|by apply heap_frame_length]|].
  intros k s Hne Hs. eapply heap_frame_lookup; [exact Hf | by apply Hk].
Qed.

Lemma safe_bind {A B} (P : A -> Prop) (Q : B -> Prop) (m : M E A) k :
  safe P m -> (forall a, P a -> safe Q (k a)) -> safe Q (bind m k).
Proof.
  intros Hm Hk w Hw. apply ir_bind. intros a w' Ha. specialize (Hm w Hw). unfold wp in Hm.
  rewrite Ha in Hm. destruct Hm as [HP Hw']. by apply (Hk a HP).
Qed.

Lemma safe_ret {A} (Q : A -> Prop) a : Q a -> safe Q (ret a).
Proof. intros HQ w Hw. apply wp_ret. by split. Qed.

Lemma safe_panic {A} (Q : A -> Prop) v : safe Q (panic (A := A) v).
Proof. by intros w Hw. Qed.

Lemma safe_frame {A} (m : M E A) : (forall w, wp m (if_returns (fun _ => heap_frame w)) w) -> safe (fun _ => True) m.
Proof.
  intros Hm w Hw. eapply wp_mono; [apply Hm|]. intros [a| |] w' Hf; [|done..].
  split; [done | by eapply kept_frame].
Qed.

Lemma safe_quiet {A} (P : A -> Prop) (m : M E A) : quiet P m -> safe (fun _ => True) m.
Proof.
  intros Hm. apply safe_frame. intros w. eapply wp_mono; [apply Hm|]. by intros [a| |] w' H; [apply H|..].
Qed.

Lemma safe_read l : safe (fun _ => True) (load l).
Proof. apply safe_frame. intros w. unfold wp, load. case_match; [apply heap_frame_refl | done]. Qed.

Lemma safe_deref {A} (p : option A) : safe (fun a => p = Some a) (deref p).
Proof. destruct p; [by apply safe_ret | apply safe_panic]. Qed.

Lemma safe_modify l f : mine l -> safe (fun _ => True) (modify l f).
Proof.
  intros Hl w [Hlen Hk]. apply ir_bind. intros s w1 Hs. unfold load in Hs.
  destruct (w_heap w !! l) eqn:He; [|done]. injection Hs as <- <-. unfold wp, store. rewrite He.
  cbn [fst snd if_returns]. split; [done|]. unfold kept. cbn [w_heap set_heap].
  split; [by rewrite length_insert|]. intros k x Hne Hx. rewrite list_lookup_insert_ne; [by apply Hk|]. apply lookup_lt_Some in Hx.
  destruct Hl; subst; [done | lia].
Qed.

(** A new state. *)
Lemma safe_WithStatus l st : safe mine (WithStatus l st).
Proof.
  apply (safe_bind (fun _ => True)); [apply safe_read|]. intros s _ w Hw. apply wp_alloc. split.
  - right. apply Hw.
  - eapply kept_frame; [exact Hw | by exists [with_status st s]].
Qed.

Lemma saves_frame ctx sid l s w :
  w_heap w !! l = Some s -> wp (ms_Save (memoryStore e) ctx sid l) (if_returns (fun _ => heap_frame w)) w.
Proof. intros Hl. eapply wp_mono; [by eapply cf_save|]. by intros [a| |] w' H; [apply H|..]. Qed.

Lemma safe_save_as ctx sid st l : safe mine (save_as e ctx sid st l).
Proof.
  intros w Hw. unfold save_as, WithStatus. unfold wp. rewrite bind_assoc.
  change (wp (s <- load l ;; (l' <- alloc (with_status st s) ;; ms_Save (memoryStore e) ctx sid l' ;; ret l'))
    (if_returns (fun a w' => mine a /\ kept w')) w).
  apply ir_bind. intros s w1 Hs. assert (Hf : heap_frame w w1).
  { unfold load in Hs. case_match; [injection Hs as _ <-; apply heap_frame_refl | done]. }
  pose proof (kept_frame w w1 Hw Hf) as Hw1. apply ir_bind. intros l' w2 [= <- <-].
  pose proof (kept_frame w1 _ Hw1 (ex_intro _ [with_status st s] eq_refl : heap_frame w1 (set_heap _ w1))) as Hw2.
  apply ir_bind. intros r w3 Hr. apply wp_ret. split; [right; apply Hw1|].
  pose proof (saves_frame ctx sid (length (w_heap w1)) (with_status st s)
    (set_heap (w_heap w1 ++ [with_status st s]) w1) (lookup_snoc_eq _ _)) as Hsv.
  unfold wp in Hsv. rewrite Hr in Hsv. exact (kept_frame _ _ Hw2 Hsv).
Qed.
Lemma safe_fireHooks st meta : safe (fun _ => True) (fireHooks e st meta).
Proof. eapply safe_quiet. by apply (quiet_fireHooks e q). Qed.

Lemma safe_publish sid payload : safe (fun _ => True) payload -> safe (fun _ => True) (publish_paused e sid payload).
Proof.
  intros Hp. unfold publish_paused. destruct (eventBus e) as [bus|] eqn:Hbus; [|by apply safe_ret].
  eapply safe_bind; [exact Hp | intros p _].
  eapply safe_bind; [eapply safe_quiet; by eapply cf_bus | intros _ _; by apply safe_ret].
Qed.

Definition hands_mine (r : option loc * option error) : Prop := forall l, r.1 = Some l -> mine l.

Definition in_hand (r : loc + (option loc * option error)) : Prop :=
  match r with inl l => mine l | inr r => hands_mine r end.

(** A run that returns a state it saved. *)
Lemma safe_return ctx sid st err l :
  safe hands_mine (state' <- save_as e ctx sid st l ;; ret (Some state', err)).
Proof.
  eapply safe_bind; [apply safe_save_as | intros l' Hl']. apply safe_ret. by intros l2 [= <-].
Qed.

Lemma safe_stop ctx sid st err l :
  safe in_hand (state' <- save_as e ctx sid st l ;; ret (inr (Some state', err))).
Proof.
  eapply safe_bind; [apply safe_save_as | intros l' Hl']. apply safe_ret. by intros l2 [= <-].
Qed.

Lemma safe_for_each {A} (f : A -> M E unit) xs :
  (forall x, safe (fun _ => True) (f x)) -> safe (fun _ => True) (for_each f xs).
Proof.
  intros Hf. induction xs as [|x xs IH]; [by apply safe_ret|]. cbn [for_each].
  eapply safe_bind; [apply Hf | by intros _ _].
Qed.

Lemma safe_tell ctx ts tid (st : Z -> TaskStatus) : TaskStoreQuiet ts ->
  safe (fun _ => True) (t <- now ;; tks_UpdateStatus ts ctx tid (st t) ;; ret tt).
Proof.
  intros Hts. eapply safe_bind; [eapply safe_quiet, quiet_ask | intros t _].
  eapply safe_bind; [eapply safe_quiet, tq_update | intros r _; by apply safe_ret].
Qed.

Lemma safe_update_task ctx l st msg : safe (fun _ => True) (update_task e ctx l st msg).
Proof.
  unfold update_task. eapply safe_bind; [apply safe_read | intros s _].
  destruct (taskStore e) as [ts|] eqn:Hts; [|by apply safe_ret].
  case_match; [by apply safe_ret|]. apply (safe_tell _ _ _ (fun t => mkTaskStatus st t msg)). by eapply cf_tasks.
Qed.

Lemma safe_sync_task ctx id l rs : safe (fun _ => True) (sync_task e ctx id l rs).
Proof.
  unfold sync_task. eapply safe_bind; [apply safe_read | intros s _].
  destruct (taskStore e) as [ts|] eqn:Hts; [|by apply safe_ret].
  assert (TaskStoreQuiet ts) by (by eapply cf_tasks). case_match; [by apply safe_ret|].
  eapply safe_bind; [apply safe_read | intros r _]. case_match; [apply safe_panic|].
  eapply safe_bind; [|intros _ _].
  { apply safe_for_each. intros a. eapply safe_bind; [apply safe_read | intros r' _].
    eapply safe_bind; [eapply safe_quiet, tq_append | intros x _; by apply safe_ret]. }
  eapply safe_bind; [apply safe_read | intros r' _]. by apply (safe_tell _ _ _ (fun t => mkTaskStatus _ t _)).
Qed.

Lemma safe_handle_error ctx sid id d l err :
  safe hands_mine (handle_error e ctx sid id d l err).
Proof.
  unfold handle_error. eapply safe_bind; [apply safe_read | intros s _].
  eapply safe_bind; [apply safe_fireHooks | intros _ _].
  eapply safe_bind; [apply safe_update_task | intros _ _].
  destruct (errors_As err) as [ae|]; [case_decide|]; [|apply safe_return..].
  eapply safe_bind; [apply safe_save_as | intros l' Hl'].
  eapply safe_bind; [apply safe_publish | intros _ _; apply safe_ret; by intros l2 [= <-]].
  eapply safe_bind; [apply safe_deref | intros c _; by apply safe_ret].
Qed.

Lemma safe_resolve ctx l : safe (fun _ => True) (resolveNextNode e ctx l).
Proof.
  apply safe_frame. intros w. unfold resolveNextNode.
  apply ir_bind. intros g w1 Hg. unfold deref in Hg. destruct (graph e) as [g'|] eqn:He; [|done].
  injection Hg as -> ->. apply ir_bind. intros s w2 Hs. unfold load in Hs.
  destruct (w_heap w1 !! l) as [s'|] eqn:Hl; [|done]. injection Hs as -> ->.
  destruct (first_edge (Edges g) (LastNodeID s)) as [edge|] eqn:Hed; [|apply wp_ret, heap_frame_refl].
  destruct (IsCond edge) eqn:Hc; [|apply wp_ret, heap_frame_refl].
  destruct (cf_routers e q edge ctx l s w2) as (r & Hr & Hwp); [|done..|].
  { unfold graph_of. rewrite He. by eapply first_edge_elem. }
  rewrite Hr. apply wp_bind, wp_ret. eapply wp_mono; [exact Hwp|]. by intros [a| |] w' H; [apply H|..].
Qed.

Lemma safe_adopt ctx id l rs : mine l -> (forall l', rs = Some l' -> mine l') -> safe mine (adopt_state e ctx id l rs).
Proof.
  intros Hl Hrs. unfold adopt_state. destruct rs as [rs|]; [|by apply safe_ret]. specialize (Hrs rs eq_refl).
  eapply safe_bind; [apply safe_read | intros s _].
  do 2 (eapply safe_bind; [by apply safe_modify | intros _ _]).
  eapply (safe_bind (fun _ => True)); [apply safe_sync_task | intros _ _; by apply safe_ret].
Qed.

Lemma safe_handle_result ctx sid id d l res : mine l ->
  (forall r l', res = Some r -> nr_State r = Some l' -> mine l') ->
  safe in_hand (handle_result e ctx sid id d l res).
Proof.
  intros Hl Hres. unfold handle_result. eapply safe_bind; [apply safe_deref | intros r Hr].
  eapply safe_bind; [apply safe_read | intros s _]. eapply safe_bind; [apply safe_fireHooks | intros _ _].
  eapply safe_bind; [apply safe_adopt; [done | intros l' Hl'; exact (Hres r l' Hr Hl')] | intros l2 Hl2].
  destruct (nr_Interrupt r) as [signal|].
  - eapply safe_bind; [apply safe_save_as | intros l' Hl'].
    eapply safe_bind; [by apply safe_publish, safe_ret | intros _ _]. apply safe_ret. by intros l3 [= <-].
  - eapply (safe_bind (fun _ => True)).
    { unfold choose_next. destruct (nr_NextNodes r); [apply safe_resolve | by apply safe_ret]. }
    intros [next [x|]] _; [apply safe_stop|]. case_match.
    { eapply safe_bind; [apply safe_deref | intros g _]. case_match; apply safe_stop. }
    eapply safe_bind; [by apply safe_modify | intros _ _]. by apply safe_ret.
Qed.

(** What follows the work of a node: the step is counted and its outcome handled. *)
Lemma safe_after ctx sid id d f (res : option NodeResult) err :
  (forall r l', err = None -> res = Some r -> nr_State r = Some l' -> mine l') ->
  safe in_hand (modify l0 f ;;
    match err with
    | Some x => r <- handle_error e ctx sid id d l0 x ;; ret (inr r)
    | None => handle_result e ctx sid id d l0 res
    end).
Proof.
  intros Hres. eapply safe_bind; [apply safe_modify; by left | intros _ _]. destruct err as [x|].
  - eapply safe_bind; [apply safe_handle_error | intros r Hr]. by apply safe_ret.
  - apply safe_handle_result; [by left|]. intros r l' Hr Hl'. by eapply Hres.
Qed.
End writes.

Lemma ir_quiet {E A B} (P : A -> Prop) (m : M E A) (k : A -> M E B) Q (w : World E) :
  quiet P m -> (forall a w', heap_frame w w' -> wp (k a) (if_returns Q) w') -> wp (bind m k) (if_returns Q) w.
Proof.
  intros Hm Hk. apply ir_bind. intros a w' Ha. specialize (Hm w). unfold wp in Hm. rewrite Ha in Hm. apply Hk, Hm.
Qed.

(** An iteration writes the state of its run and new ones, and goes on or returns
    with one of these. *)
Lemma body_writes {E} (e : Engine E) (q : behaviours) `{!Conforms e q} ctx sid l s (w : World E) :
  may_call q ctx -> may_visit q s -> w_heap w !! l = Some s ->
  wp (loop_body e ctx sid l) (if_returns (fun r w' => in_hand (w_heap w) l r /\ kept (w_heap w) l w')) w.
Proof.
  intros Hctx Hvis Hl. set (h0 := w_heap w). assert (Hk : kept h0 l w) by (by split).
  assert (Hmine : mine h0 l l) by by left.
  unfold loop_body. eapply ir_bind. intros s' w1 Hs. unfold load in Hs. rewrite Hl in Hs. injection Hs as <- <-.
  case_match.
  { apply ir_bind. intros [c err] w2 H2. apply wp_ret. split; [by intros l' [= <-]|].
    pose proof (saves_frame e q ctx sid l s w Hl) as Hsv. unfold wp in Hsv. rewrite H2 in Hsv. by eapply kept_frame. }
  case_match; [by apply (safe_stop e q h0 l)|].
  apply (ir_bind (deref (graph e))). intros g w1 Hg. unfold deref in Hg. destruct (graph e) as [g'|] eqn:He; [|done].
  injection Hg as -> ->.
  assert (Hg : graph_of e = g) by (unfold graph_of; by rewrite He). clear He. subst g.
  destruct (Graph_Node (graph_of e) (LastNodeID s)) as [node|] eqn:Hn; [|by apply (safe_stop e q h0 l)].
  apply (ir_quiet (fun _ => True)); [by apply (quiet_fireHooks e q) | intros _ w2 F2].
  apply (ir_quiet (fun _ => True)); [apply quiet_ask | intros t1 w3 F3].
  assert (Hl3 : w_heap w3 !! l = Some s) by (eapply heap_frame_lookup; [exact F3|]; by eapply heap_frame_lookup).
  apply ir_bind. intros [res err] w4 H4.
  assert (Hp : wp (processNodeWithRetry e ctx node l) (returns (fun r w' =>
    heap_frame w3 w' /\ exists b, may_node q (LastNodeID s) s b /\ behaves w3 w' b r)) w3).
  { by apply process_ok. }
  unfold wp in Hp. rewrite H4 in Hp. destruct Hp as [F4 (b & _ & Hb)].
  apply (ir_quiet (fun _ => True)); [apply quiet_ask | intros t2 w5 F5].
  assert (Hk5 : kept h0 l w5).
  { refine (kept_frame h0 l _ _ (kept_frame h0 l _ _ (kept_frame h0 l _ _ (kept_frame h0 l _ _ Hk F2) F3) F4) F5). }
  assert (Hlen : length h0 <= length (w_heap w3)).
  { etransitivity; [exact (heap_frame_length _ _ F2) | exact (heap_frame_length _ _ F3)]. }
  refine (safe_after e q h0 l ctx sid (LastNodeID s) (t2 - t1)%Z _ res err _ w5 Hk5).
  intros r l' -> -> Hl'. destruct b as [s' nx sg|nx sg|x]; simpl in Hb; [| |done].
  - destruct Hb as (_ & _ & l2 & Hl2 & Hge & _). right. rewrite Hl' in Hl2. injection Hl2 as ->. lia.
  - destruct Hb as (_ & _ & Hno). by rewrite Hl' in Hno.
Qed.

(** ** Lemmas: the system *)

(** [Start] is its head and the loop. *)
Lemma Start_enter {E} fuel (e : Engine E) ctx sid init w :
  Start fuel e ctx sid init w = (l <- enter e init ;; runLoop fuel e ctx sid l) w.
Proof.
  unfold Start, enter, bind. destruct (match init with Some l => ret l | None => alloc NewState end w) as [[l|v|] w1];
    [|done..].
  destruct (WithStatus l StatusRunning w1) as [[l1|v|] w2]; [|done..].
  destruct (load l1 w2) as [[s|v|] w3]; [|done..]. destruct (bool_decide (LastNodeID s = "")); [|done].
  destruct (deref (graph e) w3) as [[g|v|] w4]; [|done..]. by destruct (modify l1 _ w4) as [[[]|v|] w5].
Qed.

(** What the head makes of a state: a new one, with the start snapshot. *)
Lemma enter_eq {E} (e : Engine E) l s (w : World E) : graph e <> None -> w_heap w !! l = Some s ->
  enter e (Some l) w = (Ret (length (w_heap w)), set_heap (w_heap w ++ [spec_start e s]) w).
Proof.
  intros Hg Hl. unfold enter. rewrite (bind_Ret (ret l) _ l w w) by done.
  unfold WithStatus. rewrite bind_assoc, (bind_load _ s) by done.
  set (w1 := set_heap (w_heap w ++ [with_status StatusRunning s]) w).
  rewrite (bind_Ret (alloc _) _ (length (w_heap w)) w w1) by done.
  assert (H1 : w_heap w1 !! length (w_heap w) = Some (with_status StatusRunning s)) by apply lookup_snoc_eq.
  rewrite (bind_load _ (with_status StatusRunning s)) by done. unfold spec_start, graph_of.
  case_bool_decide as Hid; [|done]. destruct (graph e) as [g|]; [|done].
  rewrite bind_assoc, (bind_Ret (deref (Some g)) _ g w1 w1) by done. rewrite (bind_modify _ _ _ _ _ H1).
  unfold ret, w1, set_heap. cbn [w_heap]. do 2 f_equal. by rewrite insert_app_r_alt, Nat.sub_diag by done.
Qed.

Section invariant.
Context {E : Type} (e : Engine E) (q : behaviours) `{!Conforms e q} (Hmax : in_int64 (maxSteps e)).
Implicit Types w : World E.

Lemma enter_new init l w w' : enter e init w = (Ret l, w') ->
  length (w_heap w) <= l < length (w_heap w') /\ forall k s, w_heap w !! k = Some s -> w_heap w' !! k = Some s.
Proof.
  assert (Hg : graph e <> None) by (by eapply cf_graph).
  assert (Hsome : forall l0 w0, enter e (Some l0) w0 = (Ret l, w') ->
    length (w_heap w0) <= l < length (w_heap w') /\ forall k s, w_heap w0 !! k = Some s -> w_heap w' !! k = Some s).
  { intros l0 w0 He. destruct (w_heap w0 !! l0) as [s|] eqn:Hl.
    - rewrite (enter_eq e l0 s w0 Hg Hl) in He. injection He as <- <-. cbn [w_heap set_heap]. rewrite length_app. simpl.
      split; [lia|]. intros k s' Hk. by apply lookup_app_l_Some.
    - exfalso. unfold enter, WithStatus, bind, load in He. simpl in He. by rewrite Hl in He. }
  destruct init as [l0|]; [by apply Hsome|]. intros He.
  destruct (Hsome (length (w_heap w)) (set_heap (w_heap w ++ [NewState]) w) He) as [Hlen Hk].
  cbn [w_heap set_heap] in *. rewrite length_app in Hlen. simpl in Hlen. split; [lia|].
  intros k s Hs. apply Hk. by apply lookup_app_l_Some.
Qed.

Lemma run_ok_kept t w w' :
  (forall l s, owns t = Some l -> w_heap w !! l = Some s -> w_heap w' !! l = Some s) ->
  run_ok e q w t -> run_ok e q w' t.
Proof.
  intros Hk (Hc & Hi & Hat). split; [done|]. split; [done|]. unfold owns in Hk. destruct (run_at t) as [l|r].
  - destruct Hat as (s & Hs & Hrest). exists s. split; [by apply Hk | done].
  - destruct Hat as [(s & err & Hr & He & Hh) Hn]. split; [|done]. exists s, err. split; [done|]. split; [done|].
    destruct r as [[l|] er]; simpl in *; [by apply Hk | done].
Qed.

(** The run that made the iteration. *)
Lemma advance_ok t l r w w' : run_ok e q w t -> run_at t = Running l ->
  loop_body e (in_session (run_ctx t) (run_sid t)) (run_sid t) l w = (Ret r, w') -> run_ok e q w' (advance t r).
Proof.
  intros (Hc & Hi & Hat) Hl Hb. rewrite Hl in Hat. destruct Hat as (s & Hs & Hv & Hn & Hr & Hm & Hcount).
  pose proof (body_conforms e q _ (run_sid t) l s w Hc Hv Hs) as Hw. unfold wp in Hw. rewrite Hb in Hw.
  destruct Hw as (v & Hv' & Hag). split; [done|]. split; [done|]. unfold advance. cbn [run_at].
  destruct v as [s1|[s1 err]], r as [l1|[[l1|] err']]; simpl in Hag; try done.
  - destruct (steps_to_count e q s s1 Hn Hmax Hv') as [Hlt Hs1]. exists s1. split_and!.
    + done.
    + by eapply cf_visits.
    + unfold in_int64 in *. lia.
    + by eapply rtc_r.
    + right. lia.
    + cbn [run_from run_rounds]. lia.
  - destruct Hag as [Hl1 ->]. split; [|cbn [run_from run_rounds]; lia]. exists s1, err. split; [|by split].
    clear -Hr Hv'. induction Hr as [x|x y z Hxy _ IH]; [by apply runs_stop | eapply runs_on; [exact Hxy | by apply IH]].
Qed.

Lemma owns_advance t l r w w' : run_ok e q w t -> run_at t = Running l ->
  loop_body e (in_session (run_ctx t) (run_sid t)) (run_sid t) l w = (Ret r, w') ->
  kept (w_heap w) l w' /\ forall l', owns (advance t r) = Some l' -> mine (w_heap w) l l'.
Proof.
  intros (Hc & _ & Hat) Hl Hb. rewrite Hl in Hat. destruct Hat as (s & Hs & Hv & _).
  pose proof (body_writes e q _ (run_sid t) l s w Hc Hv Hs) as Hw. unfold wp in Hw. rewrite Hb in Hw.
  destruct Hw as [Hm Hk]. split; [done|]. intros l' Hl'. destruct r as [l1|r]; [by injection Hl' as <- | by apply Hm].
Qed.

Lemma run_ok_alive t w l : run_ok e q w t -> owns t = Some l -> l < length (w_heap w).
Proof.
  intros (_ & _ & Hat) Ho. unfold owns in Ho. destruct (run_at t) as [l'|[[l'|] err]]; [|..|done].
  - injection Ho as ->. destruct Hat as (s & Hs & _). by eapply lookup_lt_Some.
  - injection Ho as ->. destruct Hat as [(s & er & _ & _ & Hh) _]. simpl in Hh. by eapply lookup_lt_Some.
Qed.

Lemma begin_ok ts ctx sid init l s w w' :
  may_call q (in_session ctx sid) -> may_visit q s -> in_int64 (StepCount s) ->
  enter e init w = (Ret l, w') -> w_heap w' !! l = Some s ->
  system_ok e q ts w -> system_ok e q (ts ++ [mkRun ctx sid s 0 (Running l)]) w'.
Proof.
  intros Hc Hv Hi He Hl [Hr Ha Hal]. destruct (enter_new init l w w' He) as [Hlen Hk]. split.
  - apply Forall_app. split.
    + eapply Forall_impl; [exact Hr|]. intros t. apply run_ok_kept. intros l' s' _. apply Hk.
    + apply Forall_singleton. split; [done|]. split; [done|]. cbn. exists s. split_and!; try done; [by left|lia].
  - intros i j ti tj l' Hti Htj Hoi Hoj. apply lookup_app_Some in Hti as [Hti|[Hi' Hti]], Htj as [Htj|[Hj' Htj]].
    + by eapply Ha.
    + apply list_lookup_singleton_Some in Htj as [_ <-]. injection Hoj as <-. specialize (Hal _ _ _ Hti Hoi). lia.
    + apply list_lookup_singleton_Some in Hti as [_ <-]. injection Hoi as <-. specialize (Hal _ _ _ Htj Hoj). lia.
    + apply list_lookup_singleton_Some in Hti as [? _], Htj as [? _]. lia.
  - intros i t l' Ht Ho. apply lookup_app_Some in Ht as [Ht|[_ Ht]].
    + specialize (Hal _ _ _ Ht Ho). apply lookup_lt_is_Some in Hal as [s' Hs']. apply Hk in Hs'.
      by eapply lookup_lt_Some.
    + apply list_lookup_singleton_Some in Ht as [_ <-]. injection Ho as <-. lia.
Qed.

Lemma iterate_ok ts i t l r w w' :
  ts !! i = Some t -> run_at t = Running l ->
  loop_body e (in_session (run_ctx t) (run_sid t)) (run_sid t) l w = (Ret r, w') ->
  system_ok e q ts w -> system_ok e q (<[i := advance t r]> ts) w'.
Proof.
  intros Ht Hl Hb [Hr Ha Hal]. assert (Hok : run_ok e q w t) by (by eapply Forall_lookup_1).
  destruct (owns_advance t l r w w' Hok Hl Hb) as [[Hlen Hk] Hm].
  pose proof (advance_ok t l r w w' Hok Hl Hb) as Hok'. assert (Hown : owns t = Some l) by (unfold owns; by rewrite Hl).
  assert (Hothers : forall j tj, j <> i -> ts !! j = Some tj -> run_ok e q w' tj).
  { intros j tj Hne Hj. eapply run_ok_kept; [|by eapply Forall_lookup_1]. intros k s Hok2. apply Hk. intros ->.
    by apply Hne, (Ha j i tj t l). }
  assert (Hlt : i < length ts) by (by eapply lookup_lt_Some).
  assert (Hcase : forall j tj, <[i := advance t r]> ts !! j = Some tj ->
    j = i /\ tj = advance t r \/ j <> i /\ ts !! j = Some tj).
  { intros j tj Hj. apply list_lookup_insert_Some in Hj as [(-> & <- & _)|[Hne Hj]]; [by left | right]. by split. }
  assert (Hall : forall j tj, <[i := advance t r]> ts !! j = Some tj -> run_ok e q w' tj).
  { intros j tj Hj. apply Hcase in Hj as [[_ ->]|[Hne Hj]]; [done | by eapply Hothers]. }
  assert (Hnew : forall j tj l', j <> i -> ts !! j = Some tj -> owns tj = Some l' -> ~ mine (w_heap w) l l').
  { intros j tj l' Hne Hj Ho [->|Hge]; [by apply Hne, (Ha j i tj t l)|]. specialize (Hal _ _ _ Hj Ho). lia. }
  split.
  - apply Forall_lookup_2. exact Hall.
  - intros j k tj tk l' Hj Hk' Hoj Hok2. apply Hcase in Hj as [[-> ->]|[Hj Htj]], Hk' as [[-> ->]|[Hk' Htk]]; [done|..].
    + exfalso. apply (Hnew k tk l'); [done..|]. by apply Hm.
    + exfalso. apply (Hnew j tj l'); [done..|]. by apply Hm.
    + by eapply Ha.
  - intros j tj l' Hj Ho. eapply run_ok_alive; [by eapply Hall | done].
Qed.

Lemma sys_step_ok ts w ts' w' : sys_step e q (ts, w) (ts', w') -> system_ok e q ts w -> system_ok e q ts' w'.
Proof.
  inversion 1 as [ts0 ctx sid init l s w0 w1 ? ? ? ? ? | ts0 i t l r w0 w1 ? ? ? | ts0 w0 w1 Hf]; subst.
  - by eapply begin_ok.
  - by eapply iterate_ok.
  - intros [Hr Ha Hal]. split; [|done|].
    + eapply Forall_impl; [exact Hr|]. intros t. apply run_ok_kept. intros l s _ Hs. by eapply heap_frame_lookup.
    + intros i t l Ht Ho. eapply Nat.lt_le_trans; [by eapply Hal | by apply heap_frame_length].
Qed.

Lemma reached_ok x y : rtc (sys_step e q) x y -> system_ok e q x.1 x.2 -> system_ok e q y.1 y.2.
Proof. induction 1 as [|[ts w] [ts' w'] z H _ IH]; [done|]. intros Hok. apply IH. by eapply sys_step_ok. Qed.
End invariant.

(** ** A run alone is one schedule *)

Section schedules.
Context {E : Type} (e : Engine E) (q : behaviours).
Implicit Types w : World E.

Lemma loop_schedule fuel ts ctx sid s n l w r w' :
  loop fuel e (in_session ctx sid) sid l w = (Ret r, w') ->
  exists m, rtc (sys_step e q) (ts ++ [mkRun ctx sid s n (Running l)], w) (ts ++ [mkRun ctx sid s m (Returned r)], w').
Proof.
  revert n l w. induction fuel as [|fuel IH]; intros n l w Hrun; [done|]. simpl in Hrun. unfold bind in Hrun.
  destruct (loop_body e (in_session ctx sid) sid l w) as [[x|v|] w1] eqn:Hb; [|done..].
  assert (Hstep : sys_step e q (ts ++ [mkRun ctx sid s n (Running l)], w)
    (ts ++ [advance (mkRun ctx sid s n (Running l)) x], w1)).
  { replace (ts ++ [advance (mkRun ctx sid s n (Running l)) x])
      with (<[length ts := advance (mkRun ctx sid s n (Running l)) x]> (ts ++ [mkRun ctx sid s n (Running l)]))
      by (by rewrite insert_app_r_alt, Nat.sub_diag).
    by apply (sys_iterate e q _ (length ts) (mkRun ctx sid s n (Running l)) l); [apply lookup_snoc_eq|..]. }
  destruct x as [l1|r1].
  - destruct (IH (S n) l1 w1 Hrun) as [m Hm]. exists m. by eapply rtc_l.
  - injection Hrun as <- <-. exists (S n). by apply rtc_once.
Qed.

(** A call of [Start] that returns, next to the runs of [ts]: its head is a step
    that begins a run, every iteration of its loop is a step of this run. *)
Lemma Start_schedule fuel ts ctx sid l s w r w' :
  graph e <> None -> w_heap w !! l = Some s -> in_int64 (StepCount s) ->
  may_call q (in_session ctx sid) -> may_visit q (spec_start e s) ->
  Start fuel e ctx sid (Some l) w = (Ret r, w') ->
  exists m, rtc (sys_step e q) (ts, w) (ts ++ [mkRun ctx sid (spec_start e s) m (Returned r)], w').
Proof.
  intros Hg Hl Hs Hc Hv Hrun. rewrite Start_enter in Hrun.
  rewrite (bind_Ret _ _ _ _ _ (enter_eq e l s w Hg Hl)) in Hrun.
  destruct (loop_schedule fuel ts ctx sid (spec_start e s) 0 _ _ _ _ Hrun) as [m Hm].
  exists m. eapply rtc_l; [|exact Hm].
  eapply sys_begin; [done | done | | by apply enter_eq | apply lookup_snoc_eq].
  unfold spec_start. by case_bool_decide.
Qed.
End schedules.

(** ** Properties *)

(** C5: runs that share an engine are isolated. Of an engine that meets [Conforms]
    (its nodes write no state that exists and hand back new ones, its hooks, routers,
    stores and bus write none, and no failure is retried), however the iterations of any
    number of runs interleave with each other, with runs that begin and with the
    work of the rest of the program, every run is where the specification alone may
    be from its own start: a running one has a snapshot that the specification
    reaches in as many iterations as the run has made, one that returned hands
    back the end of a run of the specification, after no more iterations than its
    step limit leaves; no two runs work on, or handed back, the same state, even
    when they were started on the same one; and a run that is not at its end can
    always make its next iteration, whatever the others did. *)
Theorem sessions_isolated {E} (e : Engine E) (q : behaviours) (w0 w : World E) (ts : list run) :
  Conforms e q -> in_int64 (maxSteps e) -> rtc (sys_step e q) ([], w0) (ts, w) ->
  (forall t, t ∈ ts -> run_ok e q w t) /\
  (forall i j ti tj l, ts !! i = Some ti -> ts !! j = Some tj ->
    owns ti = Some l -> owns tj = Some l -> i = j) /\
  (forall i t l, ts !! i = Some t -> run_at t = Running l ->
    exists r w', sys_step e q (ts, w) (<[i := advance t r]> ts, w')).
Proof.
  intros Hc Hmax Hreach.
  assert (Hok : system_ok e q ts w).
  { apply (reached_ok e q Hmax _ _ Hreach). split; [constructor | intros i j ti tj l Hi; done | intros i t l Hi; done]. }
  destruct Hok as [Hr Ha _]. split; [by apply Forall_forall|]. split; [exact Ha|]. intros i t l Ht Hl.
  assert (Hrun : run_ok e q w t) by (by eapply Forall_lookup_1). destruct Hrun as (Hcall & _ & Hat). rewrite Hl in Hat.
  destruct Hat as (s & Hs & Hv & _).
  pose proof (body_conforms e q _ (run_sid t) l s w Hcall Hv Hs) as Hw. unfold wp in Hw.
  destruct (loop_body e (in_session (run_ctx t) (run_sid t)) (run_sid t) l w) as [[r|v|] w'] eqn:Hb; [|done..].
  exists r, w'. by eapply sys_iterate.
Qed.

(** ** Witnesses *)

(** Two runs started on the same state, the second of which goes round first. *)
Definition second_entered : World InMemoryStore :=
  (enter stamp_engine (Some 0) (enter stamp_engine (Some 0) demo_world).2).2.

Definition second_done : World InMemoryStore :=
  (loop_body stamp_engine (in_session Background "s2") "s2" 2 second_entered).2.

Definition both_done : World InMemoryStore :=
  (loop_body stamp_engine (in_session Background "s1") "s1" 1 second_done).2.

Definition first_run : run := mkRun Background "s1" (spec_start stamp_engine demo_state) 1 (Returned (Some 6, None)).

Definition second_run : run := mkRun Background "s2" (spec_start stamp_engine demo_state) 1 (Returned (Some 4, None)).

Lemma sessions_isolated_witness :
  w_heap demo_world !! 0 = Some demo_state /\
  rtc (sys_step stamp_engine stamps) ([], demo_world) ([first_run; second_run], both_done) /\
  forall t, t ∈ [first_run; second_run] -> run_ok stamp_engine stamps both_done t.
Proof.
  split; [reflexivity|].
  assert (Hreach : rtc (sys_step stamp_engine stamps) ([], demo_world) ([first_run; second_run], both_done)).
  { set (s0 := spec_start stamp_engine demo_state).
    eapply rtc_l; [eapply (sys_begin _ _ [] Background "s1" (Some 0) 1 s0);
      [done | done | split; vm_compute; discriminate | apply run_eq; vm_compute; reflexivity | vm_compute; reflexivity]|].
    eapply rtc_l; [eapply (sys_begin _ _ _ Background "s2" (Some 0) 2 s0);
      [done | done | split; vm_compute; discriminate | apply run_eq; vm_compute; reflexivity | vm_compute; reflexivity]|].
    eapply rtc_l; [eapply (sys_iterate _ _ _ 1 _ 2 (inr (Some 4, None)));
      [reflexivity | reflexivity | apply run_eq; vm_compute; reflexivity]|].
    eapply rtc_l; [eapply (sys_iterate _ _ _ 0 _ 1 (inr (Some 6, None)));
      [reflexivity | reflexivity | apply run_eq; vm_compute; reflexivity]|].
    apply rtc_refl. }
  split; [exact Hreach|].
  exact (proj1 (sessions_isolated stamp_engine stamps demo_world both_done [first_run; second_run]
    stamp_conforms ltac:(split; vm_compute; discriminate) Hreach)).
Defined.
