(* ===== verification/EngineEvents.v ===== *)
(** * What a run announces: engine/engine.go and interfaces/eventbus.go

    The events the engine publishes, whatever its nodes, hooks and stores are, as
    long as they publish nothing themselves. A bus is watched by [tap]: it keeps
    the list of the events in the order of the calls. A computation [says] the
    events it adds to the list. *)

From S2P Require Import Prelude GoLang Core Json World Interfaces Memory Graph Resilience Engine.
From stdpp Require Import base gmap strings list.

#[local] Open Scope go_scope.

Create HintDb silent discriminated.

(** The event of a pause: the type, the session and the payload; the task and the
    time are left empty. *)
Definition pause_event (sid : string) (payload : amap) : Event :=
  mkEvent EventAgentPaused sid "" payload zero_Time.

Section says.
Context {E : Type} `{!Has (list Event) E}.
Implicit Types (e : Engine E) (w : World E).

(** The events so far. *)
Definition published w : list Event := get_of (w_ext w).

Definition tap (bus : EventBus E) : EventBus E :=
  mkEventBus
    (fun ev => evs <- get (T := list Event) ;; put (evs ++ [ev]) ;; bus_Publish bus ev)
    (bus_Subscribe bus) (bus_Unsubscribe bus).

Definition silent {A} (m : M E A) : Prop := forall w, published (m w).2 = published w.

(** The outcome and the events added to the list satisfy [Q]. *)
Definition says {A} (Q : outcome A -> list Event -> Prop) (m : M E A) : Prop :=
  forall w, exists evs, published (m w).2 = published w ++ evs /\ Q (m w).1 evs.

(** The parts of an engine publish nothing. *)
Class SilentParts e : Prop := {
  silent_hook : forall h p meta, h ∈ hooks e -> silent (OnHook h p meta);
  silent_node : forall g id n ctx l,
    graph e = Some g -> Nodes g !! id = Some n -> silent (node_Process n ctx l);
  silent_router : forall g edge r ctx l,
    graph e = Some g -> edge ∈ Edges g -> Router edge = Some r -> silent (r ctx l);
  silent_save : forall ctx sid l, silent (ms_Save (memoryStore e) ctx sid l);
  silent_load : forall ctx sid, silent (ms_Load (memoryStore e) ctx sid);
  silent_update : forall ts ctx tid st, taskStore e = Some ts -> silent (tks_UpdateStatus ts ctx tid st);
  silent_append : forall ts ctx tid a, taskStore e = Some ts -> silent (tks_AppendArtifact ts ctx tid a);
}.

(** Nothing, or a pause of the session as the last word of a run without error. *)
Definition at_most_pause {A} (ok : A -> Prop) (sid : string) (o : outcome A) (evs : list Event) : Prop :=
  evs = [] \/ exists payload, evs = [pause_event sid payload] /\ forall a, o = Ret a -> ok a.

Definition no_error (r : option loc * option error) : Prop := r.2 = None.

(** An iteration that goes on has said nothing. *)
Definition returned_no_error (r : loc + (option loc * option error)) : Prop :=
  match r with inl _ => False | inr r => no_error r end.

(** ** Lemmas *)

Lemma silent_ret {A} (a : A) : silent (ret a).
Proof. by intros w. Qed.

Lemma silent_panic {A} v : silent (panic (A := A) v).
Proof. by intros w. Qed.

Lemma silent_bind {A B} (m : M E A) (k : A -> M E B) : silent m -> (forall a, silent (k a)) -> silent (bind m k).
Proof.
  intros Hm Hk w. specialize (Hm w). unfold bind. destruct (m w) as [[a|v|] w']; [|exact Hm..].
  rewrite Hk. exact Hm.
Qed.

Lemma silent_recovering (m : M E unit) : silent m -> silent (recovering m).
Proof. intros Hm w. specialize (Hm w). unfold recovering. by destruct (m w) as [[] w']. Qed.

Lemma silent_for_each {A} (f : A -> M E unit) l : (forall x, x ∈ l -> silent (f x)) -> silent (for_each f l).
Proof.
  induction l as [|x l IH]; intros Hf; [apply silent_ret|]. apply silent_bind; [apply Hf; by left|].
  intros _. apply IH. intros y Hy. apply Hf. by right.
Qed.

Lemma silent_load_loc l : silent (load l).
Proof. intros w. unfold load. by case_match. Qed.

Lemma silent_alloc s : silent (alloc s).
Proof. by intros w. Qed.

Lemma silent_ask {A} (f : Oracle -> A) : silent (ask f).
Proof. by intros w. Qed.

Lemma silent_now : silent now.
Proof. apply silent_ask. Qed.

Lemma silent_wait ctx d : silent (wait ctx d).
Proof. by intros w. Qed.

Lemma silent_deref {A} (p : option A) : silent (deref p).
Proof. destruct p; [apply silent_ret | apply silent_panic]. Qed.

Lemma silent_deref_bind {A B} (p : option A) (k : A -> M E B) :
  (forall a, p = Some a -> silent (k a)) -> silent (bind (deref p) k).
Proof. destruct p as [a|]; intros Hk; [exact (Hk a eq_refl) | apply silent_panic]. Qed.

Lemma silent_modify l f : silent (modify l f).
Proof. apply silent_bind; [apply silent_load_loc | intros s w; unfold store; by case_match]. Qed.

Lemma silent_WithStatus l st : silent (WithStatus l st).
Proof. apply silent_bind; [apply silent_load_loc | intros s; apply silent_alloc]. Qed.

Lemma silent_WithVariable l k v : silent (WithVariable l k v).
Proof. apply silent_bind; [apply silent_load_loc | intros s; apply silent_alloc]. Qed.

Lemma silent_inject inj l : silent (inject inj l).
Proof.
  revert l. induction inj as [|kv inj IH]; intros l; [apply silent_ret|].
  apply silent_bind; [apply silent_WithVariable | intros l'; apply IH].
Qed.

Lemma silent_execute {R} p ctx (fn : R -> M E (R * option error)) n attempt delay r :
  (forall r, silent (fn r)) -> silent (execute_loop p ctx fn n attempt delay r).
Proof.
  intros Hfn. revert attempt delay r. induction n as [|n IH]; intros attempt delay r; [apply silent_ret|].
  cbn [execute_loop]. apply silent_bind; [apply Hfn | intros [r' [err|]]; [|apply silent_ret]].
  destruct (retriable err); [|apply silent_ret]. destruct (_ =? _)%Z; [apply silent_ret|].
  apply silent_bind; [apply silent_ask | intros u].
  apply silent_bind; [apply silent_wait | intros [err'|]; [apply silent_ret | apply IH]].
Qed.

(** Saying nothing first changes nothing. *)
Lemma says_bind {A B} (Q : outcome B -> list Event -> Prop) (m : M E A) (k : A -> M E B) :
  (forall v, Q (Panic v) []) -> Q OutOfFuel [] ->
  silent m -> (forall a, says Q (k a)) -> says Q (bind m k).
Proof.
  intros Hp Hf Hm Hk w. specialize (Hm w). unfold bind. destruct (m w) as [[a|v|] w']; simpl in *.
  - destruct (Hk a w') as (evs & He & HQ). exists evs. by rewrite He, Hm.
  - exists []. by rewrite Hm, app_nil_r.
  - exists []. by rewrite Hm, app_nil_r.
Qed.

Section pauses.
Context {A : Type} (ok : A -> Prop) (sid : string).

Lemma pause_bind {B} (m : M E B) (k : B -> M E A) :
  silent m -> (forall b, says (at_most_pause ok sid) (k b)) -> says (at_most_pause ok sid) (bind m k).
Proof. apply says_bind; by left. Qed.

Lemma pause_deref {B} (p : option B) (k : B -> M E A) :
  (forall b, p = Some b -> says (at_most_pause ok sid) (k b)) -> says (at_most_pause ok sid) (bind (deref p) k).
Proof.
  destruct p as [b|]; intros Hk; [exact (Hk b eq_refl)|]. intros w. exists []. rewrite app_nil_r. split; [done | by left].
Qed.

Lemma pause_silent (m : M E A) : silent m -> says (at_most_pause ok sid) m.
Proof. intros Hm w. exists []. rewrite Hm, app_nil_r. split; [done | by left]. Qed.
End pauses.
End says.

#[export] Hint Resolve silent_ret silent_panic silent_bind silent_recovering silent_load_loc silent_alloc
  silent_ask silent_now silent_wait silent_deref silent_modify silent_WithStatus silent_inject : silent.

Section engine.
Context {E : Type} `{!Has (list Event) E}.
Context (e : Engine E) (bus : EventBus E) (sid : string).
Context (Hparts : SilentParts e) (Hbus : eventBus e = Some (tap bus)).
Context (Hquiet : forall ev, silent (bus_Publish bus ev)).

Lemma silent_fireHooks p meta : silent (fireHooks e p meta).
Proof. apply silent_for_each. intros h Hh. apply silent_recovering. by apply silent_hook. Qed.

Lemma silent_resolve ctx l : silent (resolveNextNode e ctx l).
Proof.
  apply silent_deref_bind. intros g Hg. apply silent_bind; [auto with silent | intros s].
  destruct (first_edge _ _) as [edge|] eqn:He; [|apply silent_ret].
  destruct (IsCond edge); [|apply silent_ret].
  destruct (Router edge) as [r|] eqn:Hr; [|apply silent_panic].
  intros w. exact (silent_router g edge r ctx l Hg (first_edge_elem _ _ _ He) Hr w).
Qed.

Lemma silent_process g ctx id node l : graph e = Some g ->
  Nodes g !! id = Some node -> silent (processNodeWithRetry e ctx node l).
Proof.
  intros Hg Hn. apply silent_execute. intros r. apply silent_bind; [by eapply silent_node|].
  intros [r' [x|]]; apply silent_ret.
Qed.

Lemma silent_save_as ctx st l : silent (save_as e ctx sid st l).
Proof.
  apply silent_bind; [auto with silent | intros l'].
  apply silent_bind; [apply silent_save | auto with silent].
Qed.

Lemma silent_update_task ctx l st msg : silent (update_task e ctx l st msg).
Proof.
  apply silent_bind; [auto with silent | intros s]. destruct (taskStore e) as [ts|] eqn:Hts; [|apply silent_ret].
  case_match; [apply silent_ret|]. apply silent_bind; [auto with silent | intros t].
  apply silent_bind; [by apply silent_update | auto with silent].
Qed.

Lemma silent_sync_task ctx id l rs : silent (sync_task e ctx id l rs).
Proof.
  apply silent_bind; [auto with silent | intros r]. destruct (taskStore e) as [ts|] eqn:Hts; [|apply silent_ret].
  case_match; [apply silent_ret|]. apply silent_bind; [auto with silent | intros s].
  case_match; [apply silent_panic|]. apply silent_bind; [apply silent_for_each | intros _].
  - intros a _. apply silent_bind; [auto with silent | intros r'].
    apply silent_bind; [by apply silent_append | auto with silent].
  - apply silent_bind; [auto with silent | intros r']. apply silent_bind; [auto with silent | intros t].
    apply silent_bind; [by apply silent_update | auto with silent].
Qed.

Lemma silent_adopt_state ctx id l rs : silent (adopt_state e ctx id l rs).
Proof.
  destruct rs as [rs|]; [|apply silent_ret]. apply silent_bind; [auto with silent | intros s].
  do 2 (apply silent_bind; [auto with silent | intros _]).
  apply silent_bind; [apply silent_sync_task | auto with silent].
Qed.

(** The announcement of a pause, after which the run returns without error. *)
Lemma says_publish {A} (ok : A -> Prop) payload (k : M E A) :
  silent payload -> silent k -> (forall w a, (k w).1 = Ret a -> ok a) ->
  says (at_most_pause ok sid) (publish_paused e sid payload ;; k).
Proof.
  intros Hp Hk Hok w. unfold publish_paused. rewrite Hbus, bind_assoc.
  revert w. change (says (at_most_pause ok sid) (p <- payload ;;
    ((bus_Publish (tap bus) (pause_event sid p) ;; ret tt) ;; k))).
  apply pause_bind; [exact Hp|]. intros p w. rewrite bind_assoc. exists [pause_event sid p].
  unfold tap at 1 2. cbn [bus_Publish]. rewrite !bind_assoc.
  rewrite !(bind_Ret get _ (published w) w w) by done. rewrite !bind_assoc.
  set (w1 := set_ext (set_of (published w ++ [pause_event sid p]) (w_ext w)) w).
  rewrite !(bind_Ret (put _) _ tt w w1) by done.
  assert (Hw1 : published w1 = published w ++ [pause_event sid p]) by (apply get_set_of).
  assert (Hs : silent (bus_Publish bus (pause_event sid p) ;; (ret tt ;; k))).
  { apply silent_bind; [apply Hquiet | intros _]. apply silent_bind; [apply silent_ret | done]. }
  split; [by rewrite Hs, Hw1|]. right. exists p. split; [done|]. intros a Ha.
  unfold bind in Ha. destruct (bus_Publish bus _ w1) as [[] w2]; [|done..]. simpl in Ha. by eapply Hok.
Qed.

Lemma says_handle_error ctx id elapsed l err :
  says (at_most_pause no_error sid) (handle_error e ctx sid id elapsed l err).
Proof.
  apply pause_bind; [auto with silent | intros s]. apply pause_bind; [apply silent_fireHooks | intros _].
  apply pause_bind; [apply silent_update_task | intros _].
  destruct (errors_As err) as [ae|]; [case_decide|].
  - apply pause_bind; [apply silent_save_as | intros l']. apply says_publish.
    + apply silent_bind; [apply silent_deref | intros c; apply silent_ret].
    + apply silent_ret.
    + by intros w a [= <-].
  - apply pause_bind; [apply silent_save_as | intros l']. apply pause_silent, silent_ret.
  - apply pause_bind; [apply silent_save_as | intros l']. apply pause_silent, silent_ret.
Qed.

Lemma says_handle_result ctx id elapsed l res :
  says (at_most_pause returned_no_error sid) (handle_result e ctx sid id elapsed l res).
Proof.
  apply pause_bind; [apply silent_deref | intros result]. apply pause_bind; [auto with silent | intros s].
  apply pause_bind; [apply silent_fireHooks | intros _]. apply pause_bind; [apply silent_adopt_state | intros l1].
  destruct (nr_Interrupt result) as [signal|].
  - apply pause_bind; [apply silent_save_as | intros l']. apply says_publish; [apply silent_ret..|].
    by intros w a [= <-].
  - apply pause_silent. apply silent_bind.
    { unfold choose_next. destruct (nr_NextNodes result); [apply silent_resolve | apply silent_ret]. }
    intros [next [x|]]; [|case_match; [apply silent_bind; [auto with silent | intros g; case_match]|]];
      try apply silent_bind; auto using silent_save_as with silent.
Qed.

Lemma says_loop_body ctx l : says (at_most_pause returned_no_error sid) (loop_body e ctx sid l).
Proof.
  apply pause_bind; [auto with silent | intros s]. case_match.
  { apply pause_silent. apply silent_bind; [apply silent_save | intros [c err]; apply silent_ret]. }
  case_match.
  { apply pause_silent. apply silent_bind; [apply silent_save_as | auto with silent]. }
  cbv zeta. apply pause_deref. intros g Hg. destruct (Graph_Node g (LastNodeID s)) as [node|] eqn:Hn.
  2: { apply pause_silent. apply silent_bind; [apply silent_save_as | auto with silent]. }
  apply pause_bind; [apply silent_fireHooks | intros _]. apply pause_bind; [auto with silent | intros t0].
  apply pause_bind; [by eapply silent_process | intros [result err]].
  apply pause_bind; [auto with silent | intros t]. apply pause_bind; [auto with silent | intros _].
  destruct err as [x|]; [|apply says_handle_result].
  intros w. destruct (says_handle_error ctx (LastNodeID s) (t - t0)%Z l x w) as (evs & He & HQ).
  exists evs. unfold bind. destruct (handle_error _ _ _ _ _ _ _ w) as [[r|v|] w'] eqn:Hr; simpl in *;
    (split; [done|]); (destruct HQ as [->|(p & -> & HQ)]; [by left|]); right; exists p; (split; [done|]);
    intros a [= <-]. by apply HQ.
Qed.

Lemma says_loop fuel ctx l : says (at_most_pause no_error sid) (loop fuel e ctx sid l).
Proof.
  revert l. induction fuel as [|fuel IH]; intros l w; [exists []; rewrite app_nil_r; split; [done | by left]|].
  cbn [loop]. destruct (says_loop_body ctx l w) as (evs & He & HQ). unfold bind.
  destruct (loop_body e ctx sid l w) as [[[l'|r]|v|] w'] eqn:Hb; cbn [fst snd] in *.
  - assert (evs = []) as -> by (destruct HQ as [->|(p & _ & HQ)]; [done|]; by destruct (HQ (inl l'))).
    destruct (IH l' w') as (evs & He' & HQ'). exists evs. by rewrite He', He, app_nil_r.
  - exists evs. split; [done|]. destruct HQ as [->|(p & -> & HQ)]; [by left|]. right. exists p.
    split; [done|]. intros a [= <-]. by apply (HQ (inr r)).
  - exists evs. split; [done|]. destruct HQ as [->|(p & -> & HQ)]; [by left|]. right. by exists p.
  - exists evs. split; [done|]. destruct HQ as [->|(p & -> & HQ)]; [by left|]. right. by exists p.
Qed.

Lemma says_Start fuel ctx init : says (at_most_pause no_error sid) (Start fuel e ctx sid init).
Proof.
  apply pause_bind; [destruct init; auto with silent | intros l0].
  apply pause_bind; [auto with silent | intros l]. apply pause_bind; [auto with silent | intros s].
  apply pause_bind; [case_match; auto with silent | intros _]. apply says_loop.
Qed.

Lemma says_Resume fuel ctx inj : says (at_most_pause no_error sid) (Resume fuel e ctx sid inj).
Proof.
  apply pause_bind; [apply silent_load | intros [loaded err]].
  destruct err as [x|]; [apply pause_silent, silent_ret|].
  apply pause_bind; [auto with silent | intros l0]. apply pause_bind; [auto with silent | intros s0].
  case_match; [|apply pause_silent, silent_ret]. apply pause_bind; [auto with silent | intros l1].
  apply pause_bind; [auto with silent | intros l2]. apply pause_bind; [apply silent_resolve | intros [next rErr]].
  destruct rErr as [x|]; [apply pause_silent, silent_ret|]. case_match.
  - apply pause_silent. apply silent_bind; [auto with silent | intros s].
    apply silent_bind; [auto with silent | intros g]. case_match; [|apply silent_ret].
    apply silent_bind; [apply silent_save_as | auto with silent].
  - apply pause_bind; [auto with silent | intros _]. apply says_loop.
Qed.
End engine.

(** ** Properties *)

(** C6: what a run announces. With nodes, hooks, routers and stores that publish
    nothing themselves, a run - started or resumed, whatever fuel and however it
    ends - publishes at most one event: the pause of its own session, as its last
    word before it returns without error. In particular no completion of a node
    and no completion of a task is ever published, though the service
    subscribes to both. *)
Theorem run_announces {E} `{!Has (list Event) E} (e : Engine E) (bus : EventBus E) (sid : string) :
  SilentParts e -> eventBus e = Some (tap bus) -> (forall ev, silent (bus_Publish bus ev)) ->
  (forall fuel ctx init, says (at_most_pause no_error sid) (Start fuel e ctx sid init)) /\
  (forall fuel ctx injection, says (at_most_pause no_error sid) (Resume fuel e ctx sid injection)).
Proof. intros Hp Hb Hq. split; intros; [by eapply says_Start | by eapply says_Resume]. Qed.

(** ** Witnesses *)

(** One node that asks for an approval, on a store that keeps nothing. *)
Definition asking_node : Node (list Event) :=
  mkNode "ask" (fun _ l => ret (Some (mkNodeResult (Some l) []
    (Some (mkInterruptSignal InterruptHumanApproval [("why", AString "sure?")] ""))), None)).

Definition forgetful_store : MemoryStore (list Event) :=
  mkMemoryStore (fun _ _ _ => ret ("", None)) (fun _ _ => ret (None, Some ErrNoNextNode))
    (fun _ _ => ret (None, None)) (fun _ _ => ret ([], None)) (fun _ _ _ => ret None)
    (fun _ _ _ _ => ret ([], None)).

Definition deaf_bus : EventBus (list Event) :=
  mkEventBus (fun _ => ret None) (fun _ _ => ret ("", None)) (fun _ => ret None).

Definition asking_engine : Engine (list Event) :=
  NewEngine (Some (mkGraph {["ask" := asking_node]} [] "ask" {["ask" := true]})) forgetful_store
    (Some (tap deaf_bus)) [].

#[export] Instance asking_silent : SilentParts asking_engine.
Proof.
  split; try done.
  - intros h p meta H. by apply elem_of_nil in H.
  - intros g id n ctx l [= <-] H. simpl in H. apply lookup_singleton_Some in H as [_ <-]. apply silent_ret.
  - intros g edge r ctx l [= <-] H. by apply elem_of_nil in H.
Qed.

Lemma run_announces_witness :
  says (at_most_pause no_error "s") (Start 3 asking_engine Background "s" None) /\
  published (Start 3 asking_engine Background "s" None (mkWorld [] demo_oracle [])).2
    = [pause_event "s" [("why", AString "sure?")]].
Proof.
  split; [|vm_compute; reflexivity].
  apply (run_announces asking_engine deaf_bus "s" asking_silent eq_refl (fun _ => silent_ret _)).
Defined.
