(* ===== verification/Hooks.v ===== *)
(** * engine/hooks.go: the hooks the engine ships

    Token counting, latency statistics, audit events and the context window
    guard. Each hook is an object of the environment ([Has]); [OnHook] is the
    method the engine dispatches to. *)

From S2P Require Import Prelude GoLang Core Json World Interfaces Memory Graph Resilience Engine.
From stdpp Require Import base gmap strings list.

#[local] Open Scope go_scope.

(** [m[k] += v] on a [map[string]int]. *)
Definition add_to (k : string) (v : Z) (m : gmap string Z) : gmap string Z :=
  <[k := int64 (default 0%Z (m !! k) + v)]> m.

(** ** TokenCounterHook *)

Record tokenCounter := mkTokenCounter {
  InputTokens : gmap string Z;
  OutputTokens : gmap string Z;
}.

Record TokenCounterHook := mkTokenCounterHook { counters : gmap string tokenCounter }.

Definition NewTokenCounterHook : TokenCounterHook := mkTokenCounterHook ∅.

(** The body after the type assertions. *)
Definition count_usage (key : string) (inp out : Z) (h : TokenCounterHook) : TokenCounterHook :=
  let c := default (mkTokenCounter ∅ ∅) (counters h !! key) in
  mkTokenCounterHook
    (<[key := mkTokenCounter (add_to key inp (InputTokens c)) (add_to key out (OutputTokens c))]>
       (counters h)).

(** [raw.(usage)] for the type [usage] declared in the method: only a value of
    that type matches. *)
Definition as_usage (v : any) : option (Z * Z) :=
  match v with AUsage i o => Some (i, o) | _ => None end.

Definition TokenCounter_step (state : AgentState) (h : TokenCounterHook) : TokenCounterHook :=
  match var_get state "__token_usage__" with
  | None => h
  | Some raw =>
      match as_usage raw with
      | None => h
      | Some (inp, out) =>
          let tenantID := string_or_empty (var_get state "tenant_id") in
          let model := string_or_empty (var_get state "model_name") in
          count_usage (tenantID +:+ ":" +:+ model) inp out h
      end
  end.

Definition GetSummary (h : TokenCounterHook) : gmap string (Z * Z) :=
  map_imap (fun k c => Some (default 0%Z (InputTokens c !! k), default 0%Z (OutputTokens c !! k)))
    (counters h).

(** ** LatencyMetricHook *)

Record LatencyMetricHook := mkLatencyMetricHook {
  startTimestamps : gmap string Z;
  lat_Min : gmap string Z;
  lat_Max : gmap string Z;
  lat_Total : gmap string Z;
  lat_Count : gmap string Z;
}.

Definition NewLatencyMetricHook : LatencyMetricHook := mkLatencyMetricHook ∅ ∅ ∅ ∅ ∅.

Definition record_start (id : string) (t : Z) (h : LatencyMetricHook) : LatencyMetricHook :=
  mkLatencyMetricHook (<[id := t]> (startTimestamps h)) (lat_Min h) (lat_Max h) (lat_Total h)
    (lat_Count h).

(** The statements after [elapsed := time.Since(started)]. *)
Definition record_elapsed (id : string) (elapsed : Duration) (h : LatencyMetricHook) :
    LatencyMetricHook :=
  mkLatencyMetricHook (delete id (startTimestamps h))
    (match lat_Min h !! id with
     | Some cur => if (elapsed <? cur)%Z then <[id := elapsed]> (lat_Min h) else lat_Min h
     | None => <[id := elapsed]> (lat_Min h)
     end)
    (match lat_Max h !! id with
     | Some cur => if (cur <? elapsed)%Z then <[id := elapsed]> (lat_Max h) else lat_Max h
     | None => <[id := elapsed]> (lat_Max h)
     end)
    (add_to id elapsed (lat_Total h)) (add_to id 1 (lat_Count h)).

Definition Avg (id : string) (h : LatencyMetricHook) : Duration :=
  let count := default 0%Z (lat_Count h !! id) in
  if (count =? 0)%Z then 0%Z else go_div (default 0%Z (lat_Total h !! id)) count.

(** ** AuditLogHook *)

Record AuditEvent := mkAuditEvent {
  aud_Timestamp : Z;
  aud_TenantID : string;
  aud_SessionID : string;
  aud_NodeID : string;
  aud_Point : HookPoint;
  aud_StepCount : Z;
  aud_Err : string;
}.

(** The event that is built; a nil state has no variables. *)
Definition audit_event (t : Z) (state : option AgentState) (meta : HookMeta) : AuditEvent :=
  let var key := match state with Some s => string_or_empty (var_get s key) | None => "" end in
  mkAuditEvent t (var "tenant_id") (var "session_id") (hm_NodeID meta) (hm_Point meta)
    (hm_StepCount meta) (match hm_Err meta with Some err => Error err | None => "" end).

(** [Sink] may be nil. *)
Record AuditLogHook (E : Type) := mkAuditLogHook { Sink : option (AuditEvent -> M E unit) }.

Arguments mkAuditLogHook {E}.
Arguments Sink {E} a.

Definition NewAuditLogHook {E} (sink : option (AuditEvent -> M E unit)) : AuditLogHook E := mkAuditLogHook sink.

(** ** ContextWindowGuardHook *)

Record ContextWindowGuardHook := mkContextWindowGuardHook {
  MaxTokens : Z;
  ThresholdPct : float64;
}.

Definition NewContextWindowGuardHook (maxTokens : Z) (thresholdPct : float64) : ContextWindowGuardHook :=
  mkContextWindowGuardHook maxTokens thresholdPct.

(** [len(part.Text) / 4], summed over the parts of the messages. *)
Definition part_tokens (total : Z) (part : Part) : Z :=
  int64 (total + Z.quot (Z.of_nat (String.length (part_Text part))) 4).

Definition estimateTokens (state : AgentState) : Z :=
  foldl (fun total msg => foldl part_tokens total (msg_Parts msg)) 0%Z (Messages state).

Definition threshold (h : ContextWindowGuardHook) : Z :=
  int_of_float (fmul (float_of_Z (MaxTokens h)) (ThresholdPct h)).

(** ** The methods *)

Section hooks.
Context {E : Type}.

Definition TokenCounter_OnHook `{!Has TokenCounterHook E} (state : option loc) (meta : HookMeta) :
    M E unit :=
  if bool_decide (hm_Point meta = HookAfterNode) then
    match state with
    | None => ret tt
    | Some l =>
        s <- load l ;;
        h <- get (T := TokenCounterHook) ;;
        put (TokenCounter_step s h)
    end
  else ret tt.

Definition LatencyMetric_OnHook `{!Has LatencyMetricHook E} (state : option loc) (meta : HookMeta) :
    M E unit :=
  let id := hm_NodeID meta in
  if bool_decide (hm_Point meta = HookBeforeNode) then
    t <- now ;;
    h <- get (T := LatencyMetricHook) ;;
    put (record_start id t h)
  else if bool_decide (hm_Point meta = HookAfterNode) || bool_decide (hm_Point meta = HookOnError) then
    h <- get (T := LatencyMetricHook) ;;
    match startTimestamps h !! id with
    | None => ret tt
    | Some started =>
        t <- now ;;
        put (record_elapsed id (t - started)%Z h)
    end
  else ret tt.

Definition AuditLog_OnHook (h : AuditLogHook E) (state : option loc) (meta : HookMeta) : M E unit :=
  t <- now ;;
  s <- match state with None => ret None | Some l => s <- load l ;; ret (Some s) end ;;
  match Sink h with
  | None => ret tt
  | Some sink => sink (audit_event t s meta)
  end.

(** The map of the state is written in place. *)
Definition ContextWindowGuard_OnHook (h : ContextWindowGuardHook) (state : option loc)
    (meta : HookMeta) : M E unit :=
  if bool_decide (hm_Point meta = HookBeforeNode) then
    match state with
    | None => ret tt
    | Some l =>
        s <- load l ;;
        if (threshold h <=? estimateTokens s)%Z then
          match Variables s with
          | None => ret tt
          | Some vars =>
              store l (set_Variables (Some (<["__context_window_pressure__" := ABool true]> vars)) s)
          end
        else ret tt
    end
  else ret tt.
End hooks.

(** ** Specifications *)

(** One visit of a node: the hook at its start, then at its end. *)
Definition visit (h : LatencyMetricHook) (v : string * (Z * Z)) : LatencyMetricHook :=
  record_elapsed v.1 (v.2.2 - v.2.1)%Z (record_start v.1 v.2.1 h).

Definition visit_all (vs : list (string * (Z * Z))) : LatencyMetricHook :=
  foldl visit NewLatencyMetricHook vs.

(** The durations of the visits of a node, in order. *)
Definition observed (id : string) (vs : list (string * (Z * Z))) : list Z :=
  (fun v => (v.2.2 - v.2.1)%Z) <$> filter (fun v => v.1 = id) vs.

Definition sum_durations (ds : list Z) : Z := foldr Z.add 0%Z ds.

(** A nonempty list of durations against the statistics the hook keeps. *)
Record stats (ds : list Z) (h : LatencyMetricHook) (id : string) : Prop := {
  st_count : lat_Count h !! id = Some (Z.of_nat (length ds));
  st_total : lat_Total h !! id = Some (sum_durations ds);
  st_min : exists m, lat_Min h !! id = Some m /\ m ∈ ds /\ Forall (fun d => (m <= d)%Z) ds;
  st_max : exists m, lat_Max h !! id = Some m /\ m ∈ ds /\ Forall (fun d => (d <= m)%Z) ds;
}.

(** The usages counted for a key. *)
Definition usages_of (key : string) (us : list (string * (Z * Z))) : list (Z * Z) :=
  (filter (fun x => x.1 = key) us).*2.

(** ** Lemmas *)

Lemma add_to_eq k v m : add_to k v m !! k = Some (int64 (default 0%Z (m !! k) + v)).
Proof. apply lookup_insert_eq. Qed.

Lemma add_to_ne k k' v m : k <> k' -> add_to k v m !! k' = m !! k'.
Proof. intros. by apply lookup_insert_ne. Qed.

Lemma observed_snoc id vs v :
  observed id (vs ++ [v]) =
  observed id vs ++ (if decide (v.1 = id) then [(v.2.2 - v.2.1)%Z] else []).
Proof. unfold observed. rewrite filter_snoc, fmap_app. f_equal. by case_decide. Qed.

Lemma sum_durations_snoc ds d : sum_durations (ds ++ [d]) = (sum_durations ds + d)%Z.
Proof. unfold sum_durations. induction ds as [|x ds IH]; simpl in *; lia. Qed.

Lemma record_elapsed_ne id id' d h :
  id <> id' ->
  lat_Count (record_elapsed id d h) !! id' = lat_Count h !! id' /\
  lat_Total (record_elapsed id d h) !! id' = lat_Total h !! id' /\
  lat_Min (record_elapsed id d h) !! id' = lat_Min h !! id' /\
  lat_Max (record_elapsed id d h) !! id' = lat_Max h !! id'.
Proof.
  intros Hne. simpl. rewrite !add_to_ne by done. split_and!; [done|done| |];
    repeat case_match; by rewrite ?lookup_insert_ne.
Qed.

Lemma stats_first id d h :
  lat_Count h !! id = None -> lat_Total h !! id = None -> lat_Min h !! id = None ->
  lat_Max h !! id = None -> in_int64 d -> stats [d] (record_elapsed id d h) id.
Proof.
  intros H1 H2 H3 H4 Hd. split; simpl; rewrite ?add_to_eq, ?H1, ?H2, ?H3, ?H4; simpl.
  - done.
  - f_equal. rewrite int64_id; [simpl; lia | by rewrite Z.add_0_l].
  - exists d. rewrite lookup_insert_eq. split_and!; [done | by left | by repeat constructor].
  - exists d. rewrite lookup_insert_eq. split_and!; [done | by left | by repeat constructor].
Qed.

Lemma stats_next id d h ds :
  stats ds h id -> in_int64 (sum_durations (ds ++ [d])) -> (Z.of_nat (length ds) < MaxInt64)%Z ->
  stats (ds ++ [d]) (record_elapsed id d h) id.
Proof.
  intros [Hc Ht (mn & Hmn & Hin & Hall) (mx & Hmx & Hinx & Hallx)] Hd Hlen. split; simpl.
  - rewrite add_to_eq, Hc, length_app. simpl. rewrite int64_id; [f_equal; lia|].
    unfold in_int64, MinInt64. lia.
  - rewrite add_to_eq, Ht. simpl. by rewrite <- sum_durations_snoc, int64_id.
  - rewrite Hmn. destruct (Z.ltb_spec d mn).
    + exists d. rewrite lookup_insert_eq. split_and!; [done | set_solver |].
      apply Forall_app. split; [eapply Forall_impl; [exact Hall|]; intros; simpl in *; lia | by repeat constructor].
    + exists mn. split_and!; [done | set_solver |]. apply Forall_app. by repeat constructor.
  - rewrite Hmx. destruct (Z.ltb_spec mx d).
    + exists d. rewrite lookup_insert_eq. split_and!; [done | set_solver |].
      apply Forall_app. split; [eapply Forall_impl; [exact Hallx|]; intros; simpl in *; lia | by repeat constructor].
    + exists mx. split_and!; [done | set_solver |]. apply Forall_app. by repeat constructor.
Qed.

Lemma stats_record_start ds h id id' t : stats ds h id -> stats ds (record_start id' t h) id.
Proof. intros []. by split. Qed.

Lemma stats_ne ds h id id' d : id <> id' -> stats ds h id' -> stats ds (record_elapsed id d h) id'.
Proof.
  intros Hne [H1 H2 H3 H4]. destruct (record_elapsed_ne id id' d h Hne) as (E1 & E2 & E3 & E4).
  by split; rewrite ?E1, ?E2, ?E3, ?E4.
Qed.

(** Nothing is recorded about a node that was not visited. *)
Definition unseen (h : LatencyMetricHook) (id : string) : Prop :=
  lat_Count h !! id = None /\ lat_Total h !! id = None /\ lat_Min h !! id = None /\
  lat_Max h !! id = None.

Lemma visit_all_stats id vs :
  Forall (fun d => (0 <= d)%Z) (observed id vs) ->
  (sum_durations (observed id vs) <= MaxInt64)%Z ->
  (Z.of_nat (length (observed id vs)) <= MaxInt64)%Z ->
  (observed id vs = [] -> unseen (visit_all vs) id) /\
  (observed id vs <> [] -> stats (observed id vs) (visit_all vs) id).
Proof.
  induction vs as [|v vs IH] using rev_ind; [done|]. unfold visit_all. rewrite foldl_app. simpl.
  fold (visit_all vs). rewrite observed_snoc. unfold visit.
  destruct (decide (v.1 = id)) as [<-|Hne]; cbn [app].
  2: { rewrite !app_nil_r. intros H1 H2 H3. destruct (IH H1 H2 H3) as [IH1 IH2]. split.
       - intros Hnil. destruct (record_elapsed_ne v.1 id (v.2.2 - v.2.1)%Z
           (record_start v.1 v.2.1 (visit_all vs)) Hne) as (E1 & E2 & E3 & E4).
         destruct (IH1 Hnil) as (? & ? & ? & ?). unfold unseen. by rewrite E1, E2, E3, E4.
       - intros Hcons. by apply stats_ne, stats_record_start, IH2. }
  intros [H1 Hd]%Forall_app H2 H3. rewrite length_app in H3. rewrite Forall_singleton in Hd.
  pose proof H2 as H2'. rewrite sum_durations_snoc in H2'. simpl in H3.
  assert (Hsum : (0 <= sum_durations (observed v.1 vs))%Z).
  { clear -H1. unfold sum_durations. induction H1; simpl; lia. }
  destruct IH as [IH1 IH2]; [done | lia | lia |]. split; [by destruct (observed v.1 vs)|]. intros _.
  assert (in_int64 (sum_durations (observed v.1 vs ++ [(v.2.2 - v.2.1)%Z]))) as Hin.
  { rewrite sum_durations_snoc. unfold in_int64, MinInt64. lia. }
  destruct (observed v.1 vs) as [|d ds] eqn:Ho.
  - destruct (IH1 eq_refl) as (? & ? & ? & ?). simpl. apply stats_first; try done.
    by rewrite sum_durations_snoc, Z.add_0_l in Hin.
  - apply stats_next; [apply stats_record_start, IH2; done | done | lia].
Qed.

Lemma avg_bounds ds h id :
  stats ds h id -> ds <> [] -> Forall (fun d => (0 <= d)%Z) ds ->
  (sum_durations ds <= MaxInt64)%Z ->
  exists mn mx, lat_Min h !! id = Some mn /\ lat_Max h !! id = Some mx /\
    mn ∈ ds /\ mx ∈ ds /\ Forall (fun d => (mn <= d <= mx)%Z) ds /\
    Avg id h = (sum_durations ds / Z.of_nat (length ds))%Z /\ (mn <= Avg id h <= mx)%Z.
Proof.
  intros [Hc Ht (mn & Hmn & Hin & Hall) (mx & Hmx & Hinx & Hallx)] Hne Hpos Hle.
  exists mn, mx. unfold Avg. rewrite Hc, Ht. simpl.
  assert (Hlen : (0 < Z.of_nat (length ds))%Z) by (destruct ds; simpl in *; [done | lia]).
  assert (Hb : (mn * Z.of_nat (length ds) <= sum_durations ds <= mx * Z.of_nat (length ds))%Z
               /\ (0 <= sum_durations ds)%Z).
  { clear -Hall Hallx Hpos. induction ds as [|d ds IH]; [simpl; lia|].
    apply Forall_cons in Hall as [? ?], Hallx as [? ?], Hpos as [? ?].
    unfold sum_durations in *. cbn [foldr length]. rewrite Nat2Z.inj_succ.
    destruct IH as [? ?]; try done. lia. }
  destruct Hb as [[Hb1 Hb2] Hs]. replace (Z.of_nat (length ds) =? 0)%Z with false by lia.
  assert (Hdiv : go_div (sum_durations ds) (Z.of_nat (length ds)) =
                 (sum_durations ds / Z.of_nat (length ds))%Z).
  { unfold go_div. rewrite Z.quot_div_nonneg by lia. apply int64_id.
    assert (0 <= sum_durations ds / Z.of_nat (length ds) <= sum_durations ds)%Z.
    { split; [apply Z.div_pos; lia | apply Z.div_le_upper_bound; [lia|]; nia]. }
    unfold in_int64, MinInt64. lia. }
  rewrite Hdiv. split_and!; try done.
  - apply Forall_and. done.
  - apply Z.div_le_lower_bound; lia.
  - apply Z.div_le_upper_bound; lia.
Qed.

Lemma norm_not_usage pj v : as_usage (norm_any pj v) = None.
Proof.
  unfold norm_any. destruct (marshal_any pj v) as [j|] eqn:Hv; [by destruct j|].
  by destruct v.
Qed.

Lemma frames_LatencyMetric {E} `{!Has LatencyMetricHook E} st meta :
  frames (LatencyMetric_OnHook (E := E) st meta).
Proof.
  unfold LatencyMetric_OnHook. case_match.
  { apply frames_bind; [apply frames_ask|]. intros. apply frames_bind; auto with flux. }
  case_match; [|auto with flux]. apply frames_bind; [auto with flux|]. intros h.
  case_match; [|auto with flux]. apply frames_bind; [apply frames_ask|]. auto with flux.
Qed.

Lemma frames_TokenCounter {E} `{!Has TokenCounterHook E} st meta :
  frames (TokenCounter_OnHook (E := E) st meta).
Proof.
  unfold TokenCounter_OnHook. case_match; [|auto with flux]. destruct st; [|auto with flux].
  apply frames_bind; [auto with flux|]. intros s. apply frames_bind; auto with flux.
Qed.

(** ** Properties *)

(** The latency statistics are right. A call at the start and a call at the
    end of a node record the time between the two; after any visits whose
    durations are not negative and whose total does not overflow, the hook has
    the least, the greatest and the truncated mean duration of each visited node
    (so [Min <= Avg <= Max]), and an average of zero for the others. *)
Theorem latency_statistics {E} `{!Has LatencyMetricHook E} (id : string)
    (vs : list (string * (Z * Z))) (st st' : option loc) (n n' : Z) (d d' : Duration) (w : World E) :
  Forall (fun d => (0 <= d)%Z) (observed id vs) ->
  (sum_durations (observed id vs) <= MaxInt64)%Z ->
  (Z.of_nat (length (observed id vs)) <= MaxInt64)%Z ->
  (let o := w_orc w in
   let v := (id, (or_now o (or_tick o), or_now o (S (or_tick o)))) in
   exists w',
     (LatencyMetric_OnHook st (mkHookMeta HookBeforeNode id n d None) ;;
      LatencyMetric_OnHook st' (mkHookMeta HookAfterNode id n' d' None)) w = (Ret tt, w') /\
     get_of (w_ext w') = visit (get_of (w_ext w)) v) /\
  let h := visit_all vs in
  match observed id vs with
  | [] => Avg id h = 0%Z
  | ds => exists mn mx,
      lat_Min h !! id = Some mn /\ lat_Max h !! id = Some mx /\ mn ∈ ds /\ mx ∈ ds /\
      Forall (fun d => (mn <= d <= mx)%Z) ds /\
      Avg id h = (sum_durations ds / Z.of_nat (length ds))%Z /\ (mn <= Avg id h <= mx)%Z
  end.
Proof.
  intros Hpos Hsum Hlen. split.
  - set (t1 := or_now (w_orc w) (or_tick (w_orc w))).
    set (h1 := record_start id t1 (get_of (w_ext w))).
    set (w1 := set_ext (set_of h1 (w_ext w)) (set_orc (next_tick (w_orc w)) w)).
    assert (H1 : LatencyMetric_OnHook st (mkHookMeta HookBeforeNode id n d None) w = (Ret tt, w1))
      by reflexivity.
    rewrite (bind_Ret _ _ _ _ _ H1). unfold LatencyMetric_OnHook. cbn [hm_Point hm_NodeID].
    rewrite bool_decide_eq_false_2, bool_decide_eq_true_2 by done. cbn [orb].
    assert (Hget : get (T := LatencyMetricHook) w1 = (Ret h1, w1)).
    { unfold get. simpl. by rewrite get_set_of. }
    rewrite (bind_Ret _ _ _ _ _ Hget). simpl. rewrite lookup_insert_eq.
    eexists. split; [reflexivity|]. simpl. by rewrite get_set_of.
  - intros h. destruct (visit_all_stats id vs Hpos Hsum Hlen) as [Hnil Hcons].
    destruct (observed id vs) as [|x ds]; [|by apply avg_bounds; [apply Hcons|..]].
    unfold Avg, h. by rewrite (proj1 (Hnil eq_refl)).
Qed.

(** The guard raises its signal exactly when the estimate reaches the
    threshold: before a node, on a state with variables, the variable
    [__context_window_pressure__] is set to true when the estimated tokens are at
    least the fraction of the window; otherwise, and at every other point,
    nothing is written, and the signal is never taken back. *)
Theorem guard_signals_iff {E} (h : ContextWindowGuardHook) (l : loc) (s : AgentState)
    (vars : gmap string any) (meta : HookMeta) (w : World E) :
  w_heap w !! l = Some s -> Variables s = Some vars ->
  exists w' s', ContextWindowGuard_OnHook h (Some l) meta w = (Ret tt, w') /\
    w_heap w' = <[l := s']> (w_heap w) /\
    Messages s' = Messages s /\ StepCount s' = StepCount s /\ Status s' = Status s /\
    (forall k, k <> "__context_window_pressure__" -> var_get s' k = var_get s k) /\
    var_get s' "__context_window_pressure__" =
      if decide (hm_Point meta = HookBeforeNode /\ (threshold h <= estimateTokens s)%Z)
      then Some (ABool true) else var_get s "__context_window_pressure__".
Proof.
  intros Hl Hv. unfold ContextWindowGuard_OnHook.
  assert (Hsame : w_heap w = <[l := s]> (w_heap w)) by by rewrite list_insert_id.
  destruct (decide (hm_Point meta = HookBeforeNode)) as [Hp|Hp];
    [rewrite bool_decide_eq_true_2 by done | rewrite bool_decide_eq_false_2 by done].
  2: { exists w, s. split_and!; try done. by rewrite decide_False by naive_solver. }
  rewrite (bind_load _ s) by done. destruct (Z.leb_spec (threshold h) (estimateTokens s)).
  - rewrite Hv. unfold store. rewrite Hl. eexists _, _. split_and!; [reflexivity..| |].
    + intros k Hk. unfold var_get. simpl. rewrite Hv. by rewrite lookup_insert_ne.
    + rewrite decide_True by done. unfold var_get. simpl. apply lookup_insert_eq.
  - exists w, s. split_and!; try done. rewrite decide_False by (intros [_ ?]; lia). done.
Qed.

(** The token counter counts only values of its own local type [usage]. Such
    a usage is added to the totals of its tenant and model and to no other; a
    state that was loaded from a store, and any value other packages can build,
    counts nothing. *)
Theorem token_counter_counts (pj : nat -> option json) (s : AgentState) (inp out : Z)
    (h : TokenCounterHook) (key : string) :
  let k := string_or_empty (var_get s "tenant_id") +:+ ":" +:+ string_or_empty (var_get s "model_name") in
  let old := default (0%Z, 0%Z) (GetSummary h !! key) in
  TokenCounter_step (norm_AgentState pj s) h = h /\
  (var_get s "__token_usage__" = Some (AUsage inp out) ->
   default (0%Z, 0%Z) (GetSummary (TokenCounter_step s h) !! key) =
     if decide (key = k) then (int64 (old.1 + inp), int64 (old.2 + out)) else old).
Proof.
  intros k old. split.
  - unfold TokenCounter_step, var_get. simpl. destruct (Variables s) as [m|]; simpl; [|done].
    rewrite lookup_fmap. destruct (m !! "__token_usage__"); simpl; [|done]. by rewrite norm_not_usage.
  - intros Hu. unfold TokenCounter_step. rewrite Hu. simpl. fold k.
    unfold old, GetSummary, count_usage. rewrite !map_lookup_imap. simpl.
    destruct (decide (key = k)) as [->|Hne].
    + rewrite lookup_insert_eq. simpl. rewrite !add_to_eq.
      destruct (counters h !! k); simpl; [done|]. by rewrite !lookup_empty.
    + by rewrite lookup_insert_ne.
Qed.

(** ** Witnesses *)

Lemma latency_statistics_witness :
  observed "a" [("a", (1, 4)%Z); ("b", (4, 5)%Z); ("a", (5, 12)%Z)] = [3; 7]%Z /\
  exists mn mx,
    lat_Min (visit_all [("a", (1, 4)%Z); ("b", (4, 5)%Z); ("a", (5, 12)%Z)]) !! "a" = Some mn /\
    lat_Max (visit_all [("a", (1, 4)%Z); ("b", (4, 5)%Z); ("a", (5, 12)%Z)]) !! "a" = Some mx /\
    mn ∈ [3; 7]%Z /\ mx ∈ [3; 7]%Z /\ Forall (fun d => (mn <= d <= mx)%Z) [3; 7]%Z /\
    Avg "a" (visit_all [("a", (1, 4)%Z); ("b", (4, 5)%Z); ("a", (5, 12)%Z)]) = 5%Z /\ (mn <= 5 <= mx)%Z.
Proof.
  split; [reflexivity|].
  apply (@latency_statistics LatencyMetricHook (Has_refl _) "a"
    [("a", (1, 4)%Z); ("b", (4, 5)%Z); ("a", (5, 12)%Z)] None None 0%Z 0%Z 0%Z 0%Z
    (mkWorld [] demo_oracle NewLatencyMetricHook)).
  - repeat constructor; vm_compute; discriminate.
  - vm_compute. discriminate.
  - vm_compute. discriminate.
Defined.

Lemma guard_signals_iff_witness :
  threshold (NewContextWindowGuardHook 10 float_0_8) = 8%Z /\
  exists w' s',
    ContextWindowGuard_OnHook (NewContextWindowGuardHook 10 float_0_8) (Some 0)
      (mkHookMeta HookBeforeNode "a" 0%Z 0%Z None) demo_world = (Ret tt, w') /\
    w_heap w' = <[0 := s']> (w_heap demo_world) /\
    Messages s' = Messages demo_state /\ StepCount s' = StepCount demo_state /\
    Status s' = Status demo_state /\
    (forall k, k <> "__context_window_pressure__" -> var_get s' k = var_get demo_state k) /\
    var_get s' "__context_window_pressure__" =
      if decide (HookBeforeNode = HookBeforeNode /\
                 (threshold (NewContextWindowGuardHook 10 float_0_8) <= estimateTokens demo_state)%Z)
      then Some (ABool true) else var_get demo_state "__context_window_pressure__".
Proof.
  split; [reflexivity|].
  eapply (guard_signals_iff (NewContextWindowGuardHook 10 float_0_8) 0 demo_state _
           (mkHookMeta HookBeforeNode "a" 0%Z 0%Z None) demo_world); reflexivity.
Defined.

Lemma token_counter_counts_witness :
  var_get (with_variable "__token_usage__" (AUsage 3 4) NewState) "__token_usage__" = Some (AUsage 3 4) /\
  default (0%Z, 0%Z) (GetSummary (TokenCounter_step (with_variable "__token_usage__" (AUsage 3 4) NewState)
    NewTokenCounterHook) !! ":") = (3, 4)%Z.
Proof.
  split; [reflexivity|].
  apply (proj2 (token_counter_counts (fun _ => None)
    (with_variable "__token_usage__" (AUsage 3 4) NewState) 3 4 NewTokenCounterHook ":")).
  reflexivity.
Defined.
