(* ===== verification/Inspector.v ===== *)
(** * observability/inspector.go: timelines, diffs and replays of a session

    The inspector reads checkpoints through the [MemoryStore] interface. The
    order [sort.Slice] leaves equal keys in and the text [%v] prints are the
    library's: they are parameters. *)

From S2P Require Import Prelude GoLang Core Json World Interfaces Memory.
From stdpp Require Import base gmap strings list sorting.

#[local] Open Scope go_scope.

Record StateSnapshot := mkStateSnapshot {
  ss_CheckpointID : string;
  ss_Timestamp : Z;
  ss_NodeID : string;
  ss_Status : AgentStatus;
  ss_StepCount : Z;
}.

Record StateDiff := mkStateDiff {
  sd_NewMessages : list Message;
  sd_ChangedVars : gmap string any;
  sd_NewArtifacts : list Artifact;
}.

Definition snapshot_of (m : CheckpointMeta) (state : AgentState) : StateSnapshot :=
  mkStateSnapshot (cm_CheckpointID m) (UnixMilli (cm_CreatedAt m)) (LastNodeID state) (Status state)
    (StepCount state).

(** [a[len(b):]] when [a] is longer, nothing otherwise. *)
Definition tail_after {A} (b a : list A) : list A :=
  if Nat.ltb (length b) (length a) then drop (length b) a else [].

Section inspector.
Context {E : Type} (memoryStore : MemoryStore E).
Context (sort_Slice : list StateSnapshot -> list StateSnapshot) (Sprintf_v : any -> string).

(** The loop over the metadata: a checkpoint that does not load is skipped. *)
Fixpoint collect (ctx : context) (metas : list CheckpointMeta) : M E (list StateSnapshot) :=
  match metas with
  | [] => ret []
  | m :: metas' =>
      let* (state, err) := ms_LoadCheckpoint memoryStore ctx (cm_CheckpointID m) in
      match err with
      | Some _ => collect ctx metas'
      | None =>
          l <- deref state ;;
          s <- load l ;;
          rest <- collect ctx metas' ;;
          ret (snapshot_of m s :: rest)
      end
  end.

Definition GetTimeline (ctx : context) (sessionID : string) :
    M E (list StateSnapshot * option error) :=
  let* (metas, err) := ms_ListCheckpoints memoryStore ctx sessionID in
  match err with
  | Some x => ret ([], Some x)
  | None =>
      snapshots <- collect ctx metas ;;
      ret (sort_Slice snapshots, None)
  end.

(** The variables of [B] that are missing from [A] or print differently there. *)
Definition changed_vars (varsA varsB : gmap string any) : gmap string any :=
  map_imap (fun k vB =>
    match varsA !! k with
    | None => Some vB
    | Some vA => if bool_decide (Sprintf_v vA = Sprintf_v vB) then None else Some vB
    end) varsB.

Definition diff_states (stateA stateB : AgentState) : StateDiff :=
  mkStateDiff (tail_after (Messages stateA) (Messages stateB))
    (changed_vars (default ∅ (Variables stateA)) (default ∅ (Variables stateB)))
    (tail_after (Artifacts stateA) (Artifacts stateB)).

Definition DiffCheckpoints (ctx : context) (cpA cpB : string) : M E (option StateDiff * option error) :=
  let* (lA, err) := ms_LoadCheckpoint memoryStore ctx cpA in
  match err with
  | Some x => ret (None, Some x)
  | None =>
      let* (lB, err) := ms_LoadCheckpoint memoryStore ctx cpB in
      match err with
      | Some x => ret (None, Some x)
      | None =>
          lA <- deref lA ;; lB <- deref lB ;;
          stateA <- load lA ;; stateB <- load lB ;;
          ret (Some (diff_states stateA stateB), None)
      end
  end.

Definition ReplayFrom (ctx : context) (checkpointID : string) : M E (option loc * option error) :=
  let* (state, err) := ms_LoadCheckpoint memoryStore ctx checkpointID in
  match err with
  | Some x => ret (None, Some x)
  | None =>
      l <- deref state ;;
      replayState <- WithStatus l StatusRunning ;;
      ret (Some replayState, None)
  end.
End inspector.

(** The two lines of a snapshot; the last one lasts a second. *)
Definition gantt_lines (s : StateSnapshot) (next : option StateSnapshot) : string :=
  let end_ := match next with Some n => ss_Timestamp n | None => int64 (ss_Timestamp s + 1000) end in
  "    section Node " +:+ ss_NodeID s +:+ lf +:+
  "    Step " +:+ itoa (ss_StepCount s) +:+ " : " +:+ itoa (Z.quot (ss_Timestamp s) 1000) +:+ ", " +:+
  itoa (Z.quot end_ 1000) +:+ lf.

Fixpoint gantt_body (snapshots : list StateSnapshot) : string :=
  match snapshots with
  | [] => ""
  | s :: rest => gantt_lines s (head rest) +:+ gantt_body rest
  end.

Definition MermaidGantt (snapshots : list StateSnapshot) : string :=
  "gantt" +:+ lf +:+ "    title Agent Session Timeline" +:+ lf +:+ "    dateFormat X" +:+ lf +:+
  "    axisFormat %H:%M:%S" +:+ lf +:+ gantt_body snapshots.

(** ** Specifications *)

Definition earlier (a b : StateSnapshot) : Prop := (ss_Timestamp a <= ss_Timestamp b)%Z.

(** The snapshots of the log entries of a session, in the order of the saves. *)
Definition snapshots_of (log : list Saved) : list StateSnapshot :=
  omap (fun e => snapshot_of (sv_meta e) <$> unmarshal_AgentState (sv_doc e)) log.

(** ** Lemmas *)

Lemma in_session_unique log sid e :
  NoDup (ckpt_ids log) -> e ∈ of_session sid log ->
  last (filter (fun e' => cm_CheckpointID (sv_meta e') = cm_CheckpointID (sv_meta e)) log) = Some e.
Proof.
  intros Hnd [_ Hin]%list_elem_of_filter. unfold ckpt_ids in Hnd.
  assert (Hf : forall x, x ∈ filter (fun e' => cm_CheckpointID (sv_meta e') = cm_CheckpointID (sv_meta e)) log ->
    x = e).
  { intros x [Hid Hx]%list_elem_of_filter. apply list_elem_of_lookup in Hin as [i Hi], Hx as [j Hj].
    assert (i = j) as ->; [|congruence].
    eapply NoDup_lookup; [exact Hnd | by rewrite list_lookup_fmap, Hi |].
    rewrite list_lookup_fmap, Hj. simpl. by f_equal. }
  assert (e ∈ filter (fun e' => cm_CheckpointID (sv_meta e') = cm_CheckpointID (sv_meta e)) log) as He
    by by apply list_elem_of_filter.
  destruct (last _) as [x|] eqn:Hlast.
  - apply last_Some_elem_of in Hlast. f_equal. by apply Hf.
  - apply last_None in Hlast. rewrite Hlast in He. by apply elem_of_nil in He.
Qed.

(** Without ties there is one sorted order. *)
Lemma sorted_unique (l1 l2 : list StateSnapshot) :
  StronglySorted (fun a b => (ss_Timestamp a < ss_Timestamp b)%Z) l1 ->
  StronglySorted earlier l2 -> l2 ≡ₚ l1 -> l2 = l1.
Proof.
  intros H1. revert l2. induction H1 as [|x l1 H1 IH Hx]; intros l2 H2 Hp.
  { by apply Permutation_nil_r in Hp. }
  destruct H2 as [|y l2 H2 Hy]; [by apply Permutation_nil_l in Hp|].
  assert (y = x) as ->.
  { assert (Hyin : y ∈ x :: l1) by (rewrite <- Hp; left).
    assert (Hxin : x ∈ y :: l2) by (rewrite Hp; left).
    apply elem_of_cons in Hyin as [?|Hyin], Hxin as [?|Hxin]; try done.
    rewrite Forall_forall in Hx, Hy. specialize (Hx y Hyin). specialize (Hy x Hxin).
    unfold earlier in Hy. lia. }
  f_equal. apply IH; [done|]. by apply Permutation_cons_inv in Hp.
Qed.

Section lemmas.
Context {E : Type} `{!PlanDocs E} `{!Has InMemoryStore E}.
Implicit Types w : World E.

Lemma collect_ok ctx log es w :
  represents (get_of (w_ext w)) log -> NoDup (ckpt_ids log) ->
  (forall e, e ∈ es -> exists sid, e ∈ of_session sid log) ->
  exists w', collect InMemory ctx (sv_meta <$> es) w = (Ret (snapshots_of es), w') /\
    w_ext w' = w_ext w /\ heap_frame w w'.
Proof.
  intros Hrep Hnd. revert w Hrep. induction es as [|e es IH]; intros w Hrep Hes.
  { exists w. split_and!; [done | done | apply heap_frame_refl]. }
  destruct (Hes e ltac:(left)) as [sid He]. pose proof (in_session_unique log sid e Hnd He) as Hlast.
  assert (Hload : LoadCheckpoint ctx (cm_CheckpointID (sv_meta e)) w = json_Unmarshal (sv_doc e) w).
  { unfold LoadCheckpoint, bind, get. by rewrite (rep_ckptData _ _ Hrep), Hlast. }
  unfold snapshots_of. csimpl. destruct (unmarshal_AgentState (sv_doc e)) as [s|] eqn:Hs; cbn [fmap option_fmap option_map].
  - rewrite (json_Unmarshal_eq _ s w Hs) in Hload. rewrite (bind_Ret _ _ _ _ _ Hload).
    destruct (IH (set_heap (w_heap w ++ [s]) w)) as (w' & Hc & Hext & Hfr); [done | |].
    { intros x ?. apply Hes. by right. }
    exists w'. split_and!; [|done|].
    + cbn [deref]. rewrite (bind_Ret (ret _) _ (length (w_heap w)) _ _ eq_refl).
      rewrite (bind_load _ s) by apply lookup_snoc_eq. by rewrite (bind_Ret _ _ _ _ _ Hc).
    + eapply heap_frame_trans; [|exact Hfr]. by exists [s].
  - unfold json_Unmarshal in Hload. rewrite Hs in Hload. rewrite (bind_Ret _ _ _ _ _ Hload).
    destruct (IH w Hrep) as (w' & Hc & Hext & Hfr); [|by exists w'].
    intros x ?. apply Hes. by right.
Qed.
End lemmas.

(** ** Properties *)

(** The timeline of a session is its checkpoints in time order: for a store
    that represents a log of saves with distinct identifiers, it is a sorted
    rearrangement of one snapshot per save of the session that decodes, each with
    the node, status and step count that were saved; when the saves are in
    different milliseconds it is exactly the saves in their order. A session
    without saves is an error. Nothing in the store changes. *)
Theorem GetTimeline_chronological {E} `{!PlanDocs E} `{!Has InMemoryStore E}
    (sort_Slice : list StateSnapshot -> list StateSnapshot) (ctx : context) (sid : string)
    (log : list Saved) (w : World E) :
  (forall l, sort_Slice l ≡ₚ l /\ StronglySorted earlier (sort_Slice l)) ->
  represents (get_of (w_ext w)) log -> NoDup (ckpt_ids log) ->
  let snaps := snapshots_of (of_session sid log) in
  exists w', w_ext w' = w_ext w /\
    GetTimeline InMemory sort_Slice ctx sid w =
      (match of_session sid log with
       | [] => Ret ([], Some ErrSessionNotFound)
       | _ => Ret (sort_Slice snaps, None)
       end, w') /\
    (StronglySorted (fun a b => (ss_Timestamp a < ss_Timestamp b)%Z) snaps -> sort_Slice snaps = snaps).
Proof.
  intros Hsort Hrep Hnd snaps.
  assert (Hlist : ListCheckpoints ctx sid w =
    (match of_session sid log with
     | [] => Ret ([], Some ErrSessionNotFound)
     | es => Ret (sv_meta <$> es, None)
     end, w)).
  { unfold ListCheckpoints, bind, get. rewrite (rep_checkpoints _ _ Hrep). by destruct (of_session _ _). }
  assert (Huniq : StronglySorted (fun a b => (ss_Timestamp a < ss_Timestamp b)%Z) snaps ->
    sort_Slice snaps = snaps).
  { intros Hs. destruct (Hsort snaps) as [Hp Hs']. by apply sorted_unique. }
  destruct (of_session sid log) as [|e es] eqn:Hes.
  - exists w. split_and!; [done | | done]. unfold GetTimeline. by rewrite (bind_Ret _ _ _ _ _ Hlist).
  - destruct (collect_ok ctx log (e :: es) w Hrep Hnd) as (w' & Hc & Hext & _).
    { intros x Hx. exists sid. by rewrite Hes. }
    exists w'. split_and!; [done | | done]. unfold GetTimeline. rewrite (bind_Ret _ _ _ _ _ Hlist).
    by rewrite (bind_Ret _ _ _ _ _ Hc).
Qed.

(** A diff reports what was added. The new messages and artifacts are the
    ones past the old length, so appending to the old list gives the new one back;
    a variable is reported, with its new value, exactly when the old state lacks
    it or prints it differently: two values of different types that print alike
    are not reported. Nothing is reported about a state and itself. *)
Theorem diff_states_exact (Sprintf_v : any -> string) (a b : AgentState) (k : string) (v : any) :
  let d := diff_states Sprintf_v a b in
  (forall ms, Messages b = Messages a ++ ms -> sd_NewMessages d = ms) /\
  (forall arts, Artifacts b = Artifacts a ++ arts -> sd_NewArtifacts d = arts) /\
  (sd_ChangedVars d !! k = Some v <->
   var_get b k = Some v /\ forall v', var_get a k = Some v' -> Sprintf_v v' <> Sprintf_v v) /\
  diff_states Sprintf_v a a = mkStateDiff [] ∅ [].
Proof.
  assert (Htail : forall A (l1 l2 l : list A), l2 = l1 ++ l -> tail_after l1 l2 = l).
  { intros A l1 l2 l ->. unfold tail_after. rewrite length_app, drop_app_length.
    destruct (Nat.ltb_spec (length l1) (length l1 + length l)); [done|]. destruct l; [done | simpl in *; lia]. }
  assert (Hvar : forall s k, default ∅ (Variables s) !! k = var_get s k).
  { intros s k0. unfold var_get. by destruct (Variables s). }
  intros d. split_and!.
  - intros ms Hms. by apply Htail.
  - intros arts Ha. by apply Htail.
  - simpl. unfold changed_vars. rewrite map_lookup_imap, !Hvar. simpl.
    destruct (var_get b k) as [vb|]; simpl; [|naive_solver].
    destruct (var_get a k) as [va|]; [|naive_solver]. case_bool_decide; naive_solver.
  - unfold diff_states. f_equal; [apply Htail; by rewrite app_nil_r | |apply Htail; by rewrite app_nil_r].
    apply map_eq. intros k0. unfold changed_vars. rewrite map_lookup_imap, lookup_empty.
    destruct (default ∅ (Variables a) !! k0); simpl; [|done]. by rewrite bool_decide_eq_true_2.
Qed.

(** ** Witnesses *)

#[local] Instance earlier_dec a b : Decision (earlier a b).
Proof. unfold earlier. apply _. Defined.

#[local] Instance earlier_total : Total earlier.
Proof. intros a b. unfold earlier. lia. Qed.

#[local] Instance earlier_trans : Transitive earlier.
Proof. intros a b c. unfold earlier. lia. Qed.

(** The one save of [demo_saved_world]. *)
Definition demo_entry : Saved := mkSaved (next_meta "s" demo_world) demo_doc.

Lemma demo_saved_represents : represents (get_of (w_ext demo_saved_world)) [demo_entry].
Proof. exact (represents_put _ [] "s" (next_meta "s" demo_world) demo_doc represents_new eq_refl). Qed.

Lemma GetTimeline_chronological_witness :
  of_session "s" [demo_entry] = [demo_entry] /\ length (snapshots_of [demo_entry]) = 1 /\
  exists w', w_ext w' = w_ext demo_saved_world /\
    GetTimeline InMemory (merge_sort earlier) Background "s" demo_saved_world
      = (Ret (merge_sort earlier (snapshots_of [demo_entry]), None), w') /\
    (StronglySorted (fun a b => (ss_Timestamp a < ss_Timestamp b)%Z) (snapshots_of [demo_entry]) ->
     merge_sort earlier (snapshots_of [demo_entry]) = snapshots_of [demo_entry]).
Proof.
  split; [reflexivity|]. split; [vm_compute; reflexivity|].
  apply (@GetTimeline_chronological InMemoryStore (no_plans _) (Has_refl _) (merge_sort earlier)
    Background "s" [demo_entry] demo_saved_world).
  - intros l. split; [apply merge_sort_Permutation | apply (StronglySorted_merge_sort _)].
  - apply demo_saved_represents.
  - apply NoDup_singleton.
Defined.

Lemma diff_states_exact_witness :
  Messages demo_state = Messages NewState ++ [message RoleUser [text_part "hi"]] /\
  sd_NewMessages (diff_states (fun _ => "") NewState demo_state) = [message RoleUser [text_part "hi"]].
Proof.
  split; [reflexivity|].
  apply (proj1 (diff_states_exact (fun _ => "") NewState demo_state "k" ANil)). reflexivity.
Defined.
