(* ===== verification/Tools.v ===== *)
(** * Package tools: the registry, its concurrent dispatch and the built-in tools

    [tools/registry.go], [tools/sandbox.go], [tools/builtins.go] and
    [tools/search_memory.go]. The registry holds tools, which are computations,
    so it is a value of its own and not part of the environment. The goroutines
    of [ExecuteConcurrent] are threads of a step relation: each critical section
    of the mutex and each execution of a tool is one step, the steps of the
    threads interleave freely, and other goroutines may change the registry
    between any two of them. *)

From S2P Require Import Prelude GoLang Core Json World Interfaces Memory.
From stdpp Require Import base gmap strings list sets relations.

#[local] Open Scope go_scope.

(** ** tools/registry.go *)

Record ConcreteToolRegistry (E : Type) := mkRegistry {
  reg_tools : gmap string (Tool E);
  reg_permissions : gmap string (gmap string bool);
}.

Arguments mkRegistry {E}.
Arguments reg_tools {E} c.
Arguments reg_permissions {E} c.

(** [ctx.Value("tenantID").(string)], [""] when it is missing. *)
Definition tenant_of (ctx : context) : string :=
  string_or_empty (ctx_Value ctx (KString "tenantID")).

(** The third check of [AuthorizeCall] on one key of the table. *)
Definition wildcard_allows (toolName pattern : string) : bool :=
  has_suffix pattern ":*" && has_prefix toolName (trim_suffix pattern "*").

Section registry.
Context {E : Type}.
Implicit Types r : ConcreteToolRegistry E.

Definition NewConcreteToolRegistry : ConcreteToolRegistry E := mkRegistry ∅ ∅.

(** [permissions] is accepted and ignored. *)
Definition Register (tool : Tool E) (permissions : list string) r :
    ConcreteToolRegistry E * option error :=
  match reg_tools r !! tool_Name tool with
  | Some _ => (r, Some (ErrNew ("tool already registered: " +:+ tool_Name tool)))
  | None => (mkRegistry (<[tool_Name tool := tool]> (reg_tools r)) (reg_permissions r), None)
  end.

Definition GetTool (name : string) r : option (Tool E) := reg_tools r !! name.

(** [ListTools], in some order. *)
Definition ListTools r : list (Tool E) := (map_to_list (reg_tools r)).*2.

Definition GrantPermission (tenantID toolName : string) r : ConcreteToolRegistry E :=
  mkRegistry (reg_tools r)
    (<[tenantID := <[toolName := true]> (default ∅ (reg_permissions r !! tenantID))]>
       (reg_permissions r)).

Definition RevokePermission (tenantID toolName : string) r : ConcreteToolRegistry E :=
  match reg_permissions r !! tenantID with
  | Some m => mkRegistry (reg_tools r) (<[tenantID := delete toolName m]> (reg_permissions r))
  | None => r
  end.

Definition AuthorizeCall (ctx : context) (toolName : string) r : option error :=
  let tenantID := tenant_of ctx in
  if bool_decide (tenantID = "") then None
  else
    match reg_permissions r !! tenantID with
    | None =>
        Some (ErrNew ("tenant " +:+ tenantID +:+ " has no permission table; access to " +:+ toolName
                      +:+ " denied"))
    | Some allowed =>
        if default false (allowed !! toolName) then None
        else if default false (allowed !! "*") then None
        else if existsb (wildcard_allows toolName) (map_to_list allowed).*1 then None
        else Some (ErrNew ("tenant " +:+ tenantID +:+ " is not authorized to call tool " +:+ toolName))
    end.

(** *** ExecuteConcurrent *)

(** Where a goroutine is: before the authorization, before the lookup, before
    the execution of the tool it found, finished. *)
Inductive phase :=
  | PAuth
  | PLookup
  | PExec (t : Tool E)
  | PDone.

(** The registry, the world, [results], the goroutines; [cf_seen] lists the
    registries the call has gone through, latest first. *)
Record config := mkConfig {
  cf_reg : ConcreteToolRegistry E;
  cf_world : World E;
  cf_results : list ToolResultPart;
  cf_threads : list phase;
  cf_seen : list (ConcreteToolRegistry E);
}.

Definition denied_result (tc : ToolCallPart) (err : error) : ToolResultPart :=
  mkToolResultPart (tc_CallID tc) ("PermissionDenied: " +:+ Error err) true.

Definition missing_result (tc : ToolCallPart) : ToolResultPart :=
  mkToolResultPart (tc_CallID tc) ("tool not found: " +:+ tc_ToolName tc) true.

Definition tool_result (tc : ToolCallPart) (out : string) (err : option error) : ToolResultPart :=
  match err with
  | Some e => mkToolResultPart (tc_CallID tc) (Error e) true
  | None => mkToolResultPart (tc_CallID tc) out false
  end.

Definition zero_result : ToolResultPart := mkToolResultPart "" "" false.

(** [results[idx] = x] and the goroutine returns. *)
Definition finish (i : nat) (x : ToolResultPart) (w : World E) (c : config) : config :=
  mkConfig (cf_reg c) w (<[i := x]> (cf_results c)) (<[i := PDone]> (cf_threads c)) (cf_seen c).

Definition move (i : nat) (p : phase) (c : config) : config :=
  mkConfig (cf_reg c) (cf_world c) (cf_results c) (<[i := p]> (cf_threads c)) (cf_seen c).

Inductive call_step (ctx : context) (calls : list ToolCallPart) : config -> config -> Prop :=
  | step_deny c i tc err :
      cf_threads c !! i = Some PAuth -> calls !! i = Some tc ->
      AuthorizeCall ctx (tc_ToolName tc) (cf_reg c) = Some err ->
      call_step ctx calls c (finish i (denied_result tc err) (cf_world c) c)
  | step_allow c i tc :
      cf_threads c !! i = Some PAuth -> calls !! i = Some tc ->
      AuthorizeCall ctx (tc_ToolName tc) (cf_reg c) = None ->
      call_step ctx calls c (move i PLookup c)
  | step_missing c i tc :
      cf_threads c !! i = Some PLookup -> calls !! i = Some tc ->
      reg_tools (cf_reg c) !! tc_ToolName tc = None ->
      call_step ctx calls c (finish i (missing_result tc) (cf_world c) c)
  | step_found c i tc t :
      cf_threads c !! i = Some PLookup -> calls !! i = Some tc ->
      reg_tools (cf_reg c) !! tc_ToolName tc = Some t ->
      call_step ctx calls c (move i (PExec t) c)
  | step_exec c i tc t out err w' :
      cf_threads c !! i = Some (PExec t) -> calls !! i = Some tc ->
      tool_Execute t ctx (tc_args tc) (cf_world c) = (Ret (out, err), w') ->
      call_step ctx calls c (finish i (tool_result tc out err) w' c).

(** Another goroutine registers, grants or revokes, or changes the world. *)
Inductive env_step : config -> config -> Prop :=
  | step_env c r' w' :
      env_step c (mkConfig r' w' (cf_results c) (cf_threads c) (r' :: cf_seen c)).

Definition any_step (ctx : context) (calls : list ToolCallPart) (c c' : config) : Prop :=
  call_step ctx calls c c' \/ env_step c c'.

(** The state when every goroutine has been started. *)
Definition started (calls : list ToolCallPart) r (w : World E) : config :=
  mkConfig r w (replicate (length calls) zero_result) (replicate (length calls) PAuth) [r].

(** [wg.Wait()] returns. *)
Definition all_done (c : config) : Prop := Forall (fun p => p = PDone) (cf_threads c).

(** The goroutine of one call, run without interruption. *)
Definition run_call r (ctx : context) (tc : ToolCallPart) : M E ToolResultPart :=
  match AuthorizeCall ctx (tc_ToolName tc) r with
  | Some err => ret (denied_result tc err)
  | None =>
      match GetTool (tc_ToolName tc) r with
      | None => ret (missing_result tc)
      | Some t =>
          let* (out, err) := tool_Execute t ctx (tc_args tc) in
          ret (tool_result tc out err)
      end
  end.

(** The schedule of [ExecuteConcurrent] in which no goroutine is interrupted. *)
Fixpoint ExecuteInOrder r (ctx : context) (calls : list ToolCallPart) : M E (list ToolResultPart) :=
  match calls with
  | [] => ret []
  | tc :: rest =>
      result <- run_call r ctx tc ;;
      results <- ExecuteInOrder r ctx rest ;;
      ret (result :: results)
  end.
End registry.

Arguments config E : clear implicits.
Arguments phase E : clear implicits.

(** *** The specification of the permissions: a set of (tenant, pattern) *)

Inductive perm_op := Grant (tenant tool : string) | Revoke (tenant tool : string).

Definition perm_apply {E} (r : ConcreteToolRegistry E) (op : perm_op) : ConcreteToolRegistry E :=
  match op with Grant t x => GrantPermission t x r | Revoke t x => RevokePermission t x r end.

Definition perm_spec (s : gset (string * string)) (op : perm_op) : gset (string * string) :=
  match op with Grant t x => {[(t, x)]} ∪ s | Revoke t x => s ∖ {[(t, x)]} end.

Definition granted (ops : list perm_op) : gset (string * string) := foldl perm_spec ∅ ops.

(** A pattern covers a tool: its name, everything, or everything below a prefix
    that ends in a colon. *)
Definition covers (pattern tool : string) : Prop :=
  pattern = tool \/ pattern = "*" \/
  exists p rest, pattern = (p +:+ ":*") /\ tool = (p +:+ ":" +:+ rest).

(** ** tools/sandbox.go *)

(** [context.WithTimeout]: the values are the parent's; the deadline shows only
    in the answers of [ctx.Done()], which the environment gives. *)
Definition WithTimeout (ctx : context) (d : Duration) : context := ctx.

Definition SandboxedTool {E} (base : Tool E) (timeout : Duration) : Tool E :=
  mkTool (tool_Name base) (tool_Description base) (tool_InputSchema base)
    (tool_RequiredPermissions base)
    (fun ctx args =>
       tool_Execute base (if (0 <? timeout)%Z then WithTimeout ctx timeout else ctx) args).

(** The body of [WrapToolRegistry] is a comment. *)
Definition WrapToolRegistry {E} (reg : ConcreteToolRegistry E) (defaultTimeout : Duration) :
    ConcreteToolRegistry E := reg.

(** ** tools/builtins.go *)

Definition EchoTool {E} : Tool E :=
  mkTool "echo" "Echoes the input message back to the caller."
    (mkToolInputSchema "object"
       [("message", [("type", AString "string"); ("description", AString "The message to echo")])]
       ["message"])
    []
    (fun _ args =>
       match as_string (alookup "message" args) with
       | Some msg => ret (msg, None)
       | None => ret ("", Some (ErrNew "missing or non-string 'message' argument"))
       end).

(** [%T] of a dynamic value. *)
Definition type_name (v : any) : string :=
  match v with
  | ANil => "<nil>"
  | ABool _ => "bool"
  | AInt _ => "int"
  | AFloat _ => "float64"
  | AString _ | ATimeText _ => "string"
  | AList _ => "[]interface {}"
  | AStrings _ => "[]string"
  | AMap _ => "map[string]interface {}"
  | AToolCall _ _ _ => "*core.ToolCallPart"
  | APlan _ => "*planner.Plan"
  | ATools _ => "[]interfaces.Tool"
  | AUsage _ _ => "engine.usage"
  | AOther ty => ty
  end.

(** The duration the argument [ms] asks for. *)
Definition sleep_duration (args : amap) : Duration + error :=
  match alookup "ms" args with
  | None => inr (ErrNew "missing 'ms' argument")
  | Some (AFloat v) => inl (int64 (int_of_float v * Millisecond))
  | Some (AInt v) => inl (int64 (v * Millisecond))
  | Some v => inr (ErrNew ("'ms' must be a number, got " +:+ type_name v))
  end.

Definition SleepTool {E} (Duration_String : Duration -> string) : Tool E :=
  mkTool "sleep" "Sleeps for the given number of milliseconds."
    (mkToolInputSchema "object"
       [("ms", [("type", AString "integer"); ("description", AString "Milliseconds to sleep")])] ["ms"])
    []
    (fun ctx args =>
       match sleep_duration args with
       | inr err => ret ("", Some err)
       | inl dur =>
           done <- wait ctx dur ;;
           match done with
           | None => ret ("slept " +:+ Duration_String dur, None)
           | Some err => ret ("", Some err)
           end
       end).

(** ** tools/search_memory.go *)

Section search.
Context {E : Type} (store : MemoryStore E) (json_text : option json -> string) (pj : nat -> option json).

(** What one part adds to the answer; a tool part without its pointer panics. *)
Definition part_text (part : Part) : M E string :=
  if bool_decide (part_Type part = PartTypeText) then ret (part_Text part +:+ lf)
  else if bool_decide (part_Type part = PartTypeToolCall) then
    c <- deref (part_ToolCall part) ;;
    ret ("[ToolCall " +:+ tc_ToolName c +:+ "]: " +:+ json_text (marshal_Arguments pj (tc_Arguments c)) +:+ lf)
  else if bool_decide (part_Type part = PartTypeToolResult) then
    r <- deref (part_ToolResult part) ;;
    ret ("[ToolResult]: " +:+ tr_Result r +:+ lf)
  else ret "".

Fixpoint parts_text (parts : list Part) : M E string :=
  match parts with
  | [] => ret ""
  | p :: ps => s <- part_text p ;; rest <- parts_text ps ;; ret (s +:+ rest)
  end.

Fixpoint matches_text (i : Z) (messages : list Message) : M E string :=
  match messages with
  | [] => ret ""
  | msg :: rest =>
      body <- parts_text (msg_Parts msg) ;;
      others <- matches_text (i + 1) rest ;;
      ret ("--- Match " +:+ itoa (i + 1) +:+ " (Role: " +:+ msg_Role msg +:+ ") ---" +:+ lf +:+ body
           +:+ others)
  end.

Definition session_of (ctx : context) : option string :=
  as_string (ctx_Value ctx (KContextKey "session_id")).

Definition SearchMemory_Execute (ctx : context) (args : amap) : M E (string * option error) :=
  match as_string (alookup "query" args) with
  | None | Some "" => ret ("", Some (ErrNew "missing or empty 'query' argument"))
  | Some query =>
      match session_of ctx with
      | None | Some "" =>
          ret ("", Some (ErrNew "session_id not found in execution context; tool must be run within an engine session"))
      | Some sessionID =>
          let* (messages, err) := ms_Search store ctx sessionID query 5 in
          match err with
          | Some e => ret ("", Some (ErrWrap ("failed to perform vector search: " +:+ Error e) e))
          | None =>
              match messages with
              | [] => ret ("No highly relevant historical records found for your query.", None)
              | _ =>
                  body <- matches_text 0 messages ;;
                  ret ("Found the following historical context:" +:+ lf +:+ lf +:+ body, None)
              end
          end
      end
  end.

Definition SearchMemoryTool : Tool E :=
  mkTool "search_memory"
    "Searches the historical conversation context for semantically matching messages using vector embeddings. Use this when the user asks about something discussed previously that is no longer in the immediate context window. Query should be a full sentence describing the expected information."
    (mkToolInputSchema "object"
       [("query", [("type", AString "string");
                   ("description", AString "The search phrase to vector embed and lookup. Please be descriptive and semantic.")])]
       ["query"])
    [] SearchMemory_Execute.
End search.

(** ** Lemmas: permissions *)

(** The tables hold exactly the granted pairs, and only the value [true]. *)
Record perm_rep {E} (r : ConcreteToolRegistry E) (s : gset (string * string)) : Prop := {
  pr_some : forall t x, (t, x) ∈ s <->
    exists m, reg_permissions r !! t = Some m /\ m !! x = Some true;
  pr_true : forall t m x b, reg_permissions r !! t = Some m -> m !! x = Some b -> b = true;
}.

Section perm_lemmas.
Context {E : Type}.
Implicit Types r : ConcreteToolRegistry E.

Lemma perm_rep_new tools : perm_rep (E := E) (mkRegistry tools ∅) ∅.
Proof. split; simpl; intros; rewrite lookup_empty in *; set_solver. Qed.

Lemma perm_rep_grant r s t x : perm_rep r s -> perm_rep (GrantPermission t x r) ({[(t, x)]} ∪ s).
Proof.
  intros [H1 H2]. split; simpl.
  - intros t' x'. rewrite elem_of_union, elem_of_singleton, H1.
    destruct (decide (t = t')) as [<-|Ht]; [rewrite lookup_insert_eq | rewrite lookup_insert_ne by done].
    + destruct (decide (x = x')) as [<-|Hx].
      * split; [intros _ | by left]. eexists. split; [done | apply lookup_insert_eq].
      * split.
        -- intros [?|(m & Hm & Hx')]; [simplify_eq|]. eexists. split; [done|].
           by rewrite lookup_insert_ne, Hm.
        -- intros (m & Hm & Hx'). simplify_eq. rewrite lookup_insert_ne in Hx' by done. right.
           destruct (reg_permissions r !! t) as [m|]; simpl in Hx'; [eauto|]. by rewrite lookup_empty in Hx'.
    + naive_solver.
  - intros t' m x' b Hm Hx. destruct (decide (t = t')) as [<-|Ht].
    + rewrite lookup_insert_eq in Hm. simplify_eq. destruct (decide (x = x')) as [<-|Hne].
      * rewrite lookup_insert_eq in Hx. by simplify_eq.
      * rewrite lookup_insert_ne in Hx by done. destruct (reg_permissions r !! t) eqn:Hr; simpl in Hx;
          [by eapply H2 | by rewrite lookup_empty in Hx].
    + rewrite lookup_insert_ne in Hm by done. by eapply H2.
Qed.

Lemma perm_rep_revoke r s t x : perm_rep r s -> perm_rep (RevokePermission t x r) (s ∖ {[(t, x)]}).
Proof.
  intros [H1 H2]. unfold RevokePermission. destruct (reg_permissions r !! t) as [m0|] eqn:Hr.
  2: { split; [|done]. intros t' x'. rewrite elem_of_difference, elem_of_singleton, H1.
       split; [naive_solver|]. intros (m & Hm & Hx). split; [eauto|]. intros ?. simplify_eq. }
  split; simpl.
  - intros t' x'. rewrite elem_of_difference, elem_of_singleton, H1.
    destruct (decide (t = t')) as [<-|Ht]; [rewrite lookup_insert_eq | rewrite lookup_insert_ne by done].
    + rewrite Hr. destruct (decide (x = x')) as [<-|Hx].
      * split; [naive_solver|]. intros (m & Hm & Hx'). simplify_eq. by rewrite lookup_delete_eq in Hx'.
      * split.
        -- intros [(m & Hm & Hx') _]. simplify_eq. eexists. split; [done|]. by rewrite lookup_delete_ne.
        -- intros (m & Hm & Hx'). simplify_eq. rewrite lookup_delete_ne in Hx' by done. naive_solver.
    + naive_solver.
  - intros t' m x' b Hm Hx. destruct (decide (t = t')) as [<-|Ht].
    + rewrite lookup_insert_eq in Hm. simplify_eq. apply lookup_delete_Some in Hx as [_ Hx]. by eapply H2.
    + rewrite lookup_insert_ne in Hm by done. by eapply H2.
Qed.

Lemma perm_rep_run ops r s :
  perm_rep r s -> perm_rep (foldl perm_apply r ops) (foldl perm_spec s ops).
Proof.
  revert r s. induction ops as [|op ops IH]; intros r s Hrep; simpl; [done|]. apply IH.
  destruct op; [by apply perm_rep_grant | by apply perm_rep_revoke].
Qed.
End perm_lemmas.

Lemma trim_star p : trim_suffix (p +:+ ":*") "*" = (p +:+ ":").
Proof.
  replace (p +:+ ":*") with ((p +:+ ":") +:+ "*") by (by rewrite append_assoc).
  apply trim_suffix_append.
Qed.

Lemma wildcard_allows_iff tool pattern :
  wildcard_allows tool pattern = true <->
  exists p rest, pattern = (p +:+ ":*") /\ tool = (p +:+ ":" +:+ rest).
Proof.
  unfold wildcard_allows. rewrite andb_true_iff, has_suffix_iff. split.
  - intros [[p ->] Hp]. rewrite trim_star, has_prefix_iff in Hp. destruct Hp as [rest ->].
    exists p, rest. by rewrite append_assoc.
  - intros (p & rest & -> & ->). split; [by exists p|]. rewrite trim_star, has_prefix_iff.
    exists rest. by rewrite append_assoc.
Qed.

Lemma authorize_iff {E} (r : ConcreteToolRegistry E) s ctx tool :
  perm_rep r s ->
  AuthorizeCall ctx tool r = None <->
  tenant_of ctx = "" \/ exists p, (tenant_of ctx, p) ∈ s /\ covers p tool.
Proof.
  intros [H1 H2]. unfold AuthorizeCall. case_bool_decide as Ht; [naive_solver|].
  destruct (reg_permissions r !! tenant_of ctx) as [m|] eqn:Hm.
  2: { split; [done|]. intros [?|(p & Hp & _)]; [done|]. apply H1 in Hp. naive_solver. }
  assert (Hin : forall x, default false (m !! x) = true <-> (tenant_of ctx, x) ∈ s).
  { intros x. rewrite H1, Hm. destruct (m !! x) as [[]|] eqn:Hx; simpl; naive_solver. }
  assert (Hex : existsb (wildcard_allows tool) (map_to_list m).*1 = true <->
    exists p, (tenant_of ctx, p) ∈ s /\ wildcard_allows tool p = true).
  { rewrite existsb_exists. split.
    - intros (p & Hp & Hw). exists p. split; [|done]. apply list_elem_of_In, list_elem_of_fmap in Hp.
      destruct Hp as ([k b] & -> & Hk%elem_of_map_to_list). apply H1. exists m. split; [done|].
      by rewrite (H2 _ _ _ _ Hm Hk) in Hk.
    - intros (p & Hp & Hw). exists p. split; [|done]. apply list_elem_of_In, list_elem_of_fmap.
      apply H1 in Hp as (m' & Hm' & Hp). simplify_eq. exists (p, true). split; [done|].
      by apply elem_of_map_to_list. }
  destruct (default false (m !! tool)) eqn:E1.
  { split; [|done]. intros _. right. exists tool. rewrite <- Hin. split; [done | by left]. }
  destruct (default false (m !! "*")) eqn:E2.
  { split; [|done]. intros _. right. exists "*". rewrite <- Hin. split; [done | by right; left]. }
  destruct (existsb _ _) eqn:E3.
  - split; [|done]. intros _. right. destruct (proj1 Hex eq_refl) as (p & Hp & Hw).
    exists p. split; [done|]. right; right. by apply wildcard_allows_iff.
  - split; [done|]. intros [?|(p & Hp & Hc)]; [done|]. exfalso. destruct Hc as [->|[->|Hc]].
    + apply Hin in Hp. congruence.
    + apply Hin in Hp. congruence.
    + apply wildcard_allows_iff in Hc. enough (false = true) by done. apply Hex. eauto.
Qed.

(** ** Lemmas: concurrent dispatch *)

Section dispatch.
Context {E : Type} (ctx : context) (calls : list ToolCallPart).
Implicit Types (c : config E) (seen : list (ConcreteToolRegistry E)).

Definition authorized seen (tc : ToolCallPart) : Prop :=
  exists r, r ∈ seen /\ AuthorizeCall ctx (tc_ToolName tc) r = None.

Definition found seen (tc : ToolCallPart) (t : Tool E) : Prop :=
  exists r, r ∈ seen /\ reg_tools r !! tc_ToolName tc = Some t.

(** A result of the call [tc] that the registries of [seen] explain. *)
Inductive justified seen (tc : ToolCallPart) : ToolResultPart -> Prop :=
  | just_denied r err :
      r ∈ seen -> AuthorizeCall ctx (tc_ToolName tc) r = Some err ->
      justified seen tc (denied_result tc err)
  | just_missing r :
      authorized seen tc -> r ∈ seen -> reg_tools r !! tc_ToolName tc = None ->
      justified seen tc (missing_result tc)
  | just_executed t w w' out err :
      authorized seen tc -> found seen tc t ->
      tool_Execute t ctx (tc_args tc) w = (Ret (out, err), w') ->
      justified seen tc (tool_result tc out err).

Lemma justified_mono seen seen' tc x : seen ⊆ seen' -> justified seen tc x -> justified seen' tc x.
Proof.
  intros Hs [r err Hr Ha|r Ha Hr Hm|t w w' out err Ha Hf He].
  - by apply (just_denied _ _ r); [apply Hs|].
  - apply (just_missing _ _ r); [|by apply Hs|done]. destruct Ha as (r' & ? & ?). exists r'. auto.
  - apply (just_executed _ _ t w w'); [| |done].
    + destruct Ha as (r' & ? & ?). exists r'. auto.
    + destruct Hf as (r' & ? & ?). exists r'. auto.
Qed.

(** What is known of the goroutine of the call [tc]. *)
Definition thread_inv seen (tc : ToolCallPart) (p : phase E) (x : ToolResultPart) : Prop :=
  match p with
  | PAuth => True
  | PLookup => authorized seen tc
  | PExec t => authorized seen tc /\ found seen tc t
  | PDone => justified seen tc x
  end.

Lemma thread_inv_mono seen seen' tc p x :
  seen ⊆ seen' -> thread_inv seen tc p x -> thread_inv seen' tc p x.
Proof.
  intros Hs. destruct p; simpl; [done| | |by apply justified_mono].
  - intros (r & ? & ?). exists r. auto.
  - intros [(r & ? & ?) (r' & ? & ?)]. split; [exists r | exists r']; auto.
Qed.

Record dispatch_inv c : Prop := {
  di_results : length (cf_results c) = length calls;
  di_threads : length (cf_threads c) = length calls;
  di_reg : cf_reg c ∈ cf_seen c;
  di_thread : forall i tc p x, calls !! i = Some tc -> cf_threads c !! i = Some p ->
    cf_results c !! i = Some x -> thread_inv (cf_seen c) tc p x;
}.

Lemma dispatch_inv_started r w : dispatch_inv (started calls r w).
Proof.
  split; simpl; rewrite ?length_replicate; try done; [by left|].
  intros i tc p x _ Hp _. apply lookup_replicate in Hp as [-> _]. done.
Qed.

(** One goroutine writes its own slot and moves. *)
Lemma dispatch_inv_update c i tc p x w :
  dispatch_inv c -> calls !! i = Some tc -> thread_inv (cf_seen c) tc p x ->
  (p = PDone \/ cf_results c !! i = Some x) ->
  dispatch_inv (mkConfig (cf_reg c) w (<[i := x]> (cf_results c)) (<[i := p]> (cf_threads c)) (cf_seen c)).
Proof.
  intros [H1 H2 H3 H4] Hi Ht _. split; simpl; rewrite ?length_insert; try done.
  intros j tc' p' x' Hj Hp Hx. destruct (decide (i = j)) as [<-|Hne].
  - rewrite list_lookup_insert_eq in Hp by (rewrite H2; by eapply lookup_lt_Some).
    rewrite list_lookup_insert_eq in Hx by (rewrite H1; by eapply lookup_lt_Some).
    by simplify_eq.
  - rewrite list_lookup_insert_ne in Hp by done. rewrite list_lookup_insert_ne in Hx by done.
    by eapply H4.
Qed.

Lemma dispatch_inv_move c i tc p :
  dispatch_inv c -> calls !! i = Some tc -> (forall x, thread_inv (cf_seen c) tc p x) ->
  dispatch_inv (move i p c).
Proof.
  intros Hinv Hi Ht. destruct (lookup_lt_is_Some_2 (cf_results c) i) as [x Hx].
  { rewrite (di_results _ Hinv). by eapply lookup_lt_Some. }
  pose proof (dispatch_inv_update c i tc p x (cf_world c) Hinv Hi (Ht x) (or_intror Hx)) as H.
  unfold move. by rewrite (list_insert_id (cf_results c) i x Hx) in H.
Qed.

Lemma dispatch_inv_step c c' : dispatch_inv c -> any_step ctx calls c c' -> dispatch_inv c'.
Proof.
  intros Hinv [Hstep|Henv].
  2: { destruct Henv as [c r' w']. destruct Hinv as [H1 H2 H3 H4]. split; simpl; try done; [by left|].
       intros i tc p x Hi Hp Hx. eapply thread_inv_mono; [|by eapply H4]. intros ? ?. by right. }
  assert (Hk : forall i tc p, calls !! i = Some tc -> cf_threads c !! i = Some p ->
    exists x, thread_inv (cf_seen c) tc p x).
  { intros i tc p Hi Hp. destruct (lookup_lt_is_Some_2 (cf_results c) i) as [x Hx].
    { rewrite (di_results _ Hinv). by eapply lookup_lt_Some. }
    exists x. by eapply (di_thread _ Hinv). }
  pose proof (di_reg _ Hinv) as Hr. destruct Hstep as [c i tc err Hp Hi Ha|c i tc Hp Hi Ha|c i tc Hp Hi Ht|
    c i tc t Hp Hi Ht|c i tc t out err w' Hp Hi He]; destruct (Hk i tc _ Hi Hp) as [x0 Hx0]; simpl in Hx0.
  - eapply dispatch_inv_update; [done|done| |by left]. by eapply just_denied.
  - eapply dispatch_inv_move; [done..|]. intros x. by exists (cf_reg c).
  - eapply dispatch_inv_update; [done|done| |by left]. by eapply just_missing.
  - eapply dispatch_inv_move; [done..|]. intros x. split; [done|]. by exists (cf_reg c).
  - eapply dispatch_inv_update; [done|done| |by left]. destruct Hx0. by eapply just_executed.
Qed.

Lemma dispatch_inv_reach r w c :
  rtc (any_step ctx calls) (started calls r w) c -> dispatch_inv c.
Proof.
  revert c. apply (rtc_ind_r (R := any_step ctx calls) dispatch_inv (started calls r w)).
  - apply dispatch_inv_started.
  - intros y z _ Hstep Hy. by eapply dispatch_inv_step.
Qed.

(** Steps a goroutine still has to make. *)
Definition rank (p : phase E) : nat :=
  match p with PAuth => 3 | PLookup => 2 | PExec _ => 1 | PDone => 0 end.

Definition work c : nat := sum_list_with rank (cf_threads c).

Lemma work_insert (ps : list (phase E)) i p p' :
  ps !! i = Some p -> rank p' < rank p ->
  sum_list_with rank (<[i := p']> ps) < sum_list_with rank ps.
Proof.
  revert i. induction ps as [|q ps IH]; intros [|i] Hi Hlt; simplify_eq/=; [lia|].
  specialize (IH i Hi Hlt). lia.
Qed.

Lemma call_step_work c c' : call_step ctx calls c c' -> work c' < work c.
Proof. intros []; unfold work; simpl; (eapply work_insert; [done | simpl; lia]). Qed.

Lemma call_step_nsteps n c c' : nsteps (call_step ctx calls) n c c' -> n + work c' <= work c.
Proof.
  induction 1 as [|n c1 c2 c3 Hstep _ IH]; [lia|]. apply call_step_work in Hstep. lia.
Qed.

Lemma work_started r w : work (started calls r w) = 3 * length calls.
Proof. unfold work. simpl. generalize (length calls) as k. induction k; simpl; lia. Qed.

Lemma call_step_seen c c' : call_step ctx calls c c' -> cf_seen c' = cf_seen c /\ cf_reg c' = cf_reg c.
Proof. by intros []. Qed.
End dispatch.

(** ** Lemmas: the schedule in order *)

Section in_order.
Context {E : Type}.
Implicit Types w : World E.

(** The moment when the first calls are done and the others have not started. *)
Definition halfway (r : ConcreteToolRegistry E) w (results : list ToolResultPart) (left : nat) : config E :=
  mkConfig r w (results ++ replicate left zero_result)
    (replicate (length results) PDone ++ replicate left PAuth) [r].

Lemma insert_middle {A} (l k : list A) x y : <[length l := x]> (l ++ y :: k) = l ++ x :: k.
Proof. rewrite insert_app_r_alt by lia. by rewrite Nat.sub_diag. Qed.

(** The goroutine of the first call that has not started, at a phase. *)
Definition at_phase (r : ConcreteToolRegistry E) w results (p : phase E) (left : nat) : config E :=
  mkConfig r w (results ++ zero_result :: replicate left zero_result)
    (replicate (length results) PDone ++ p :: replicate left PAuth) [r].

Lemma at_phase_lookup r w results p left :
  cf_threads (at_phase r w results p left) !! length results = Some p.
Proof. apply list_lookup_middle. by rewrite length_replicate. Qed.

Lemma move_at_phase r w results p p' left :
  move (length results) p' (at_phase r w results p left) = at_phase r w results p' left.
Proof.
  unfold move, at_phase. cbn [cf_reg cf_world cf_results cf_threads cf_seen]. f_equal.
  rewrite <- (length_replicate (length results) (PDone (E := E))) at 1. apply insert_middle.
Qed.

Lemma finish_at_phase r w w' results p x left :
  finish (length results) x w' (at_phase r w results p left) = halfway r w' (results ++ [x]) left.
Proof.
  unfold finish, at_phase, halfway. cbn [cf_reg cf_world cf_results cf_threads cf_seen].
  rewrite insert_middle, length_app, <- app_assoc. cbn [length app]. f_equal.
  rewrite <- (length_replicate (length results) (PDone (E := E))) at 1. rewrite insert_middle.
  rewrite Nat.add_1_r. cbn [replicate app]. by rewrite app_comm_cons, replicate_cons_app, <- app_assoc.
Qed.

(** One call: authorization, lookup, execution. *)
Lemma run_one_call ctx done tc rest r w results x w' :
  length results = length done -> run_call r ctx tc w = (Ret x, w') ->
  rtc (call_step ctx (done ++ tc :: rest)) (halfway r w results (S (length rest)))
    (halfway r w' (results ++ [x]) (length rest)).
Proof.
  intros Hlen Hrun. change (halfway r w results (S (length rest))) with (at_phase r w results PAuth (length rest)).
  assert (Hcall : (done ++ tc :: rest) !! length results = Some tc) by by apply list_lookup_middle.
  unfold run_call in Hrun. destruct (AuthorizeCall ctx (tc_ToolName tc) r) as [err|] eqn:Ha.
  { injection Hrun as <- <-. apply rtc_once. rewrite <- (finish_at_phase _ w _ _ PAuth).
    apply (step_deny _ _ (at_phase r w results PAuth (length rest)) _ tc); [apply at_phase_lookup | done | done]. }
  eapply rtc_l; [eapply (step_allow _ _ _ _ tc); [apply at_phase_lookup | done | done]|].
  rewrite move_at_phase. unfold GetTool in Hrun. destruct (reg_tools r !! tc_ToolName tc) as [t|] eqn:Ht.
  2: { injection Hrun as <- <-. apply rtc_once. rewrite <- (finish_at_phase _ w _ _ PLookup).
       apply (step_missing _ _ (at_phase r w results PLookup (length rest)) _ tc); [apply at_phase_lookup | done | done]. }
  eapply rtc_l; [eapply (step_found _ _ _ _ tc t); [apply at_phase_lookup | done | done]|].
  rewrite move_at_phase. unfold bind in Hrun.
  destruct (tool_Execute t ctx (tc_args tc) w) as [[[out err]|v|] w1] eqn:Hx; [|done|done].
  injection Hrun as <- <-. apply rtc_once. rewrite <- (finish_at_phase _ w _ _ (PExec t)).
  apply (step_exec _ _ (at_phase r w results (PExec t) (length rest)) _ tc t); [apply at_phase_lookup | done | exact Hx].
Qed.

Lemma run_calls ctx calls done prev r w results w' :
  length prev = length done -> ExecuteInOrder r ctx calls w = (Ret results, w') ->
  rtc (call_step ctx (done ++ calls)) (halfway r w prev (length calls)) (halfway r w' (prev ++ results) 0).
Proof.
  revert done prev w results. induction calls as [|tc calls IH]; intros done prev w results Hlen Hrun.
  - injection Hrun as <- <-. rewrite !app_nil_r. reflexivity.
  - cbn [ExecuteInOrder] in Hrun. unfold bind at 1 in Hrun.
    destruct (run_call r ctx tc w) as [[x|v|] w1] eqn:Hx; [|done|done].
    unfold bind in Hrun. destruct (ExecuteInOrder r ctx calls w1) as [[rs|v|] w2] eqn:Hrest; [|done|done].
    injection Hrun as <- <-. etransitivity; [by eapply run_one_call|].
    specialize (IH (done ++ [tc]) (prev ++ [x]) w1 rs). rewrite <- !app_assoc in IH.
    apply IH; [rewrite !length_app; simpl; lia | done].
Qed.

Lemma in_order_is_a_run ctx calls r w results w' :
  ExecuteInOrder r ctx calls w = (Ret results, w') ->
  exists c, rtc (call_step ctx calls) (started calls r w) c /\ all_done c /\
    cf_results c = results /\ cf_world c = w'.
Proof.
  intros Hrun. exists (halfway r w' results 0). split_and!.
  - by apply (run_calls ctx calls [] []).
  - unfold all_done. simpl. rewrite app_nil_r. by apply Forall_replicate.
  - apply app_nil_r.
  - done.
Qed.
End in_order.

(** ** Properties *)

(** C25: the registry decides by the set of granted patterns. After any grants
    and revocations, a call is authorized exactly when the context names no
    tenant, or the tenant still holds a pattern that covers the tool: its name,
    [*], or a prefix [p:*] of it; a revocation takes back that pattern only. *)
Theorem AuthorizeCall_iff {E} (tools : gmap string (Tool E)) (ops : list perm_op) (ctx : context)
    (tool : string) :
  AuthorizeCall ctx tool (foldl perm_apply (mkRegistry tools ∅) ops) = None <->
  tenant_of ctx = "" \/ exists p, (tenant_of ctx, p) ∈ granted ops /\ covers p tool.
Proof. apply authorize_iff, perm_rep_run, perm_rep_new. Qed.

(** C17: the results of a concurrent dispatch are in the order of the calls and
    each is explained by its own call, for every interleaving of the goroutines
    and of other goroutines that change the registry: when all are done there is
    one result per call, at the call's index, and it is a refusal that the
    registry gave, a missing tool, or the outcome of an execution of a tool that
    the registry named after it had authorized the call. *)
Theorem ExecuteConcurrent_results {E} (ctx : context) (calls : list ToolCallPart)
    (r : ConcreteToolRegistry E) (w : World E) (c : config E) :
  rtc (any_step ctx calls) (started calls r w) c -> all_done c ->
  length (cf_results c) = length calls /\
  forall i tc, calls !! i = Some tc ->
    exists x, cf_results c !! i = Some x /\ tr_CallID x = tc_CallID tc /\
      justified ctx (cf_seen c) tc x.
Proof.
  intros Hreach Hdone. pose proof (dispatch_inv_reach _ _ _ _ _ Hreach) as Hinv.
  split; [apply Hinv|]. intros i tc Hi.
  destruct (lookup_lt_is_Some_2 (cf_results c) i) as [x Hx].
  { rewrite (di_results _ _ _ Hinv). by eapply lookup_lt_Some. }
  destruct (lookup_lt_is_Some_2 (cf_threads c) i) as [p Hp].
  { rewrite (di_threads _ _ _ Hinv). by eapply lookup_lt_Some. }
  assert (p = PDone) as -> by (eapply (Forall_lookup_1 _ _ _ _ Hdone); exact Hp).
  pose proof (di_thread _ _ _ Hinv i tc PDone x Hi Hp Hx) as Hj. exists x. split_and!; [done| |done].
  by destruct Hj as [| |? ? ? ? []].
Qed.

(** C16: the dispatch cannot hang: with tools that return, from every reachable
    moment either all goroutines are done - so that the wait ends - or one of
    them can move, and they make at most three moves per call altogether. *)
Theorem ExecuteConcurrent_terminates {E} (ctx : context) (calls : list ToolCallPart)
    (r : ConcreteToolRegistry E) (w : World E) (n : nat) (c : config E) :
  (forall name t args w, reg_tools r !! name = Some t ->
     exists out err w', tool_Execute t ctx args w = (Ret (out, err), w')) ->
  nsteps (call_step ctx calls) n (started calls r w) c ->
  n <= 3 * length calls /\ (all_done c \/ exists c', call_step ctx calls c c').
Proof.
  intros Htools Hn. split.
  { apply call_step_nsteps in Hn. rewrite work_started in Hn. lia. }
  assert (Hreach : rtc (call_step ctx calls) (started calls r w) c) by by eapply rtc_nsteps_2.
  assert (Hsame : cf_reg c = r /\ cf_seen c = [r]).
  { clear Hn. revert c Hreach.
    apply (rtc_ind_r (R := call_step ctx calls) (fun c => cf_reg c = r /\ cf_seen c = [r])
             (started calls r w)); [done|].
    intros y z _ Hs [? ?]. by destruct (call_step_seen _ _ _ _ Hs) as [-> ->]. }
  assert (Hinv : dispatch_inv ctx calls c).
  { eapply (dispatch_inv_reach _ _ r w). eapply rtc_subrel; [|exact Hreach]. by left. }
  destruct Hsame as [Hreg Hseen]. unfold all_done.
  destruct (decide (Exists (fun p => rank p <> 0) (cf_threads c))) as [Hex|Hall].
  - right. apply Exists_exists in Hex as (p & Hp & Hrank). apply list_elem_of_lookup in Hp as [i Hp].
    destruct (lookup_lt_is_Some_2 calls i) as [tc Hi].
    { rewrite <- (di_threads _ _ _ Hinv). by eapply lookup_lt_Some. }
    destruct (lookup_lt_is_Some_2 (cf_results c) i) as [x Hx].
    { rewrite (di_results _ _ _ Hinv). by eapply lookup_lt_Some. }
    pose proof (di_thread _ _ _ Hinv i tc p x Hi Hp Hx) as Ht. destruct p as [| |t|]; [| | |done].
    + destruct (AuthorizeCall ctx (tc_ToolName tc) (cf_reg c)) eqn:Ha; eexists;
        [by eapply step_deny | by eapply step_allow].
    + destruct (reg_tools (cf_reg c) !! tc_ToolName tc) eqn:Ht2; eexists;
        [by eapply step_found | by eapply step_missing].
    + destruct Ht as [_ (r' & Hr' & Hlk)]. rewrite Hseen in Hr'.
      apply list_elem_of_singleton in Hr' as ->.
      destruct (Htools _ _ (tc_args tc) (cf_world c) Hlk) as (out & err & w' & He).
      eexists. by eapply step_exec.
  - left. apply not_Exists_Forall in Hall; [|apply _]. eapply Forall_impl; [exact Hall|].
    intros []; simpl; intros Hc; try done; exfalso; by apply Hc.
Qed.

(** ** Witnesses *)

Definition demo_registry : ConcreteToolRegistry unit :=
  GrantPermission "acme" "filesystem:*" (Register EchoTool [] NewConcreteToolRegistry).1.

Definition demo_calls : list ToolCallPart :=
  [mkToolCallPart "c1" "echo" (Some [("message", AString "hello")]);
   mkToolCallPart "c2" "filesystem:read" (Some [])].

Definition acme : context := [(KString "tenantID", AString "acme")].

Definition unit_world : World unit := mkWorld [] demo_oracle tt.

(** Both calls ran: the first was refused, the second found no tool. *)
Definition demo_finished : config unit :=
  mkConfig demo_registry unit_world
    [denied_result (mkToolCallPart "c1" "echo" (Some [("message", AString "hello")]))
       (ErrNew "tenant acme is not authorized to call tool echo");
     missing_result (mkToolCallPart "c2" "filesystem:read" (Some []))]
    [PDone; PDone] [demo_registry].

Lemma ExecuteConcurrent_results_witness :
  rtc (any_step acme demo_calls) (started demo_calls demo_registry unit_world) demo_finished /\
  all_done demo_finished /\
  length (cf_results demo_finished) = length demo_calls /\
  forall i tc, demo_calls !! i = Some tc ->
    exists x, cf_results demo_finished !! i = Some x /\ tr_CallID x = tc_CallID tc /\
      justified acme (cf_seen demo_finished) tc x.
Proof.
  assert (Hr : rtc (any_step acme demo_calls) (started demo_calls demo_registry unit_world) demo_finished).
  { eapply rtc_l; [left; apply (step_allow _ _ _ 1 (mkToolCallPart "c2" "filesystem:read" (Some []))); reflexivity|].
    eapply rtc_l; [left; apply (step_deny _ _ _ 0 (mkToolCallPart "c1" "echo" (Some [("message", AString "hello")]))
      (ErrNew "tenant acme is not authorized to call tool echo")); reflexivity|].
    eapply rtc_l; [left; apply (step_missing _ _ _ 1 (mkToolCallPart "c2" "filesystem:read" (Some []))); reflexivity|].
    apply rtc_refl. }
  assert (Hd : all_done demo_finished) by (repeat constructor).
  split; [exact Hr|]. split; [exact Hd|].
  apply (ExecuteConcurrent_results acme demo_calls demo_registry unit_world demo_finished Hr Hd).
Defined.

(** The second call was allowed, then the first refused. *)
Definition demo_half : config unit :=
  mkConfig demo_registry unit_world
    [denied_result (mkToolCallPart "c1" "echo" (Some [("message", AString "hello")]))
       (ErrNew "tenant acme is not authorized to call tool echo"); zero_result]
    [PDone; PLookup] [demo_registry].

Lemma ExecuteConcurrent_terminates_witness :
  nsteps (call_step acme demo_calls) 2 (started demo_calls demo_registry unit_world) demo_half /\
  2 <= 3 * length demo_calls /\
  (all_done demo_half \/ exists c', call_step acme demo_calls demo_half c').
Proof.
  assert (Hn : nsteps (call_step acme demo_calls) 2 (started demo_calls demo_registry unit_world) demo_half).
  { eapply nsteps_l; [apply (step_allow _ _ _ 1 (mkToolCallPart "c2" "filesystem:read" (Some []))); reflexivity|].
    eapply nsteps_l; [apply (step_deny _ _ _ 0 (mkToolCallPart "c1" "echo" (Some [("message", AString "hello")]))
      (ErrNew "tenant acme is not authorized to call tool echo")); reflexivity|].
    apply nsteps_O. }
  split; [exact Hn|].
  apply (ExecuteConcurrent_terminates acme demo_calls demo_registry unit_world 2 demo_half); [|exact Hn].
  intros name t args w Ht. change ((<["echo" := EchoTool]> (∅ : gmap string (Tool unit))) !! name = Some t) in Ht.
  apply lookup_insert_Some in Ht as [[_ <-]|[_ Ht]]; [|by rewrite lookup_empty in Ht].
  simpl. destruct (as_string (alookup "message" args)); eauto.
Defined.
