(* ===== verification/Deadlines.v ===== *)
(** * Tools in time: tools/sandbox.go, builtins.go and the dispatch of registry.go

    [Tools] leaves it to the environment when a context is done. Here instants
    are nanoseconds: a context carries the instant at which it is done, a timer
    fires after its duration, and a tool answers at some instant, or never. Where a
    timer and a context are due at the same instant the runtime chooses. [times]
    ties the behaviour of a tool in time to its computation in [Tools]. The loop of
    the dispatch, its goroutines and the wait group are the steps of [timed_step];
    time passes while all of them wait, or while the scheduler keeps one of them
    waiting, which [td_late] counts. *)

From S2P Require Import Prelude GoLang Core World Interfaces Memory Tools.
From stdpp Require Import base gmap strings list.

#[local] Open Scope go_scope.

(** [context.DeadlineExceeded]. *)
Definition DeadlineExceeded : error := ErrNew "context deadline exceeded".

(** A context: its values, and the instant at which it is done with its [Err()]. *)
Record timed_context := mkTimedContext { tctx_values : context; tctx_done : option (Z * error) }.

(** [context.WithTimeout(ctx, d)] at [now]: what comes first of the two. *)
Definition timeout_at (now : Z) (ctx : timed_context) (d : Duration) : timed_context :=
  mkTimedContext (WithTimeout (tctx_values ctx) d)
    (Some (match tctx_done ctx with
           | Some (t, err) => if (t <=? now + d)%Z then (t, err) else (now + d, DeadlineExceeded)%Z
           | None => (now + d, DeadlineExceeded)%Z
           end)).

(** A call of [Execute] with a context, arguments and a choice of the runtime, at
    an instant: when it answers and what, or nothing when it never does. *)
Definition timed_tool : Type := timed_context -> amap -> bool -> Z -> option (Z * (string * option error)).

(** [select { case <-time.After(d): case <-ctx.Done(): }] at [now]: nothing for the
    timer, the error of the context otherwise. *)
Definition select_timer (ctx : timed_context) (d : Duration) (choice : bool) (now : Z) : Z * option error :=
  let fires := (now + Z.max 0 d)%Z in
  match tctx_done ctx with
  | None => (fires, None)
  | Some (t, err) =>
      let done := Z.max now t in
      if (fires <? done)%Z then (fires, None)
      else if (done <? fires)%Z then (done, Some err)
      else (fires, if choice then None else Some err)
  end.

Definition timed_Echo : timed_tool := fun _ args _ now =>
  Some (now, match as_string (alookup "message" args) with
             | Some msg => (msg, None)
             | None => ("", Some (ErrNew "missing or non-string 'message' argument"))
             end).

Definition timed_Sleep (Duration_String : Duration -> string) : timed_tool := fun ctx args choice now =>
  match sleep_duration args with
  | inr err => Some (now, ("", Some err))
  | inl dur =>
      let (t, done) := select_timer ctx dur choice now in
      Some (t, match done with
               | None => ("slept " +:+ Duration_String dur, None)
               | Some err => ("", Some err)
               end)
  end.

Definition timed_Sandbox (base : timed_tool) (timeout : Duration) : timed_tool := fun ctx args choice now =>
  base (if (0 <? timeout)%Z then timeout_at now ctx timeout else ctx) args choice now.

Section dispatch.
Context {E : Type} (timing : string -> timed_tool) (r : ConcreteToolRegistry E).

(** The goroutine of one call, begun at [now]; its child context is done when the
    parent is. *)
Definition timed_call (ctx : timed_context) (choice : bool) (now : Z) (tc : ToolCallPart) :
    option (Z * ToolResultPart) :=
  match AuthorizeCall (tctx_values ctx) (tc_ToolName tc) r with
  | Some err => Some (now, denied_result tc err)
  | None =>
      match GetTool (tc_ToolName tc) r with
      | None => Some (now, missing_result tc)
      | Some _ =>
          match timing (tc_ToolName tc) ctx (tc_args tc) choice now with
          | Some (t, (out, err)) => Some (t, tool_result tc out err)
          | None => None
          end
      end
  end.

(** A goroutine of the dispatch: started, in its call since [begin] - with the
    instant and the result of its answer, if it ever answers -, or done. *)
Inductive timed_phase :=
  | TReady
  | TRunning (begin : Z) (answer : option (Z * ToolResultPart))
  | TDone (begin : Z).

(** The dispatch in time: the clock, the calls the loop has started, the counter of
    the wait group, the goroutines, [results], and the instant of the [return].
    [td_late] is the time that has passed while a goroutine could have run. *)
Record timed_config := mkTimed {
  td_clock : Z;
  td_late : Z;
  td_next : nat;
  td_wg : nat;
  td_threads : list timed_phase;
  td_results : list ToolResultPart;
  td_returned : option Z;
}.

Definition timed_begin (calls : list ToolCallPart) (now : Z) : timed_config :=
  mkTimed now 0 0 0 [] (replicate (length calls) zero_result) None.

Section steps.
Context (ctx : timed_context) (choices : nat -> bool) (calls : list ToolCallPart).

(** What the goroutines do at an instant: the loop adds to the wait group and starts
    a goroutine, a goroutine begins its call, a goroutine whose call has answered
    writes its slot and is done, [wg.Wait()] returns. *)
Inductive quick : timed_config -> timed_config -> Prop :=
  | q_go c : td_next c < length calls ->
      quick c (mkTimed (td_clock c) (td_late c) (S (td_next c)) (S (td_wg c)) (td_threads c ++ [TReady])
        (td_results c) (td_returned c))
  | q_call c i tc : td_threads c !! i = Some TReady -> calls !! i = Some tc ->
      quick c (mkTimed (td_clock c) (td_late c) (td_next c) (td_wg c)
        (<[i := TRunning (td_clock c) (timed_call ctx (choices i) (td_clock c) tc)]> (td_threads c))
        (td_results c) (td_returned c))
  | q_done c i b d x : td_threads c !! i = Some (TRunning b (Some (d, x))) -> (d <= td_clock c)%Z ->
      quick c (mkTimed (td_clock c) (td_late c) (td_next c) (pred (td_wg c)) (<[i := TDone b]> (td_threads c))
        (<[i := x]> (td_results c)) (td_returned c))
  | q_wait c : td_next c = length calls -> td_wg c = 0 -> td_returned c = None ->
      quick c (mkTimed (td_clock c) (td_late c) (td_next c) (td_wg c) (td_threads c) (td_results c)
        (Some (td_clock c))).

(** Time passes: with a goroutine kept waiting by the scheduler, or with all of them
    in their calls, and then no further than to the first that answers. *)
Inductive timed_step : timed_config -> timed_config -> Prop :=
  | t_quick c c' : quick c c' -> timed_step c c'
  | t_late c c1 t : quick c c1 -> (td_clock c < t)%Z ->
      timed_step c (mkTimed t (td_late c + (t - td_clock c)) (td_next c) (td_wg c) (td_threads c) (td_results c)
        (td_returned c))
  | t_idle c t : (forall c', ~ quick c c') -> td_returned c = None -> (td_clock c < t)%Z ->
      (forall i b d x, td_threads c !! i = Some (TRunning b (Some (d, x))) -> (t <= d)%Z) ->
      timed_step c (mkTimed t (td_late c) (td_next c) (td_wg c) (td_threads c) (td_results c) (td_returned c)).
End steps.

(** ** Specifications *)

Definition last_instant (now : Z) (l : list Z) : Z := foldr Z.max now l.

(** The dispatch at its best: all calls begin at [now], and the wait ends with the
    last answer. *)
Definition timed_ExecuteConcurrent (ctx : timed_context) (choices : nat -> bool) (now : Z)
    (calls : list ToolCallPart) : option (Z * list ToolResultPart) :=
  match all_some (imap (fun i tc => timed_call ctx (choices i) now tc) calls) with
  | Some answers => Some (last_instant now answers.*1, answers.*2)
  | None => None
  end.
End dispatch.

(** What a tool may answer in time its computation may answer, in a world whose
    environment says when a context is done. *)
Definition times {E} (t : Tool E) (tm : timed_tool) : Prop :=
  forall ctx args choice now e res (w : World E), tm ctx args choice now = Some (e, res) ->
    exists o w', tool_Execute t (tctx_values ctx) args (set_orc o w) = (Ret res, w').

(** A tool that answers, and no later than its context is done. *)
Definition obeys (tm : timed_tool) : Prop :=
  forall ctx args choice now, exists e res, tm ctx args choice now = Some (e, res) /\ (now <= e)%Z /\
    forall t err, tctx_done ctx = Some (t, err) -> (e <= Z.max now t)%Z.

(** A tool in a sandbox whose timeout is at most [limit]. *)
Inductive sandboxed {E} (limit : Z) : Tool E -> timed_tool -> Prop :=
  | sandboxed_tool t tm d : times t tm -> obeys tm -> (0 < d <= limit)%Z ->
      sandboxed limit (SandboxedTool t d) (timed_Sandbox tm d).

(** The steps that are left to the loop, the goroutines and the wait. *)
Definition phase_work (p : timed_phase) : nat :=
  match p with TReady => 2 | TRunning _ _ => 1 | TDone _ => 0 end.

Definition timed_work (calls : list ToolCallPart) (c : timed_config) : nat :=
  3 * (length calls - td_next c) + sum_list_with phase_work (td_threads c) +
  (match td_returned c with None => 1 | Some _ => 0 end).

(** ** Lemmas *)

Lemma timeout_at_done now ctx d :
  exists t err, tctx_done (timeout_at now ctx d) = Some (t, err) /\ (t <= now + d)%Z /\
    forall t' err', tctx_done ctx = Some (t', err') -> (t <= t')%Z.
Proof.
  unfold timeout_at. cbn [tctx_done]. destruct (tctx_done ctx) as [[t err]|].
  - destruct (Z.leb_spec t (now + d)).
    + exists t, err. split; [done|]. split; [lia|]. intros ? ? [= -> ->]. lia.
    + exists (now + d)%Z, DeadlineExceeded. split; [done|]. split; [lia|]. intros ? ? [= -> ->]. lia.
  - by exists (now + d)%Z, DeadlineExceeded.
Qed.

Lemma select_timer_bounds ctx d choice now t done :
  select_timer ctx d choice now = (t, done) ->
  (now <= t)%Z /\ (t <= now + Z.max 0 d)%Z /\ (done = None -> t = now + Z.max 0 d)%Z /\
  forall t' err, tctx_done ctx = Some (t', err) -> (t <= Z.max now t')%Z.
Proof.
  unfold select_timer. destruct (tctx_done ctx) as [[t0 err0]|]; [|intros [= <- <-]; split_and!; [lia|lia|done|done]].
  destruct (Z.ltb_spec (now + Z.max 0 d) (Z.max now t0)); [|destruct (Z.ltb_spec (Z.max now t0) (now + Z.max 0 d))];
    intros [= <- <-]; split_and!; try lia; try done; intros ? ? [= -> ->]; lia.
Qed.

Lemma obeys_Echo : obeys timed_Echo.
Proof. intros ctx args choice now. eexists _, _. split; [done|]. split; [lia|]. intros. lia. Qed.

Lemma obeys_Sleep Duration_String : obeys (timed_Sleep Duration_String).
Proof.
  intros ctx args choice now. unfold timed_Sleep. destruct (sleep_duration args) as [dur|err].
  - destruct (select_timer ctx dur choice now) as [t done] eqn:Hs.
    destruct (select_timer_bounds _ _ _ _ _ _ Hs) as (Hlo & _ & _ & Hd). by eexists _, _.
  - eexists _, _. split; [done|]. split; [lia|]. intros. lia.
Qed.

Lemma obeys_Sandbox tm d : obeys tm -> obeys (timed_Sandbox tm d).
Proof.
  intros Ho ctx args choice now. unfold timed_Sandbox. destruct (0 <? d)%Z; [|apply Ho].
  destruct (Ho (timeout_at now ctx d) args choice now) as (e & res & He & Hlo & Hd).
  exists e, res. split; [done|]. split; [done|]. intros t err Ht.
  destruct (timeout_at_done now ctx d) as (t1 & err1 & H1 & _ & Hle). specialize (Hd _ _ H1). specialize (Hle _ _ Ht). lia.
Qed.

(** A sandbox with a timeout bounds every tool that obeys its context. *)
Lemma limited_Sandbox tm d ctx args choice now e res : obeys tm -> (0 < d)%Z ->
  timed_Sandbox tm d ctx args choice now = Some (e, res) -> (e <= now + d)%Z.
Proof.
  intros Ho Hd. unfold timed_Sandbox. rewrite (proj2 (Z.ltb_lt _ _) Hd).
  destruct (Ho (timeout_at now ctx d) args choice now) as (e' & res' & -> & _ & Hle).
  intros [= <- <-]. destruct (timeout_at_done now ctx d) as (t1 & err1 & H1 & Ht & _). specialize (Hle _ _ H1). lia.
Qed.

(** A tool that does not look at its context is not stopped by a sandbox. *)
Lemma Sandbox_of_deaf tm d ctx args choice now :
  (forall ctx', tm ctx' args choice now = tm ctx args choice now) ->
  timed_Sandbox tm d ctx args choice now = tm ctx args choice now.
Proof. intros Hdeaf. unfold timed_Sandbox. case_match; [apply Hdeaf | done]. Qed.

(** What a sleep in a sandbox answers: it slept when that is shorter than the
    timeout, and was stopped at the timeout when that is shorter. *)
Lemma sandboxed_sleep Duration_String vs args dur d choice now :
  sleep_duration args = inl dur -> (0 < d)%Z ->
  let ans := timed_Sandbox (timed_Sleep Duration_String) d (mkTimedContext vs None) args choice now in
  ((dur < d)%Z -> ans = Some ((now + Z.max 0 dur)%Z, ("slept " +:+ Duration_String dur, None))) /\
  ((d < dur)%Z -> ans = Some ((now + d)%Z, ("", Some DeadlineExceeded))).
Proof.
  intros Hdur Hd. unfold timed_Sandbox, timed_Sleep. rewrite Hdur, (proj2 (Z.ltb_lt _ _) Hd). unfold select_timer, timeout_at.
  cbn [tctx_done]. split; intros Hlt.
  - rewrite (proj2 (Z.ltb_lt _ _)) by lia. done.
  - rewrite (proj2 (Z.ltb_ge _ _)) by lia. rewrite (proj2 (Z.ltb_lt _ _)) by lia. do 2 f_equal. lia.
Qed.

Section times.
Context {E : Type}.

Lemma times_Echo : times (E := E) EchoTool timed_Echo.
Proof.
  intros ctx args choice now e res w [= _ <-]. exists (w_orc w). unfold EchoTool. cbn.
  destruct (as_string (alookup "message" args)); by eexists.
Qed.

Lemma times_Sleep Duration_String : times (E := E) (SleepTool Duration_String) (timed_Sleep Duration_String).
Proof.
  intros ctx args choice now e res w. unfold timed_Sleep, SleepTool. cbn [tool_Execute].
  destruct (sleep_duration args) as [dur|err]; [|intros [= _ <-]; by eexists (w_orc w), _].
  destruct (select_timer ctx dur choice now) as [t done]. intros [= _ <-].
  exists (mkOracle (fun _ => 0%Z) (fun _ => float_of_Z 0) (fun _ => "") (fun _ => done) 0 []).
  unfold wait, bind, ask. cbn. destruct done; by eexists.
Qed.

Lemma times_Sandbox (t : Tool E) tm d : times t tm -> times (SandboxedTool t d) (timed_Sandbox tm d).
Proof.
  intros Ht ctx args choice now e res w. unfold timed_Sandbox. cbn [SandboxedTool tool_Execute].
  destruct (0 <? d)%Z; intros He; by apply (Ht _ _ _ _ _ _ w) in He.
Qed.
End times.

Lemma last_instant_bounds now l :
  (now <= last_instant now l)%Z /\ (forall t, t ∈ l -> (t <= last_instant now l)%Z) /\
  (last_instant now l = now \/ last_instant now l ∈ l).
Proof.
  induction l as [|t l (IH1 & IH2 & IH3)]; simpl.
  - split_and!; [lia | by intros t Ht%elem_of_nil | by left].
  - split_and!; [lia| |].
    + intros t' [->|Ht]%elem_of_cons; [lia|]. specialize (IH2 _ Ht). lia.
    + destruct (Z.max_spec t (last_instant now l)) as [[_ ->]|[_ ->]]; [|right; left].
      destruct IH3 as [?|?]; [by left | right; by right].
Qed.

Lemma all_some_total {A} (l : list (option A)) : (forall x, x ∈ l -> is_Some x) -> exists xs, all_some l = Some xs.
Proof.
  induction l as [|x l IH]; intros Hl; [by exists []|]. destruct (Hl x) as [a ->]; [left|].
  destruct IH as [xs Hxs]; [intros y Hy; apply Hl; by right|]. exists (a :: xs). simpl. by rewrite Hxs.
Qed.

Lemma all_some_lookup {A} (l : list (option A)) xs i :
  all_some l = Some xs -> l !! i = Some <$> xs !! i.
Proof.
  revert xs i. induction l as [|[x|] l IH]; intros xs i Hxs; simplify_eq/=; [done|].
  destruct (all_some l) as [ys|]; simplify_eq/=. destruct i; [done|]. exact (IH ys i eq_refl).
Qed.

Lemma sum_insert {A} (f : A -> nat) (l : list A) i x y :
  l !! i = Some x -> sum_list_with f (<[i := y]> l) + f x = sum_list_with f l + f y.
Proof. revert i. induction l as [|z l IH]; intros [|i] Hi; simplify_eq/=; [lia|]. specialize (IH i Hi). lia. Qed.

Lemma sum_pos {A} (f : A -> nat) (l : list A) : sum_list_with f l <> 0 -> exists i x, l !! i = Some x /\ f x <> 0.
Proof.
  induction l as [|x l IH]; simpl; [done|]. intros H. destruct (decide (f x = 0)); [|by exists 0, x].
  destruct IH as (i & y & Hi & Hy); [lia|]. by exists (S i), y.
Qed.

Lemma sum_zero {A} (f : A -> nat) (l : list A) i x : sum_list_with f l = 0 -> l !! i = Some x -> f x = 0.
Proof. revert i. induction l as [|y l IH]; intros [|i] H Hi; simplify_eq/=; [lia|]. apply (IH i); [lia | done]. Qed.

(** ** Lemmas: the dispatch in time *)

(** A goroutine that the scheduler could run. *)
Definition can_run (clock : Z) (p : timed_phase) : bool :=
  match p with
  | TReady => true
  | TRunning _ (Some (d, _)) => (d <=? clock)%Z
  | _ => false
  end.

Section in_time.
Context {E : Type} (timing : string -> timed_tool) (r : ConcreteToolRegistry E) (limit now : Z)
  (ctx : timed_context) (choices : nat -> bool) (calls : list ToolCallPart) (w : World E).
Hypothesis Hlimit : (0 <= limit)%Z.
Hypothesis Hboxes : forall name t, GetTool name r = Some t -> sandboxed limit t (timing name).

Abbreviation answers i b tc := (timed_call timing r ctx (choices i) b tc).

Lemma timed_call_ok i b tc :
  exists d x, answers i b tc = Some (d, x) /\ (b <= d <= b + limit)%Z /\
    (forall t err, tctx_done ctx = Some (t, err) -> (d <= Z.max b t)%Z) /\ justified (tctx_values ctx) [r] tc x.
Proof using Hlimit Hboxes w.
  unfold timed_call. destruct (AuthorizeCall (tctx_values ctx) (tc_ToolName tc) r) as [err|] eqn:Ha.
  { eexists _, _. split_and!; [done|lia|lia|intros; lia|]. eapply just_denied; [by left | exact Ha]. }
  assert (Hauth : authorized (tctx_values ctx) [r] tc) by (exists r; split; [by left | exact Ha]).
  destruct (GetTool (tc_ToolName tc) r) as [t|] eqn:Hg.
  - destruct (Hboxes _ _ Hg) as [base tm d Ht Ho Hd].
    destruct (obeys_Sandbox tm d Ho ctx (tc_args tc) (choices i) b) as (e & [out err] & He & Hlo & Hdl).
    rewrite He. pose proof (limited_Sandbox tm d _ _ _ _ _ _ Ho (proj1 Hd) He) as Hl.
    eexists _, _. split_and!; [done | done | lia | done |].
    destruct (times_Sandbox base tm d Ht _ _ _ _ _ _ w He) as (o & w' & Hx).
    eapply just_executed; [done | exists r; split; [by left | exact Hg] | exact Hx].
  - eexists _, _. split_and!; [done|lia|lia|intros; lia|]. by eapply just_missing; [|left|].
Qed.

(** A call that begins on time, but for the delays of the scheduler. *)
Definition begun (late b : Z) : Prop := (now <= b <= now + late)%Z.

Definition thread_ok (clock late : Z) (results : list ToolResultPart) (i : nat) (p : timed_phase) : Prop :=
  match p with
  | TReady => True
  | TRunning b ans => begun late b /\ exists tc, calls !! i = Some tc /\ ans = answers i b tc
  | TDone b => begun late b /\ exists tc d x, calls !! i = Some tc /\ answers i b tc = Some (d, x) /\
      (d <= clock)%Z /\ results !! i = Some x
  end.

Definition unfinished (p : timed_phase) : nat := match p with TDone _ => 0 | _ => 1 end.

Record timed_inv (c : timed_config) : Prop := {
  ti_threads : length (td_threads c) = td_next c;
  ti_next : td_next c <= length calls;
  ti_results : length (td_results c) = length calls;
  ti_wg : td_wg c = sum_list_with unfinished (td_threads c);
  ti_late : (0 <= td_late c)%Z;
  ti_clock : (now <= td_clock c <= now + limit + td_late c)%Z;
  ti_deadline : forall t err, tctx_done ctx = Some (t, err) -> (td_clock c <= Z.max now t + td_late c)%Z;
  ti_thread : forall i p, td_threads c !! i = Some p -> thread_ok (td_clock c) (td_late c) (td_results c) i p;
  ti_start : td_next c < length calls \/ (exists i, td_threads c !! i = Some TReady) -> td_clock c = (now + td_late c)%Z;
  ti_reached : (td_clock c <= now + td_late c)%Z \/
    exists i tc b d x, calls !! i = Some tc /\ begun (td_late c) b /\ answers i b tc = Some (d, x) /\
      (td_clock c <= d + td_late c)%Z;
  ti_returned : forall e, td_returned c = Some e -> e = td_clock c /\ td_next c = length calls /\ td_wg c = 0;
}.

Lemma timed_inv_begin : timed_inv (timed_begin calls now).
Proof using Hlimit.
  split; cbn; rewrite ?length_replicate; try done; try lia; intros; lia.
Qed.

Lemma thread_ok_mono clock clock' late late' results i p : (clock <= clock')%Z -> (late <= late')%Z ->
  thread_ok clock late results i p -> thread_ok clock' late' results i p.
Proof using Type.
  unfold thread_ok, begun. intros Hc Hl. destruct p as [|b ans|b]; [done| |].
  - intros (? & ?). split; [lia | done].
  - intros (? & tc & d & x & ? & ? & ? & ?). split; [lia|]. exists tc, d, x. split_and!; [done|done|lia|done].
Qed.

(** Writing the slot of another call. *)
Lemma thread_ok_other clock late results i j x p : i <> j ->
  thread_ok clock late results i p -> thread_ok clock late (<[j := x]> results) i p.
Proof using Type. intros Hne. unfold thread_ok. destruct p; [done|done|]. by rewrite list_lookup_insert_ne. Qed.

Lemma timed_inv_quick c c' : timed_inv c -> quick timing r ctx choices calls c c' -> timed_inv c'.
Proof using Hlimit.
  intros Hinv Hq. revert Hinv. destruct Hq as [s Hgo|s i tc Hi Htc|s i b d x Hi Hd|s Hn Hw Hr];
    intros [H1 H2 H3 H4 H5 H6 H7 H8 H9 H10 H11].
  - split; cbn; rewrite ?length_app, ?sum_list_with_app; cbn; try done; try lia.
    + intros i p. rewrite lookup_app. destruct (td_threads s !! i) as [q|] eqn:Hq; [intros [= <-]; by apply H8|].
      intros Hp. apply list_lookup_singleton_Some in Hp as [_ <-]. done.
    + intros e He. destruct (H11 e He) as (_ & ? & _). lia.
  - assert (Hlt : i < length (td_threads s)) by (by eapply lookup_lt_Some). split; cbn; rewrite ?length_insert; try done.
    + pose proof (sum_insert unfinished _ i _ (TRunning (td_clock s) (answers i (td_clock s) tc)) Hi) as Hsum.
      cbn [unfinished] in Hsum. lia.
    + intros j p Hj. apply list_lookup_insert_Some in Hj as [(<- & <- & _)|[_ Hj]]; [|by apply H8].
      assert (td_clock s = (now + td_late s)%Z) by (apply H9; right; by exists i). split; [unfold begun; lia|]. by exists tc.
    + intros [?|(j & Hj)]; apply H9; [by left|]. apply list_lookup_insert_Some in Hj as [(_ & ? & _)|[_ Hj]]; [done|]. right. by exists j.
  - assert (Hlt : i < length (td_threads s)) by (by eapply lookup_lt_Some).
    destruct (H8 i _ Hi) as (Hb & tc & Htc & Hans).
    pose proof (sum_insert unfinished _ i _ (TDone b) Hi) as Hsum. cbn [unfinished] in Hsum.
    split; cbn; rewrite ?length_insert; try done; try lia.
    + intros j p Hj. apply list_lookup_insert_Some in Hj as [(<- & <- & _)|[Hne Hj]].
      * split; [done|]. exists tc, d, x. split_and!; try done. apply list_lookup_insert_eq. rewrite H3. by eapply lookup_lt_Some.
      * apply thread_ok_other; [congruence|]. by apply H8.
    + intros [?|(j & Hj)]; apply H9; [by left|]. apply list_lookup_insert_Some in Hj as [(_ & ? & _)|[_ Hj]]; [done|]. right. by exists j.
    + intros e He. destruct (H11 e He) as (_ & _ & ?). lia.
  - split; cbn; try done. by intros e [= <-].
Qed.

(** When nothing can run and the wait has not returned, a call is on its way. *)
Lemma idle_running c : timed_inv c -> (forall c', ~ quick timing r ctx choices calls c c') -> td_returned c = None ->
  exists i b tc d x, td_threads c !! i = Some (TRunning b (Some (d, x))) /\ begun (td_late c) b /\
    calls !! i = Some tc /\ answers i b tc = Some (d, x) /\ (td_clock c < d)%Z.
Proof using Hlimit Hboxes w.
  intros Hi Hno Hret. assert (Hn : td_next c = length calls).
  { destruct (decide (td_next c < length calls)) as [Hlt|]; [|pose proof (ti_next _ Hi); lia].
    destruct (Hno _ (q_go timing r ctx choices calls c Hlt)). }
  assert (Hw : sum_list_with unfinished (td_threads c) <> 0).
  { rewrite <- (ti_wg _ Hi). intros Hw. destruct (Hno _ (q_wait timing r ctx choices calls c Hn Hw Hret)). }
  apply sum_pos in Hw as (i & p & Hp & Hu). destruct p as [|b ans|b]; [| |done].
  - destruct (lookup_lt_is_Some_2 calls i) as [tc Htc]; [rewrite <- Hn, <- (ti_threads _ Hi); by eapply lookup_lt_Some|].
    destruct (Hno _ (q_call timing r ctx choices calls c i tc Hp Htc)).
  - destruct (ti_thread _ Hi _ _ Hp) as (Hb & tc & Htc & ->).
    destruct (timed_call_ok i b tc) as (d & x & He & _). rewrite He in Hp.
    exists i, b, tc, d, x. split_and!; [done..|]. destruct (decide (d <= td_clock c)%Z) as [Hd|]; [|lia].
    destruct (Hno _ (q_done timing r ctx choices calls c i b d x Hp Hd)).
Qed.

Lemma timed_inv_step c c' : timed_inv c -> timed_step timing r ctx choices calls c c' -> timed_inv c'.
Proof using Hlimit Hboxes w.
  intros Hinv Hs. revert Hinv. destruct Hs as [s s' Hq|s c1 t Hq Ht|s t Hno Hr Ht Hdue]; intros Hinv; [by eapply timed_inv_quick| |].
  - assert (Hret : td_returned s = None).
    { destruct (td_returned s) as [e|] eqn:He; [|done]. destruct (ti_returned _ Hinv e He) as (_ & Hn & Hw).
      rewrite (ti_wg _ Hinv) in Hw. clear Hinv. destruct Hq as [? Hlt|? i tc Hi _|? i b d x Hi _|? _ _ Hnone]; [lia| | |congruence];
        pose proof (sum_zero _ _ _ _ Hw Hi); done. }
    destruct Hinv as [H1 H2 H3 H4 H5 H6 H7 H8 H9 H10 H11]. split; cbn; try done; try lia.
    + intros t0 err H0. specialize (H7 t0 err H0). lia.
    + intros i p Hp. eapply thread_ok_mono; [| |by apply H8]; lia.
    + intros H. specialize (H9 H). lia.
    + destruct H10 as [?|(i & tc & b & d & x & ? & ? & ? & ?)]; [left; lia | right]. exists i, tc, b, d, x.
      unfold begun in *. split_and!; try done; lia.
    + intros e He. congruence.
  - destruct (idle_running s Hinv Hno Hr) as (i & b & tc & d & x & Hp & Hb & Htc & He & Hd).
    specialize (Hdue _ _ _ _ Hp). destruct (timed_call_ok i b tc) as (d' & x' & He' & Hle & Hdl & _).
    rewrite He in He'. injection He' as <- <-. destruct Hinv as [H1 H2 H3 H4 H5 H6 H7 H8 H9 H10 H11].
    unfold begun in Hb. split; cbn; try done; try lia.
    + intros t0 err H0. specialize (Hdl t0 err H0). lia.
    + intros j p Hj. eapply thread_ok_mono; [| |by apply H8]; lia.
    + intros H. exfalso. destruct H as [Hlt|(j & Hj)]; [by apply (Hno _ (q_go timing r ctx choices calls s Hlt))|].
      destruct (lookup_lt_is_Some_2 calls j) as [tc' Htc']; [apply lookup_lt_Some in Hj; lia|].
      by apply (Hno _ (q_call timing r ctx choices calls s j tc' Hj Htc')).
    + right. exists i, tc, b, d, x. unfold begun. split_and!; try done; lia.
    + intros e Hret. congruence.
Qed.

Lemma timed_inv_reached c : rtc (timed_step timing r ctx choices calls) (timed_begin calls now) c -> timed_inv c.
Proof using Hlimit Hboxes w.
  revert c. apply rtc_ind_r; [apply timed_inv_begin|]. intros c1 c2 _ Hs Hi. by eapply timed_inv_step.
Qed.

Lemma no_quick c : td_next c = length calls -> td_wg c <> 0 ->
  (forall i p, td_threads c !! i = Some p -> can_run (td_clock c) p = false) ->
  forall c', ~ quick timing r ctx choices calls c c'.
Proof using Type.
  intros Hn Hw Hnone c' Hq. destruct Hq as [? ?|? i tc Hp _|? i b d x Hp Hd|? _ ? _]; [lia| | |done].
  - by specialize (Hnone _ _ Hp).
  - specialize (Hnone _ _ Hp). cbn in Hnone. apply Z.leb_gt in Hnone. lia.
Qed.

Lemma q_call_at c c' i tc ans : td_threads c !! i = Some TReady -> calls !! i = Some tc ->
  answers i (td_clock c) tc = ans ->
  c' = mkTimed (td_clock c) (td_late c) (td_next c) (td_wg c) (<[i := TRunning (td_clock c) ans]> (td_threads c))
         (td_results c) (td_returned c) ->
  quick timing r ctx choices calls c c'.
Proof using Type. intros Hp Htc <- ->. by apply q_call. Qed.

Lemma q_done_at c c' i b d x : td_threads c !! i = Some (TRunning b (Some (d, x))) -> (d <= td_clock c)%Z ->
  c' = mkTimed (td_clock c) (td_late c) (td_next c) (pred (td_wg c)) (<[i := TDone b]> (td_threads c))
         (<[i := x]> (td_results c)) (td_returned c) ->
  quick timing r ctx choices calls c c'.
Proof using Type. intros Hp Hd ->. by eapply q_done. Qed.

(** Until the wait returns, a goroutine can run or time can pass. *)
Lemma timed_progress c : timed_inv c -> td_returned c = None -> exists c', timed_step timing r ctx choices calls c c'.
Proof using Hlimit Hboxes w.
  intros Hi Hret. destruct (decide (td_next c < length calls)) as [Hlt|Hge]; [eexists; by apply t_quick, q_go|].
  assert (Hn : td_next c = length calls) by (pose proof (ti_next _ Hi); lia).
  destruct (decide (td_wg c = 0)) as [Hw|Hw]; [eexists; by apply t_quick, q_wait|].
  destruct (existsb (can_run (td_clock c)) (td_threads c)) eqn:Hr.
  - apply existsb_exists in Hr as (p & Hp & Hr). apply list_elem_of_In, list_elem_of_lookup in Hp as [i Hp].
    destruct p as [|b [[d x]|]|b]; [| |done..].
    + destruct (lookup_lt_is_Some_2 calls i) as [tc Htc]; [rewrite <- Hn, <- (ti_threads _ Hi); by eapply lookup_lt_Some|].
      eexists. apply t_quick. by eapply q_call.
    + eexists. apply t_quick. eapply q_done; [done|]. by apply Z.leb_le.
  - assert (Hnone : forall i p, td_threads c !! i = Some p -> can_run (td_clock c) p = false).
    { intros i p Hp. destruct (can_run (td_clock c) p) eqn:Hcp; [|done]. rewrite <- Hr. symmetry.
      apply existsb_exists. exists p. split; [|done]. apply list_elem_of_In. by eapply list_elem_of_lookup_2. }
    eexists. apply (t_idle _ _ _ _ _ c (td_clock c + 1)); [| done | lia |].
    + by apply no_quick.
    + intros i b d x Hp. specialize (Hnone _ _ Hp). cbn in Hnone. apply Z.leb_gt in Hnone. lia.
Qed.

Lemma quick_work c c' : timed_inv c -> quick timing r ctx choices calls c c' -> timed_work calls c' < timed_work calls c.
Proof using Type.
  intros Hinv Hq. revert Hinv. unfold timed_work.
  destruct Hq as [s Hgo|s i tc Hi Htc|s i b d x Hi Hd|s Hn Hw Hr]; intros Hinv; cbn [td_next td_threads td_returned].
  - rewrite sum_list_with_app. cbn. lia.
  - pose proof (sum_insert phase_work _ i _ (TRunning (td_clock s) (answers i (td_clock s) tc)) Hi) as Hsum. cbn [phase_work] in Hsum. lia.
  - pose proof (sum_insert phase_work _ i _ (TDone b) Hi) as Hsum. cbn [phase_work] in Hsum. lia.
  - rewrite Hr. lia.
Qed.

(** What has returned: every call began within the delays, and answered in time. *)
Lemma returned_calls c e : timed_inv c -> td_returned c = Some e ->
  e = td_clock c /\ length (td_results c) = length calls /\
  forall i tc, calls !! i = Some tc -> exists b d x, begun (td_late c) b /\ answers i b tc = Some (d, x) /\
    (d <= e)%Z /\ (d <= b + limit)%Z /\ td_results c !! i = Some x /\ justified (tctx_values ctx) [r] tc x.
Proof using Hlimit Hboxes w.
  intros Hi He. destruct (ti_returned _ Hi e He) as (-> & Hn & Hw). split; [done|]. split; [apply Hi|]. intros i tc Htc.
  destruct (lookup_lt_is_Some_2 (td_threads c) i) as [p Hp]; [rewrite (ti_threads _ Hi), Hn; by eapply lookup_lt_Some|].
  rewrite (ti_wg _ Hi) in Hw. pose proof (sum_zero _ _ _ _ Hw Hp) as Hz. destruct p as [| |b]; [done..|].
  destruct (ti_thread _ Hi _ _ Hp) as (Hb & tc' & d & x & Htc' & Hans & Hd & Hx). rewrite Htc in Htc'. injection Htc' as <-.
  destruct (timed_call_ok i b tc) as (d' & x' & Hans' & Hle & _ & Hj). rewrite Hans in Hans'. injection Hans' as <- <-.
  exists b, d, x. split_and!; try done. lia.
Qed.

(** Without delays, it is the dispatch at its best. *)
Lemma returned_best c e : timed_inv c -> td_returned c = Some e -> td_late c = 0%Z ->
  timed_ExecuteConcurrent timing r ctx choices now calls = Some (e, td_results c).
Proof using Hlimit Hboxes w.
  intros Hi He Hlate. destruct (returned_calls c e Hi He) as (-> & Hlen & Hat). unfold begun in Hat. rewrite Hlate in Hat.
  assert (Hat' : forall i tc, calls !! i = Some tc -> exists d x, answers i now tc = Some (d, x) /\
    (d <= td_clock c)%Z /\ td_results c !! i = Some x).
  { intros i tc Hc. destruct (Hat i tc Hc) as (b & d & x & Hb & Ha & Hd & _ & Hx & _).
    assert (b = now) as -> by lia. by exists d, x. }
  unfold timed_ExecuteConcurrent. destruct (all_some_total (imap (fun i tc => answers i now tc) calls)) as [xs Hxs].
  { intros o Ho. apply list_elem_of_lookup in Ho as [i Ho]. rewrite list_lookup_imap in Ho.
    destruct (calls !! i) as [tc|] eqn:Hc; [|done]. injection Ho as <-. destruct (Hat' i tc Hc) as (d & x & -> & _). by eexists. }
  rewrite Hxs. pose proof (fun i => all_some_lookup _ _ i Hxs) as Hl.
  assert (Hx : xs.*2 = td_results c).
  { apply list_eq. intros i. rewrite list_lookup_fmap. specialize (Hl i). rewrite list_lookup_imap in Hl.
    destruct (calls !! i) as [tc|] eqn:Hc.
    - destruct (Hat' i tc Hc) as (d & x & Ha & _ & ->). cbn in Hl. rewrite Ha in Hl. by destruct (xs !! i); simplify_eq/=.
    - apply lookup_ge_None in Hc. rewrite (lookup_ge_None_2 (td_results c)) by lia. by destruct (xs !! i). }
  rewrite Hx. do 2 f_equal. destruct (last_instant_bounds now xs.*1) as (Hlo & Hup & Hlast). apply Z.le_antisymm.
  - destruct Hlast as [->|Hin]; [apply Hi|]. apply list_elem_of_fmap in Hin as ([d x] & -> & [i Hin]%list_elem_of_lookup).
    specialize (Hl i). rewrite Hin, list_lookup_imap in Hl. destruct (calls !! i) as [tc|] eqn:Hc; [|done].
    destruct (Hat' i tc Hc) as (d' & x' & Ha & Hd & _). cbn in Hl. rewrite Ha in Hl. injection Hl as -> ->. exact Hd.
  - destruct (ti_reached _ Hi) as [?|(i & tc & b & d & x & Hc & Hb & Ha & Hd)]; [lia|]. unfold begun in Hb.
    assert (b = now) as -> by lia. specialize (Hl i). rewrite list_lookup_imap, Hc in Hl. cbn in Hl. rewrite Ha in Hl.
    transitivity d; [lia|]. apply Hup. apply list_elem_of_fmap. exists (d, x). split; [done|].
    apply list_elem_of_lookup. exists i. by destruct (xs !! i); simplify_eq/=.
Qed.
End in_time.



(** ** Properties *)

(** C18: a dispatch of sandboxed tools is bounded in time. When every tool of the
    registry is in a sandbox whose timeout is at most [limit] - around any tool that
    answers in time as its computation says and no later than its context is done -
    then at every moment of every schedule of the loop, the goroutines and the wait:
    until [ExecuteConcurrent] returns something can happen, and only so many things
    can; the clock is within [limit] of the begin, and past the deadline of the
    caller, by no more than the time for which the scheduler kept a goroutine
    waiting - however many calls there are. When it returns, every call began
    within those delays, and its result stands at its index, is what that call
    alone gives - a timeout of another call does not touch it - and is one that the
    dispatch of [Tools] justifies; without delays the calls ran side by side from
    the begin and the return is with the slowest of them. A sleep in such a sandbox
    is such a tool, and sleeps when that is shorter than the timeout and fails at
    the timeout when that is shorter. *)
Theorem dispatch_in_time {E} (timing : string -> timed_tool) (r : ConcreteToolRegistry E) (limit now : Z)
    (ctx : timed_context) (choices : nat -> bool) (calls : list ToolCallPart) (w : World E) (c : timed_config) :
  (0 <= limit)%Z ->
  (forall name t, GetTool name r = Some t -> sandboxed limit t (timing name)) ->
  rtc (timed_step timing r ctx choices calls) (timed_begin calls now) c ->
  (td_returned c = None -> exists c', timed_step timing r ctx choices calls c c') /\
  (forall c', quick timing r ctx choices calls c c' -> timed_work calls c' < timed_work calls c) /\
  (now <= td_clock c <= now + limit + td_late c)%Z /\
  (forall t err, tctx_done ctx = Some (t, err) -> (td_clock c <= Z.max now t + td_late c)%Z) /\
  (forall e, td_returned c = Some e -> e = td_clock c /\ length (td_results c) = length calls /\
     (forall i tc, calls !! i = Some tc -> exists b d x, (now <= b <= now + td_late c)%Z /\
        timed_call timing r ctx (choices i) b tc = Some (d, x) /\ (d <= e)%Z /\ (d <= b + limit)%Z /\
        td_results c !! i = Some x /\ justified (tctx_values ctx) [r] tc x) /\
     (td_late c = 0%Z ->
        timed_ExecuteConcurrent timing r ctx choices now calls = Some (e, td_results c))) /\
  (forall str d, (0 < d <= limit)%Z ->
     sandboxed (E := E) limit (SandboxedTool (SleepTool str) d) (timed_Sandbox (timed_Sleep str) d) /\
     forall vs args dur choice b, sleep_duration args = inl dur ->
       let ans := timed_Sandbox (timed_Sleep str) d (mkTimedContext vs None) args choice b in
       ((dur < d)%Z -> ans = Some ((b + Z.max 0 dur)%Z, ("slept " +:+ str dur, None))) /\
       ((d < dur)%Z -> ans = Some ((b + d)%Z, ("", Some DeadlineExceeded)))).
Proof.
  intros Hlim Hboxes Hr. pose proof (timed_inv_reached timing r limit now ctx choices calls w Hlim Hboxes c Hr) as Hi.
  split_and!; try apply Hi.
  - intros Hret. by eapply timed_progress.
  - intros c'. by eapply quick_work.
  - intros e He. destruct (returned_calls timing r limit now ctx choices calls w Hlim Hboxes c e Hi He) as (H1 & H2 & H3).
    split_and!; [exact H1 | exact H2 | exact H3 | by eapply returned_best].
  - intros str d Hd. split; [by apply sandboxed_tool; [apply times_Sleep | apply obeys_Sleep |]|].
    intros vs args dur choice b Hdur. apply sandboxed_sleep; [done | lia].
Qed.

(** ** Witnesses *)

(** A registry with a sleep in a sandbox of three seconds, and an echo in one of a
    second. *)
Definition timed_registry : ConcreteToolRegistry unit :=
  (Register (SandboxedTool (SleepTool (fun _ => "")) (3 * Second)%Z) []
    (Register (SandboxedTool EchoTool Second) [] NewConcreteToolRegistry).1).1.

Definition timed_registry_timing (name : string) : timed_tool :=
  if bool_decide (name = "sleep") then timed_Sandbox (timed_Sleep (fun _ => "")) (3 * Second)%Z
  else timed_Sandbox timed_Echo Second.

Definition timed_calls : list ToolCallPart :=
  [mkToolCallPart "c1" "sleep" (Some [("ms", AInt 60000)]); mkToolCallPart "c2" "echo" (Some [("message", AString "hi")])].

Definition timed_results : list ToolResultPart :=
  [mkToolResultPart "c1" "context deadline exceeded" true; mkToolResultPart "c2" "hi" false].

(** The dispatch of a sleep of a minute and an echo has returned after the three
    seconds of the sandbox. *)
Definition timed_finished : timed_config :=
  mkTimed (3 * Second) 0 2 0 [TDone 0; TDone 0] timed_results (Some (3 * Second)%Z).

Abbreviation timed_demo := (timed_step timed_registry_timing timed_registry (mkTimedContext Background None) (fun _ => true) timed_calls).

(** Both calls have begun; the sleep is stopped by its sandbox. *)
Definition timed_running (echo : timed_phase) : list timed_phase :=
  [TRunning 0 (Some ((3 * Second)%Z, mkToolResultPart "c1" "context deadline exceeded" true)); echo].

Definition timed_waiting (clock : Z) : timed_config :=
  mkTimed clock 0 2 1 (timed_running (TDone 0)) [zero_result; mkToolResultPart "c2" "hi" false] None.

Lemma timed_demo_runs : rtc timed_demo (timed_begin timed_calls 0%Z) timed_finished.
Proof.
  do 2 (eapply rtc_l; [apply t_quick, q_go; cbn; lia|]).
  apply (rtc_l _ _ (mkTimed 0 0 2 2 (timed_running TReady) [zero_result; zero_result] None)).
  { apply t_quick. eapply (q_call_at _ _ _ _ _ _ _ 0); [reflexivity..|vm_compute; reflexivity|reflexivity]. }
  apply (rtc_l _ _ (mkTimed 0 0 2 2 (timed_running (TRunning 0 (Some (0%Z, mkToolResultPart "c2" "hi" false))))
    [zero_result; zero_result] None)).
  { apply t_quick. eapply (q_call_at _ _ _ _ _ _ _ 1); [reflexivity..|vm_compute; reflexivity|reflexivity]. }
  apply (rtc_l _ _ (timed_waiting 0)); [by eapply t_quick, (q_done_at _ _ _ _ _ _ _ 1)|].
  apply (rtc_l _ _ (timed_waiting (3 * Second))).
  { apply (t_idle _ _ _ _ _ (timed_waiting 0)); [|done..|].
    - apply no_quick; [done..|]. intros [|[|i]] p Hp; by simplify_eq/=.
    - intros [|[|i]] b d x Hp; simplify_eq/=. reflexivity. }
  apply (rtc_l _ _ (mkTimed (3 * Second) 0 2 0 [TDone 0; TDone 0] timed_results None)).
  { by eapply t_quick, (q_done_at _ _ _ _ _ _ _ 0). }
  apply rtc_once, t_quick. exact (q_wait _ _ _ _ timed_calls (mkTimed (3 * Second) 0 2 0 [TDone 0; TDone 0] timed_results None) eq_refl eq_refl eq_refl).
Qed.

Lemma timed_demo_boxed name t :
  GetTool name timed_registry = Some t -> sandboxed (3 * Second) t (timed_registry_timing name).
Proof.
  intros Ht. change ((<["sleep" := SandboxedTool (SleepTool (fun _ => "")) (3 * Second)%Z]>
    (<["echo" := SandboxedTool EchoTool Second]> (∅ : gmap string (Tool unit)))) !! name = Some t) in Ht.
  unfold timed_registry_timing. apply lookup_insert_Some in Ht as [[<- <-]|[Hne Ht]].
  - rewrite bool_decide_eq_true_2 by done. apply sandboxed_tool; [apply times_Sleep | apply obeys_Sleep | by vm_compute].
  - apply lookup_insert_Some in Ht as [[<- <-]|[_ Ht]]; [|by rewrite lookup_empty in Ht].
    rewrite bool_decide_eq_false_2 by done. apply sandboxed_tool; [apply times_Echo | apply obeys_Echo | by vm_compute].
Qed.

Lemma dispatch_in_time_witness :
  rtc timed_demo (timed_begin timed_calls 0%Z) timed_finished /\
  timed_ExecuteConcurrent timed_registry_timing timed_registry (mkTimedContext Background None) (fun _ => true) 0%Z timed_calls
    = Some ((3 * Second)%Z, timed_results).
Proof.
  split; [exact timed_demo_runs|].
  destruct (dispatch_in_time timed_registry_timing timed_registry (3 * Second)%Z 0%Z (mkTimedContext Background None)
    (fun _ => true) timed_calls unit_world timed_finished ltac:(by vm_compute) timed_demo_boxed timed_demo_runs)
    as (_ & _ & _ & _ & H & _).
  exact (proj2 (proj2 (proj2 (H _ eq_refl))) eq_refl).
Defined.
