(* ===== verification/Planner.v ===== *)
(** * planner/react.go: the ReAct planner

    Plans are shared objects: the variable [__plan__] holds a pointer, and
    [Revise] changes the plan it points to in place. The store of plans is a part
    of the environment ([Has (list Plan) E]). [revise_plan] is the decision on the
    plan; [Revise] finds the plan and the feedback in the variables of the state,
    writes the plan in place and puts its pointer into a new state. A [session] is
    a [Plan] and the [Revise]s on the states that come back. *)

From S2P Require Import Prelude GoLang Core Json World Interfaces Memory.
From stdpp Require Import base gmap strings list.

#[local] Open Scope go_scope.

Definition StepStatus := string.

Definition StepPending : StepStatus := "Pending".

Definition StepRunning : StepStatus := "Running".

Definition StepCompleted : StepStatus := "Completed".

Definition StepFailed : StepStatus := "Failed".

Definition StepSkipped : StepStatus := "Skipped".

Record PlanStep := mkPlanStep {
  st_NodeID : string;
  st_ActualNodeID : string;
  st_Status : StepStatus;
  st_Observation : string;
}.

Record Plan := mkPlan {
  pl_Goal : string;
  pl_Steps : list PlanStep;
}.

Definition ThinkNodeID : string := "LLMNode".

Definition ToolNodeID : string := "ToolExecutorNode".

Definition TerminalID : string := "__terminal__".

(** [PlanStep{NodeID: nodeID, Status: StepPending}]. *)
Definition pending_step (nodeID : string) : PlanStep := mkPlanStep nodeID "" StepPending "".

Definition set_step_status (st : StepStatus) (s : PlanStep) : PlanStep :=
  mkPlanStep (st_NodeID s) (st_ActualNodeID s) st (st_Observation s).

(** [CurrentStep]: the first step that is Pending or Running. *)
Definition CurrentStep (p : Plan) : option PlanStep :=
  find (fun s => bool_decide (st_Status s = StepPending) || bool_decide (st_Status s = StepRunning))
    (pl_Steps p).

Definition Append (nodeID : string) (p : Plan) : Plan :=
  mkPlan (pl_Goal p) (pl_Steps p ++ [pending_step nodeID]).

(** The loops that change the first step of a given status and break. *)
Fixpoint update_first (st : StepStatus) (f : PlanStep -> PlanStep) (steps : list PlanStep) :
    list PlanStep :=
  match steps with
  | [] => []
  | s :: rest => if decide (st_Status s = st) then f s :: rest else s :: update_first st f rest
  end.

Definition complete_running (observation : string) (p : Plan) : Plan :=
  mkPlan (pl_Goal p)
    (update_first StepRunning
       (fun s => mkPlanStep (st_NodeID s) (st_ActualNodeID s) StepCompleted observation) (pl_Steps p)).

Definition run_first_pending (p : Plan) : Plan :=
  mkPlan (pl_Goal p) (update_first StepPending (set_step_status StepRunning) (pl_Steps p)).

Definition completedTotal (p : Plan) : Z :=
  Z.of_nat (length (filter (fun s => st_Status s = StepCompleted) (pl_Steps p))).

(** The node of the new step. *)
Definition choose_node (toolCallPresent : bool) (observation : string) : string :=
  if toolCallPresent then ToolNodeID
  else if bool_decide (observation = "") then TerminalID else ThinkNodeID.

(** What [Revise] does to the plan, and the node it answers. *)
Definition revise_plan (maxRounds : Z) (observation : string) (toolCallPresent : bool) (plan : Plan) :
    Plan * string :=
  let plan := complete_running observation plan in
  if (maxRounds <=? completedTotal plan)%Z then (Append TerminalID plan, TerminalID)
  else
    let nextNodeID := choose_node toolCallPresent observation in
    (run_first_pending (Append nextNodeID plan), nextNodeID).

(** ** ReActPlanner *)

Record ReActPlanner := mkReActPlanner { maxRounds : Z }.

Definition NewReActPlanner (rounds : Z) : ReActPlanner :=
  mkReActPlanner (if (rounds <=? 0)%Z then 20%Z else rounds).

(** [getPlan]: the pointer, nil when the variable is missing or is not a
    [*Plan]. *)
Definition getPlan (s : AgentState) : option nat :=
  match var_get s "__plan__" with Some (APlan l) => Some l | _ => None end.

(** [hasToolCall && tcRaw != nil]. *)
Definition tool_call_present (s : AgentState) : bool :=
  match var_get s "tool_call" with Some ANil | None => false | Some _ => true end.

(** The plan that [Plan] begins with. *)
Definition initial_plan (goal : string) : Plan := mkPlan goal [pending_step ThinkNodeID].

Section planner.
Context {E : Type} `{!Has (list Plan) E}.

Definition load_plan (l : nat) : M E Plan :=
  plans <- get (T := list Plan) ;;
  deref (plans !! l).

Definition store_plan (l : nat) (p : Plan) : M E unit :=
  plans <- get (T := list Plan) ;;
  put (<[l := p]> plans).

Definition new_plan (p : Plan) : M E nat :=
  plans <- get (T := list Plan) ;;
  put (plans ++ [p]) ;;
  ret (length plans).

Definition setPlan (state : loc) (plan : nat) : M E loc := WithVariable state "__plan__" (APlan plan).

Definition Planner_Plan (r : ReActPlanner) (ctx : context) (goal : string) (state : loc) :
    M E (option PlannerOutput * option error) :=
  plan <- new_plan (initial_plan goal) ;;
  s1 <- WithVariable state "goal" (AString goal) ;;
  newState <- setPlan s1 plan ;;
  ret (Some (mkPlannerOutput ThinkNodeID newState), None).

Definition Revise (r : ReActPlanner) (ctx : context) (observation : string) (state : loc) :
    M E (option PlannerOutput * option error) :=
  s <- load state ;;
  match getPlan s with
  | None => ret (None, Some (ErrNew "ReActPlanner: no active plan in state"))
  | Some plan =>
      p <- load_plan plan ;;
      let out := revise_plan (maxRounds r) observation (tool_call_present s) p in
      store_plan plan out.1 ;;
      newState <- setPlan state plan ;;
      ret (Some (mkPlannerOutput out.2 newState), None)
  end.
End planner.

(** The document of a plan: all its fields are exported. *)
Definition marshal_PlanStep (s : PlanStep) : json :=
  JObj [("NodeID", JString (st_NodeID s)); ("ActualNodeID", JString (st_ActualNodeID s));
        ("Status", JString (st_Status s)); ("Observation", JString (st_Observation s))].

Definition marshal_Plan (p : Plan) : json :=
  JObj [("Goal", JString (pl_Goal p)); ("Steps", JArr (marshal_PlanStep <$> pl_Steps p))].

#[export] Instance planner_docs E `{!Has (list Plan) E} : PlanDocs E :=
  fun e l => marshal_Plan <$> (get_of (T := list Plan) e !! l).

Definition arrow : string := " " +:+ String (Ascii.ascii_of_nat 226) (String (Ascii.ascii_of_nat 134)
  (String (Ascii.ascii_of_nat 146) " ")).

Fixpoint step_lines (i : Z) (steps : list PlanStep) : string :=
  match steps with
  | [] => ""
  | s :: rest =>
      "  [" +:+ itoa (i + 1) +:+ "] " +:+ st_NodeID s +:+ arrow +:+ st_Status s +:+ lf +:+
      (if bool_decide (st_Observation s = "") then ""
       else "       obs: " +:+ st_Observation s +:+ lf) +:+
      step_lines (i + 1) rest
  end.

Definition Summarise (p : Plan) : string :=
  "Goal: " +:+ pl_Goal p +:+ lf +:+ step_lines 0 (pl_Steps p).

(** ** Specification *)

(** One call of [Revise]: its observation and whether a tool call is signalled. *)
Definition feedback : Type := string * bool.

(** The plan after the calls, and their answers, in order. *)
Fixpoint revise_all (rounds : Z) (fs : list feedback) (p : Plan) : Plan * list string :=
  match fs with
  | [] => (p, [])
  | f :: rest =>
      let out := revise_plan rounds f.1 f.2 p in
      let rec := revise_all rounds rest out.1 in
      (rec.1, out.2 :: rec.2)
  end.

(** The answers the planner means to give: the node the feedback asks for, for
    [rounds] calls, and the terminal from then on. *)
Fixpoint answers (rounds : nat) (fs : list feedback) : list string :=
  match fs with
  | [] => []
  | f :: rest =>
      match rounds with
      | O => TerminalID :: answers O rest
      | S n => choose_node f.2 f.1 :: answers n rest
      end
  end.

(** The nodes of the plan: the first thought, then what was answered. *)
Definition plan_nodes (p : Plan) : list string := st_NodeID <$> pl_Steps p.

(** The state signals a tool call: its variable has a value that is not nil. *)
Definition signals (s : AgentState) (b : bool) : Prop :=
  b = true <-> exists v, var_get s "tool_call" = Some v /\ v <> ANil.

Section session.
Context {E : Type} `{!Has (list Plan) E} (r : ReActPlanner) (ctx : context) (goal : string).
Implicit Types (w : World E) (out : PlannerOutput).

Definition plans_of w : list Plan := get_of (w_ext w).

(** What happens between two calls of the planner: a state comes back that has the
    plan of the state that was handed out, and nobody wrote that plan. *)
Definition comes_back out w (l : loc) (s : AgentState) w1 : Prop :=
  w_heap w1 !! l = Some s /\
  exists s0, w_heap w !! po_State out = Some s0 /\ getPlan s = getPlan s0 /\
    forall pl, getPlan s0 = Some pl -> plans_of w1 !! pl = plans_of w !! pl.

(** The calls of a session: [Plan], then [Revise] with an observation on each state
    that comes back; the feedback of the calls, what they return, and the world
    after the last. *)
Inductive session : list feedback -> list (option PlannerOutput * option error) -> World E -> Prop :=
  | session_plan l s w res w' :
      w_heap w !! l = Some s -> Planner_Plan r ctx goal l w = (Ret res, w') -> session [] [res] w'
  | session_revise fs results out err w l s w1 obs b res w2 :
      session fs (results ++ [(Some out, err)]) w -> comes_back out w l s w1 -> signals s b ->
      Revise r ctx obs l w1 = (Ret res, w2) ->
      session (fs ++ [(obs, b)]) ((results ++ [(Some out, err)]) ++ [res]) w2.

(** The state of an output holds a plan. *)
Definition holds out w (p : Plan) : Prop :=
  exists s pl, w_heap w !! po_State out = Some s /\ getPlan s = Some pl /\ plans_of w !! pl = Some p.
End session.

(** ** Lemmas *)

(** A plan after [n] revisions within the bound: [n - 1] steps done, the next one
    Running, the last answer Pending. *)
Definition plan_shape (n : nat) (p : Plan) : Prop :=
  exists done rest,
    pl_Steps p = done ++ rest /\ Forall (fun s => st_Status s = StepCompleted) done /\
    match n with
    | O => done = [] /\ exists a, rest = [a] /\ st_Status a = StepPending
    | S k => length done = k /\
        exists a b, rest = [a; b] /\ st_Status a = StepRunning /\ st_Status b = StepPending
    end.

Lemma update_first_skip st f done rest :
  Forall (fun s => st_Status s <> st) done ->
  update_first st f (done ++ rest) = done ++ update_first st f rest.
Proof.
  induction 1 as [|s done Hs _ IH]; simpl; [done|]. by rewrite decide_False, IH.
Qed.

Lemma completed_count done rest :
  Forall (fun s => st_Status s = StepCompleted) done ->
  Forall (fun s => st_Status s <> StepCompleted) rest ->
  length (filter (fun s => st_Status s = StepCompleted) (done ++ rest)) = length done.
Proof.
  intros Hd Hr. by rewrite filter_app, filter_all, filter_none, app_nil_r.
Qed.

Lemma update_first_nodes st f steps :
  (forall s, st_NodeID (f s) = st_NodeID s) ->
  st_NodeID <$> update_first st f steps = st_NodeID <$> steps.
Proof.
  intros Hf. induction steps as [|s steps IH]; simpl; [done|]. case_decide; csimpl; by rewrite ?Hf, ?IH.
Qed.

Lemma revise_plan_nodes rounds obs tc p :
  plan_nodes (revise_plan rounds obs tc p).1 = plan_nodes p ++ [(revise_plan rounds obs tc p).2].
Proof.
  unfold revise_plan, plan_nodes. case_match; simpl;
    rewrite ?update_first_nodes by done; by rewrite fmap_app, update_first_nodes.
Qed.

Lemma status_ne st st' (l : list PlanStep) :
  st <> st' -> Forall (fun s => st_Status s = st) l -> Forall (fun s => st_Status s <> st') l.
Proof. intros Hne Hl. eapply Forall_impl; [exact Hl|]. simpl. congruence. Qed.

(** The plan of shape [n] has [n] completed steps once its Running step is
    completed, and the next decision makes it of shape [n + 1]. *)
Lemma plan_shape_complete n obs p :
  plan_shape n p ->
  completedTotal (complete_running obs p) = Z.of_nat n /\
  Forall (fun s => st_Status s <> StepRunning) (pl_Steps (complete_running obs p)) /\
  forall nodeID, plan_shape (S n) (run_first_pending (Append nodeID (complete_running obs p))).
Proof.
  intros (dn & rest & Hp & Hd & Hn). unfold complete_running. rewrite Hp.
  rewrite update_first_skip by by apply (status_ne StepCompleted).
  destruct n as [|k].
  - destruct Hn as (-> & a & -> & Ha). simpl. rewrite decide_False by (by rewrite Ha).
    split_and!.
    + unfold completedTotal. simpl. by rewrite filter_cons_False by by rewrite Ha.
    + constructor; [by rewrite Ha | constructor].
    + intros id. exists [], [set_step_status StepRunning a; pending_step id].
      simpl. rewrite decide_True by done. split_and!; [done|constructor|done|]. by eexists _, _.
  - destruct Hn as (Hk & a & b & -> & Ha & Hb). simpl. rewrite decide_True by done.
    set (a' := mkPlanStep _ _ _ _).
    assert (Hd' : Forall (fun s => st_Status s = StepCompleted) (dn ++ [a'])).
    { apply Forall_app. by repeat constructor. }
    replace (dn ++ [a'; b]) with ((dn ++ [a']) ++ [b]) by (by rewrite <- app_assoc).
    split_and!.
    + unfold completedTotal. simpl. rewrite completed_count, length_app; [simpl; lia|done|].
      constructor; [by rewrite Hb | constructor].
    + simpl. apply Forall_app. split; [by apply (status_ne StepCompleted) | constructor; [by rewrite Hb | constructor]].
    + intros id. exists (dn ++ [a']), [set_step_status StepRunning b; pending_step id]. split_and!.
      * unfold run_first_pending, Append. simpl. rewrite <- app_assoc, update_first_skip by by apply (status_ne StepCompleted).
        simpl. by rewrite decide_True.
      * done.
      * rewrite length_app. simpl. lia.
      * by eexists _, _.
Qed.

Lemma completedTotal_Append id p : (completedTotal p <= completedTotal (Append id p))%Z.
Proof. unfold completedTotal. simpl. rewrite filter_app, length_app. lia. Qed.

(** Nothing is Running and the bound is reached: every answer is the terminal. *)
Lemma stopped_answers rounds fs p :
  Forall (fun s => st_Status s <> StepRunning) (pl_Steps p) -> (rounds <= completedTotal p)%Z ->
  (revise_all rounds fs p).2 = answers 0 fs.
Proof.
  revert p. induction fs as [|f fs IH]; intros p Hr Hc; [done|]. simpl.
  assert (complete_running f.1 p = p) as Hid.
  { unfold complete_running. destruct p as [g steps]; simpl in *. f_equal.
    clear -Hr. induction Hr as [|s steps Hs _ IH]; simpl; [done|]. by rewrite decide_False, IH. }
  unfold revise_plan. rewrite Hid. replace (rounds <=? completedTotal p)%Z with true by lia. simpl.
  f_equal. apply IH.
  - simpl. apply Forall_app. split; [done|]. by repeat constructor.
  - pose proof (completedTotal_Append TerminalID p). lia.
Qed.

Lemma answers_terminal n fs i a : n <= i -> answers n fs !! i = Some a -> a = TerminalID.
Proof.
  revert n i. induction fs as [|f fs IH]; intros n i Hle Hl; [by destruct n|].
  destruct n, i; simplify_eq/=; try lia; [done | by eapply (IH 0); [lia|] | eapply (IH n); [|done]; lia].
Qed.

Lemma shape_answers n rounds fs p :
  plan_shape n p -> (Z.of_nat n <= rounds)%Z ->
  (revise_all rounds fs p).2 = answers (Z.to_nat rounds - n) fs.
Proof.
  revert n p. induction fs as [|f fs IH]; intros n p Hs Hn; [by destruct (Z.to_nat rounds - n)|].
  destruct (plan_shape_complete n f.1 p Hs) as (Hc & Hr & Hnext). simpl. unfold revise_plan.
  rewrite Hc. destruct (Z.leb_spec rounds (Z.of_nat n)).
  - replace (Z.to_nat rounds - n) with 0 by lia. simpl. f_equal. apply stopped_answers.
    + simpl. apply Forall_app. split; [done|]. by repeat constructor.
    + pose proof (completedTotal_Append TerminalID (complete_running f.1 p)). lia.
  - replace (Z.to_nat rounds - n) with (S (Z.to_nat rounds - S n)) by lia. simpl. f_equal.
    apply IH; [apply Hnext | lia].
Qed.

Lemma shape_final n rounds fs p :
  plan_shape n p -> (Z.of_nat (n + length fs) <= rounds)%Z ->
  plan_shape (n + length fs) (revise_all rounds fs p).1.
Proof.
  revert n p. induction fs as [|f fs IH]; intros n p Hs Hn; simpl in *; [by rewrite Nat.add_0_r|].
  destruct (plan_shape_complete n f.1 p Hs) as (Hc & Hr & Hnext). unfold revise_plan.
  rewrite Hc. replace (rounds <=? Z.of_nat n)%Z with false by lia. simpl.
  rewrite <- Nat.add_succ_comm. apply IH; [apply Hnext | lia].
Qed.

Lemma revise_all_nodes rounds fs p :
  plan_nodes (revise_all rounds fs p).1 = plan_nodes p ++ (revise_all rounds fs p).2.
Proof.
  revert p. induction fs as [|f fs IH]; intros p; simpl; [by rewrite app_nil_r|].
  rewrite IH, revise_plan_nodes, <- app_assoc. done.
Qed.

Lemma revise_all_snoc rounds fs f p :
  revise_all rounds (fs ++ [f]) p =
  ((revise_plan rounds f.1 f.2 (revise_all rounds fs p).1).1,
   (revise_all rounds fs p).2 ++ [(revise_plan rounds f.1 f.2 (revise_all rounds fs p).1).2]).
Proof. revert p. induction fs as [|g fs IH]; intros p; simpl; [done|]. by rewrite IH. Qed.

Lemma initial_answers goal rounds fs : (0 <= rounds)%Z ->
  (revise_all rounds fs (initial_plan goal)).2 = answers (Z.to_nat rounds) fs.
Proof.
  intros Hr. assert (Hs : plan_shape 0 (initial_plan goal)).
  { exists [], [pending_step ThinkNodeID]. split_and!; [done|constructor|done|]. by eexists. }
  rewrite (shape_answers 0 _ _ _ Hs) by lia. f_equal. lia.
Qed.

Lemma signals_present s b : signals s b -> tool_call_present s = b.
Proof.
  unfold signals, tool_call_present. intros H. destruct b.
  - destruct (proj1 H eq_refl) as (v & -> & Hv). by destruct v.
  - destruct (var_get s "tool_call") as [v|]; [|done]. destruct v; try done;
      (assert (false = true) by (apply H; by eexists); done).
Qed.

Lemma revise_plan_goal rounds obs b p : pl_Goal (revise_plan rounds obs b p).1 = pl_Goal p.
Proof. unfold revise_plan. by case_match. Qed.

Lemma revise_all_goal rounds fs p : pl_Goal (revise_all rounds fs p).1 = pl_Goal p.
Proof. revert p. induction fs as [|f fs IH]; intros p; [done|]. simpl. by rewrite IH, revise_plan_goal. Qed.

Section calls.
Context {E : Type} `{!Has (list Plan) E} (r : ReActPlanner) (ctx : context) (goal : string).
Implicit Types (w : World E) (out : PlannerOutput).

Lemma Planner_Plan_eq l s w : w_heap w !! l = Some s ->
  exists out w', Planner_Plan r ctx goal l w = (Ret (Some out, None), w') /\ po_NextNodeID out = ThinkNodeID /\
    holds out w' (initial_plan goal) /\
    exists s', w_heap w' !! po_State out = Some s' /\ var_get s' "goal" = Some (AString goal).
Proof.
  intros Hl. set (w1 := set_ext (set_of (get_of (w_ext w) ++ [initial_plan goal]) (w_ext w)) w).
  unfold Planner_Plan. rewrite (bind_Ret (new_plan (initial_plan goal)) _ (length (get_of (T := list Plan) (w_ext w))) w w1) by done.
  rewrite (bind_Ret _ _ _ _ _ (WithVariable_eq l "goal" (AString goal) s w1 Hl)).
  set (s1 := with_variable "goal" (AString goal) s). set (w2 := set_heap (w_heap w1 ++ [s1]) w1).
  assert (Hl1 : w_heap w2 !! length (w_heap w1) = Some s1) by apply lookup_snoc_eq.
  unfold setPlan. rewrite (bind_Ret _ _ _ _ _ (WithVariable_eq _ "__plan__" (APlan (length (get_of (T := list Plan) (w_ext w)))) s1 w2 Hl1)).
  eexists _, _. split; [reflexivity|]. cbn [po_NextNodeID po_State]. split; [done|].
  assert (Hnew : (w_heap w2 ++ [with_variable "__plan__" (APlan (length (get_of (T := list Plan) (w_ext w)))) s1]) !! length (w_heap w2)
    = Some (with_variable "__plan__" (APlan (length (get_of (T := list Plan) (w_ext w)))) s1)) by apply lookup_snoc_eq.
  split; [|eexists; split; [exact Hnew|]; unfold s1; by rewrite !var_get_with_variable, decide_False, decide_True].
  eexists _, _. split; [exact Hnew|]. unfold getPlan. rewrite var_get_with_variable, decide_True by done. split; [done|].
  unfold plans_of. cbn. rewrite get_set_of. apply lookup_snoc_eq.
Qed.

Lemma Revise_eq obs l s b pl p w :
  w_heap w !! l = Some s -> getPlan s = Some pl -> plans_of w !! pl = Some p -> signals s b ->
  exists out w', Revise r ctx obs l w = (Ret (Some out, None), w') /\
    po_NextNodeID out = (revise_plan (maxRounds r) obs b p).2 /\
    holds out w' (revise_plan (maxRounds r) obs b p).1.
Proof.
  intros Hl Hpl Hp Hb. apply signals_present in Hb as <-. unfold Revise. rewrite (bind_load _ _ _ _ Hl), Hpl.
  rewrite (bind_Ret (load_plan pl) _ p w w).
  2:{ unfold load_plan. rewrite (bind_Ret _ _ (plans_of w) w w) by done. by rewrite Hp. }
  set (out := revise_plan _ _ _ _). set (w1 := set_ext (set_of (<[pl := out.1]> (plans_of w)) (w_ext w)) w).
  rewrite (bind_Ret (store_plan pl out.1) _ tt w w1) by done.
  unfold setPlan. rewrite (bind_Ret _ _ _ _ _ (WithVariable_eq l "__plan__" (APlan pl) s w1 Hl)).
  eexists _, _. split; [reflexivity|]. split; [done|]. eexists _, pl.
  split; [apply lookup_snoc_eq|]. unfold getPlan. rewrite var_get_with_variable, decide_True by done. split; [done|].
  unfold plans_of. cbn. rewrite get_set_of. apply list_lookup_insert_eq. by eapply lookup_lt_Some.
Qed.

Lemma session_holds fs results w : session r ctx goal fs results w ->
  exists outs out, results = (fun o => (Some o, None)) <$> (outs ++ [out]) /\
    po_NextNodeID <$> (outs ++ [out]) = ThinkNodeID :: (revise_all (maxRounds r) fs (initial_plan goal)).2 /\
    holds out w (revise_all (maxRounds r) fs (initial_plan goal)).1.
Proof.
  induction 1 as [l s w res w' Hl Hr|fs results out err w l s w1 obs b res w2 _ IH (Hl & s0 & Hl0 & Hg & Hsame) Hb Hr].
  - destruct (Planner_Plan_eq l s w Hl) as (out & w1 & Hr1 & Hn & Hh & _). rewrite Hr in Hr1. injection Hr1 as -> ->.
    exists [], out. split; [done|]. cbn. by rewrite Hn.
  - destruct IH as (outs & o & Heq & Hn & s1 & pl & Hl1 & Hpl & Hp). rewrite fmap_app in Heq.
    apply app_inj_tail in Heq as [-> [= -> ->]]. rewrite Hl0 in Hl1. injection Hl1 as <-.
    destruct (Revise_eq obs l s b pl _ w1 Hl ltac:(by rewrite Hg) ltac:(by rewrite Hsame) Hb) as (out' & w' & Hr' & Hn' & Hh').
    rewrite Hr in Hr'. injection Hr' as -> ->. exists (outs ++ [o]), out'. rewrite revise_all_snoc. cbn [fst snd].
    split_and!; [by rewrite !fmap_app | | exact Hh'].
    rewrite fmap_app, Hn. cbn. by rewrite Hn'.
Qed.
End calls.

(** A state that encodes has only variables that encode. *)
Lemma marshal_variable pj s doc (m : gmap string any) k v :
  marshal_AgentState pj s = Some doc -> Variables s = Some m -> m !! k = Some v ->
  is_Some (marshal_any pj v).
Proof.
  intros Hm Hv Hk. unfold marshal_AgentState in Hm. rewrite Hv in Hm.
  destruct (marshal_list _ (Messages s)); [|done]. unfold marshal_Variables, marshal_amap in Hm.
  destruct (all_some (keyed (marshal_any pj) <$> map_to_list m)) as [js|] eqn:Hall; [|done].
  apply elem_of_map_to_list in Hk. clear -Hall Hk. revert js Hall.
  remember (k, v) as kv eqn:Hkv; induction Hk as [x l|x [k' v'] l Hk IH]; subst x; intros js Hall; csimpl in Hall; unfold keyed in Hall at 1; simpl in Hall.
  - destruct (marshal_any pj v); [eauto | done].
  - destruct (marshal_any pj v'); [|done]. destruct (all_some _) eqn:H; [|done]. by eapply IH.
Qed.

(** ** Properties *)

(** C26: the planner stops. In every session - [Plan] on a state, then [Revise] with
    any observations on the states that come back, which have the plan that was
    handed out, not written by anybody else - every call returns an output and no
    error. The answers are a thought, then the node the feedback asks for - the
    tool executor when the variable [tool_call] has a value that is not nil, a
    thought for an observation, the terminal for neither - for the first [maxRounds]
    revisions, twenty when none are asked for, and the terminal from the next one
    on. The state of the last output holds the plan, with the goal and, as its
    steps, every answer; and [Revise] returns an output again on what comes back. *)
Theorem Revise_bounded {E} `{!Has (list Plan) E} (n : Z) (ctx : context) (goal : string) (fs : list feedback)
    (results : list (option PlannerOutput * option error)) (w : World E) :
  session (NewReActPlanner n) ctx goal fs results w ->
  let rounds := if (n <=? 0)%Z then 20%Z else n in
  exists outs out, results = (fun o => (Some o, None)) <$> (outs ++ [out]) /\
    po_NextNodeID <$> (outs ++ [out]) = ThinkNodeID :: answers (Z.to_nat rounds) fs /\
    (forall i a, (rounds <= Z.of_nat i)%Z -> answers (Z.to_nat rounds) fs !! i = Some a -> a = TerminalID) /\
    (exists s pl p, w_heap w !! po_State out = Some s /\ var_get s "__plan__" = Some (APlan pl) /\
       plans_of w !! pl = Some p /\ pl_Goal p = goal /\ plan_nodes p = po_NextNodeID <$> (outs ++ [out])) /\
    (forall l s w1 obs b, comes_back out w l s w1 -> signals s b ->
       exists out' w2, Revise (NewReActPlanner n) ctx obs l w1 = (Ret (Some out', None), w2)).
Proof.
  intros Hs rounds. assert (Hpos : (0 <= rounds)%Z) by (unfold rounds; case_match; lia).
  destruct (session_holds _ _ _ _ _ _ Hs) as (outs & out & -> & Hn & s & pl & Hl & Hpl & Hp). fold rounds in Hp.
  change (maxRounds (NewReActPlanner n)) with rounds in *. rewrite (initial_answers goal rounds fs Hpos) in Hn.
  exists outs, out. split_and!; [done | exact Hn | | |].
  - intros i a Hi. apply answers_terminal. lia.
  - exists s, pl, (revise_all rounds fs (initial_plan goal)).1. split_and!; [done | | done | |].
    + unfold getPlan in Hpl. destruct (var_get s "__plan__") as [[]|]; try done. by injection Hpl as ->.
    + apply revise_all_goal.
    + by rewrite revise_all_nodes, Hn, initial_answers.
  - intros l s1 w1 obs b (Hl1 & s0 & Hl0 & Hg & Hsame) Hb. rewrite Hl in Hl0. injection Hl0 as <-.
    destruct (Revise_eq (NewReActPlanner n) ctx obs l s1 b pl _ w1 Hl1 ltac:(by rewrite Hg) ltac:(by rewrite Hsame) Hb)
      as (out' & w2 & Hr & _). by eexists _, _.
Qed.

(** The status marks of a plan are one step behind. After [n] revisions,
    [0 < n <= maxRounds], the step that is Running - the one [CurrentStep] answers
    and the next observation is written to - is not the node that was answered
    last, which is Pending, but the one before it. *)
Theorem plan_marks_lag (goal : string) (rounds : Z) (fs : list feedback) :
  fs <> [] -> (Z.of_nat (length fs) <= rounds)%Z ->
  let p := (revise_all rounds fs (initial_plan goal)).1 in
  let nodes := ThinkNodeID :: (revise_all rounds fs (initial_plan goal)).2 in
  exists cur latest,
    CurrentStep p = Some cur /\ st_Status cur = StepRunning /\
    nodes !! (length fs - 1) = Some (st_NodeID cur) /\
    last (pl_Steps p) = Some latest /\ st_Status latest = StepPending /\
    nodes !! length fs = Some (st_NodeID latest).
Proof.
  intros Hne Hle p nodes. assert (Hs : plan_shape 0 (initial_plan goal)).
  { exists [], [pending_step ThinkNodeID]. split_and!; [done|constructor|done|]. by eexists. }
  pose proof (shape_final 0 rounds fs _ Hs Hle) as Hf. simpl in Hf. fold p in Hf.
  destruct (length fs) as [|k] eqn:Hk; [by destruct fs|].
  destruct Hf as (dn & rest & Hp & Hd & Hlen & a & b & -> & Ha & Hb).
  assert (Hn : plan_nodes p = nodes) by apply revise_all_nodes.
  unfold plan_nodes in Hn. rewrite Hp, fmap_app in Hn. csimpl in Hn.
  exists a, b. split_and!; try done.
  - unfold CurrentStep. rewrite Hp. clear -Hd Ha. induction Hd as [|s dn Hs _ IH]; simpl.
    + by rewrite Ha.
    + by rewrite Hs.
  - rewrite <- Hn. rewrite lookup_app_r; rewrite length_fmap; [|lia].
    by replace (S k - 1 - length dn) with 0 by lia.
  - rewrite Hp. by rewrite last_app.
  - rewrite <- Hn. rewrite lookup_app_r; rewrite length_fmap; [|lia].
    by replace (S k - length dn) with 1 by lia.
Qed.

(** A plan does not survive a save. In a state that was saved and loaded the
    variable [__plan__] is a decoded document, not a plan: [Revise] fails on it,
    whatever the plan was. *)
Theorem plan_lost_after_load {E} `{!Has (list Plan) E} (r : ReActPlanner) (ctx : context) (obs : string)
    (pj : nat -> option json) (s : AgentState) (doc : json) (l : loc) (w : World E) :
  marshal_AgentState pj s = Some doc -> w_heap w !! l = unmarshal_AgentState doc ->
  Revise r ctx obs l w = (Ret (None, Some (ErrNew "ReActPlanner: no active plan in state")), w).
Proof.
  intros Hm Hl. rewrite (unmarshal_marshal_AgentState _ _ _ Hm) in Hl.
  unfold Revise. rewrite (bind_load _ _ _ _ Hl).
  enough (getPlan (norm_AgentState pj s) = None) as -> by done.
  unfold getPlan, var_get. simpl. destruct (Variables s) as [m|] eqn:Hv; simpl; [|done].
  rewrite lookup_fmap. destruct (m !! "__plan__") as [v|] eqn:Hp; simpl; [|done].
  destruct (marshal_variable pj s doc m _ v Hm Hv Hp) as [j Hj].
  rewrite (norm_any_Some _ _ _ Hj). by destruct j.
Qed.

(** ** Witnesses *)

(** A session of two revisions, for a planner of one round: a tool call, then the
    limit. *)
Definition session_world : World (list Plan) := mkWorld [NewState] demo_oracle [].

Definition session_planned : World (list Plan) := (Planner_Plan (NewReActPlanner 1) Background "g" 0 session_world).2.

Definition session_called : World (list Plan) :=
  set_heap (w_heap session_planned ++ [with_variable "tool_call" (AString "t") (with_variable "__plan__" (APlan 0) NewState)])
    session_planned.

Definition session_revised : World (list Plan) := (Revise (NewReActPlanner 1) Background "" 3 session_called).2.

Definition session_outputs : list (option PlannerOutput * option error) :=
  [(Some (mkPlannerOutput ThinkNodeID 2), None); (Some (mkPlannerOutput ToolNodeID 4), None);
   (Some (mkPlannerOutput TerminalID 5), None)].

Lemma Revise_bounded_witness :
  session (NewReActPlanner 1) Background "g" [("", true); ("42", true)] session_outputs
    (Revise (NewReActPlanner 1) Background "42" 4 session_revised).2 /\
  exists outs out, session_outputs = (fun o => (Some o, None)) <$> (outs ++ [out]) /\
    po_NextNodeID <$> (outs ++ [out]) = ThinkNodeID :: answers 1 [("", true); ("42", true)].
Proof.
  assert (Hb : forall s v, var_get s "tool_call" = Some v -> v <> ANil -> signals s true) by (intros s v Hv Hne; split; eauto).
  assert (H : session (NewReActPlanner 1) Background "g" ([("", true)] ++ [("42", true)]) session_outputs
    (Revise (NewReActPlanner 1) Background "42" 4 session_revised).2).
  { eapply (session_revise _ _ _ _ [(Some (mkPlannerOutput ThinkNodeID 2), None)] _ _ session_revised 4 _ session_revised
      _ _ (Some (mkPlannerOutput TerminalID 5), None)).
    - eapply (session_revise _ _ _ [] [] _ _ session_planned 3 _ session_called _ _ (Some (mkPlannerOutput ToolNodeID 4), None)).
      + apply (session_plan _ _ _ 0 NewState session_world); [reflexivity|]. apply run_eq. vm_compute. reflexivity.
      + split; [reflexivity|]. eexists. split; [reflexivity|]. split; [reflexivity|]. by intros pl [= <-].
      + by eapply Hb.
      + apply run_eq. vm_compute. reflexivity.
    - split; [reflexivity|]. eexists. split; [reflexivity|]. by split.
    - by eapply Hb.
    - apply run_eq. vm_compute. reflexivity. }
  split; [exact H|]. destruct (Revise_bounded 1 Background "g" _ _ _ H) as (outs & out & H1 & H2 & _).
  exists outs, out. split; [exact H1 | exact H2].
Defined.

Lemma plan_marks_lag_witness :
  [("", true)] <> [] /\
  exists cur latest,
    CurrentStep (revise_all 3 [("", true)] (initial_plan "g")).1 = Some cur /\
    st_Status cur = StepRunning /\
    (ThinkNodeID :: (revise_all 3 [("", true)] (initial_plan "g")).2) !! 0 = Some (st_NodeID cur) /\
    last (pl_Steps (revise_all 3 [("", true)] (initial_plan "g")).1) = Some latest /\
    st_Status latest = StepPending /\
    (ThinkNodeID :: (revise_all 3 [("", true)] (initial_plan "g")).2) !! 1 = Some (st_NodeID latest).
Proof.
  split; [done|]. apply (plan_marks_lag "g" 3 [("", true)]); [done | simpl; lia].
Defined.

Definition planned_state : AgentState := with_variable "__plan__" (APlan 0) NewState.

Definition planned_world : World (list Plan) :=
  mkWorld [default zero_AgentState
             (unmarshal_AgentState (default JNull (marshal_AgentState (planner_docs _ [initial_plan "g"])
                                                     planned_state)))]
    demo_oracle [initial_plan "g"].

Lemma plan_lost_after_load_witness :
  getPlan planned_state = Some 0 /\
  Revise (NewReActPlanner 3) Background "obs" 0 planned_world
    = (Ret (None, Some (ErrNew "ReActPlanner: no active plan in state")), planned_world).
Proof.
  split; [reflexivity|].
  apply (plan_lost_after_load (NewReActPlanner 3) Background "obs" (planner_docs _ [initial_plan "g"])
    planned_state (default JNull (marshal_AgentState (planner_docs _ [initial_plan "g"]) planned_state)) 0
    planned_world); reflexivity.
Defined.
