(* ===== verification/TaskJson.v ===== *)
(** * core/task.go and interfaces/memory.go on the wire

    The documents of a [Task] and of a [CheckpointMeta], after their struct tags,
    and their round trip. The conventions are the ones of [Json.v]. *)

From S2P Require Import Prelude GoLang Core Json World Interfaces.
From stdpp Require Import base gmap strings list.

(** A string field with [omitempty]. *)
Definition opt_string (key s : string) : list (string * json) :=
  if str_empty s then [] else [(key, JString s)].

Definition marshal_WebhookConfig (w : WebhookConfig) : json :=
  JObj ([("id", JString (wh_ID w)); ("url", JString (wh_URL w))]
        ++ opt_string "secret" (wh_Secret w)
        ++ (if is_nil (wh_EventTypes w) then []
            else [("eventTypes", JArr (JString <$> wh_EventTypes w))])
        ++ (if is_nil (wh_Headers w) then []
            else [("headers", JObj ((fun kv => (kv.1, JString kv.2)) <$> wh_Headers w))])).

Definition marshal_TaskStatus (s : TaskStatus) : json :=
  JObj ([("state", JString (ts_State s)); ("timestamp", JTime (ts_Timestamp s))]
        ++ opt_string "message" (ts_Message s)).

Definition marshal_CheckpointMeta (m : CheckpointMeta) : json :=
  JObj [("CheckpointID", JString (cm_CheckpointID m)); ("SessionID", JString (cm_SessionID m));
        ("CreatedAt", JTime (cm_CreatedAt m))].

Section marshal.
Context (plan_json : nat -> option json).

Definition marshal_Task (t : Task) : option json :=
  match marshal_list (marshal_Message plan_json) (task_History t),
        marshal_list (marshal_Artifact plan_json) (task_Artifacts t),
        omitempty (is_nil (task_Metadata t)) "metadata" (marshal_amap plan_json (task_Metadata t)) with
  | Some hist, Some arts, Some md =>
      Some (JObj (
        [("id", JString (task_ID t)); ("contextId", JString (task_ContextID t))]
        ++ opt_string "tenantId" (task_TenantID t)
        ++ [("status", marshal_TaskStatus (task_Status t)); ("history", hist); ("artifacts", arts)]
        ++ (if is_nil (task_Webhooks t) then []
            else [("webhooks", JArr (marshal_WebhookConfig <$> task_Webhooks t))])
        ++ md
        ++ [("createdAt", JTime (task_CreatedAt t)); ("updatedAt", JTime (task_UpdatedAt t))]))
  | _, _, _ => None
  end.

Definition norm_Task (t : Task) : Task :=
  mkTask (task_ID t) (task_ContextID t) (task_TenantID t) (task_Status t)
    (norm_Message plan_json <$> task_History t) (norm_Artifact plan_json <$> task_Artifacts t)
    (task_Webhooks t) (norm_amap plan_json (task_Metadata t)) (task_CreatedAt t) (task_UpdatedAt t).
End marshal.

Definition dec_header (kv : string * json) : option (string * string) := keyed dec_string kv.

Definition dec_headers (j : json) : option (list (string * string)) :=
  match j with JObj m => all_some (dec_header <$> m) | _ => None end.

Definition dec_WebhookConfig (j : json) : option WebhookConfig :=
  match j with
  | JObj m =>
      match field "" dec_string "id" m, field "" dec_string "url" m, field "" dec_string "secret" m,
            field [] (dec_list dec_string) "eventTypes" m, field [] dec_headers "headers" m with
      | Some i, Some u, Some s, Some e, Some h => Some (mkWebhookConfig i u s e h)
      | _, _, _, _, _ => None
      end
  | _ => None
  end.

Definition dec_TaskStatus (j : json) : option TaskStatus :=
  match j with
  | JObj m =>
      match field "" dec_string "state" m, field zero_Time dec_time "timestamp" m,
            field "" dec_string "message" m with
      | Some s, Some t, Some msg => Some (mkTaskStatus s t msg)
      | _, _, _ => None
      end
  | _ => None
  end.

(** [core.TaskStatus{}]. *)
Definition zero_TaskStatus : TaskStatus := mkTaskStatus "" zero_Time "".

Definition unmarshal_Task (j : json) : option Task :=
  match j with
  | JObj m =>
      match field "" dec_string "id" m, field "" dec_string "contextId" m,
            field "" dec_string "tenantId" m, field zero_TaskStatus dec_TaskStatus "status" m,
            field [] (dec_list dec_Message) "history" m,
            field [] (dec_list dec_Artifact) "artifacts" m,
            field [] (dec_list dec_WebhookConfig) "webhooks" m, field [] dec_amap "metadata" m,
            field zero_Time dec_time "createdAt" m, field zero_Time dec_time "updatedAt" m with
      | Some i, Some c, Some tn, Some st, Some h, Some a, Some w, Some md, Some cr, Some up =>
          Some (mkTask i c tn st h a w md cr up)
      | _, _, _, _, _, _, _, _, _, _ => None
      end
  | _ => None
  end.

Definition unmarshal_CheckpointMeta (j : json) : option CheckpointMeta :=
  match j with
  | JObj m =>
      match field "" dec_string "CheckpointID" m, field "" dec_string "SessionID" m,
            field zero_Time dec_time "CreatedAt" m with
      | Some c, Some s, Some t => Some (mkCheckpointMeta c s t)
      | _, _, _ => None
      end
  | _ => None
  end.

(** ** Lemmas *)

Lemma unmarshal_marshal_CheckpointMeta m :
  unmarshal_CheckpointMeta (marshal_CheckpointMeta m) = Some m.
Proof. by destruct m. Qed.

Lemma dec_strings l : dec_list dec_string (JArr (JString <$> l)) = Some l.
Proof.
  simpl. rewrite <- list_fmap_compose. rewrite (all_some_fmap _ id) by done.
  by rewrite list_fmap_id.
Qed.

Lemma dec_marshal_headers h :
  dec_headers (JObj ((fun kv => (kv.1, JString kv.2)) <$> h)) = Some h.
Proof.
  simpl. rewrite <- list_fmap_compose. rewrite (all_some_fmap _ id); [by rewrite list_fmap_id|].
  by intros [k v] _.
Qed.

Lemma is_nil_true {A} (l : list A) : is_nil l = true -> l = [].
Proof. by destruct l. Qed.

Lemma dec_marshal_WebhookConfig w : dec_WebhookConfig (marshal_WebhookConfig w) = Some w.
Proof.
  destruct w as [i u s e h]. unfold marshal_WebhookConfig, opt_string, dec_WebhookConfig, field.
  cbn [wh_ID wh_URL wh_Secret wh_EventTypes wh_Headers].
  destruct (str_empty s) eqn:Hs; try (apply str_empty_true in Hs; subst s);
  destruct (is_nil e) eqn:He; try (apply is_nil_true in He; subst e);
  destruct (is_nil h) eqn:Hh; try (apply is_nil_true in Hh; subst h);
  cbn -[dec_list dec_headers]; rewrite ?dec_strings, ?dec_marshal_headers; done.
Qed.

Lemma dec_marshal_TaskStatus s : dec_TaskStatus (marshal_TaskStatus s) = Some s.
Proof.
  destruct s as [st t m]. unfold marshal_TaskStatus, opt_string, dec_TaskStatus, field.
  cbn [ts_State ts_Timestamp ts_Message].
  destruct (str_empty m) eqn:Hm; [apply str_empty_true in Hm; subst m|]; done.
Qed.

Section lemmas.
Context (plan_json : nat -> option json).

Lemma dec_marshal_webhooks l :
  dec_list dec_WebhookConfig (JArr (marshal_WebhookConfig <$> l)) = Some l.
Proof.
  simpl. rewrite <- list_fmap_compose. rewrite (all_some_fmap _ id); [by rewrite list_fmap_id|].
  intros w _. apply dec_marshal_WebhookConfig.
Qed.

Lemma marshal_TaskStatus_obj s : exists o, marshal_TaskStatus s = JObj o.
Proof. by eexists. Qed.

Lemma unmarshal_marshal_Task t j :
  marshal_Task plan_json t = Some j -> unmarshal_Task j = Some (norm_Task plan_json t).
Proof.
  destruct t as [i c tn st h a wh md cr up]. unfold marshal_Task, norm_Task, omitempty, opt_string.
  cbn -[marshal_amap marshal_list marshal_TaskStatus].
  destruct (marshal_list (marshal_Message plan_json) h) as [hj|] eqn:Hh; [|done].
  destruct (marshal_list (marshal_Artifact plan_json) a) as [aj|] eqn:Ha; [|done].
  destruct (dec_marshal_list _ _ _ _ _ Hh (fun x y _ => dec_marshal_Message plan_json x y)) as (js & -> & H1).
  destruct (dec_marshal_list _ _ _ _ _ Ha (fun x y _ => dec_marshal_Artifact plan_json x y)) as (js' & -> & H2).
  destruct (marshal_TaskStatus_obj st) as [so Hso]. pose proof (dec_marshal_TaskStatus st) as Hst.
  rewrite Hso in *.
  destruct (str_empty tn) eqn:Htn; try (apply str_empty_true in Htn; subst tn);
  destruct (is_nil wh) eqn:Hwh; try (apply is_nil_true in Hwh; subst wh);
  destruct (is_nil md) eqn:Hmd; try (apply is_nil_true in Hmd; subst md);
  try (destruct (marshal_amap plan_json md) as [mj|] eqn:Hm; [|done];
       destruct (marshal_amap_obj plan_json _ _ Hm) as [mo ->]; apply dec_marshal_amap in Hm);
  intros; simplify_eq; unfold unmarshal_Task, field;
  cbn -[dec_amap dec_list dec_TaskStatus]; rewrite ?Hst, ?H1, ?H2, ?dec_marshal_webhooks, ?Hm; done.
Qed.
End lemmas.
