(* ===== verification/Storage.v ===== *)
(** * Package storage: the Redis stores

    [storage/redis_store.go] and [storage/task_store.go]. The server and the
    go-redis client are not part of the program: [RedisClient] is a parameter and
    [RedisLaws] says what the stores rely on, one server, no expiry, on a database
    of strings, lists and sorted sets. A value is a document ([VDoc]) or a plain
    text ([VStr]). [pruneCheckpoints] runs in a goroutine of its own: it is an
    operation apart, not a part of [Save]. *)

From S2P Require Import Prelude GoLang Core Json World Interfaces Memory TaskJson.
From stdpp Require Import base gmap strings list fin_maps.

#[local] Open Scope go_scope.

(** ** The interface to Redis *)

Inductive redis_value := VDoc (j : json) | VStr (s : string).

(** The commands the program queues in a pipeline. *)
Inductive redis_cmd :=
  | CSet (key : string) (value : redis_value) (ttl : Duration)
  | CRPush (key : string) (value : redis_value)
  | CZAdd (key : string) (score : float64) (member : redis_value).

(** [RedisClient]. The closures given to [TxExec] only queue commands, and a
    queued command reports no error: [rc_TxExec] gets the commands. *)
Record RedisClient (E : Type) := mkRedisClient {
  rc_Get : context -> string -> M E (redis_value * option error);
  rc_RPush : context -> string -> redis_value -> M E (option error);
  rc_LRange : context -> string -> Z -> Z -> M E (list redis_value * option error);
  rc_LTrim : context -> string -> Z -> Z -> M E (option error);
  rc_ZRange : context -> string -> Z -> Z -> M E (list redis_value * option error);
  rc_ZRemRangeByRank : context -> string -> Z -> Z -> M E (option error);
  rc_TxExec : context -> list redis_cmd -> M E (option error);
}.

Arguments mkRedisClient {E}.
Arguments rc_Get {E} r.
Arguments rc_RPush {E} r.
Arguments rc_LRange {E} r.
Arguments rc_LTrim {E} r.
Arguments rc_ZRange {E} r.
Arguments rc_ZRemRangeByRank {E} r.
Arguments rc_TxExec {E} r.

Definition ErrRedisKeyNotFound : error := ErrNew "redis: key not found".

Definition ErrWrongType : error :=
  ErrNew "WRONGTYPE Operation against a key holding the wrong kind of value".

(** [json.Unmarshal([]byte(raw), ...)]. *)
Definition doc_of (v : redis_value) : option json :=
  match v with VDoc j => Some j | VStr _ => None end.

Definition str_of (v : redis_value) : string :=
  match v with VDoc _ => "" | VStr s => s end.

(** [ctx.Value("tenantID").(string)], or [default]. *)
Definition tenantFromCtx (ctx : context) : string :=
  match as_string (ctx_Value ctx (KString "tenantID")) with Some v => v | None => "default" end.

(** ** storage/redis_store.go *)

Record RedisMemoryStoreOptions := mkRedisMemoryStoreOptions {
  opt_KeyPrefix : string;
  opt_StateTTL : Duration;
  opt_MaxCheckpoints : Z;
  opt_MaxMessages : Z;
}.

Record RedisMemoryStore (E : Type) := mkRedisMemoryStore {
  client : RedisClient E;
  keyPrefix : string;
  stateTTL : Duration;
  maxCheckpoints : Z;
  maxMessages : Z;
}.

Arguments mkRedisMemoryStore {E}.
Arguments client {E} r.
Arguments keyPrefix {E} r.
Arguments stateTTL {E} r.
Arguments maxCheckpoints {E} r.
Arguments maxMessages {E} r.

Definition or_default (zero z : Z) : Z := if (z =? 0)%Z then zero else z.

Definition or_prefix (p : string) : string := if bool_decide (p = "") then "fluxgraph" else p.

Definition NewRedisMemoryStore {E} (c : RedisClient E) (opts : RedisMemoryStoreOptions) :
    RedisMemoryStore E :=
  mkRedisMemoryStore c (or_prefix (opt_KeyPrefix opts)) (or_default (24 * Hour) (opt_StateTTL opts))
    (or_default 50 (opt_MaxCheckpoints opts)) (or_default 200 (opt_MaxMessages opts)).

Definition stateKey (prefix tenantID sessionID : string) : string :=
  prefix +:+ ":" +:+ tenantID +:+ ":" +:+ sessionID +:+ ":state".

Definition ckptIndexKey (prefix tenantID sessionID : string) : string :=
  prefix +:+ ":" +:+ tenantID +:+ ":" +:+ sessionID +:+ ":ckpts".

Definition ckptDataKey (prefix checkpointID : string) : string :=
  prefix +:+ ":ckpt:" +:+ checkpointID.

Definition messagesKey (prefix tenantID sessionID : string) : string :=
  prefix +:+ ":" +:+ tenantID +:+ ":" +:+ sessionID +:+ ":msgs".

(** [float64(t.UnixMilli())]. *)
Definition score_of (t : Z) : float64 := float_of_Z (UnixMilli t).

Section memory.
Context {E : Type} `{!PlanDocs E} (st : RedisMemoryStore E).

(** The commands of the pipeline of [Save]. *)
Definition save_cmds (tenantID sessionID ckptID : string) (now : Z) (data : json) : list redis_cmd :=
  [CSet (stateKey (keyPrefix st) tenantID sessionID) (VDoc data) (stateTTL st);
   CSet (ckptDataKey (keyPrefix st) ckptID) (VDoc data) (int64 (stateTTL st * 2));
   CZAdd (ckptIndexKey (keyPrefix st) tenantID sessionID) (score_of now)
     (VDoc (marshal_CheckpointMeta (mkCheckpointMeta ckptID sessionID now)))].

Definition Redis_Save (ctx : context) (sessionID : string) (state : loc) : M E (string * option error) :=
  let tenantID := tenantFromCtx ctx in
  ckptID <- uuid_New ;;
  t <- now ;;
  data <- json_Marshal state ;;
  match data with
  | None => ret ("", Some ErrMarshal)
  | Some data =>
      err <- rc_TxExec (client st) ctx (save_cmds tenantID sessionID ckptID t data) ;;
      match err with
      | Some e => ret ("", Some e)
      | None => ret (ckptID, None)
      end
  end.

Definition pruneCheckpoints (ctx : context) (tenantID sessionID : string) : M E unit :=
  rc_ZRemRangeByRank (client st) ctx (ckptIndexKey (keyPrefix st) tenantID sessionID) 0
    (int64 (- maxCheckpoints st - 1)) ;;
  ret tt.

(** The common end of [Load] and [LoadCheckpoint]. *)
Definition decode_state (missing : string) (got : redis_value * option error) :
    M E (option loc * option error) :=
  match got.2 with
  | Some err => ret (None, Some (if errors_Is err ErrRedisKeyNotFound then ErrNew missing else err))
  | None =>
      match doc_of got.1 with
      | None => ret (None, Some ErrUnmarshal)
      | Some data => json_Unmarshal data
      end
  end.

Definition Redis_Load (ctx : context) (sessionID : string) : M E (option loc * option error) :=
  raw <- rc_Get (client st) ctx (stateKey (keyPrefix st) (tenantFromCtx ctx) sessionID) ;;
  decode_state ("session " +:+ sessionID +:+ " not found") raw.

Definition Redis_LoadCheckpoint (ctx : context) (checkpointID : string) :
    M E (option loc * option error) :=
  raw <- rc_Get (client st) ctx (ckptDataKey (keyPrefix st) checkpointID) ;;
  decode_state ("checkpoint " +:+ checkpointID +:+ " not found") raw.

(** Members that do not decode are skipped; the list is reversed. *)
Definition metas_of (members : list redis_value) : list CheckpointMeta :=
  reverse (omap (fun m => doc_of m ≫= unmarshal_CheckpointMeta) members).

Definition Redis_ListCheckpoints (ctx : context) (sessionID : string) :
    M E (list CheckpointMeta * option error) :=
  let* (members, err) :=
    rc_ZRange (client st) ctx (ckptIndexKey (keyPrefix st) (tenantFromCtx ctx) sessionID) 0 (-1) in
  match err with
  | Some e => ret ([], Some e)
  | None => ret (metas_of members, None)
  end.

(** The loop of [AppendMessages]. *)
Fixpoint push_messages (ctx : context) (key : string) (messages : list Message) : M E (option error) :=
  match messages with
  | [] => ret None
  | msg :: rest =>
      fun w =>
        (match marshal_Message (plan_doc (w_ext w)) msg with
         | None => ret (Some ErrMarshal)
         | Some b =>
             err <- rc_RPush (client st) ctx key (VDoc b) ;;
             match err with
             | Some e => ret (Some e)
             | None => push_messages ctx key rest
             end
         end) w
  end.

Definition Redis_AppendMessages (ctx : context) (sessionID : string) (messages : list Message) :
    M E (option error) :=
  let key := messagesKey (keyPrefix st) (tenantFromCtx ctx) sessionID in
  err <- push_messages ctx key messages ;;
  match err with
  | Some e => ret (Some e)
  | None => rc_LTrim (client st) ctx key (int64 (- maxMessages st)) (-1)
  end.

Definition Redis_Search (ctx : context) (sessionID query : string) (topK : Z) :
    M E (list Message * option error) := ret ([], None).

Definition RedisMemory : MemoryStore E :=
  mkMemoryStore Redis_Save Redis_Load Redis_LoadCheckpoint Redis_ListCheckpoints
    Redis_AppendMessages Redis_Search.
End memory.

(** ** storage/task_store.go *)

Record RedisTaskStore (E : Type) := mkRedisTaskStore {
  tclient : RedisClient E;
  tkeyPrefix : string;
  ttl : Duration;
}.

Arguments mkRedisTaskStore {E}.
Arguments tclient {E} r.
Arguments tkeyPrefix {E} r.
Arguments ttl {E} r.

Definition NewRedisTaskStore {E} (c : RedisClient E) (prefix : string) (t : Duration) :
    RedisTaskStore E :=
  mkRedisTaskStore c (or_prefix prefix) (or_default (168 * Hour) t).

Definition taskKey (prefix tenantID taskID : string) : string :=
  prefix +:+ ":" +:+ tenantID +:+ ":task:" +:+ taskID.

Definition historyKey (prefix tenantID taskID : string) : string :=
  prefix +:+ ":" +:+ tenantID +:+ ":task:" +:+ taskID +:+ ":history".

Definition artifactsKey (prefix tenantID taskID : string) : string :=
  prefix +:+ ":" +:+ tenantID +:+ ":task:" +:+ taskID +:+ ":artifacts".

Definition contextKey (prefix tenantID contextID : string) : string :=
  prefix +:+ ":" +:+ tenantID +:+ ":context:" +:+ contextID +:+ ":tasks".

Definition tenantIndexKey (prefix tenantID : string) : string :=
  prefix +:+ ":" +:+ tenantID +:+ ":tasks".

Section tasks.
Context {E : Type} `{!PlanDocs E} (ts : RedisTaskStore E).

(** [json.Marshal] of a value that holds no plan pointer of its own. *)
Definition marshal_with {A} (enc : (nat -> option json) -> A -> option json) (a : A) : M E (option json) :=
  fun w => (Ret (enc (plan_doc (w_ext w)) a), w).

Definition create_cmds (tenantID : string) (task : Task) (data : json) : list redis_cmd :=
  [CSet (taskKey (tkeyPrefix ts) tenantID (task_ID task)) (VDoc data) (ttl ts)]
  ++ (if bool_decide (task_ContextID task = "") then []
      else [CRPush (contextKey (tkeyPrefix ts) tenantID (task_ContextID task)) (VStr (task_ID task))])
  ++ [CZAdd (tenantIndexKey (tkeyPrefix ts) tenantID) (score_of (task_UpdatedAt task))
        (VStr (task_ID task))].

Definition Create (ctx : context) (task : Task) : M E (option error) :=
  let tenantID := if bool_decide (task_TenantID task = "") then "default" else task_TenantID task in
  data <- marshal_with marshal_Task task ;;
  match data with
  | None => ret (Some ErrMarshal)
  | Some data => rc_TxExec (tclient ts) ctx (create_cmds tenantID task data)
  end.

Definition GetByID (ctx : context) (taskID : string) : M E (option Task * option error) :=
  let* (raw, err) := rc_Get (tclient ts) ctx (taskKey (tkeyPrefix ts) (tenantFromCtx ctx) taskID) in
  match err with
  | Some e =>
      ret (None, Some (if errors_Is e ErrRedisKeyNotFound
                       then ErrNew ("task " +:+ taskID +:+ " not found") else e))
  | None =>
      match doc_of raw ≫= unmarshal_Task with
      | None => ret (None, Some ErrUnmarshal)
      | Some task => ret (Some task, None)
      end
  end.

(** The common end of [UpdateStatus] and [AddWebhook]. *)
Definition rewrite_task (ctx : context) (taskID : string) (task : Task) : M E (option error) :=
  let tenantID := tenantFromCtx ctx in
  data <- marshal_with marshal_Task task ;;
  match data with
  | None => ret (Some ErrMarshal)
  | Some data =>
      rc_TxExec (tclient ts) ctx
        [CSet (taskKey (tkeyPrefix ts) tenantID taskID) (VDoc data) (ttl ts);
         CZAdd (tenantIndexKey (tkeyPrefix ts) tenantID) (score_of (task_UpdatedAt task)) (VStr taskID)]
  end.

Definition with_task_status (status : TaskStatus) (t : Z) (task : Task) : Task :=
  mkTask (task_ID task) (task_ContextID task) (task_TenantID task) status (task_History task)
    (task_Artifacts task) (task_Webhooks task) (task_Metadata task) (task_CreatedAt task) t.

Definition with_webhook (config : WebhookConfig) (t : Z) (task : Task) : Task :=
  mkTask (task_ID task) (task_ContextID task) (task_TenantID task) (task_Status task)
    (task_History task) (task_Artifacts task) (task_Webhooks task ++ [config]) (task_Metadata task)
    (task_CreatedAt task) t.

Definition UpdateStatus (ctx : context) (taskID : string) (status : TaskStatus) : M E (option error) :=
  let* (task, err) := GetByID ctx taskID in
  match err with
  | Some e => ret (Some e)
  | None =>
      task <- deref task ;;
      t <- now ;;
      rewrite_task ctx taskID (with_task_status status t task)
  end.

Definition AddWebhook (ctx : context) (taskID : string) (config : WebhookConfig) : M E (option error) :=
  let* (task, err) := GetByID ctx taskID in
  match err with
  | Some e => ret (Some e)
  | None =>
      task <- deref task ;;
      t <- now ;;
      rewrite_task ctx taskID (with_webhook config t task)
  end.

Definition AppendMessage (ctx : context) (taskID : string) (message : Message) : M E (option error) :=
  let key := historyKey (tkeyPrefix ts) (tenantFromCtx ctx) taskID in
  data <- marshal_with marshal_Message message ;;
  match data with
  | None => ret (Some ErrMarshal)
  | Some data => rc_RPush (tclient ts) ctx key (VDoc data)
  end.

Definition AppendArtifact (ctx : context) (taskID : string) (artifact : Artifact) : M E (option error) :=
  let key := artifactsKey (tkeyPrefix ts) (tenantFromCtx ctx) taskID in
  data <- marshal_with marshal_Artifact artifact ;;
  match data with
  | None => ret (Some ErrMarshal)
  | Some data => rc_RPush (tclient ts) ctx key (VDoc data)
  end.

(** The loop over the identifiers: a task that is not found is skipped. *)
Fixpoint get_tasks (ctx : context) (ids : list string) : M E (list Task) :=
  match ids with
  | [] => ret []
  | id :: rest =>
      let* (t, err) := GetByID ctx id in
      others <- get_tasks ctx rest ;;
      ret (match err, t with None, Some t => t :: others | _, _ => others end)
  end.

Definition ListByContextID (ctx : context) (contextID : string) : M E (list Task * option error) :=
  let* (ids, err) :=
    rc_LRange (tclient ts) ctx (contextKey (tkeyPrefix ts) (tenantFromCtx ctx) contextID) 0 (-1) in
  match err with
  | Some e => ret ([], Some e)
  | None => tasks <- get_tasks ctx (str_of <$> ids) ;; ret (tasks, None)
  end.

(** The index is the one of [tenantID]; each task is read with the tenant of the
    context. *)
Definition ListByTenantID (ctx : context) (tenantID : string) (limit : Z) (cursor : string) :
    M E (list Task * string * option error) :=
  let* (ids, err) :=
    rc_ZRange (tclient ts) ctx (tenantIndexKey (tkeyPrefix ts) tenantID) 0 (int64 (limit - 1)) in
  match err with
  | Some e => ret ([], "", Some e)
  | None => tasks <- get_tasks ctx (str_of <$> ids) ;; ret (tasks, "", None)
  end.

Definition RedisTasks : TaskStore E :=
  mkTaskStore Create GetByID UpdateStatus AppendMessage AppendArtifact AddWebhook ListByContextID
    ListByTenantID.
End tasks.

(** ** What the stores rely on *)

Inductive redis_entry :=
  | EString (v : redis_value)
  | EList (l : list redis_value)
  | EZSet (z : list (float64 * redis_value)).

Abbreviation redis_db := (gmap string redis_entry).

(** A command of a pipeline on the database, with its error. A sorted set keeps
    its members and gets the new one; their order is the server's. *)
Inductive exec_cmd : redis_cmd -> redis_db -> option error -> redis_db -> Prop :=
  | exec_set key v ttl db : exec_cmd (CSet key v ttl) db None (<[key := EString v]> db)
  | exec_rpush_new key v db :
      db !! key = None -> exec_cmd (CRPush key v) db None (<[key := EList [v]]> db)
  | exec_rpush key v l db :
      db !! key = Some (EList l) -> exec_cmd (CRPush key v) db None (<[key := EList (l ++ [v])]> db)
  | exec_zadd_new key score m db :
      db !! key = None -> exec_cmd (CZAdd key score m) db None (<[key := EZSet [(score, m)]]> db)
  | exec_zadd key score m z z' db :
      db !! key = Some (EZSet z) -> (forall x, x ∈ z'.*2 <-> x = m \/ x ∈ z.*2) ->
      exec_cmd (CZAdd key score m) db None (<[key := EZSet z']> db)
  | exec_wrong cmd db err : exec_cmd cmd db (Some err) db.

(** All the commands run; the first error is the error of the pipeline. *)
Inductive exec_cmds : list redis_cmd -> redis_db -> option error -> redis_db -> Prop :=
  | exec_nil db : exec_cmds [] db None db
  | exec_cons cmd cmds db err db1 errs db2 :
      exec_cmd cmd db err db1 -> exec_cmds cmds db1 errs db2 ->
      exec_cmds (cmd :: cmds) db (match err with Some e => Some e | None => errs end) db2.

Definition get_answer (e : option redis_entry) : redis_value * option error :=
  match e with
  | Some (EString v) => (v, None)
  | Some _ => (VStr "", Some ErrWrongType)
  | None => (VStr "", Some ErrRedisKeyNotFound)
  end.

(** A client of one server whose database is [db_of]: [GET] answers from it, a
    pipeline executes its commands on it, [RPUSH] is a pipeline of one; nothing
    writes the states. *)
Class RedisLaws {E} (c : RedisClient E) (db_of : E -> redis_db) : Prop := {
  law_get : forall ctx key w, rc_Get c ctx key w = (Ret (get_answer (db_of (w_ext w) !! key)), w);
  law_tx : forall ctx cmds w, exists err w',
    rc_TxExec c ctx cmds w = (Ret err, w') /\
    exec_cmds cmds (db_of (w_ext w)) err (db_of (w_ext w')) /\ w_heap w' = w_heap w;
  law_rpush : forall ctx key v w, exists err w',
    rc_RPush c ctx key v w = (Ret err, w') /\
    exec_cmds [CRPush key v] (db_of (w_ext w)) err (db_of (w_ext w')) /\ w_heap w' = w_heap w;
}.

Definition no_colon (s : string) : Prop := forall a b, s <> (a +:+ ":" +:+ b).

(** ** Lemmas: keys *)

#[local] Arguments String.append !s1 s2 /.

Lemma no_colon_cons a s : no_colon (String a s) -> no_colon s.
Proof. intros H x y ->. by apply (H (String a x) y). Qed.

Lemma colon_split t1 t2 s1 s2 :
  no_colon t1 -> no_colon t2 -> (t1 +:+ ":" +:+ s1) = (t2 +:+ ":" +:+ s2) -> t1 = t2 /\ s1 = s2.
Proof.
  revert t2. induction t1 as [|a t1 IH]; intros [|b t2] H1 H2 H; simpl in H.
  - injection H as ->. done.
  - injection H as <- ->. exfalso. by apply (H2 "" t2).
  - injection H as -> H. exfalso. by apply (H1 "" t1).
  - injection H as -> H. destruct (IH t2) as [-> ->]; eauto using no_colon_cons.
Qed.

(** The keys of the program start with the prefix and a colon. *)
Lemma prefix_inj (p a b : string) : (p +:+ ":" +:+ a) = (p +:+ ":" +:+ b) -> a = b.
Proof. intros H%append_inj_l. simpl in H. by injection H. Qed.

Lemma stateKey_shape p t s : stateKey p t s = (p +:+ ":" +:+ ((t +:+ ":" +:+ s) +:+ ":state")).
Proof. unfold stateKey. by rewrite !append_assoc. Qed.

Lemma ckptIndexKey_shape p t s : ckptIndexKey p t s = ((p +:+ ":" +:+ t +:+ ":" +:+ s) +:+ ":ckpts").
Proof. unfold ckptIndexKey. by rewrite !append_assoc. Qed.

Lemma stateKey_eq p t1 s1 t2 s2 :
  stateKey p t1 s1 = stateKey p t2 s2 <-> (t1 +:+ ":" +:+ s1) = (t2 +:+ ":" +:+ s2).
Proof.
  rewrite !stateKey_shape. split; [|by intros ->]. by intros ?%prefix_inj%append_inj_r.
Qed.

Lemma stateKey_ckptIndexKey p t s t' s' : stateKey p t s <> ckptIndexKey p t' s'.
Proof.
  rewrite stateKey_shape, ckptIndexKey_shape. rewrite <- (append_assoc ":"), <- append_assoc.
  intros H. by apply append_ends in H.
Qed.

Lemma stateKey_ckptDataKey p t s id : no_colon t -> no_colon id -> stateKey p t s <> ckptDataKey p id.
Proof.
  intros Ht Hid H. unfold ckptDataKey in H. rewrite stateKey_shape in H.
  change (":ckpt:" +:+ id) with (":" +:+ ("ckpt" +:+ ":" +:+ id)) in H.
  apply prefix_inj in H. rewrite append_assoc in H. change (":" +:+ s) with (":" +:+ s) in H.
  rewrite append_assoc in H. apply colon_split in H as [_ H]; [|done|].
  - by apply (Hid s "state").
  - intros a b. clear. destruct a as [|? [|? [|? [|? [|? a]]]]]; simpl; intros H; by simplify_eq.
Qed.

Lemma artifactsKey_taskKey p t id : artifactsKey p t id <> taskKey p t id.
Proof.
  unfold artifactsKey, taskKey. intros H. do 4 apply append_inj_l in H.
  apply (f_equal String.length) in H. rewrite length_append in H. simpl in H. lia.
Qed.

Lemma historyKey_taskKey p t id : historyKey p t id <> taskKey p t id.
Proof.
  unfold historyKey, taskKey. intros H. do 4 apply append_inj_l in H.
  apply (f_equal String.length) in H. rewrite length_append in H. simpl in H. lia.
Qed.

(** ** Lemmas: pipelines *)

Definition cmd_key (c : redis_cmd) : string :=
  match c with CSet k _ _ => k | CRPush k _ => k | CZAdd k _ _ => k end.

Lemma exec_cmd_other cmd db err db' key :
  exec_cmd cmd db err db' -> key <> cmd_key cmd -> db' !! key = db !! key.
Proof. intros []; simpl; intros; by rewrite ?lookup_insert_ne. Qed.

Lemma exec_cmds_other cmds db err db' key :
  exec_cmds cmds db err db' -> key ∉ cmd_key <$> cmds -> db' !! key = db !! key.
Proof.
  induction 1 as [|cmd cmds db err db1 errs db2 H1 _ IH]; intros Hk; [done|].
  csimpl in Hk. apply not_elem_of_cons in Hk as [Hne Hk].
  rewrite IH by done. by eapply exec_cmd_other.
Qed.

Lemma exec_cmds_ok cmd cmds db db' :
  exec_cmds (cmd :: cmds) db None db' ->
  exists db1, exec_cmd cmd db None db1 /\ exec_cmds cmds db1 None db'.
Proof. inversion 1; subst. case_match; simplify_eq. eauto. Qed.

Lemma exec_set_inv key v t db db' : exec_cmd (CSet key v t) db None db' -> db' = <[key := EString v]> db.
Proof. by inversion 1. Qed.

Lemma exec_zadd_inv key score m db db' :
  exec_cmd (CZAdd key score m) db None db' ->
  exists z z', db' = <[key := EZSet z']> db /\ (db !! key = None \/ db !! key = Some (EZSet z)).
Proof. inversion 1; subst; [exists [] | eexists]; eexists; eauto. Qed.

(** A [SET] followed by a [ZADD] of another key. *)
Lemma exec_set_kept key v t key' score m db db' :
  exec_cmds [CSet key v t; CZAdd key' score m] db None db' -> db' !! key = Some (EString v).
Proof.
  intros (db1 & H1%exec_set_inv & H2)%exec_cmds_ok. subst db1.
  apply exec_cmds_ok in H2 as (db2 & H2%exec_zadd_inv & H3). inversion H3; subst.
  destruct H2 as (z & z' & -> & Hor). destruct (decide (key = key')) as [<-|Hne].
  - rewrite lookup_insert_eq in Hor. naive_solver.
  - by rewrite lookup_insert_ne, lookup_insert_eq.
Qed.

(** After the pipeline of a save without error. *)
Lemma save_cmds_ok {E} (st : RedisMemoryStore E) t sid id now doc db db' :
  exec_cmds (save_cmds st t sid id now doc) db None db' ->
  db' !! stateKey (keyPrefix st) t sid = Some (EString (VDoc doc)) /\
  db' !! ckptDataKey (keyPrefix st) id = Some (EString (VDoc doc)) /\
  forall key, key <> stateKey (keyPrefix st) t sid -> key <> ckptDataKey (keyPrefix st) id ->
    key <> ckptIndexKey (keyPrefix st) t sid -> db' !! key = db !! key.
Proof.
  intros Hex. split_and!.
  - apply exec_cmds_ok in Hex as (db1 & H1%exec_set_inv & H2). subst db1.
    apply exec_cmds_ok in H2 as (db2 & H2%exec_set_inv & H3). subst db2.
    assert (Hk : stateKey (keyPrefix st) t sid ∉ cmd_key <$> [CZAdd (ckptIndexKey (keyPrefix st) t sid)
      (score_of now) (VDoc (marshal_CheckpointMeta (mkCheckpointMeta id sid now)))]).
    { csimpl. intros H%list_elem_of_singleton. by apply stateKey_ckptIndexKey in H. }
    rewrite (exec_cmds_other _ _ _ _ _ H3 Hk).
    destruct (decide (stateKey (keyPrefix st) t sid = ckptDataKey (keyPrefix st) id)) as [->|Hne].
    + by rewrite lookup_insert_eq.
    + by rewrite lookup_insert_ne, lookup_insert_eq.
  - apply exec_cmds_ok in Hex as (db1 & _ & H2). by eapply exec_set_kept.
  - intros key H1 H2 H3. eapply exec_cmds_other; [done|]. csimpl. set_solver.
Qed.

Section memory_lemmas.
Context {E : Type} `{!PlanDocs E} (st : RedisMemoryStore E) (db_of : E -> redis_db)
  `{!RedisLaws (client st) db_of}.
Implicit Types w : World E.

Lemma Redis_Load_eq ctx sid w :
  Redis_Load st ctx sid w =
  decode_state ("session " +:+ sid +:+ " not found")
    (get_answer (db_of (w_ext w) !! stateKey (keyPrefix st) (tenantFromCtx ctx) sid)) w.
Proof. unfold Redis_Load. by rewrite (bind_Ret _ _ _ _ _ (law_get (db_of := db_of) _ _ _)). Qed.

Lemma decode_doc missing doc s w :
  unmarshal_AgentState doc = Some s -> decode_state missing (VDoc doc, None) w = loaded s w.
Proof. intros. by apply json_Unmarshal_eq. Qed.

Lemma Redis_Save_eq ctx sid l s doc w :
  w_heap w !! l = Some s -> marshal_AgentState (plan_doc (w_ext w)) s = Some doc ->
  let o := w_orc w in
  let id := or_uuid o (or_tick o) in
  let t := or_now o (S (or_tick o)) in
  exists err w1, Redis_Save st ctx sid l w = (Ret (match err with Some _ => "" | None => id end, err), w1) /\
    exec_cmds (save_cmds st (tenantFromCtx ctx) sid id t doc) (db_of (w_ext w)) err (db_of (w_ext w1)) /\
    w_heap w1 = w_heap w.
Proof.
  intros Hl Hdoc o id t. set (w0 := set_orc (next_tick (next_tick (w_orc w))) w).
  destruct (law_tx (c := client st) (db_of := db_of) ctx (save_cmds st (tenantFromCtx ctx) sid id t doc) w0)
    as (err & w1 & Htx & Hexec & Hheap).
  exists err, w1. split_and!; [|done|done]. unfold Redis_Save.
  rewrite (bind_Ret uuid_New _ id w (set_orc (next_tick (w_orc w)) w)) by done.
  rewrite (bind_Ret now _ t _ w0) by done.
  rewrite (bind_Ret (json_Marshal l) _ (Some doc) w0 w0).
  - rewrite (bind_Ret _ _ _ _ _ Htx). by destruct err.
  - unfold json_Marshal. rewrite (bind_load _ s) by done. simpl. by rewrite Hdoc.
Qed.

End memory_lemmas.

(** ** Lemmas: tasks *)

Definition task_tenant (task : Task) : string :=
  if bool_decide (task_TenantID task = "") then "default" else task_TenantID task.

Lemma taskKey_shape p t id : taskKey p t id = (p +:+ ":" +:+ (t +:+ ":" +:+ ("task:" +:+ id))).
Proof. done. Qed.

Lemma default_no_colon : no_colon "default".
Proof.
  intros a b. do 7 (destruct a as [|? a]; simpl; [intros H; by simplify_eq|]).
  destruct a; simpl; intros H; by simplify_eq.
Qed.

Section task_lemmas.
Context {E : Type} `{!PlanDocs E} (ts : RedisTaskStore E) (db_of : E -> redis_db)
  `{!RedisLaws (tclient ts) db_of}.
Implicit Types w : World E.

Definition get_task_answer (id : string) (e : option redis_entry) : option Task * option error :=
  match get_answer e with
  | (_, Some err) =>
      (None, Some (if errors_Is err ErrRedisKeyNotFound then ErrNew ("task " +:+ id +:+ " not found") else err))
  | (raw, None) =>
      match doc_of raw ≫= unmarshal_Task with
      | None => (None, Some ErrUnmarshal)
      | Some task => (Some task, None)
      end
  end.

Lemma GetByID_eq ctx id w :
  GetByID ts ctx id w =
  (Ret (get_task_answer id (db_of (w_ext w) !! taskKey (tkeyPrefix ts) (tenantFromCtx ctx) id)), w).
Proof.
  unfold GetByID. rewrite (bind_Ret _ _ _ _ _ (law_get (db_of := db_of) _ _ _)).
  unfold get_task_answer. destruct (get_answer _) as [raw [err|]]; [done|].
  by destruct (doc_of raw ≫= unmarshal_Task).
Qed.

Lemma Create_eq ctx task data w :
  marshal_Task (plan_doc (w_ext w)) task = Some data ->
  Create ts ctx task w = rc_TxExec (tclient ts) ctx (create_cmds ts (task_tenant task) task data) w.
Proof.
  intros Hm. unfold Create. rewrite (bind_Ret (marshal_with marshal_Task task) _ (Some data) w w); [done|].
  unfold marshal_with. by rewrite Hm.
Qed.

Lemma rewrite_task_eq ctx id task data w :
  marshal_Task (plan_doc (w_ext w)) task = Some data ->
  rewrite_task ts ctx id task w = rc_TxExec (tclient ts) ctx
    [CSet (taskKey (tkeyPrefix ts) (tenantFromCtx ctx) id) (VDoc data) (ttl ts);
     CZAdd (tenantIndexKey (tkeyPrefix ts) (tenantFromCtx ctx)) (score_of (task_UpdatedAt task)) (VStr id)] w.
Proof.
  intros Hm. unfold rewrite_task. rewrite (bind_Ret (marshal_with marshal_Task task) _ (Some data) w w); [done|].
  unfold marshal_with. by rewrite Hm.
Qed.

(** The document that a pipeline without error leaves under the key of a task. *)
Lemma create_cmds_ok task data db db' :
  exec_cmds (create_cmds ts (task_tenant task) task data) db None db' ->
  db' !! taskKey (tkeyPrefix ts) (task_tenant task) (task_ID task) = Some (EString (VDoc data)).
Proof.
  unfold create_cmds. case_bool_decide; simpl; [by apply exec_set_kept|].
  intros (db1 & H1%exec_set_inv & H2)%exec_cmds_ok. subst db1. set (k := taskKey _ _ _) in *.
  apply exec_cmds_ok in H2 as (db2 & H2 & H3).
  assert (db2 !! k = Some (EString (VDoc data))) as Hk.
  { set (k2 := contextKey _ _ _) in *. destruct (decide (k = k2)) as [Hkk|Hne].
    - rewrite <- Hkk in H2. inversion H2; subst; rewrite lookup_insert_eq in *; naive_solver.
    - rewrite (exec_cmd_other _ _ _ _ k H2 Hne). apply lookup_insert_eq. }
  apply exec_cmds_ok in H3 as (db3 & H3%exec_zadd_inv & H4). inversion H4; subst.
  destruct H3 as (z & z' & -> & Hor). destruct (decide (k = tenantIndexKey (tkeyPrefix ts) (task_tenant task)))
    as [Hkk|Hne]; [rewrite <- Hkk in Hor; naive_solver | by rewrite lookup_insert_ne].
Qed.

Lemma push_unseen ctx key v id w err w' :
  key <> taskKey (tkeyPrefix ts) (tenantFromCtx ctx) id ->
  rc_RPush (tclient ts) ctx key v w = (Ret err, w') ->
  (GetByID ts ctx id w').1 = (GetByID ts ctx id w).1.
Proof.
  intros Hne Hp. destruct (law_rpush (db_of := db_of) ctx key v w) as (err' & w1 & Hp' & Hex & _).
  rewrite Hp' in Hp. injection Hp as <- <-. rewrite !GetByID_eq.
  by rewrite (exec_cmds_other _ _ _ _ _ Hex) by (csimpl; set_solver).
Qed.
End task_lemmas.

(** ** Properties *)

(** C21: the Redis store round-trips per tenant. When a save reports success,
    loading the session with the same tenant and loading the returned checkpoint
    both give a new cell with the saved state up to the decoding of dynamic
    values; and, for tenants without a colon, the sessions of other tenants and
    the other sessions load as before. *)
Theorem Redis_roundtrip {E} `{!PlanDocs E} (st : RedisMemoryStore E) (db_of : E -> redis_db)
    (ctx ctx' : context) (sid sid' : string) (l : loc) (s : AgentState) (doc : json) (w : World E) :
  RedisLaws (client st) db_of ->
  w_heap w !! l = Some s -> marshal_AgentState (plan_doc (w_ext w)) s = Some doc ->
  exists id err w1, Redis_Save st ctx sid l w = (Ret (id, err), w1) /\
    (err = None ->
     Redis_Load st ctx sid w1 = loaded (norm_AgentState (plan_doc (w_ext w)) s) w1 /\
     Redis_LoadCheckpoint st ctx' id w1 = loaded (norm_AgentState (plan_doc (w_ext w)) s) w1 /\
     (no_colon (tenantFromCtx ctx) -> no_colon (tenantFromCtx ctx') -> no_colon id ->
      (tenantFromCtx ctx', sid') <> (tenantFromCtx ctx, sid) ->
      (Redis_Load st ctx' sid' w1).1 = (Redis_Load st ctx' sid' w).1)).
Proof.
  intros Hlaws Hl Hdoc. pose proof (unmarshal_marshal_AgentState _ _ _ Hdoc) as Hdec.
  destruct (Redis_Save_eq st db_of ctx sid l s doc w Hl Hdoc) as (err & w1 & Hsave & Hex & Hheap).
  eexists _, err, w1. split; [exact Hsave|]. intros ->. apply save_cmds_ok in Hex as (H1 & H2 & H3).
  split_and!.
  - rewrite (Redis_Load_eq st db_of), H1. by apply decode_doc.
  - unfold Redis_LoadCheckpoint. rewrite (bind_Ret _ _ _ _ _ (law_get (db_of := db_of) _ _ _)), H2. by apply decode_doc.
  - intros Ht Ht' Hid Hne. rewrite !(Redis_Load_eq st db_of), H3.
    + destruct (get_answer _) as [v [err|]]; [done|]. unfold decode_state. simpl.
      destruct (doc_of v) as [d|]; [|done]. unfold json_Unmarshal.
      destruct (unmarshal_AgentState d); [|done]. cbn. by rewrite Hheap.
    + rewrite stateKey_eq. intros [? ?]%colon_split; [congruence | done | done].
    + by apply stateKey_ckptDataKey.
    + apply stateKey_ckptIndexKey.
Qed.

(** Tenants are isolated only by the colon. Two (tenant, session) pairs share
    a key exactly when their texts joined by a colon are equal; for tenants
    without a colon that means the same pair, but the session [a:s] of tenant [t]
    is the session [s] of tenant [t:a]: a load by the one returns what the other
    saved. *)
Theorem stateKey_collisions {E} `{!PlanDocs E} (st : RedisMemoryStore E) (db_of : E -> redis_db)
    (p t1 s1 t2 s2 a s : string) (ctx1 ctx2 : context) (w : World E) :
  RedisLaws (client st) db_of ->
  (stateKey p t1 s1 = stateKey p t2 s2 <-> (t1 +:+ ":" +:+ s1) = (t2 +:+ ":" +:+ s2)) /\
  (no_colon t1 -> no_colon t2 -> stateKey p t1 s1 = stateKey p t2 s2 -> t1 = t2 /\ s1 = s2) /\
  (tenantFromCtx ctx2 = (tenantFromCtx ctx1 +:+ ":" +:+ a) ->
   forall doc state,
     db_of (w_ext w) !! stateKey (keyPrefix st) (tenantFromCtx ctx1) (a +:+ ":" +:+ s)
       = Some (EString (VDoc doc)) -> unmarshal_AgentState doc = Some state ->
     Redis_Load st ctx1 (a +:+ ":" +:+ s) w = loaded state w /\
     Redis_Load st ctx2 s w = loaded state w).
Proof.
  intros Hlaws. split_and!.
  - apply stateKey_eq.
  - intros H1 H2 H%stateKey_eq. by apply colon_split.
  - intros Ht doc state Hdb Hdec. rewrite !(Redis_Load_eq st db_of).
    assert (stateKey (keyPrefix st) (tenantFromCtx ctx2) s =
            stateKey (keyPrefix st) (tenantFromCtx ctx1) (a +:+ ":" +:+ s)) as ->.
    { apply stateKey_eq. rewrite Ht, !append_assoc. done. }
    rewrite Hdb. split; by apply decode_doc.
Qed.

(** A task that was created is found by its tenant, and a status update is
    what the next read sees. When the creation and the update report success and
    the context names the task's tenant, the read returns the task as it was
    created, up to the decoding of dynamic values, with the new status. *)
Theorem task_create_update_get {E} `{!PlanDocs E} (ts : RedisTaskStore E) (db_of : E -> redis_db)
    (ctx : context) (task : Task) (status : TaskStatus) (data : json) (w : World E) :
  RedisLaws (tclient ts) db_of ->
  tenantFromCtx ctx = task_tenant task ->
  marshal_Task (plan_doc (w_ext w)) task = Some data ->
  (forall e t, is_Some (marshal_Task (plan_doc e) (with_task_status status t (norm_Task (plan_doc (w_ext w)) task)))) ->
  exists err w1, Create ts ctx task w = (Ret err, w1) /\
    (err = None ->
     GetByID ts ctx (task_ID task) w1 = (Ret (Some (norm_Task (plan_doc (w_ext w)) task), None), w1) /\
     exists err2 w2, UpdateStatus ts ctx (task_ID task) status w1 = (Ret err2, w2) /\
       (err2 = None -> exists t e,
          GetByID ts ctx (task_ID task) w2 =
          (Ret (Some (norm_Task (plan_doc e)
                  (with_task_status status t (norm_Task (plan_doc (w_ext w)) task))), None), w2))).
Proof.
  intros Hlaws Hctx Hm Hm2. set (task' := norm_Task _ task) in *.
  destruct (law_tx (db_of := db_of) ctx (create_cmds ts (task_tenant task) task data) w)
    as (err & w1 & Htx & Hex & _).
  exists err, w1. rewrite (Create_eq ts ctx task data w Hm). split; [done|]. intros ->.
  apply create_cmds_ok in Hex. rewrite <- Hctx in Hex.
  assert (Hget : GetByID ts ctx (task_ID task) w1 = (Ret (Some task', None), w1)).
  { rewrite (GetByID_eq ts db_of), Hex. unfold get_task_answer. simpl.
    by rewrite (unmarshal_marshal_Task _ _ _ Hm). }
  split; [done|]. unfold UpdateStatus. rewrite (bind_Ret _ _ _ _ _ Hget). simpl.
  set (t := or_now (w_orc w1) (or_tick (w_orc w1))). set (w1' := set_orc (next_tick (w_orc w1)) w1).
  rewrite (bind_Ret (ret task') _ task' w1 w1) by done. rewrite (bind_Ret now _ t w1 w1') by done.
  destruct (Hm2 (w_ext w1') t) as [data2 Hd2]. rewrite (rewrite_task_eq ts _ _ _ _ _ Hd2).
  match goal with |- context [rc_TxExec _ _ ?cmds _] =>
    destruct (law_tx (db_of := db_of) ctx cmds w1') as (err2 & w2 & Htx2 & Hex2 & _) end.
  exists err2, w2. split; [done|]. intros ->. exists t, (w_ext w1').
  apply exec_set_kept in Hex2. rewrite (GetByID_eq ts db_of), Hex2. unfold get_task_answer. simpl.
  by rewrite (unmarshal_marshal_Task _ _ _ Hd2).
Qed.

(** What the engine appends to a task is never read back. The artifacts and
    the messages go to lists of their own, and reading the task - by its
    identifier, or in a listing, which reads each task by its identifier - does
    not look at them: it gives the same answer before and after. *)
Theorem appended_artifacts_unseen {E} `{!PlanDocs E} (ts : RedisTaskStore E) (db_of : E -> redis_db)
    (ctx : context) (id : string) (a : Artifact) (m : Message) (w : World E) :
  RedisLaws (tclient ts) db_of ->
  (forall err w', AppendArtifact ts ctx id a w = (Ret err, w') ->
     (GetByID ts ctx id w').1 = (GetByID ts ctx id w).1) /\
  (forall err w', AppendMessage ts ctx id m w = (Ret err, w') ->
     (GetByID ts ctx id w').1 = (GetByID ts ctx id w).1).
Proof.
  intros Hlaws. unfold AppendArtifact, AppendMessage, bind, marshal_with. split; intros err w'; cbn.
  - destruct (marshal_Artifact _ a) as [d|]; [|by intros [= _ <-]].
    apply (push_unseen ts db_of). apply artifactsKey_taskKey.
  - destruct (marshal_Message _ m) as [d|]; [|by intros [= _ <-]].
    apply (push_unseen ts db_of). apply historyKey_taskKey.
Qed.

(** An update without the tenant is lost. A task of a tenant other than
    [default] is not found by a context that does not carry [tenantID] - such as
    the background context the server starts the engine with - so the update
    fails and changes nothing, although the task exists. *)
Theorem update_without_tenant_lost {E} `{!PlanDocs E} (ts : RedisTaskStore E) (db_of : E -> redis_db)
    (ctx ctx0 : context) (task : Task) (status : TaskStatus) (data : json) (w w1 : World E) :
  RedisLaws (tclient ts) db_of ->
  ctx_Value ctx (KString "tenantID") = None ->
  task_TenantID task <> "" -> task_TenantID task <> "default" -> no_colon (task_TenantID task) ->
  marshal_Task (plan_doc (w_ext w)) task = Some data ->
  db_of (w_ext w) !! taskKey (tkeyPrefix ts) "default" (task_ID task) = None ->
  Create ts ctx0 task w = (Ret None, w1) ->
  db_of (w_ext w1) !! taskKey (tkeyPrefix ts) (task_TenantID task) (task_ID task)
    = Some (EString (VDoc data)) /\
  UpdateStatus ts ctx (task_ID task) status w1 =
    (Ret (Some (ErrNew ("task " +:+ task_ID task +:+ " not found"))), w1).
Proof.
  intros Hlaws Hctx Hne1 Hne2 Hnc Hm Hdb Hcreate. rewrite (Create_eq ts ctx0 task data w Hm) in Hcreate.
  destruct (law_tx (db_of := db_of) ctx0 (create_cmds ts (task_tenant task) task data) w)
    as (err & w1' & Htx & Hex & _).
  rewrite Hcreate in Htx. injection Htx as <- <-. pose proof (create_cmds_ok _ _ _ _ _ Hex) as Hk.
  assert (task_tenant task = task_TenantID task) as Htt by (unfold task_tenant; by rewrite bool_decide_eq_false_2).
  rewrite Htt in *. split; [done|].
  assert (Hother : forall rest, (tkeyPrefix ts +:+ ":" +:+ task_TenantID task +:+ ":" +:+ rest) <>
    taskKey (tkeyPrefix ts) "default" (task_ID task)).
  { intros rest H. rewrite taskKey_shape in H. apply prefix_inj, colon_split in H as [? _];
      [done | done | apply default_no_colon]. }
  assert (Hget : GetByID ts ctx (task_ID task) w1 =
    (Ret (None, Some (ErrNew ("task " +:+ task_ID task +:+ " not found"))), w1)).
  { rewrite (GetByID_eq ts db_of). unfold tenantFromCtx. rewrite Hctx. simpl.
    rewrite (exec_cmds_other _ _ _ _ _ Hex), Hdb; [done|]. unfold create_cmds.
    intros Hin. apply list_elem_of_fmap in Hin as (c & Hc & Hin). revert Hc.
    rewrite !elem_of_app in Hin. destruct Hin as [Hin|[Hin|Hin]].
    - apply list_elem_of_singleton in Hin as ->. simpl. intros H. symmetry in H. by apply Hother in H.
    - case_bool_decide; [by apply elem_of_nil in Hin|]. apply list_elem_of_singleton in Hin as ->. simpl.
      intros Hk'. symmetry in Hk'. by apply (Hother ("context:" +:+ task_ContextID task +:+ ":tasks")) in Hk'.
    - apply list_elem_of_singleton in Hin as ->. simpl. intros H. symmetry in H.
      by apply (Hother "tasks") in H. }
  unfold UpdateStatus. by rewrite (bind_Ret _ _ _ _ _ Hget).
Qed.

(** ** Witnesses *)

(** A client with the database as its state: a sorted set takes a new member at
    its end. *)
Definition demo_exec (cmd : redis_cmd) (db : redis_db) : option error * redis_db :=
  match cmd with
  | CSet key v _ => (None, <[key := EString v]> db)
  | CRPush key v =>
      match db !! key with
      | None => (None, <[key := EList [v]]> db)
      | Some (EList l) => (None, <[key := EList (l ++ [v])]> db)
      | Some _ => (Some ErrWrongType, db)
      end
  | CZAdd key score m =>
      match db !! key with
      | None => (None, <[key := EZSet [(score, m)]]> db)
      | Some (EZSet z) => (None, <[key := EZSet (z ++ [(score, m)])]> db)
      | Some _ => (Some ErrWrongType, db)
      end
  end.

Fixpoint demo_execs (cmds : list redis_cmd) (db : redis_db) : option error * redis_db :=
  match cmds with
  | [] => (None, db)
  | cmd :: rest =>
      let (err, db1) := demo_exec cmd db in
      let (errs, db2) := demo_execs rest db1 in
      (match err with Some e => Some e | None => errs end, db2)
  end.

Definition demo_run {E} `{!Has redis_db E} (cmds : list redis_cmd) : M E (option error) := fun w =>
  let (err, db) := demo_execs cmds (get_of (w_ext w)) in (Ret err, set_ext (set_of db (w_ext w)) w).

Definition demo_client {E} `{!Has redis_db E} : RedisClient E :=
  mkRedisClient (fun _ key w => (Ret (get_answer (get_of (T := redis_db) (w_ext w) !! key)), w))
    (fun _ key v => demo_run [CRPush key v])
    (fun _ _ _ _ => ret ([], None)) (fun _ _ _ _ => ret None)
    (fun _ _ _ _ => ret ([], None)) (fun _ _ _ _ => ret None)
    (fun _ cmds => demo_run cmds).

Lemma demo_exec_ok cmd db : exec_cmd cmd db (demo_exec cmd db).1 (demo_exec cmd db).2.
Proof.
  destruct cmd as [key v t | key v | key score m]; simpl; [constructor| |];
    (destruct (db !! key) as [[]|] eqn:Hk; simpl; try constructor; auto).
  eapply exec_zadd; [done|]. intros x. rewrite fmap_app, elem_of_app. simpl. set_solver.
Qed.

Lemma demo_execs_ok cmds db : exec_cmds cmds db (demo_execs cmds db).1 (demo_execs cmds db).2.
Proof.
  revert db. induction cmds as [|cmd cmds IH]; intros db; simpl; [constructor|].
  pose proof (demo_exec_ok cmd db) as H1. destruct (demo_exec cmd db) as [err db1].
  pose proof (IH db1) as H2. destruct (demo_execs cmds db1) as [errs db2]. by eapply exec_cons.
Qed.

Lemma demo_run_ok {E} `{!Has redis_db E} cmds (w : World E) : exists err w',
  demo_run cmds w = (Ret err, w') /\
  exec_cmds cmds (get_of (w_ext w)) err (get_of (w_ext w')) /\ w_heap w' = w_heap w.
Proof.
  unfold demo_run. pose proof (demo_execs_ok cmds (get_of (w_ext w))) as H.
  destruct (demo_execs cmds (get_of (w_ext w))) as [err db]. eexists err, _.
  split; [done|]. simpl. by rewrite get_set_of.
Qed.

#[export] Instance demo_laws {E} `{!Has redis_db E} : RedisLaws (E := E) demo_client get_of.
Proof. split; [done | intros; apply demo_run_ok | intros; apply demo_run_ok]. Qed.

Definition demo_memory : RedisMemoryStore redis_db :=
  NewRedisMemoryStore demo_client (mkRedisMemoryStoreOptions "" 0%Z 0%Z 0%Z).

Definition demo_tasks : RedisTaskStore redis_db := NewRedisTaskStore demo_client "" 0%Z.

Definition demo_redis : World redis_db := mkWorld [demo_state] demo_oracle ∅.

Definition tenant_ctx (t : string) : context := WithValue Background (KString "tenantID") (AString t).

Definition demo_task (tenant : string) : Task :=
  mkTask "t1" "c1" tenant (mkTaskStatus TaskStateSubmitted 7%Z "") [] [] [] [] 7%Z 7%Z.

Definition demo_task_doc (tenant : string) : json :=
  default JNull (marshal_Task (fun _ => None) (demo_task tenant)).

(** The save of the witness succeeds, and both loads give the state back. *)
Lemma Redis_roundtrip_witness :
  marshal_AgentState (plan_doc (w_ext demo_redis)) demo_state = Some demo_doc /\
  exists id w1, Redis_Save demo_memory (tenant_ctx "acme") "s" 0 demo_redis = (Ret (id, None), w1) /\
     Redis_Load demo_memory (tenant_ctx "acme") "s" w1
       = loaded (norm_AgentState (plan_doc (w_ext demo_redis)) demo_state) w1.
Proof.
  split; [reflexivity|].
  destruct (Redis_roundtrip demo_memory (fun db => db) (tenant_ctx "acme") Background "s" "z" 0 demo_state
    demo_doc demo_redis demo_laws eq_refl eq_refl) as (id & err & w1 & Hs & Hl).
  assert (err = None) as ->.
  { pose proof (f_equal (fun r => match r.1 with Ret (_, e) => e | _ => None end) Hs) as He.
    symmetry. exact He. }
  exists id, w1. split; [exact Hs|]. exact (proj1 (Hl eq_refl)).
Defined.

Lemma stateKey_collisions_witness :
  stateKey "fluxgraph" "acme" "eu:s" = stateKey "fluxgraph" "acme:eu" "s" /\
  forall w, w_ext w !! stateKey "fluxgraph" "acme" "eu:s" = Some (EString (VDoc demo_doc)) ->
    Redis_Load demo_memory (tenant_ctx "acme:eu") "s" w = loaded demo_loaded w.
Proof.
  split; [reflexivity|]. intros w Hw.
  apply (proj2 (proj2 (stateKey_collisions demo_memory (fun db => db) "p" "t" "s" "t" "s" "eu" "s"
    (tenant_ctx "acme") (tenant_ctx "acme:eu") w demo_laws)) eq_refl demo_doc demo_loaded Hw eq_refl).
Defined.

Lemma task_create_update_get_witness :
  tenantFromCtx (tenant_ctx "acme") = task_tenant (demo_task "acme") /\
  exists w1, Create demo_tasks (tenant_ctx "acme") (demo_task "acme") demo_redis = (Ret None, w1) /\
    GetByID demo_tasks (tenant_ctx "acme") "t1" w1 =
      (Ret (Some (norm_Task (fun _ => None) (demo_task "acme")), None), w1).
Proof.
  split; [reflexivity|].
  destruct (task_create_update_get demo_tasks (fun db => db) (tenant_ctx "acme") (demo_task "acme")
    (mkTaskStatus TaskStateWorking 9%Z "") (demo_task_doc "acme") demo_redis demo_laws eq_refl eq_refl)
    as (err & w1 & Hc & Hl); [intros e t; eexists; reflexivity|].
  assert (err = None) as ->.
  { pose proof (f_equal (fun r => match r.1 with Ret e => e | _ => None end) Hc) as He.
    symmetry. exact He. }
  exists w1. split; [exact Hc|]. exact (proj1 (Hl eq_refl)).
Defined.

Lemma appended_artifacts_unseen_witness :
  exists err w',
    AppendArtifact demo_tasks Background "t1" (mkArtifact "a1" "" [] []) demo_redis
      = (Ret err, w') /\
    (GetByID demo_tasks Background "t1" w').1 = (GetByID demo_tasks Background "t1" demo_redis).1.
Proof.
  eexists _, _. split; [apply run_eq; reflexivity|].
  eapply (proj1 (appended_artifacts_unseen demo_tasks (fun db => db) Background "t1"
    (mkArtifact "a1" "" [] []) (message RoleUser []) demo_redis demo_laws)).
  apply run_eq. reflexivity.
Defined.

Lemma update_without_tenant_lost_witness :
  exists w1, Create demo_tasks Background (demo_task "acme") demo_redis = (Ret None, w1) /\
    UpdateStatus demo_tasks Background "t1" (mkTaskStatus TaskStateWorking 9%Z "") w1 =
      (Ret (Some (ErrNew "task t1 not found")), w1).
Proof.
  eexists. split; [apply run_eq; reflexivity|].
  eapply (proj2 (update_without_tenant_lost demo_tasks (fun db => db) Background Background
    (demo_task "acme") (mkTaskStatus TaskStateWorking 9%Z "") (demo_task_doc "acme") demo_redis _
    demo_laws eq_refl _ _ _ eq_refl eq_refl (run_eq _ _ _ eq_refl))).
  Unshelve.
  - discriminate.
  - discriminate.
  - intros a b. do 4 (destruct a as [|? a]; simpl; [discriminate|]). destruct a; discriminate.
Defined.
