(* ===== verification/Providers.v ===== *)
(** * Package providers: the fallback chain; package mock: the scripted provider

    [providers/fallback.go] and [mock/llm.go]. The vendor clients are in
    [OpenAI.v] and [Anthropic.v]. *)

From S2P Require Import Prelude GoLang Core Utf8 World Interfaces.
From stdpp Require Import base gmap strings list.

#[local] Open Scope go_scope.

(** ** providers/fallback.go *)

Record FallbackChainProvider (E : Type) := mkFallbackChainProvider { Chain : list (LLMProvider E) }.

Arguments mkFallbackChainProvider {E}.
Arguments Chain {E} f.

Definition NewFallbackChainProvider {E} (chain : list (LLMProvider E)) : FallbackChainProvider E :=
  mkFallbackChainProvider chain.

Definition Fallback_ModelInfo {E} (f : FallbackChainProvider E) : ModelInfo :=
  match Chain f with
  | p :: _ => llm_ModelInfo p
  | [] => mkModelInfo "fallback-chain-empty" 0%Z 0%Z false
  end.

(** The type assertion of [err] to an agent error of the fatal category: the error itself,
    not the chain it wraps. *)
Definition is_fatal (err : error) : bool :=
  match assert_AgentError err with
  | Some ae => bool_decide (ae_Category ae = ErrCategoryFatal)
  | None => false
  end.

(** [fmt.Errorf("fallback chain exhausted: %w", lastErr)], with the text of the
    operation; the verb prints a nil error as a bad argument. *)
Definition exhausted (what : string) (lastErr : option error) : error :=
  match lastErr with
  | Some e => ErrWrap (what +:+ ": " +:+ Error e) e
  | None => ErrNew (what +:+ ": %!w(<nil>)")
  end.

Section fallback.
Context {E : Type}.

(** The loop of [Generate] and of [GenerateStream], over the call of a provider. *)
Fixpoint try_chain {A} (call : LLMProvider E -> M E (option A * option error)) (what : string)
    (chain : list (LLMProvider E)) (lastErr : option error) : M E (option A * option error) :=
  match chain with
  | [] => ret (None, Some (exhausted what lastErr))
  | provider :: rest =>
      let* (resp, err) := call provider in
      match err with
      | None => ret (resp, None)
      | Some e => if is_fatal e then ret (None, Some e) else try_chain call what rest (Some e)
      end
  end.

Definition Fallback_Generate (f : FallbackChainProvider E) (ctx : context) (state : loc) :
    M E (option LLMResponse * option error) :=
  try_chain (fun p => llm_Generate p ctx state) "fallback chain exhausted" (Chain f) None.

Definition Fallback_GenerateStream (f : FallbackChainProvider E) (ctx : context) (state : loc) :
    M E (option TokenStream * option error) :=
  try_chain (fun p => llm_GenerateStream p ctx state) "fallback chain stream exhausted" (Chain f) None.

Definition Fallback (f : FallbackChainProvider E) : LLMProvider E :=
  mkLLMProvider (Fallback_ModelInfo f) (Fallback_Generate f) (Fallback_GenerateStream f).
End fallback.

(** ** mock/llm.go *)

Definition ErrNoMoreMockResponses : error := ErrNew "no more mock responses available".

(** [CallsHistory] holds the pointers, latest last. *)
Record MockLLMProvider := mkMockLLMProvider {
  ml_Responses : list LLMResponse;
  ml_Fallback : option LLMResponse;
  ml_currentIndex : nat;
  ml_CallsHistory : list loc;
}.

Definition NewMockLLMProvider (responses : list LLMResponse) (fallback : option LLMResponse) :
    MockLLMProvider := mkMockLLMProvider responses fallback 0 [].

Definition Mock_ModelInfo : ModelInfo := mkModelInfo "mock-llm" 4096%Z 1024%Z true.

(** What [Generate] does to the provider, and its answer. *)
Definition mock_next (state : loc) (m : MockLLMProvider) :
    (option LLMResponse * option error) * MockLLMProvider :=
  let history := ml_CallsHistory m ++ [state] in
  match ml_Responses m !! ml_currentIndex m with
  | Some resp =>
      ((Some resp, None),
       mkMockLLMProvider (ml_Responses m) (ml_Fallback m) (S (ml_currentIndex m)) history)
  | None =>
      (match ml_Fallback m with
       | Some resp => (Some resp, None)
       | None => (None, Some ErrNoMoreMockResponses)
       end,
       mkMockLLMProvider (ml_Responses m) (ml_Fallback m) (ml_currentIndex m) history)
  end.

(** What the goroutine of [GenerateStream] sends for a part: a delta for each rune
    of a text, one with the name of the tool for a call. [None] is the dereference
    of a call that is nil. *)
Definition part_deltas (p : Part) : option (list TokenDelta) :=
  if bool_decide (part_Type p = PartTypeText) then
    Some (mkTokenDelta DeltaTypeText <$> runes (part_Text p))
  else if bool_decide (part_Type p = PartTypeToolCall) then
    (fun c => [mkTokenDelta DeltaTypeToolCall (tc_ToolName c)]) <$> part_ToolCall p
  else Some [].

(** The sends, each in a [select] with [ctx.Done()], and the final one. *)
Fixpoint emit (i : nat) (items : list TokenDelta) : TokenStream := fun poll =>
  match items with
  | [] => ([mkTokenDelta DeltaTypeDone ""], None)
  | d :: rest =>
      match poll i with
      | Some err => ([], Some err)
      | None => let (ds, err) := emit (S i) rest poll in (d :: ds, err)
      end
  end.

(** The stream of a response; the panic of the goroutine is raised at once. *)
Definition stream_of (resp : LLMResponse) : option TokenStream :=
  (fun l => emit 0 (concat l)) <$> all_some (part_deltas <$> msg_Parts (lr_Message resp)).

Section mock.
Context {E : Type} `{!Has MockLLMProvider E}.

Definition Mock_Generate (ctx : context) (state : loc) : M E (option LLMResponse * option error) :=
  m <- get (T := MockLLMProvider) ;;
  put (mock_next state m).2 ;;
  ret (mock_next state m).1.

Definition Mock_GenerateStream (ctx : context) (state : loc) : M E (option TokenStream * option error) :=
  m <- get (T := MockLLMProvider) ;;
  put (mock_next state m).2 ;;
  match (mock_next state m).1 with
  | (Some resp, _) => s <- deref (stream_of resp) ;; ret (Some s, None)
  | (None, err) => ret (Some (fun _ => ([], err)), None)
  end.

Definition Mock : LLMProvider E := mkLLMProvider Mock_ModelInfo Mock_Generate Mock_GenerateStream.
End mock.

(** ** Reference definitions *)

(** The providers of [chain] are called in turn from [w] and each answers an
    error that is not fatal; [errs] are the errors. *)
Inductive all_fail {E A} (call : LLMProvider E -> M E (option A * option error)) :
    World E -> list (LLMProvider E) -> list error -> World E -> Prop :=
  | fail_none w : all_fail call w [] [] w
  | fail_next w p chain resp e w1 errs w2 :
      call p w = (Ret (resp, Some e), w1) -> is_fatal e = false ->
      all_fail call w1 chain errs w2 ->
      all_fail call w (p :: chain) (e :: errs) w2.

(** [r] is the answer of a fallback over [chain] from [w]. *)
Definition falls_back {E A} (call : LLMProvider E -> M E (option A * option error)) (what : string)
    (chain : list (LLMProvider E)) (w : World E) (r : outcome (option A * option error) * World E) : Prop :=
  exists tried errs w1, all_fail call w tried errs w1 /\
    ((chain = tried /\ r = (Ret (None, Some (exhausted what (last errs))), w1)) \/
     exists p rest resp err w2, chain = tried ++ p :: rest /\ call p w1 = (Ret (resp, err), w2) /\
       ((err = None /\ r = (Ret (resp, None), w2)) \/
        (exists id cause after, err = Some (ErrAgent ErrCategoryFatal id cause after) /\
           r = (Ret (None, err), w2)))).

(** [n] calls of a scripted provider, one after the other. *)
Fixpoint mock_calls (states : list loc) (m : MockLLMProvider) :
    list (option LLMResponse * option error) * MockLLMProvider :=
  match states with
  | [] => ([], m)
  | s :: rest => let (r, m') := mock_next s m in
                 let (rs, m'') := mock_calls rest m' in (r :: rs, m'')
  end.

(** ** Lemmas *)

Lemma is_fatal_iff e :
  is_fatal e = true <-> exists id cause after, e = ErrAgent ErrCategoryFatal id cause after.
Proof.
  unfold is_fatal. destruct e as [m|m c|k id cause after]; simpl; [naive_solver..|].
  rewrite bool_decide_eq_true. naive_solver.
Qed.

Lemma try_chain_spec {E A} (call : LLMProvider E -> M E (option A * option error)) what chain lastErr w :
  (forall p w, p ∈ chain -> exists r w', call p w = (Ret r, w')) ->
  exists tried errs w1, all_fail call w tried errs w1 /\
    ((chain = tried /\
      try_chain call what chain lastErr w
        = (Ret (None, Some (exhausted what (last (option_list lastErr ++ errs)))), w1)) \/
     exists p rest resp err w2, chain = tried ++ p :: rest /\ call p w1 = (Ret (resp, err), w2) /\
       ((err = None /\ try_chain call what chain lastErr w = (Ret (resp, None), w2)) \/
        (exists e, err = Some e /\ is_fatal e = true /\
           try_chain call what chain lastErr w = (Ret (None, Some e), w2)))).
Proof.
  revert lastErr w. induction chain as [|p chain IH]; intros lastErr w Hret.
  - exists [], [], w. split; [constructor|]. left. split; [done|]. by destruct lastErr.
  - destruct (Hret p w) as ([resp err] & w1 & Hp); [by left|]. cbn [try_chain].
    destruct err as [e|]; [destruct (is_fatal e) eqn:Hf|].
    + exists [], [], w. split; [constructor|]. right. exists p, chain, resp, (Some e), w1.
      split_and!; [done | done | right]. exists e. split_and!; [done..|].
      rewrite (bind_Ret _ _ _ _ _ Hp). simpl. by rewrite Hf.
    + destruct (IH (Some e) w1) as (tried & errs & w2 & Hall & Hor); [set_solver|].
      exists (p :: tried), (e :: errs), w2. split; [by econstructor|].
      assert (Hrun : try_chain call what (p :: chain) lastErr w
                     = try_chain call what chain (Some e) w1).
      { cbn [try_chain]. rewrite (bind_Ret _ _ _ _ _ Hp). by rewrite Hf. }
      cbn [try_chain] in Hrun. rewrite Hrun. destruct Hor as [[-> Hx]|Hx].
      * left. split; [done|]. rewrite Hx. simpl. by destruct lastErr.
      * right. destruct Hx as (q & rest & r & er & w3 & -> & Hq & Hx).
        by exists q, rest, r, er, w3.
    + exists [], [], w. split; [constructor|]. right. exists p, chain, resp, None, w1.
      split_and!; [done | done | left]. split; [done|]. by rewrite (bind_Ret _ _ _ _ _ Hp).
Qed.

Lemma try_chain_falls_back {E A} (call : LLMProvider E -> M E (option A * option error)) what chain w :
  (forall p w, p ∈ chain -> exists r w', call p w = (Ret r, w')) ->
  falls_back call what chain w (try_chain call what chain None w).
Proof.
  intros Hret. destruct (try_chain_spec call what chain None w Hret) as (tried & errs & w1 & Hall & Hor).
  exists tried, errs, w1. split; [done|]. destruct Hor as [[Hc Hx]|Hx]; [by left|].
  right. destruct Hx as (p & rest & resp & err & w2 & Hc & Hp & Hx).
  exists p, rest, resp, err, w2. split_and!; [done..|].
  destruct Hx as [?|(e & -> & (id & cause & after & ->)%is_fatal_iff & Hx)]; [by left|].
  right. by exists id, cause, after.
Qed.

(** A stream that nobody cancels delivers every item and ends with the final delta. *)
Lemma emit_all i items poll :
  (forall i, poll i = None) -> emit i items poll = (items ++ [mkTokenDelta DeltaTypeDone ""], None).
Proof.
  intros Hp. revert i. induction items as [|d items IH]; intros i; simpl; [done|]. by rewrite Hp, IH.
Qed.

Lemma mock_calls_from states m :
  (mock_calls states m).1 =
  imap (fun i _ => match ml_Responses m !! (ml_currentIndex m + i) with
                   | Some r => (Some r, None)
                   | None => match ml_Fallback m with
                             | Some r => (Some r, None)
                             | None => (None, Some ErrNoMoreMockResponses)
                             end
                   end) states
  /\ ml_CallsHistory (mock_calls states m).2 = ml_CallsHistory m ++ states.
Proof.
  revert m. induction states as [|s states IH]; intros m; simpl; [by rewrite app_nil_r|].
  rewrite Nat.add_0_r. destruct (mock_next s m) as [r m'] eqn:Hm.
  destruct (IH m') as [IH1 IH2]. destruct (mock_calls states m') as [rs m'']. simpl in *. subst rs.
  unfold mock_next in Hm. rewrite IH2. destruct (ml_Responses m !! ml_currentIndex m) as [x|] eqn:Hi;
    injection Hm as <- <-; simpl; rewrite <- app_assoc; (split; [|done]); f_equal; apply imap_ext;
    intros i y _; simpl; [by rewrite <- plus_n_Sm|].
  apply lookup_ge_None in Hi. rewrite !lookup_ge_None_2 by lia. done.
Qed.

(** ** Properties *)

(** The chain falls back in order. When the providers answer, the chain calls
    them from the first on, each in the world the previous ones left, as long as
    they fail with an error that is not fatal, and no provider after the one that
    decides: the first success is the answer, a fatal agent error is handed on
    as it is, and when every provider failed the answer wraps the last error.
    This holds of a generation and of a stream. An error that only wraps a fatal
    one does not stop the chain. *)
Theorem Fallback_order {E} (f : FallbackChainProvider E) (ctx : context) (state : loc) (w : World E) :
  (forall p w, p ∈ Chain f -> (exists r w', llm_Generate p ctx state w = (Ret r, w')) /\
     exists r w', llm_GenerateStream p ctx state w = (Ret r, w')) ->
  falls_back (fun p => llm_Generate p ctx state) "fallback chain exhausted" (Chain f) w
    (Fallback_Generate f ctx state w) /\
  falls_back (fun p => llm_GenerateStream p ctx state) "fallback chain stream exhausted" (Chain f) w
    (Fallback_GenerateStream f ctx state w) /\
  forall msg e, is_fatal (ErrWrap msg e) = false.
Proof.
  intros Hret. split_and!; [apply try_chain_falls_back; intros; by apply Hret..|done].
Qed.

(** The scripted provider replays its script: the [i]-th call answers the
    [i]-th response, the calls past the end answer the fallback or, without one,
    the error; every call is recorded, in order. *)
Theorem Mock_replays (responses : list LLMResponse) (fallback : option LLMResponse)
    (states : list loc) :
  let run := mock_calls states (NewMockLLMProvider responses fallback) in
  length run.1 = length states /\
  (forall i, i < length states ->
     run.1 !! i = Some (match responses !! i, fallback with
                        | Some r, _ | None, Some r => (Some r, None)
                        | None, None => (None, Some ErrNoMoreMockResponses)
                        end)) /\
  ml_CallsHistory run.2 = states.
Proof.
  destruct (mock_calls_from states (NewMockLLMProvider responses fallback)) as [H1 H2].
  simpl. rewrite H1, H2. split_and!; [by rewrite length_imap | | done].
  intros i Hi. rewrite list_lookup_imap. apply lookup_lt_is_Some_2 in Hi as [x ->]. simpl.
  by destruct (responses !! i), fallback.
Qed.

(** ** Witnesses *)

Definition demo_world : World unit :=
  mkWorld [] (mkOracle (fun _ => 0%Z) (fun _ => float_of_Z 0) (fun _ => "") (fun _ => None) 0 []) tt.

Definition answering {E} (r : option LLMResponse * option error) : LLMProvider E :=
  mkLLMProvider Mock_ModelInfo (fun _ _ => ret r) (fun _ _ => ret (Some (emit 0 []), r.2)).

Definition demo_response : LLMResponse :=
  mkLLMResponse (message RoleAssistant [text_part "hi"]) (mkTokenUsage 1%Z 1%Z 2%Z) "stop".

Definition demo_chain : FallbackChainProvider unit :=
  NewFallbackChainProvider [answering (None, Some (ErrNew "down"));
    answering (Some demo_response, None); answering (None, None)].

Lemma Fallback_order_witness :
  falls_back (fun p => llm_Generate p Background 0) "fallback chain exhausted" (Chain demo_chain) demo_world
    (Ret (Some demo_response, None), demo_world) /\
  forall msg e, is_fatal (ErrWrap msg e) = false.
Proof.
  assert (H : forall p w, p ∈ Chain demo_chain ->
    (exists r w', llm_Generate p Background 0 w = (Ret r, w')) /\
    exists r w', llm_GenerateStream p Background 0 w = (Ret r, w')).
  { intros p w Hp. repeat (apply elem_of_cons in Hp as [->|Hp]; [split; by eexists _, _|]).
    by apply elem_of_nil in Hp. }
  destruct (Fallback_order demo_chain Background 0 demo_world H) as (H1 & _ & H3).
  split; [exact H1 | exact H3].
Defined.
