(* ===== verification/Http.v ===== *)
(** * The HTTP side of the vendor clients

    What [providers/openai.go], [providers/anthropic.go] and
    [providers/openai_embedding.go] use of [net/http], of the circuit breaker
    [gobreaker], of [encoding/json] on texts, and of [bufio.Scanner]. The client,
    the breaker and the JSON text layer are libraries: they are parameters, and
    [BreakerOK] says what the documentation of [gobreaker] promises. *)

From S2P Require Import Prelude GoLang Core Json World Interfaces Memory.
From stdpp Require Import base gmap strings list.

#[local] Open Scope go_scope.

(** ** Requests and responses *)

Record http_request := mkHttpRequest {
  hr_Method : string;
  hr_URL : string;
  hr_Headers : list (string * string);
  hr_Body : json;
}.

(** A body: its text and the error the reads end with, [None] for the end of
    the file. *)
Record http_body := mkHttpBody {
  hb_Text : string;
  hb_Err : option error;
}.

Record http_response := mkHttpResponse {
  rs_StatusCode : Z;
  rs_Body : http_body;
}.

Definition http_client (E : Type) : Type :=
  context -> http_request -> M E (http_response + error).

(** The libraries: [print] and [parse] are [json.Marshal] and [json.Unmarshal]
    between a document and its text, [read_json] is the first document a decoder
    reads from a body, [check_URL] the error of [http.NewRequestWithContext] on an
    address. The errors of [encoding/json] are the ones of [Memory]. *)
Record Libs := mkLibs {
  print : json -> string;
  parse : string -> option json;
  read_json : http_body -> json + error;
  check_URL : string -> option error;
}.

(** [json.NewDecoder(body).Decode(&x)]. *)
Definition Decode {A} (lib : Libs) (dec : json -> option A) (body : http_body) : A + error :=
  match read_json lib body with
  | inl j => match dec j with Some a => inl a | None => inr ErrUnmarshal end
  | inr e => inr e
  end.

(** ** The circuit breaker of the clients *)

(** [cb.Execute] around a request. *)
Definition Breaker (E : Type) : Type :=
  M E (http_response + error) -> M E (http_response + error).

(** What [gobreaker] promises: it refuses the request with an error, or it runs
    it and answers - or panics - as the request did. Its own counts are a part of
    the environment; it does not touch the states. *)
Class BreakerOK {E} (cb : Breaker E) : Prop := {
  breaker_answers : forall m w,
    (exists e w', cb m w = (Ret (inr e), w')) \/
    (exists w1, w_heap w1 = w_heap w /\ (cb m w).1 = (m w1).1);
}.

(** ** bufio.Scanner on lines *)

(** The size of the buffer: a line with its line feed must fit. *)
Definition maxScanTokenSize : Z := 65536%Z.

Definition ErrTooLong : error := ErrNew "bufio.Scanner: token too long".

(** [dropCR]. *)
Definition drop_cr (line : string) : string :=
  trim_suffix line (String (Ascii.ascii_of_nat 13) "").

(** The tokens of [bufio.ScanLines], [acc] being the [n] bytes of the current
    line, and whether a line was too long. *)
Fixpoint scan_lines (acc : string) (n : Z) (s : string) : list string * bool :=
  match s with
  | EmptyString => (if str_empty acc then [] else [drop_cr acc], false)
  | String c s' =>
      if bool_decide (c = Ascii.ascii_of_nat 10) then
        let (ls, long) := scan_lines "" 0 s' in (drop_cr acc :: ls, long)
      else if (maxScanTokenSize - 1 <=? n)%Z then ([], true)
      else scan_lines (acc +:+ String c "") (n + 1) s'
  end.

(** The lines a scanner over a body delivers and [scanner.Err()]. *)
Definition scanner (body : http_body) : list string * option error :=
  let (ls, long) := scan_lines "" 0 (hb_Text body) in
  (ls, if long then Some ErrTooLong else hb_Err body).

(** ** What the clients read of a state *)

(** The documents of the plans, for [json.Marshal]. *)
Definition docs {E} `{!PlanDocs E} : M E (nat -> option json) := fun w => (Ret (plan_doc (w_ext w)), w).

(** [state.Variables["system_prompt"].(string)]. *)
Definition system_prompt (s : AgentState) : string := string_or_empty (var_get s "system_prompt").

(** [state.Variables["tools"].([]interfaces.Tool)]: the handles of the tools. *)
Definition tools_variable (s : AgentState) : list nat :=
  match var_get s "tools" with Some (ATools l) => l | _ => [] end.

(** The schema of a tool as a JSON schema. *)
Definition parameters (schema : ToolInputSchema) : amap :=
  [("type", AString (sch_Type schema));
   ("properties", AMap ((fun kv => (kv.1, AMap kv.2)) <$> sch_Properties schema))]
  ++ (if is_nil (sch_Required schema) then [] else [("required", AStrings (sch_Required schema))]).

(** ** The request all the clients make *)

(** Two seconds and five seconds, the delays of the retriable errors. *)
Definition two_seconds : Duration := (2 * Second)%Z.

Definition five_seconds : Duration := (5 * Second)%Z.

Section post.
Context {E : Type} (lib : Libs) (cb : Breaker E) (client : option (http_client E)).

(** The body is marshalled, the request is built and sent through the breaker.
    The dereference is the panic of [Do] on a nil client. *)
Definition post (node : string) (ctx : context) (url : string) (headers : list (string * string))
    (body : option json) : M E (http_response + error) :=
  match body with
  | None => ret (inr (NewFatalError node (Some ErrMarshal)))
  | Some b =>
      match check_URL lib url with
      | Some err => ret (inr (NewFatalError node (Some err)))
      | None =>
          r <- cb (do <- deref client ;; do ctx (mkHttpRequest "POST" url headers b)) ;;
          ret (match r with
               | inl resp => inl resp
               | inr err => inr (NewRetriableError node err two_seconds)
               end)
      end
  end.
End post.

(** ** Lemmas *)

(** The answer of a call: a response, or an agent error of [node] whose category
    is fatal before the request is sent and retriable after it. *)
Definition transport_error (node : string) (sent : bool) (err : error) : Prop :=
  exists cause, err = if sent then NewRetriableError node cause two_seconds
                      else NewFatalError node (Some cause).

(** Whether the request goes out. *)
Definition sendable (lib : Libs) (url : string) (body : option json) : bool :=
  match body with None => false | Some _ => is_None (check_URL lib url) end.

Section lemmas.
Context {E : Type} (lib : Libs) (cb : Breaker E) `{!BreakerOK cb} (client : http_client E).

(** The answer of [post] is an error, or the client was called once with the
    request, on the states as they were. *)
Lemma post_cases node ctx url headers body w :
  let answer := (post lib cb (Some client) node ctx url headers body w).1 in
  (exists err, answer = Ret (inr err) /\ transport_error node (sendable lib url body) err) \/
  (sendable lib url body = true /\ exists b w1, body = Some b /\ w_heap w1 = w_heap w /\
     match (client ctx (mkHttpRequest "POST" url headers b) w1).1 with
     | Ret (inl resp) => answer = Ret (inl resp)
     | Ret (inr e) => False
     | Panic v => answer = Panic v
     | OutOfFuel => answer = OutOfFuel
     end).
Proof.
  unfold post, sendable. destruct body as [b|]; [|left; by repeat eexists].
  destruct (check_URL lib url) as [e|]; [left; by repeat eexists|]. simpl.
  set (m := bind (ret client) _).
  assert (Hb : forall r, (cb m w).1 = r ->
    (bind (cb m) (fun r => ret match r with
                               | inl resp => inl resp
                               | inr err => inr (NewRetriableError node err two_seconds)
                               end) w).1
    = match r with
      | Ret (inl resp) => Ret (inl resp)
      | Ret (inr err) => Ret (inr (NewRetriableError node err two_seconds))
      | Panic v => Panic v
      | OutOfFuel => OutOfFuel
      end).
  { intros r <-. unfold bind. by destruct (cb m w) as [[[]| |] ?]. }
  destruct (breaker_answers m w) as [(e & w' & He)|(w1 & Hw1 & Ha)].
  - left. rewrite (Hb _ (f_equal fst He)). by repeat eexists.
  - rewrite (Hb _ Ha). unfold m.
    change (bind (ret client) (fun d => d ctx (mkHttpRequest "POST" url headers b)) w1)
      with (client ctx (mkHttpRequest "POST" url headers b) w1).
    destruct (client ctx _ w1).1 as [[resp|e]|v|] eqn:Hc; [|left; by repeat eexists|..];
      right; (split; [done|]); exists b, w1; by rewrite Hc.
Qed.
End lemmas.

(** A line without a line feed that fits is a token. *)
Lemma scan_line s acc n rest :
  no_lf s = true ->
  (n + Z.of_nat (String.length s) < maxScanTokenSize)%Z ->
  scan_lines acc n (s +:+ lf +:+ rest) =
  (drop_cr (acc +:+ s) :: (scan_lines "" 0 rest).1, (scan_lines "" 0 rest).2).
Proof.
  revert acc n. induction s as [|c s IH]; intros acc n Hs Hn.
  - rewrite append_nil_r. change ("" +:+ lf +:+ rest) with (String (Ascii.ascii_of_nat 10) rest).
    cbn [scan_lines]. rewrite bool_decide_eq_true_2 by done. by destruct (scan_lines "" 0 rest).
  - change (String c s +:+ lf +:+ rest) with (String c (s +:+ lf +:+ rest)). cbn [scan_lines].
    unfold no_lf in Hs. cbn [String.length all_bytes] in *.
    apply andb_true_iff in Hs as [Hc Hs]. apply negb_true_iff in Hc. rewrite Hc.
    destruct (Z.leb_spec (maxScanTokenSize - 1) n); [lia|].
    rewrite IH; [by rewrite append_assoc | done | lia].
Qed.
