(* ===== verification/OpenAI.v ===== *)
(** * providers/openai.go: the OpenAI client

    The mapping of a session to a chat request, of a response to a message, the
    stream, and the errors. The HTTP side is in [Http.v]. The tools a state lists
    are handles ([tool_of]). *)

From S2P Require Import Prelude GoLang Core Json World Interfaces Memory Resilience TaskJson Utf8 Providers Http.
From stdpp Require Import base gmap strings list.

#[local] Open Scope go_scope.

(** ** The documents *)

Record openAIFuncCall := mkFuncCall { fc_Name : string; fc_Arguments : string }.

Record openAIToolCall := mkOpenAIToolCall {
  oc_ID : string;
  oc_Type : string;
  oc_Function : openAIFuncCall;
}.

Record openAIMsg := mkOpenAIMsg {
  om_Role : string;
  om_Content : string;
  om_Name : string;
  om_ToolCalls : list openAIToolCall;
  om_ToolCallID : string;
}.

Record openAIFuncSchema := mkFuncSchema {
  fs_Name : string;
  fs_Description : string;
  fs_Parameters : amap;
}.

Record openAITool := mkOpenAITool { ot_Type : string; ot_Function : openAIFuncSchema }.

Record openAIReq := mkOpenAIReq {
  rq_Model : string;
  rq_Messages : list openAIMsg;
  rq_Tools : list openAITool;
  rq_Stream : bool;
}.

Definition marshal_ToolCall (c : openAIToolCall) : json :=
  JObj [("id", JString (oc_ID c)); ("type", JString (oc_Type c));
        ("function", JObj [("name", JString (fc_Name (oc_Function c)));
                           ("arguments", JString (fc_Arguments (oc_Function c)))])].

Definition marshal_openAIMsg (m : openAIMsg) : json :=
  JObj ([("role", JString (om_Role m)); ("content", JString (om_Content m))]
        ++ opt_string "name" (om_Name m)
        ++ (if is_nil (om_ToolCalls m) then []
            else [("tool_calls", JArr (marshal_ToolCall <$> om_ToolCalls m))])
        ++ opt_string "tool_call_id" (om_ToolCallID m)).

Definition marshal_openAITool (plan_json : nat -> option json) (t : openAITool) : option json :=
  (fun ps => JObj [("type", JString (ot_Type t));
                   ("function", JObj [("name", JString (fs_Name (ot_Function t)));
                                      ("description", JString (fs_Description (ot_Function t)));
                                      ("parameters", ps)])])
  <$> marshal_amap plan_json (fs_Parameters (ot_Function t)).

(** [json.Marshal(reqBody)]: a nil slice of messages is [null]. *)
Definition marshal_openAIReq (plan_json : nat -> option json) (r : openAIReq) : option json :=
  match omitempty (is_nil (rq_Tools r)) "tools" (marshal_list (marshal_openAITool plan_json) (rq_Tools r)) with
  | Some tools =>
      Some (JObj ([("model", JString (rq_Model r));
                   ("messages", if is_nil (rq_Messages r) then JNull
                                else JArr (marshal_openAIMsg <$> rq_Messages r))]
                  ++ tools ++ (if rq_Stream r then [("stream", JBool true)] else [])))
  | None => None
  end.

Definition zero_FuncCall : openAIFuncCall := mkFuncCall "" "".

Definition dec_FuncCall (j : json) : option openAIFuncCall :=
  match j with
  | JObj m =>
      match field "" dec_string "name" m, field "" dec_string "arguments" m with
      | Some n, Some a => Some (mkFuncCall n a)
      | _, _ => None
      end
  | _ => None
  end.

Definition dec_ToolCall (j : json) : option openAIToolCall :=
  match j with
  | JNull => Some (mkOpenAIToolCall "" "" zero_FuncCall)
  | JObj m =>
      match field "" dec_string "id" m, field "" dec_string "type" m,
            field zero_FuncCall dec_FuncCall "function" m with
      | Some i, Some t, Some f => Some (mkOpenAIToolCall i t f)
      | _, _, _ => None
      end
  | _ => None
  end.

Definition zero_openAIMsg : openAIMsg := mkOpenAIMsg "" "" "" [] "".

Definition dec_openAIMsg (j : json) : option openAIMsg :=
  match j with
  | JObj m =>
      match field "" dec_string "role" m, field "" dec_string "content" m, field "" dec_string "name" m,
            field [] (dec_list dec_ToolCall) "tool_calls" m, field "" dec_string "tool_call_id" m with
      | Some r, Some c, Some n, Some t, Some i => Some (mkOpenAIMsg r c n t i)
      | _, _, _, _, _ => None
      end
  | _ => None
  end.

Record openAIChoice := mkChoice { ch_Message : openAIMsg; ch_FinishReason : string }.

Record openAIResp := mkOpenAIResp {
  rp_Choices : list openAIChoice;
  rp_PromptTokens : Z;
  rp_CompletionTokens : Z;
  rp_TotalTokens : Z;
}.

Definition dec_choice (j : json) : option openAIChoice :=
  match j with
  | JNull => Some (mkChoice zero_openAIMsg "")
  | JObj m =>
      match field zero_openAIMsg dec_openAIMsg "message" m, field "" dec_string "finish_reason" m with
      | Some msg, Some f => Some (mkChoice msg f)
      | _, _ => None
      end
  | _ => None
  end.

Definition dec_usage (j : json) : option (Z * Z * Z) :=
  match j with
  | JObj m =>
      match field 0%Z dec_int "prompt_tokens" m, field 0%Z dec_int "completion_tokens" m,
            field 0%Z dec_int "total_tokens" m with
      | Some p, Some c, Some t => Some (p, c, t)
      | _, _, _ => None
      end
  | _ => None
  end.

Definition dec_openAIResp (j : json) : option openAIResp :=
  match j with
  | JNull => Some (mkOpenAIResp [] 0 0 0)
  | JObj m =>
      match field [] (dec_list dec_choice) "choices" m, field (0, 0, 0)%Z dec_usage "usage" m with
      | Some cs, Some (p, c, t) => Some (mkOpenAIResp cs p c t)
      | _, _ => None
      end
  | _ => None
  end.

(** A chunk of a stream: the content and the tool calls of each delta. *)
Definition dec_delta (j : json) : option (string * list openAIToolCall) :=
  match j with
  | JObj m =>
      match field "" dec_string "content" m, field [] (dec_list dec_ToolCall) "tool_calls" m with
      | Some c, Some t => Some (c, t)
      | _, _ => None
      end
  | _ => None
  end.

Definition dec_chunk_choice (j : json) : option (string * list openAIToolCall) :=
  match j with
  | JNull => Some ("", [])
  | JObj m => field ("", []) dec_delta "delta" m
  | _ => None
  end.

Definition dec_chunk (j : json) : option (list (string * list openAIToolCall)) :=
  match j with
  | JNull => Some []
  | JObj m => field [] (dec_list dec_chunk_choice) "choices" m
  | _ => None
  end.

(** ** From a session to a request *)

Definition mapRole (r : Role) : string :=
  if decide (r = RoleUser) then "user"
  else if decide (r = RoleAssistant) then "assistant"
  else if decide (r = RoleSystem) then "system"
  else if decide (r = RoleTool) then "tool"
  else "unknown".

(** [json.Marshal] of the arguments; its error is ignored. *)
Definition stringifyArgs (lib : Libs) (plan_json : nat -> option json) (args : option amap) : string :=
  match marshal_Arguments plan_json args with Some j => print lib j | None => "" end.

Section mapping.
Context (lib : Libs) (plan_json : nat -> option json).

(** One part: the message and the text gathered so far. [None] is the
    dereference of a part without its call or result. *)
Definition map_part (acc : openAIMsg * string) (p : Part) : option (openAIMsg * string) :=
  let (msg, text) := acc in
  if bool_decide (part_Type p = PartTypeText) then Some (msg, text +:+ part_Text p)
  else if bool_decide (part_Type p = PartTypeToolCall) then
    match part_ToolCall p with
    | Some c =>
        Some (mkOpenAIMsg (om_Role msg) (om_Content msg) (om_Name msg)
                (om_ToolCalls msg ++ [mkOpenAIToolCall (tc_CallID c) "function"
                  (mkFuncCall (tc_ToolName c) (stringifyArgs lib plan_json (tc_Arguments c)))])
                (om_ToolCallID msg), text)
    | None => None
    end
  else if bool_decide (part_Type p = PartTypeToolResult) then
    match part_ToolResult p with
    | Some r =>
        Some (mkOpenAIMsg (om_Role msg) (tr_Result r) (om_Name msg) (om_ToolCalls msg) (tr_CallID r), text)
    | None => None
    end
  else Some (msg, text).

Fixpoint map_parts (acc : openAIMsg * string) (ps : list Part) : option (openAIMsg * string) :=
  match ps with
  | [] => Some acc
  | p :: ps' => match map_part acc p with Some acc' => map_parts acc' ps' | None => None end
  end.

(** The text is the content unless a result took its place. *)
Definition finish_msg (acc : openAIMsg * string) : openAIMsg :=
  let (msg, text) := acc in
  if negb (str_empty text) && str_empty (om_Content msg)
  then mkOpenAIMsg (om_Role msg) text (om_Name msg) (om_ToolCalls msg) (om_ToolCallID msg)
  else msg.

(** The messages of one message of the session: none for an unknown role. *)
Definition map_message (m : Message) : option (list openAIMsg) :=
  let role := mapRole (msg_Role m) in
  if bool_decide (role = "unknown") then Some []
  else (fun acc => [finish_msg acc]) <$> map_parts (mkOpenAIMsg role "" "" [] "", "") (msg_Parts m).

Definition mapMessages (msgs : list Message) (sysPrompt : string) : option (list openAIMsg) :=
  (fun out => (if str_empty sysPrompt then [] else [mkOpenAIMsg "system" sysPrompt "" [] ""]) ++ concat out)
  <$> all_some (map_message <$> msgs).
End mapping.

(** ** The provider *)

Record OpenAIOptions (E : Type) := mkOpenAIOptions {
  oo_APIKey : string;
  oo_BaseURL : string;
  oo_Model : string;
  oo_HTTPClient : option (http_client E);
}.

Arguments mkOpenAIOptions {E}.
Arguments oo_APIKey {E} o.
Arguments oo_BaseURL {E} o.
Arguments oo_Model {E} o.
Arguments oo_HTTPClient {E} o.

Definition openAI_node : string := "OpenAIProvider".

(** [handleHTTPError]; the [Retry-After] header is read and not used. *)
Definition openAI_handleHTTPError (resp : http_response) : error :=
  let errBody := ErrNew ("http " +:+ itoa (rs_StatusCode resp) +:+ ": " +:+ hb_Text (rs_Body resp)) in
  let code := rs_StatusCode resp in
  if bool_decide (code = 429%Z) then NewRetriableError openAI_node errBody five_seconds
  else if bool_decide (code ∈ [400; 401; 403; 404]%Z) then NewFatalError openAI_node (Some errBody)
  else if bool_decide (code ∈ [500; 502; 503; 504]%Z) then NewRetriableError openAI_node errBody five_seconds
  else NewFatalError openAI_node (Some errBody).

(** [mapResponse] on the first choice; arguments that are no object are the nil
    map. The reason to finish is not copied. *)
Definition map_tool_call (lib : Libs) (tc : openAIToolCall) : Part :=
  tool_call_part (mkToolCallPart (oc_ID tc) (fc_Name (oc_Function tc))
    (parse lib (fc_Arguments (oc_Function tc)) ≫= dec_amap)).

Definition mapResponse (lib : Libs) (choice : openAIChoice) (r : openAIResp) : LLMResponse :=
  let content := om_Content (ch_Message choice) in
  mkLLMResponse
    (message RoleAssistant
       ((if str_empty content then [] else [text_part content])
        ++ (map_tool_call lib <$> om_ToolCalls (ch_Message choice))))
    (mkTokenUsage (rp_PromptTokens r) (rp_CompletionTokens r) (rp_TotalTokens r)) "".

(** The deltas of a chunk: its text and its first tool call. *)
Definition chunk_deltas (delta : string * list openAIToolCall) : list TokenDelta :=
  (if str_empty delta.1 then [] else [mkTokenDelta DeltaTypeText delta.1])
  ++ match delta.2 with
     | [] => []
     | tc :: _ =>
         [mkTokenDelta DeltaTypeToolCall
            (if str_empty (fc_Name (oc_Function tc)) then fc_Arguments (oc_Function tc)
             else "ToolCall:" +:+ oc_ID tc +:+ "|" +:+ fc_Name (oc_Function tc))]
     end.

(** The loop of the goroutine of [GenerateStream] over the lines of the body;
    [scan_err] is [scanner.Err()]. *)
Fixpoint openAI_stream (lib : Libs) (i : nat) (ls : list string) (scan_err : option error) : TokenStream :=
  fun poll =>
  match ls with
  | [] => ([], (fun e => NewRetriableError "OpenAIStream" e two_seconds) <$> scan_err)
  | line :: rest =>
      match poll i with
      | Some err => ([], Some (NewFatalError "OpenAIStream" (Some err)))
      | None =>
          let next := openAI_stream lib (S i) rest scan_err poll in
          if negb (has_prefix line "data: ") then next
          else
            let data := trim_prefix line "data: " in
            if bool_decide (data = "[DONE]") then ([mkTokenDelta DeltaTypeDone ""], None)
            else
              match parse lib data ≫= dec_chunk with
              | Some (delta :: _) => (chunk_deltas delta ++ next.1, next.2)
              | _ => next
              end
      end
  end.

Section provider.
Context {E : Type} `{!PlanDocs E} (lib : Libs) (cb : Breaker E) (tool_of : nat -> Tool E).

Definition map_tool (h : nat) : openAITool :=
  let t := tool_of h in
  mkOpenAITool "function" (mkFuncSchema (tool_Name t) (tool_Description t) (parameters (tool_InputSchema t))).

Definition openAI_buildRequestInfo (p : OpenAIOptions E) (plan_json : nat -> option json)
    (s : AgentState) (stream : bool) : option openAIReq :=
  (fun msgs => mkOpenAIReq (oo_Model p) msgs (map_tool <$> tools_variable s) stream)
  <$> mapMessages lib plan_json (Messages s) (system_prompt s).

Definition OpenAI_ModelInfo (p : OpenAIOptions E) : ModelInfo :=
  mkModelInfo (oo_Model p) 128000%Z 4096%Z true.

Definition openAI_headers (p : OpenAIOptions E) (stream : bool) : list (string * string) :=
  [("Content-Type", "application/json")]
  ++ (if str_empty (oo_APIKey p) then [] else [("Authorization", "Bearer " +:+ oo_APIKey p)])
  ++ (if stream then [("Accept", "text/event-stream")] else []).

(** The part [Generate] and [GenerateStream] share: the response, if its status
    is 200. *)
Definition openAI_call (p : OpenAIOptions E) (ctx : context) (state : loc) (stream : bool) :
    M E (http_response + error) :=
  s <- load state ;;
  plan_json <- docs ;;
  reqBody <- deref (openAI_buildRequestInfo p plan_json s stream) ;;
  r <- post lib cb (oo_HTTPClient p) openAI_node ctx (oo_BaseURL p +:+ "/chat/completions")
         (openAI_headers p stream) (marshal_openAIReq plan_json reqBody) ;;
  ret (match r with
       | inl resp => if bool_decide (rs_StatusCode resp = 200%Z) then inl resp
                     else inr (openAI_handleHTTPError resp)
       | inr err => inr err
       end).

(** The answer to a response with status 200. *)
Definition openAI_answer (body : http_body) : option LLMResponse * option error :=
  match Decode lib dec_openAIResp body with
  | inr err =>
      (None, Some (NewFatalError openAI_node (Some (ErrWrap ("json unmarshal error: " +:+ Error err) err))))
  | inl r =>
      match rp_Choices r with
      | [] => (None, Some (NewFatalError openAI_node (Some (ErrNew "empty choices returned"))))
      | choice :: _ => (Some (mapResponse lib choice r), None)
      end
  end.

Definition OpenAI_Generate (p : OpenAIOptions E) (ctx : context) (state : loc) :
    M E (option LLMResponse * option error) :=
  r <- openAI_call p ctx state false ;;
  ret (match r with inl resp => openAI_answer (rs_Body resp) | inr err => (None, Some err) end).

Definition OpenAI_GenerateStream (p : OpenAIOptions E) (ctx : context) (state : loc) :
    M E (option TokenStream * option error) :=
  r <- openAI_call p ctx state true ;;
  ret (match r with
       | inl resp => let (ls, err) := scanner (rs_Body resp) in (Some (openAI_stream lib 0 ls err), None)
       | inr err => (None, Some err)
       end).

Definition OpenAI (p : OpenAIOptions E) : LLMProvider E :=
  mkLLMProvider (OpenAI_ModelInfo p) (OpenAI_Generate p) (OpenAI_GenerateStream p).
End provider.

(** ** Reference definitions *)

(** Arguments as the library prints them: they parse to an object and the
    object prints back to the same text. *)
Definition canonical (lib : Libs) (plan_json : nat -> option json) (t : string) : Prop :=
  exists m a j, parse lib t = Some (JObj m) /\ dec_amap (JObj m) = Some a /\
    marshal_amap plan_json a = Some j /\ print lib j = t.

(** A message of a request is well formed: its role is one of the four of the
    vendor, its calls are calls of functions, and only a message with a result
    answers a call. *)
Definition openAIMsg_wf (m : openAIMsg) : Prop :=
  om_Role m ∈ ["system"; "user"; "assistant"; "tool"] /\ om_Name m = "" /\
  Forall (fun c => oc_Type c = "function") (om_ToolCalls m).

(** A part the mapping can read: a call has its call, a result its result. *)
Definition part_complete (p : Part) : Prop :=
  (part_Type p = PartTypeToolCall -> part_ToolCall p <> None) /\
  (part_Type p = PartTypeToolResult -> part_ToolResult p <> None).

(** The statuses the clients answer with a retriable error. *)
Definition retriable_status (code : Z) : Prop := code ∈ [429; 500; 502; 503; 504]%Z.

(** A text the scanner delivers as it is, after the mark of the data lines. *)
Definition one_line (d : string) : Prop :=
  d <> "" /\ no_lf d = true /\ has_suffix d (String (Ascii.ascii_of_nat 13) "") = false /\
  (Z.of_nat (String.length d) + 6 < maxScanTokenSize)%Z.

(** The text of the lines of a stream that carries [ds]. *)
Fixpoint sse_body (ds : list string) : string :=
  match ds with
  | [] => "data: [DONE]" +:+ lf +:+ lf
  | d :: rest => "data: " +:+ d +:+ lf +:+ lf +:+ sse_body rest
  end.

(** ** Lemmas *)

Lemma mapRole_cases r : mapRole r = "unknown" \/ mapRole r ∈ ["system"; "user"; "assistant"; "tool"].
Proof. unfold mapRole. repeat case_decide; [right; set_solver..|by left]. Qed.

Section mapping_lemmas.
Context (lib : Libs) (plan_json : nat -> option json).

Lemma map_part_wf acc p acc' :
  openAIMsg_wf acc.1 -> map_part lib plan_json acc p = Some acc' -> openAIMsg_wf acc'.1.
Proof.
  destruct acc as [msg text]. unfold map_part. intros (Hr & Hn & Hc) H.
  repeat (case_match; simplify_eq/=); try done. split_and!; simpl; [done..|].
  apply Forall_app. split; [done|]. by constructor.
Qed.

Lemma map_parts_wf acc ps acc' :
  openAIMsg_wf acc.1 -> map_parts lib plan_json acc ps = Some acc' -> openAIMsg_wf acc'.1.
Proof.
  revert acc. induction ps as [|p ps IH]; intros acc Hw; simpl; [by intros [= <-]|].
  destruct (map_part _ _ acc p) as [acc1|] eqn:Hp; [|done]. apply IH. by eapply map_part_wf.
Qed.

Lemma finish_msg_wf acc : openAIMsg_wf acc.1 -> openAIMsg_wf (finish_msg acc).
Proof. destruct acc as [msg text]. unfold finish_msg. by case_match. Qed.

Lemma map_message_wf m out :
  map_message lib plan_json m = Some out -> Forall openAIMsg_wf out.
Proof.
  unfold map_message. case_bool_decide as Hu; [intros [= <-]; constructor|].
  destruct (map_parts _ _ _ _) as [acc|] eqn:Hp; [|done]. intros [= <-]. constructor; [|constructor].
  apply finish_msg_wf. eapply map_parts_wf; [|exact Hp]. split_and!; [|done|constructor]. simpl.
  by destruct (mapRole_cases (msg_Role m)).
Qed.

Lemma map_part_complete acc p : part_complete p -> is_Some (map_part lib plan_json acc p).
Proof.
  destruct acc as [msg text]. intros [Hc Hr]. unfold map_part.
  case_bool_decide; [by eexists|]. case_bool_decide.
  { destruct (part_ToolCall p); [by eexists | by destruct Hc]. }
  case_bool_decide; [|by eexists]. destruct (part_ToolResult p); [by eexists | by destruct Hr].
Qed.

Lemma map_message_complete m :
  Forall part_complete (msg_Parts m) -> is_Some (map_message lib plan_json m).
Proof.
  intros H. unfold map_message. case_bool_decide; [by eexists|]. apply fmap_is_Some.
  generalize (mkOpenAIMsg (mapRole (msg_Role m)) "" "" [] "", ""). induction H as [|p ps Hp _ IH];
    intros acc; simpl; [by eexists|]. by destruct (map_part_complete acc p Hp) as [acc' ->].
Qed.

(** The calls of a response go back unchanged. *)
Lemma map_calls_back msg text calls :
  Forall (fun c => oc_Type c = "function" /\ canonical lib plan_json (fc_Arguments (oc_Function c))) calls ->
  map_parts lib plan_json (msg, text) (map_tool_call lib <$> calls) =
  Some (mkOpenAIMsg (om_Role msg) (om_Content msg) (om_Name msg) (om_ToolCalls msg ++ calls)
          (om_ToolCallID msg), text).
Proof.
  intros H. revert msg. induction H as [|c calls [Ht (m & a & j & Hp & Ha & Hm & Hj)] _ IH]; intros msg.
  - rewrite fmap_nil. simpl. rewrite app_nil_r. by destruct msg.
  - rewrite fmap_cons. cbn [map_parts]. unfold map_part at 1. simpl. unfold map_tool_call at 1. simpl.
    rewrite IH. simpl. rewrite <- app_assoc. simpl. do 4 f_equal.
    unfold stringifyArgs. simpl. rewrite Hp. simpl in *. injection Ha as <-.
    rewrite Hm, Hj. destruct c as [i t [n ar]]. simpl in *. by subst t.
Qed.
End mapping_lemmas.

(** Loading a state turns its tools into plain data. *)
Lemma norm_any_not_tools plan_json v l : norm_any plan_json v <> ATools l.
Proof.
  unfold norm_any. destruct (marshal_any plan_json v) as [j|] eqn:Hv; [by destruct j|].
  by destruct v.
Qed.

Lemma tools_variable_norm plan_json s : tools_variable (norm_AgentState plan_json s) = [].
Proof.
  unfold tools_variable, var_get. simpl. destruct (Variables s) as [vs|]; [|done]. simpl.
  rewrite lookup_fmap. destruct (vs !! "tools") as [v|]; [|done]. simpl.
  case_match eqn:Hv; try done. by apply norm_any_not_tools in Hv.
Qed.

(** Decides the membership of a status in lists of statuses. *)
Ltac status := rewrite ?elem_of_cons, ?elem_of_nil in *; lia.

Lemma handleHTTPError_cases resp :
  exists cause, openAI_handleHTTPError resp =
    if decide (rs_StatusCode resp ∈ [429; 500; 502; 503; 504]%Z)
    then NewRetriableError openAI_node cause five_seconds else NewFatalError openAI_node (Some cause).
Proof.
  unfold openAI_handleHTTPError. eexists.
  case_bool_decide as H1; [by rewrite decide_True by status|].
  case_bool_decide as H2; [by rewrite decide_False by status|].
  case_bool_decide as H3; [by rewrite decide_True by status|].
  by rewrite decide_False by status.
Qed.

Lemma mapMessages_wf lib plan_json msgs sys out :
  mapMessages lib plan_json msgs sys = Some out -> Forall openAIMsg_wf out.
Proof.
  unfold mapMessages. intros H. apply fmap_Some in H as (l & Hl & ->). apply Forall_app. split.
  { case_match; [constructor|]. repeat constructor; simpl; set_solver. }
  revert l Hl. induction msgs as [|m msgs IH]; intros l Hl; [by simplify_eq/=|].
  rewrite fmap_cons in Hl. cbn [all_some] in Hl.
  destruct (map_message lib plan_json m) as [o|] eqn:Hm; [|done].
  destruct (all_some _) as [ls|] eqn:Hls; simplify_eq. simpl. apply Forall_app.
  split; [by eapply map_message_wf | by apply IH].
Qed.

Lemma mapMessages_total lib plan_json msgs sys :
  Forall (fun m => Forall part_complete (msg_Parts m)) msgs ->
  is_Some (mapMessages lib plan_json msgs sys).
Proof.
  intros H. unfold mapMessages. apply fmap_is_Some.
  induction H as [|m msgs Hm _ [l IH]]; [by eexists|]. rewrite fmap_cons. cbn [all_some].
  destruct (map_message_complete lib plan_json m Hm) as [o ->]. rewrite IH. by eexists.
Qed.

Lemma all_some_app {A} (l1 l2 : list (option A)) r1 r2 :
  all_some l1 = Some r1 -> all_some l2 = Some r2 -> all_some (l1 ++ l2) = Some (r1 ++ r2).
Proof.
  revert r1. induction l1 as [|[x|] l1 IH]; intros r1 H1 H2; simpl in *; simplify_eq; [done|].
  destruct (all_some l1) as [r|]; simplify_eq. by rewrite (IH r).
Qed.

Lemma mapMessages_snoc lib plan_json msgs m sys out o :
  mapMessages lib plan_json msgs sys = Some out -> map_message lib plan_json m = Some o ->
  mapMessages lib plan_json (msgs ++ [m]) sys = Some (out ++ o).
Proof.
  unfold mapMessages. intros H Hm. apply fmap_Some in H as (l & Hl & ->).
  rewrite fmap_app, (all_some_app _ _ l [o]); [|done|simpl; by rewrite Hm]. simpl.
  by rewrite concat_app, app_assoc; simpl; rewrite app_nil_r.
Qed.

(** The message of a response, as the next request has it. *)
Lemma map_response_back lib plan_json choice r :
  Forall (fun c => oc_Type c = "function" /\ canonical lib plan_json (fc_Arguments (oc_Function c)))
    (om_ToolCalls (ch_Message choice)) ->
  map_message lib plan_json (lr_Message (mapResponse lib choice r)) =
  Some [mkOpenAIMsg "assistant" (om_Content (ch_Message choice)) "" (om_ToolCalls (ch_Message choice)) ""].
Proof.
  intros Hc. unfold map_message. simpl. unfold str_empty.
  case_bool_decide as He; simpl.
  - rewrite map_calls_back by done. simpl. by rewrite He.
  - rewrite map_calls_back by done. simpl. unfold str_empty. by rewrite bool_decide_eq_false_2.
Qed.

(** The lines of the body of a stream. *)
Lemma scan_sse_line d rest :
  one_line d ->
  scan_lines "" 0 ("data: " +:+ d +:+ lf +:+ lf +:+ rest) =
  (("data: " +:+ d) :: "" :: (scan_lines "" 0 rest).1, (scan_lines "" 0 rest).2).
Proof.
  intros (Hd & Hl & Hs & Hn). rewrite <- (append_assoc "data: "), scan_line.
  - change (lf +:+ rest) with ("" +:+ lf +:+ rest). rewrite scan_line by done.
    cbn [fst snd]. unfold drop_cr at 1. change ("" +:+ ("data: " +:+ d)) with ("data: " +:+ d).
    unfold trim_suffix. assert (has_suffix ("data: " +:+ d) (String (Ascii.ascii_of_nat 13) "") = false) as ->.
    { apply not_true_is_false. intros [t Ht]%has_suffix_iff. apply not_true_iff_false in Hs. apply Hs.
      apply has_suffix_iff. destruct d as [|c d]; [done|].
      do 6 (destruct t as [|? t]; [destruct d; discriminate Ht|injection Ht as _ Ht]). by exists t. }
    done.
  - done.
  - rewrite length_append. simpl. lia.
Qed.

(** The stream over the lines of a data line. *)
Lemma openAI_stream_data lib i d rest err poll :
  (forall i, poll i = None) -> d <> "[DONE]" ->
  openAI_stream lib i (("data: " +:+ d) :: "" :: rest) err poll =
  match parse lib d ≫= dec_chunk with
  | Some (delta :: _) => (chunk_deltas delta ++ (openAI_stream lib (S (S i)) rest err poll).1,
                          (openAI_stream lib (S (S i)) rest err poll).2)
  | _ => openAI_stream lib (S (S i)) rest err poll
  end.
Proof.
  intros Hp Hd. cbn [openAI_stream]. rewrite !Hp.
  assert (Ht : has_prefix ("data: " +:+ d) "data: " = true) by (apply has_prefix_iff; eauto).
  unfold trim_prefix. rewrite Ht. change (drop_str (String.length "data: ") ("data: " +:+ d)) with
    (drop_str (String.length "data: ") ("data: " +:+ d)). rewrite drop_str_append. simpl.
  by rewrite bool_decide_eq_false_2.
Qed.

(** The call of the chain's first provider when the vendor answers. *)
Lemma openAI_call_answer {E} `{!PlanDocs E} lib (cb : Breaker E) tool_of p client ctx l s req resp stream w w1 :
  oo_HTTPClient p = Some client -> w_heap w !! l = Some s ->
  openAI_buildRequestInfo lib tool_of p (plan_doc (w_ext w)) s stream = Some req ->
  check_URL lib (oo_BaseURL p +:+ "/chat/completions") = None ->
  (forall body, marshal_openAIReq (plan_doc (w_ext w)) req = Some body ->
     cb (do <- deref (Some client) ;;
         do ctx (mkHttpRequest "POST" (oo_BaseURL p +:+ "/chat/completions") (openAI_headers p stream) body)) w
     = (Ret (inl resp), w1)) ->
  is_Some (marshal_openAIReq (plan_doc (w_ext w)) req) ->
  openAI_call lib cb tool_of p ctx l stream w =
  (Ret (if bool_decide (rs_StatusCode resp = 200%Z) then inl resp
        else inr (openAI_handleHTTPError resp)), w1).
Proof.
  intros Hc Hl Hreq Hurl Hcb [body Hb]. unfold openAI_call. rewrite (bind_load _ s) by done.
  unfold docs. rewrite (bind_Ret _ _ (plan_doc (w_ext w)) w w) by done. rewrite Hreq, Hc.
  rewrite (bind_Ret _ _ req w w) by done. unfold post. rewrite Hb, Hurl.
  rewrite bind_assoc, (bind_Ret _ _ _ _ _ (Hcb _ Hb)). done.
Qed.

(** ** Properties *)

(** C33: the requests to the vendor are well formed. From a session whose parts
    are complete the mapping builds a request - without the nil dereference - and
    every message of it has one of the vendor's four roles, no stray name and only
    calls of functions; a system prompt comes first; the tools are the ones of the
    session, in order. *)
Theorem OpenAI_request_wf {E} (lib : Libs) (tool_of : nat -> Tool E) (p : OpenAIOptions E)
    (plan_json : nat -> option json) (s : AgentState) (stream : bool) :
  Forall (fun m => Forall part_complete (msg_Parts m)) (Messages s) ->
  exists req, openAI_buildRequestInfo lib tool_of p plan_json s stream = Some req /\
    Forall openAIMsg_wf (rq_Messages req) /\
    (system_prompt s <> "" ->
       head (rq_Messages req) = Some (mkOpenAIMsg "system" (system_prompt s) "" [] "")) /\
    rq_Model req = oo_Model p /\ rq_Stream req = stream /\
    (fun t => fs_Name (ot_Function t)) <$> rq_Tools req = (fun h => tool_Name (tool_of h)) <$> tools_variable s.
Proof.
  intros H. destruct (mapMessages_total lib plan_json _ (system_prompt s) H) as [out Hout].
  unfold openAI_buildRequestInfo. rewrite Hout. eexists. split; [done|]. split_and!; [|intros Hs|done|done|].
  - by eapply mapMessages_wf.
  - unfold mapMessages in Hout. apply fmap_Some in Hout as (l & _ & ->). simpl.
    unfold str_empty. by rewrite bool_decide_eq_false_2.
  - simpl. by rewrite <- list_fmap_compose.
Qed.

(** C32: the vendor is reminded of exactly what it said. A response whose calls
    are calls of functions with arguments printed as the library prints them is
    turned into a message; when that message is appended to the session, the next
    request is the previous one followed by the very message of the vendor:
    content, calls, identifiers, names and argument texts. *)
Theorem OpenAI_remembers {E} (lib : Libs) (tool_of : nat -> Tool E) (p : OpenAIOptions E)
    (plan_json : nat -> option json) (s : AgentState) (stream : bool) (req : openAIReq)
    (choice : openAIChoice) (r : openAIResp) :
  openAI_buildRequestInfo lib tool_of p plan_json s stream = Some req ->
  Forall (fun c => oc_Type c = "function" /\ canonical lib plan_json (fc_Arguments (oc_Function c)))
    (om_ToolCalls (ch_Message choice)) ->
  openAI_buildRequestInfo lib tool_of p plan_json
    (with_message (lr_Message (mapResponse lib choice r)) s) stream =
  Some (mkOpenAIReq (rq_Model req)
    (rq_Messages req ++
     [mkOpenAIMsg "assistant" (om_Content (ch_Message choice)) "" (om_ToolCalls (ch_Message choice)) ""])
    (rq_Tools req) (rq_Stream req)).
Proof.
  unfold openAI_buildRequestInfo. intros H Hc. apply fmap_Some in H as (out & Hout & ->).
  assert (Hv : forall key, var_get (with_message (lr_Message (mapResponse lib choice r)) s) key = var_get s key)
    by (intros; apply var_get_clone).
  unfold system_prompt, tools_variable in *. rewrite !Hv.
  change (Messages (with_message (lr_Message (mapResponse lib choice r)) s))
    with (Messages s ++ [lr_Message (mapResponse lib choice r)]).
  by rewrite (mapMessages_snoc _ _ _ _ _ _ _ Hout (map_response_back lib plan_json choice r Hc)).
Qed.

(** C31: what an outage of the vendor does to a chain. When the vendor answers
    with a status other than 200, a chain of it and another provider goes on to
    the other provider, in the world the call left, if the status is 429, 500,
    502, 503 or 504, and otherwise stops with a fatal error that carries the
    status and the body; the retry policy retries in the same cases. *)
Theorem OpenAI_failover {E} `{!PlanDocs E} (lib : Libs) (cb : Breaker E) (tool_of : nat -> Tool E)
    (p : OpenAIOptions E) (client : http_client E) (q : LLMProvider E) (ctx : context) (l : loc)
    (s : AgentState) (req : openAIReq) (body : json) (resp : http_response) (w w1 : World E) :
  oo_HTTPClient p = Some client -> w_heap w !! l = Some s ->
  openAI_buildRequestInfo lib tool_of p (plan_doc (w_ext w)) s false = Some req ->
  marshal_openAIReq (plan_doc (w_ext w)) req = Some body ->
  check_URL lib (oo_BaseURL p +:+ "/chat/completions") = None ->
  cb (do <- deref (Some client) ;;
      do ctx (mkHttpRequest "POST" (oo_BaseURL p +:+ "/chat/completions") (openAI_headers p false) body)) w
    = (Ret (inl resp), w1) ->
  rs_StatusCode resp <> 200%Z ->
  Fallback_Generate (NewFallbackChainProvider [OpenAI lib cb tool_of p; q]) ctx l w =
    (if decide (rs_StatusCode resp ∈ [429; 500; 502; 503; 504]%Z)
     then try_chain (fun p => llm_Generate p ctx l) "fallback chain exhausted" [q]
            (Some (openAI_handleHTTPError resp)) w1
     else (Ret (None, Some (openAI_handleHTTPError resp)), w1)) /\
  (retriable (openAI_handleHTTPError resp) <> None <->
     rs_StatusCode resp ∈ [429; 500; 502; 503; 504]%Z).
Proof.
  intros Hc Hl Hreq Hb Hurl Hcb Hs.
  assert (Hcall : llm_Generate (OpenAI lib cb tool_of p) ctx l w =
    (Ret (None, Some (openAI_handleHTTPError resp)), w1)).
  { cbn [OpenAI llm_Generate]. unfold OpenAI_Generate.
    rewrite (bind_Ret _ _ (inr (openAI_handleHTTPError resp)) _ w1); [done|].
    rewrite (openAI_call_answer lib cb tool_of p client ctx l s req resp false w w1); try done.
    - by rewrite bool_decide_eq_false_2.
    - intros body' Hb'. rewrite Hb in Hb'. by injection Hb' as <-. }
  destruct (handleHTTPError_cases resp) as [cause He].
  unfold Fallback_Generate. cbn [NewFallbackChainProvider Chain try_chain].
  rewrite (bind_Ret _ _ _ _ _ Hcall). rewrite He. by case_decide.
Qed.

(** A stream delivers the response. When the vendor answers a stream of
    chunks, each on a data line that fits the scanner, and then the end mark,
    a consumer whose context is not cancelled receives, in order, the text and the
    first call of each chunk and then the final delta, without an error even if
    the connection breaks after the mark; the texts it receives, put together, are
    the contents of the chunks, put together. *)
Theorem OpenAI_stream_delivers {E} `{!PlanDocs E} (lib : Libs) (cb : Breaker E) (tool_of : nat -> Tool E)
    (p : OpenAIOptions E) (ctx : context) (l : loc) (ds : list string)
    (cs : list (string * list openAIToolCall)) (err : option error) (poll : nat -> option error)
    (w w1 : World E) :
  openAI_call lib cb tool_of p ctx l true w =
    (Ret (inl (mkHttpResponse 200 (mkHttpBody (sse_body ds) err))), w1) ->
  Forall2 (fun d c => one_line d /\ d <> "[DONE]" /\
    exists more, parse lib d ≫= dec_chunk = Some (c :: more)) ds cs ->
  (forall i, poll i = None) ->
  exists stream, OpenAI_GenerateStream lib cb tool_of p ctx l w = (Ret (Some stream, None), w1) /\
    stream poll = (concat (chunk_deltas <$> cs) ++ [mkTokenDelta DeltaTypeDone ""], None) /\
    concat_str (td_Content <$> filter (fun d => td_Type d = DeltaTypeText) (concat (chunk_deltas <$> cs)))
      = concat_str cs.*1.
Proof.
  intros Hcall Hds Hp. unfold OpenAI_GenerateStream. rewrite (bind_Ret _ _ _ _ _ Hcall).
  unfold scanner. cbn [rs_Body hb_Text hb_Err].
  destruct (scan_lines "" 0 (sse_body ds)) as [ls long] eqn:Hls. eexists. split; [done|]. split.
  - generalize (if long then Some ErrTooLong else err). intros e. clear Hcall.
    revert ls long Hls. generalize 0.
    induction Hds as [|d c ds cs (Hone & Hd & more & Hparse) _ IH]; intros i ls long Hls.
    + cbn [sse_body] in Hls. vm_compute in Hls. injection Hls as <- _. cbn [openAI_stream].
      rewrite Hp. reflexivity.
    + cbn [sse_body] in Hls. rewrite scan_sse_line in Hls by done. injection Hls as <- _.
      rewrite openAI_stream_data, Hparse by done.
      rewrite (IH (S (S i)) _ _ (surjective_pairing _)). cbn [fst snd].
      rewrite fmap_cons. cbn [concat]. by rewrite app_assoc.
  - clear Hds. induction cs as [|[c calls] cs IH]; [done|]. rewrite !fmap_cons. cbn [concat].
    rewrite filter_app, fmap_app, concat_str_app, IH. cbn [concat_str foldr fst]. f_equal.
    unfold chunk_deltas, str_empty. cbn [fst snd].
    case_bool_decide as Hc; [subst c|]; (destruct calls as [|tc calls]; [|case_bool_decide]); 
      simpl; by rewrite ?append_nil_r.
Qed.

(** A message with several results reaches the vendor with the last one only. *)
Theorem OpenAI_last_result_only (lib : Libs) (plan_json : nat -> option json) (rs : list ToolResultPart)
    (r : ToolResultPart) :
  map_message lib plan_json (message RoleTool (tool_result_part <$> (rs ++ [r]))) =
  Some [mkOpenAIMsg "tool" (tr_Result r) "" [] (tr_CallID r)].
Proof.
  unfold map_message. simpl.
  enough (H : forall msg, om_Name msg = "" -> om_Role msg = "tool" -> om_ToolCalls msg = [] ->
    map_parts lib plan_json (msg, "") (tool_result_part <$> (rs ++ [r])) =
    Some (mkOpenAIMsg "tool" (tr_Result r) "" [] (tr_CallID r), "")).
  { by rewrite H. }
  induction rs as [|r0 rs IH]; intros msg Hn Hr Ht; cbn; [by rewrite Hn, Hr, Ht|].
  by apply IH.
Qed.

(** A session that was saved and loaded has no tools for the vendor. *)
Theorem OpenAI_tools_lost_after_load {E} (lib : Libs) (tool_of : nat -> Tool E) (p : OpenAIOptions E)
    (plan_json plan_json' : nat -> option json) (s : AgentState) (stream : bool) (req : openAIReq) :
  openAI_buildRequestInfo lib tool_of p plan_json' (norm_AgentState plan_json s) stream = Some req ->
  rq_Tools req = [].
Proof.
  unfold openAI_buildRequestInfo. intros H. apply fmap_Some in H as (out & _ & ->).
  simpl. by rewrite tools_variable_norm.
Qed.

(** ** Witnesses *)

(** A library for one object, printed as the letter A, and one chunk, C. *)
Definition demo_args : json := JObj [("q", JString "x")].

Definition demo_chunk : json :=
  JObj [("choices", JArr [JObj [("delta", JObj [("content", JString "hi")])]])].

Definition demo_lib : Libs :=
  mkLibs (fun _ => "A")
    (fun t => if bool_decide (t = "A") then Some demo_args
              else if bool_decide (t = "C") then Some demo_chunk else None)
    (fun _ => inr ErrUnmarshal) (fun _ => None).

Definition demo_tool : Tool unit :=
  mkTool "echo" "repeats" (mkToolInputSchema "object" [] []) [] (fun _ _ => ret ("", None)).

(** A vendor that always answers [resp], and a breaker that never opens. *)
Definition demo_options (resp : http_response) : OpenAIOptions unit :=
  mkOpenAIOptions "key" "https://api" "gpt" (Some (fun _ _ => ret (inl resp))).

Definition closed_breaker : Breaker unit := fun m => m.

#[local] Instance demo_docs : PlanDocs unit := fun _ _ => None.

Definition demo_session : AgentState :=
  set_Variables (Some {["system_prompt" := AString "be brief"; "tools" := ATools [0]]})
    (with_message (message RoleUser [text_part "hello"]) NewState).

Definition session_world : World unit := set_heap [demo_session] demo_world.

Definition demo_call : openAIToolCall := mkOpenAIToolCall "c1" "function" (mkFuncCall "echo" "A").

Lemma OpenAI_request_wf_witness :
  exists req, openAI_buildRequestInfo demo_lib (fun _ => demo_tool) (demo_options (mkHttpResponse 200 (mkHttpBody "" None)))
    (fun _ => None) demo_session false = Some req /\ length (rq_Messages req) = 2 /\ Forall openAIMsg_wf (rq_Messages req).
Proof.
  destruct (OpenAI_request_wf demo_lib (fun _ => demo_tool) (demo_options (mkHttpResponse 200 (mkHttpBody "" None)))
    (fun _ => None) demo_session false) as (req & Hreq & Hwf & _).
  - repeat constructor; done.
  - exists req. split; [exact Hreq|]. split; [|exact Hwf].
    vm_compute in Hreq. injection Hreq as <-. reflexivity.
Defined.

Lemma OpenAI_remembers_witness :
  exists req, openAI_buildRequestInfo demo_lib (fun _ => demo_tool) (demo_options (mkHttpResponse 200 (mkHttpBody "" None)))
    (fun _ => None)
    (with_message (lr_Message (mapResponse demo_lib (mkChoice (mkOpenAIMsg "assistant" "ok" "" [demo_call] "") "stop")
       (mkOpenAIResp [] 1 1 2))) demo_session) false = Some req /\
  last (rq_Messages req) = Some (mkOpenAIMsg "assistant" "ok" "" [demo_call] "").
Proof.
  eexists. split.
  - apply OpenAI_remembers; [vm_compute; reflexivity|]. repeat constructor.
    exists [("q", JString "x")], [("q", AString "x")], demo_args. by split_and!.
  - reflexivity.
Defined.

Definition unavailable : http_response := mkHttpResponse 503 (mkHttpBody "busy" None).

Lemma OpenAI_failover_witness :
  Fallback_Generate (NewFallbackChainProvider
      [OpenAI demo_lib closed_breaker (fun _ => demo_tool) (demo_options unavailable);
       answering (Some demo_response, None)]) Background 0 session_world
  = (Ret (Some demo_response, None), session_world).
Proof.
  assert (Hb : is_Some (openAI_buildRequestInfo demo_lib (fun _ => demo_tool) (demo_options unavailable)
    (fun _ => None) demo_session false)) by (vm_compute; by eexists).
  destruct Hb as [req Hreq]. assert (Hm : is_Some (marshal_openAIReq (fun _ => None) req)).
  { vm_compute in Hreq. injection Hreq as <-. vm_compute. by eexists. }
  destruct Hm as [body Hm].
  refine (eq_trans (proj1 (OpenAI_failover demo_lib closed_breaker (fun _ => demo_tool) (demo_options unavailable)
    (fun _ _ => ret (inl unavailable)) (answering (Some demo_response, None)) Background 0 demo_session
    req body unavailable session_world session_world eq_refl eq_refl Hreq Hm eq_refl eq_refl _)) _).
  - discriminate.
  - reflexivity.
Defined.

Definition streaming : http_response := mkHttpResponse 200 (mkHttpBody (sse_body ["C"]) None).

Lemma OpenAI_stream_delivers_witness :
  exists stream, OpenAI_GenerateStream demo_lib closed_breaker (fun _ => demo_tool) (demo_options streaming)
    Background 0 session_world = (Ret (Some stream, None), session_world) /\
  stream (fun _ => None) = ([mkTokenDelta DeltaTypeText "hi"; mkTokenDelta DeltaTypeDone ""], None).
Proof.
  destruct (OpenAI_stream_delivers demo_lib closed_breaker (fun _ => demo_tool) (demo_options streaming)
    Background 0 ["C"] [("hi", [])] None (fun _ => None) session_world session_world)
    as (stream & Hs & Hd & _).
  - assert (Hreq : is_Some (openAI_buildRequestInfo demo_lib (fun _ => demo_tool) (demo_options streaming)
      (fun _ => None) demo_session true)) by (vm_compute; by eexists).
    destruct Hreq as [req Hreq]. 
    apply (openAI_call_answer _ _ _ _ (fun _ _ => ret (inl streaming)) _ _ demo_session req streaming); try done.
    vm_compute in Hreq. injection Hreq as <-. vm_compute. by eexists.
  - constructor; [|constructor]. split_and!; [|done|]; [split_and!; [done|reflexivity|reflexivity|done]|].
    exists []. reflexivity.
  - done.
  - exists stream. split; [exact Hs | exact Hd].
Defined.

#[export] Instance closed_breaker_ok : BreakerOK closed_breaker.
Proof. constructor. intros m w. right. by exists w. Qed.
