(* ===== verification/Anthropic.v ===== *)
(** * providers/anthropic.go: the Anthropic client

    The mapping of a session to a request, of a response to a message, the stream
    and the errors, on the HTTP side of [Http.v] and the roles of [OpenAI.v]. The
    input of a part is an [any]: the raw text of a call in a request, a decoded
    value in a response. *)

From S2P Require Import Prelude GoLang Core Json World Interfaces Memory TaskJson Providers Http OpenAI.
From stdpp Require Import base gmap strings list.

#[local] Open Scope go_scope.

(** ** The documents *)

(** The values the program puts in [Input]: a [json.RawMessage], or what a
    decoder makes of a document. *)
Inductive input := InRaw (text : string) | InValue (v : any).

Record anthropicPart := mkAnthropicPart {
  ap_Type : string;
  ap_Text : string;
  ap_ID : string;
  ap_Name : string;
  ap_Input : option input;
  ap_ToolUseID : string;
  ap_Content : string;
}.

Record anthropicMsg := mkAnthropicMsg { am_Role : string; am_Content : list anthropicPart }.

Record anthropicTool := mkAnthropicTool {
  at_Name : string;
  at_Description : string;
  at_InputSchema : amap;
}.

Record anthropicReq := mkAnthropicReq {
  aq_Model : string;
  aq_System : string;
  aq_Messages : list anthropicMsg;
  aq_MaxTokens : Z;
  aq_Tools : list anthropicTool;
  aq_Stream : bool;
}.

Definition text_block (t : string) : anthropicPart := mkAnthropicPart "text" t "" "" None "" "".

Definition tool_use_block (id name text : string) : anthropicPart :=
  mkAnthropicPart "tool_use" "" id name (Some (InRaw text)) "" "".

Definition tool_result_block (id result : string) : anthropicPart :=
  mkAnthropicPart "tool_result" "" "" "" None id result.

Section marshal.
Context (lib : Libs) (plan_json : nat -> option json).

(** [json.Marshal] of an input: a raw message must be a JSON text. *)
Definition marshal_input (i : input) : option json :=
  match i with InRaw t => parse lib t | InValue v => marshal_any plan_json v end.

Definition marshal_anthropicPart (p : anthropicPart) : option json :=
  (fun inp =>
     JObj ([("type", JString (ap_Type p))] ++ opt_string "text" (ap_Text p) ++ opt_string "id" (ap_ID p)
           ++ opt_string "name" (ap_Name p) ++ inp ++ opt_string "tool_use_id" (ap_ToolUseID p)
           ++ opt_string "content" (ap_Content p)))
  <$> omitempty (is_None (ap_Input p)) "input" (ap_Input p ≫= marshal_input).

Definition marshal_anthropicMsg (m : anthropicMsg) : option json :=
  (fun c => JObj [("role", JString (am_Role m)); ("content", c)])
  <$> marshal_list marshal_anthropicPart (am_Content m).

Definition marshal_anthropicTool (t : anthropicTool) : option json :=
  (fun ps => JObj [("name", JString (at_Name t)); ("description", JString (at_Description t));
                   ("input_schema", ps)])
  <$> marshal_amap plan_json (at_InputSchema t).

Definition marshal_anthropicReq (r : anthropicReq) : option json :=
  match (if is_nil (aq_Messages r) then Some JNull else marshal_list marshal_anthropicMsg (aq_Messages r)),
        omitempty (is_nil (aq_Tools r)) "tools" (marshal_list marshal_anthropicTool (aq_Tools r)) with
  | Some msgs, Some tools =>
      Some (JObj ([("model", JString (aq_Model r))] ++ opt_string "system" (aq_System r)
                  ++ [("messages", msgs); ("max_tokens", JInt (aq_MaxTokens r))]
                  ++ tools ++ (if aq_Stream r then [("stream", JBool true)] else [])))
  | _, _ => None
  end.
End marshal.

Definition zero_anthropicPart : anthropicPart := mkAnthropicPart "" "" "" "" None "" "".

Definition dec_anthropicPart (j : json) : option anthropicPart :=
  match j with
  | JNull => Some zero_anthropicPart
  | JObj m =>
      match field "" dec_string "type" m, field "" dec_string "text" m, field "" dec_string "id" m,
            field "" dec_string "name" m,
            field None (fun j => Some (Some (InValue (unmarshal_any j)))) "input" m,
            field "" dec_string "tool_use_id" m, field "" dec_string "content" m with
      | Some ty, Some tx, Some i, Some n, Some inp, Some tu, Some c =>
          Some (mkAnthropicPart ty tx i n inp tu c)
      | _, _, _, _, _, _, _ => None
      end
  | _ => None
  end.

Record anthropicResp := mkAnthropicResp {
  ar_Content : list anthropicPart;
  ar_InputTokens : Z;
  ar_OutputTokens : Z;
}.

Definition dec_anthropicUsage (j : json) : option (Z * Z) :=
  match j with
  | JObj m =>
      match field 0%Z dec_int "input_tokens" m, field 0%Z dec_int "output_tokens" m with
      | Some i, Some o => Some (i, o)
      | _, _ => None
      end
  | _ => None
  end.

Definition dec_anthropicResp (j : json) : option anthropicResp :=
  match j with
  | JNull => Some (mkAnthropicResp [] 0 0)
  | JObj m =>
      match field [] (dec_list dec_anthropicPart) "content" m,
            field (0, 0)%Z dec_anthropicUsage "usage" m with
      | Some c, Some (i, o) => Some (mkAnthropicResp c i o)
      | _, _ => None
      end
  | _ => None
  end.

(** The events of a stream. *)
Record anthropicEvent := mkAnthropicEvent {
  ae_Type : string;
  ae_DeltaType : string;
  ae_DeltaText : string;
  ae_PartialJson : string;
  ae_BlockName : string;
  ae_BlockID : string;
}.

Definition dec_event_delta (j : json) : option (string * string * string) :=
  match j with
  | JObj m =>
      match field "" dec_string "type" m, field "" dec_string "text" m,
            field "" dec_string "partial_json" m with
      | Some t, Some x, Some p => Some (t, x, p)
      | _, _, _ => None
      end
  | _ => None
  end.

Definition dec_content_block (j : json) : option (string * string) :=
  match j with
  | JObj m =>
      match field "" dec_string "name" m, field "" dec_string "id" m with
      | Some n, Some i => Some (n, i)
      | _, _ => None
      end
  | _ => None
  end.

Definition dec_anthropicEvent (j : json) : option anthropicEvent :=
  match j with
  | JNull => Some (mkAnthropicEvent "" "" "" "" "" "")
  | JObj m =>
      match field "" dec_string "type" m, field ("", "", "") dec_event_delta "delta" m,
            field ("", "") dec_content_block "content_block" m with
      | Some ty, Some (t, x, p), Some (n, i) => Some (mkAnthropicEvent ty t x p n i)
      | _, _, _ => None
      end
  | _ => None
  end.

(** ** From a session to a request *)

Section mapping.
Context (lib : Libs) (plan_json : nat -> option json).

(** The blocks of a part; [None] is the dereference of a part without its call
    or result. *)
Definition part_blocks (p : Part) : option (list anthropicPart) :=
  if bool_decide (part_Type p = PartTypeText) then Some [text_block (part_Text p)]
  else if bool_decide (part_Type p = PartTypeToolCall) then
    (fun c => [tool_use_block (tc_CallID c) (tc_ToolName c) (stringifyArgs lib plan_json (tc_Arguments c))])
    <$> part_ToolCall p
  else if bool_decide (part_Type p = PartTypeToolResult) then
    (fun r => [tool_result_block (tr_CallID r) (tr_Result r)]) <$> part_ToolResult p
  else Some [].

Definition anthropic_role (r : Role) : string :=
  let role := mapRole r in if bool_decide (role = "tool") then "user" else role.

(** The messages of one message of the session: none for a system message, an
    unknown role or a message without blocks. *)
Definition anthropic_message (m : Message) : option (list anthropicMsg) :=
  if bool_decide (msg_Role m = RoleSystem) then Some []
  else if bool_decide (anthropic_role (msg_Role m) = "unknown") then Some []
  else (fun blocks =>
          if is_nil (concat blocks) then []
          else [mkAnthropicMsg (anthropic_role (msg_Role m)) (concat blocks)])
       <$> all_some (part_blocks <$> msg_Parts m).

Definition anthropic_messages (msgs : list Message) : option (list anthropicMsg) :=
  (fun out => concat out) <$> all_some (anthropic_message <$> msgs).

(** ** From a response to a message *)

(** The part of a block; a block of another type is skipped. An input that is no
    object is the nil map. *)
Definition block_part (c : anthropicPart) : list Part :=
  if bool_decide (ap_Type c = "text") then [text_part (ap_Text c)]
  else if bool_decide (ap_Type c = "tool_use") then
    [tool_call_part (mkToolCallPart (ap_ID c) (ap_Name c)
       (match ap_Input c with Some i => marshal_input lib plan_json i | None => None end ≫= dec_amap))]
  else [].

Definition anthropic_response (r : anthropicResp) : LLMResponse :=
  mkLLMResponse (message RoleAssistant (ar_Content r ≫= block_part))
    (mkTokenUsage (ar_InputTokens r) (ar_OutputTokens r)
       (int64 (ar_InputTokens r + ar_OutputTokens r))) "".
End mapping.

(** ** The provider *)

Record AnthropicOptions (E : Type) := mkAnthropicOptions {
  ao_APIKey : string;
  ao_BaseURL : string;
  ao_Model : string;
  ao_HTTPClient : option (http_client E);
}.

Arguments mkAnthropicOptions {E}.
Arguments ao_APIKey {E} a.
Arguments ao_BaseURL {E} a.
Arguments ao_Model {E} a.
Arguments ao_HTTPClient {E} a.

Definition anthropic_node : string := "AnthropicProvider".

Definition anthropic_handleHTTPError (resp : http_response) : error :=
  let errBody :=
    ErrNew ("anthropic http " +:+ itoa (rs_StatusCode resp) +:+ ": " +:+ hb_Text (rs_Body resp)) in
  let code := rs_StatusCode resp in
  if bool_decide (code = 429%Z) then NewRetriableError anthropic_node errBody five_seconds
  else if bool_decide (code ∈ [400; 401; 403; 404]%Z) then NewFatalError anthropic_node (Some errBody)
  else if bool_decide (code ∈ [500; 502; 503; 504]%Z) then NewRetriableError anthropic_node errBody five_seconds
  else NewFatalError anthropic_node (Some errBody).

(** What an event sends, and whether it ends the stream. *)
Definition event_deltas (ev : anthropicEvent) : list TokenDelta * bool :=
  if bool_decide (ae_Type ev = "content_block_delta") then
    (if bool_decide (ae_DeltaType ev = "text_delta") then [mkTokenDelta DeltaTypeText (ae_DeltaText ev)]
     else if bool_decide (ae_DeltaType ev = "input_json_delta")
     then [mkTokenDelta DeltaTypeToolCall (ae_PartialJson ev)]
     else [], false)
  else if bool_decide (ae_Type ev = "content_block_start") then
    (if str_empty (ae_BlockName ev) then []
     else [mkTokenDelta DeltaTypeToolCall ("ToolCall:" +:+ ae_BlockID ev +:+ "|" +:+ ae_BlockName ev)], false)
  else if bool_decide (ae_Type ev = "message_stop") then ([mkTokenDelta DeltaTypeDone ""], true)
  else ([], false).

(** The loop of the goroutine of [GenerateStream]. *)
Fixpoint anthropic_stream (lib : Libs) (i : nat) (ls : list string) (scan_err : option error) : TokenStream :=
  fun poll =>
  match ls with
  | [] => ([], (fun e => NewRetriableError "AnthropicStream" e two_seconds) <$> scan_err)
  | line :: rest =>
      match poll i with
      | Some err => ([], Some (NewFatalError "AnthropicStream" (Some err)))
      | None =>
          let next := anthropic_stream lib (S i) rest scan_err poll in
          if negb (has_prefix line "data: ") then next
          else
            match parse lib (trim_prefix line "data: ") ≫= dec_anthropicEvent with
            | Some ev =>
                let (ds, stop) := event_deltas ev in
                if stop then (ds, None) else (ds ++ next.1, next.2)
            | None => next
            end
      end
  end.

Section provider.
Context {E : Type} `{!PlanDocs E} (lib : Libs) (cb : Breaker E) (tool_of : nat -> Tool E).

Definition anthropic_tool (h : nat) : anthropicTool :=
  let t := tool_of h in
  mkAnthropicTool (tool_Name t) (tool_Description t) (parameters (tool_InputSchema t)).

Definition anthropic_buildRequestInfo (p : AnthropicOptions E) (plan_json : nat -> option json)
    (s : AgentState) (stream : bool) : option anthropicReq :=
  (fun msgs => mkAnthropicReq (ao_Model p) (system_prompt s) msgs 8192 (anthropic_tool <$> tools_variable s) stream)
  <$> anthropic_messages lib plan_json (Messages s).

Definition Anthropic_ModelInfo (p : AnthropicOptions E) : ModelInfo :=
  mkModelInfo (ao_Model p) 200000%Z 8192%Z true.

Definition anthropic_headers (p : AnthropicOptions E) (stream : bool) : list (string * string) :=
  [("Content-Type", "application/json"); ("x-api-key", ao_APIKey p); ("anthropic-version", "2023-06-01")]
  ++ (if stream then [("Accept", "text/event-stream")] else []).

Definition anthropic_call (p : AnthropicOptions E) (ctx : context) (state : loc) (stream : bool) :
    M E (http_response + error) :=
  s <- load state ;;
  plan_json <- docs ;;
  reqBody <- deref (anthropic_buildRequestInfo p plan_json s stream) ;;
  r <- post lib cb (ao_HTTPClient p) anthropic_node ctx (ao_BaseURL p +:+ "/messages")
         (anthropic_headers p stream) (marshal_anthropicReq lib plan_json reqBody) ;;
  ret (match r with
       | inl resp => if bool_decide (rs_StatusCode resp = 200%Z) then inl resp
                     else inr (anthropic_handleHTTPError resp)
       | inr err => inr err
       end).

Definition anthropic_answer (plan_json : nat -> option json) (body : http_body) :
    option LLMResponse * option error :=
  match Decode lib dec_anthropicResp body with
  | inr err =>
      (None, Some (NewFatalError anthropic_node (Some (ErrWrap ("json decoding error: " +:+ Error err) err))))
  | inl r =>
      if is_nil (ar_Content r)
      then (None, Some (NewFatalError anthropic_node (Some (ErrNew "empty choices returned"))))
      else (Some (anthropic_response lib plan_json r), None)
  end.

Definition Anthropic_Generate (p : AnthropicOptions E) (ctx : context) (state : loc) :
    M E (option LLMResponse * option error) :=
  r <- anthropic_call p ctx state false ;;
  plan_json <- docs ;;
  ret (match r with
       | inl resp => anthropic_answer plan_json (rs_Body resp)
       | inr err => (None, Some err)
       end).

Definition Anthropic_GenerateStream (p : AnthropicOptions E) (ctx : context) (state : loc) :
    M E (option TokenStream * option error) :=
  r <- anthropic_call p ctx state true ;;
  ret (match r with
       | inl resp => let (ls, err) := scanner (rs_Body resp) in (Some (anthropic_stream lib 0 ls err), None)
       | inr err => (None, Some err)
       end).

Definition Anthropic (p : AnthropicOptions E) : LLMProvider E :=
  mkLLMProvider (Anthropic_ModelInfo p) (Anthropic_Generate p) (Anthropic_GenerateStream p).
End provider.

(** ** Reference definitions *)

(** A block of a request: a text, a call or a result. *)
Definition block_wf (b : anthropicPart) : Prop :=
  (exists t, b = text_block t) \/ (exists i n t, b = tool_use_block i n t) \/
  (exists i t, b = tool_result_block i t).

Definition anthropicMsg_wf (m : anthropicMsg) : Prop :=
  am_Role m ∈ ["user"; "assistant"] /\ am_Content m <> [] /\ Forall block_wf (am_Content m).

(** [b] is how a request repeats the block [c] of a response. *)
Definition repeats (lib : Libs) (plan_json : nat -> option json) (c b : anthropicPart) : Prop :=
  (ap_Type c = "text" /\ b = text_block (ap_Text c)) \/
  (ap_Type c = "tool_use" /\ exists a j, ap_Input c = Some (InValue (AMap a)) /\
     json_native (AMap a) = true /\ marshal_amap plan_json a = Some j /\
     b = tool_use_block (ap_ID c) (ap_Name c) (print lib j)).

(** ** Lemmas *)

Lemma anthropic_role_cases r :
  r <> RoleSystem -> anthropic_role r = "unknown" \/ anthropic_role r ∈ ["user"; "assistant"].
Proof.
  intros Hr. unfold anthropic_role, mapRole.
  repeat case_decide; simpl; first [done | by left | by right; left | by right; right; left].
Qed.

Section mapping_lemmas.
Context (lib : Libs) (plan_json : nat -> option json).

Lemma part_blocks_wf p bs : part_blocks lib plan_json p = Some bs -> Forall block_wf bs.
Proof.
  unfold part_blocks, block_wf. intros H.
  repeat case_bool_decide; try (apply fmap_Some in H as (x & _ & ->)); simplify_eq;
    repeat constructor; naive_solver.
Qed.

Lemma part_blocks_complete p : part_complete p -> is_Some (part_blocks lib plan_json p).
Proof.
  intros [Hc Hr]. unfold part_blocks. case_bool_decide; [by eexists|]. case_bool_decide.
  { destruct (part_ToolCall p); [by eexists | by destruct Hc]. }
  case_bool_decide; [|by eexists]. destruct (part_ToolResult p); [by eexists | by destruct Hr].
Qed.

Lemma all_blocks_wf ps out :
  all_some (part_blocks lib plan_json <$> ps) = Some out -> Forall block_wf (concat out).
Proof.
  revert out. induction ps as [|p ps IH]; intros out H; [by simplify_eq/=|].
  rewrite fmap_cons in H. cbn [all_some] in H.
  destruct (part_blocks _ _ p) as [bs|] eqn:Hp; [|done]. destruct (all_some _) as [l|]; [|done].
  injection H as <-. simpl. apply Forall_app. split; [by eapply part_blocks_wf | by apply IH].
Qed.

Lemma anthropic_message_wf m out :
  anthropic_message lib plan_json m = Some out -> Forall anthropicMsg_wf out.
Proof.
  unfold anthropic_message. case_bool_decide as Hs; [intros [= <-]; constructor|].
  case_bool_decide as Hu; [intros [= <-]; constructor|]. intros H.
  apply fmap_Some in H as (bs & Hbs & ->). destruct (concat bs) as [|b l] eqn:Hc; [constructor|].
  simpl. constructor; [|constructor]. split_and!; simpl; [|done|].
  - by destruct (anthropic_role_cases (msg_Role m) Hs).
  - rewrite <- Hc. by eapply all_blocks_wf.
Qed.

Lemma anthropic_message_complete m :
  Forall part_complete (msg_Parts m) -> is_Some (anthropic_message lib plan_json m).
Proof.
  intros H. unfold anthropic_message. case_bool_decide; [by eexists|]. case_bool_decide; [by eexists|].
  apply fmap_is_Some. induction H as [|p ps Hp _ [l IH]]; [by eexists|]. rewrite fmap_cons.
  cbn [all_some]. destruct (part_blocks_complete p Hp) as [bs ->]. rewrite IH. by eexists.
Qed.

Lemma anthropic_messages_wf msgs out :
  anthropic_messages lib plan_json msgs = Some out -> Forall anthropicMsg_wf out.
Proof.
  unfold anthropic_messages. intros H. apply fmap_Some in H as (l & Hl & ->).
  revert l Hl. induction msgs as [|m msgs IH]; intros l Hl; [by simplify_eq/=|].
  rewrite fmap_cons in Hl. cbn [all_some] in Hl.
  destruct (anthropic_message _ _ m) as [o|] eqn:Hm; [|done].
  destruct (all_some _) as [ls|] eqn:Hls; simplify_eq. simpl. apply Forall_app.
  split; [by eapply anthropic_message_wf | by apply IH].
Qed.

Lemma anthropic_messages_total msgs :
  Forall (fun m => Forall part_complete (msg_Parts m)) msgs ->
  is_Some (anthropic_messages lib plan_json msgs).
Proof.
  intros H. unfold anthropic_messages. apply fmap_is_Some.
  induction H as [|m msgs Hm _ [l IH]]; [by eexists|]. rewrite fmap_cons. cbn [all_some].
  destruct (anthropic_message_complete m Hm) as [o ->]. rewrite IH. by eexists.
Qed.

(** The part of a repeated block goes back as that block. *)
Lemma block_part_back c b :
  repeats lib plan_json c b ->
  exists p, block_part lib plan_json c = [p] /\ part_blocks lib plan_json p = Some [b].
Proof.
  intros [[Ht ->]|(Ht & a & j & Hi & Hn & Hj & ->)]; unfold block_part; rewrite Ht; simpl.
  - by eexists.
  - eexists. split; [done|]. unfold part_blocks. simpl. do 2 f_equal. unfold tool_use_block.
    f_equal. f_equal. f_equal. rewrite Hi. cbn [marshal_input].
    destruct (norm_any_native plan_json _ Hn) as [_ Hnorm].
    unfold norm_any in Hnorm. unfold marshal_amap in Hj.
    apply fmap_Some in Hj as (m & Hm & ->).
    assert (Hma : marshal_any plan_json (AMap a) = Some (JObj m)) by exact (f_equal (fmap JObj) Hm).
    rewrite Hma in Hnorm |- *. injection Hnorm as Hnorm. cbn [mbind option_bind dec_amap default].
    change (map (fun kv => (kv.1, unmarshal_any kv.2)) m)
      with ((fun kv : string * json => (kv.1, unmarshal_any kv.2)) <$> m) in Hnorm.
    rewrite Hnorm. simpl. unfold stringifyArgs, marshal_Arguments, marshal_amap. by rewrite Hm.
Qed.
End mapping_lemmas.

Lemma blocks_back lib plan_json cs bs :
  Forall2 (repeats lib plan_json) cs bs ->
  all_some (part_blocks lib plan_json <$> (cs ≫= block_part lib plan_json)) = Some ((fun b => [b]) <$> bs).
Proof.
  induction 1 as [|c b cs bs Hcb _ IH]; [done|].
  destruct (block_part_back lib plan_json c b Hcb) as (p & Hp & Hb).
  rewrite bind_cons, Hp, fmap_app. simpl. rewrite Hb, IH. done.
Qed.

Lemma concat_singletons {A} (l : list A) : concat ((fun x => [x]) <$> l) = l.
Proof. induction l as [|x l IH]; [done|]. rewrite fmap_cons. cbn [concat]. by rewrite IH. Qed.

Lemma anthropic_handleHTTPError_cases resp :
  exists cause, anthropic_handleHTTPError resp =
    if decide (rs_StatusCode resp ∈ [429; 500; 502; 503; 504]%Z)
    then NewRetriableError anthropic_node cause five_seconds else NewFatalError anthropic_node (Some cause).
Proof.
  unfold anthropic_handleHTTPError. eexists.
  case_bool_decide as H1; [by rewrite decide_True by status|].
  case_bool_decide as H2; [by rewrite decide_False by status|].
  case_bool_decide as H3; [by rewrite decide_True by status|].
  by rewrite decide_False by status.
Qed.

(** ** Properties *)

(** The requests to the vendor are well formed: from a session whose parts are
    complete the mapping builds a request, every message of it is a user's or the
    assistant's and has at least one block, every block is a text, a call or a
    result with only the fields of its kind. *)
Theorem Anthropic_request_wf {E} (lib : Libs) (tool_of : nat -> Tool E) (p : AnthropicOptions E)
    (plan_json : nat -> option json) (s : AgentState) (stream : bool) :
  Forall (fun m => Forall part_complete (msg_Parts m)) (Messages s) ->
  exists req, anthropic_buildRequestInfo lib tool_of p plan_json s stream = Some req /\
    Forall anthropicMsg_wf (aq_Messages req) /\ aq_System req = system_prompt s /\
    aq_MaxTokens req = 8192%Z /\ aq_Stream req = stream.
Proof.
  intros H. destruct (anthropic_messages_total lib plan_json _ H) as [out Hout].
  unfold anthropic_buildRequestInfo. rewrite Hout. eexists. split; [done|]. split_and!; [|done..].
  by eapply anthropic_messages_wf.
Qed.

(** The vendor is reminded of exactly what it said. The message made of a
    response that consists of texts and calls whose inputs are objects is, once
    appended to the session, repeated in the next request block by block: the
    same texts, the same calls with their identifiers and names, and as input the
    text the library prints of the same object. *)
Theorem Anthropic_remembers {E} (lib : Libs) (tool_of : nat -> Tool E) (p : AnthropicOptions E)
    (plan_json : nat -> option json) (s : AgentState) (stream : bool) (req : anthropicReq)
    (r : anthropicResp) (bs : list anthropicPart) :
  anthropic_buildRequestInfo lib tool_of p plan_json s stream = Some req ->
  Forall2 (repeats lib plan_json) (ar_Content r) bs -> bs <> [] ->
  anthropic_buildRequestInfo lib tool_of p plan_json
    (with_message (lr_Message (anthropic_response lib plan_json r)) s) stream =
  Some (mkAnthropicReq (aq_Model req) (aq_System req)
    (aq_Messages req ++ [mkAnthropicMsg "assistant" bs]) (aq_MaxTokens req) (aq_Tools req) (aq_Stream req)).
Proof.
  unfold anthropic_buildRequestInfo. intros H Hbs Hne. apply fmap_Some in H as (out & Hout & ->).
  assert (Hv : forall key, var_get (with_message (lr_Message (anthropic_response lib plan_json r)) s) key
    = var_get s key) by (intros; apply var_get_clone).
  unfold system_prompt, tools_variable in *. rewrite !Hv.
  change (Messages (with_message (lr_Message (anthropic_response lib plan_json r)) s))
    with (Messages s ++ [lr_Message (anthropic_response lib plan_json r)]).
  unfold anthropic_messages in *. apply fmap_Some in Hout as (l & Hl & ->).
  rewrite fmap_app, (all_some_app _ _ l [[mkAnthropicMsg "assistant" bs]]); [|done|].
  - simpl. by rewrite concat_app.
  - simpl. unfold anthropic_message. simpl. rewrite (blocks_back lib plan_json _ _ Hbs). simpl.
    rewrite concat_singletons. by destruct bs.
Qed.

(** A session that was saved and loaded has no tools for the vendor. *)
Theorem Anthropic_tools_lost_after_load {E} (lib : Libs) (tool_of : nat -> Tool E) (p : AnthropicOptions E)
    (plan_json plan_json' : nat -> option json) (s : AgentState) (stream : bool) (req : anthropicReq) :
  anthropic_buildRequestInfo lib tool_of p plan_json' (norm_AgentState plan_json s) stream = Some req ->
  aq_Tools req = [].
Proof.
  unfold anthropic_buildRequestInfo. intros H. apply fmap_Some in H as (out & _ & ->).
  simpl. by rewrite tools_variable_norm.
Qed.

(** A message of the system in the history never reaches the vendor. *)
Theorem Anthropic_drops_system (lib : Libs) (plan_json : nat -> option json) (msgs : list Message) :
  anthropic_messages lib plan_json msgs =
  anthropic_messages lib plan_json (filter (fun m => msg_Role m <> RoleSystem) msgs).
Proof.
  unfold anthropic_messages. induction msgs as [|m msgs IH]; [done|]. rewrite filter_cons.
  case_decide as Hr; rewrite !fmap_cons; cbn [all_some].
  - destruct (anthropic_message lib plan_json m) as [o|]; [|done].
    destruct (all_some (anthropic_message lib plan_json <$> msgs)) as [l1|],
      (all_some (anthropic_message lib plan_json <$> filter _ msgs)) as [l2|]; simplify_eq/=; try done.
    by rewrite IH.
  - assert (msg_Role m = RoleSystem) as Hs by (destruct (decide (msg_Role m = RoleSystem)); tauto).
    unfold anthropic_message at 1. rewrite bool_decide_eq_true_2 by done.
    rewrite <- IH. by destruct (all_some _).
Qed.

(** ** Witnesses *)

Definition demo_anthropic : AnthropicOptions unit := mkAnthropicOptions "key" "https://api" "claude" None.

Lemma Anthropic_remembers_witness :
  exists req, anthropic_buildRequestInfo demo_lib (fun _ => demo_tool) demo_anthropic (fun _ => None)
    (with_message (lr_Message (anthropic_response demo_lib (fun _ => None)
       (mkAnthropicResp [mkAnthropicPart "text" "ok" "" "" None "" "";
          mkAnthropicPart "tool_use" "" "c1" "echo" (Some (InValue (AMap [("q", AString "x")]))) "" ""] 1 1)))
       demo_session) false = Some req /\
  last (aq_Messages req) =
    Some (mkAnthropicMsg "assistant" [text_block "ok"; tool_use_block "c1" "echo" "A"]).
Proof.
  eexists. split.
  - apply Anthropic_remembers with (bs := [text_block "ok"; tool_use_block "c1" "echo" "A"]);
      [vm_compute; reflexivity | | discriminate].
    constructor; [by left|]. constructor; [|constructor]. right. split; [done|].
    exists [("q", AString "x")], demo_args. by split_and!.
  - reflexivity.
Defined.
