(* ===== verification/Embedding.v ===== *)
(** * providers/openai_embedding.go: the embedding client

    On the HTTP side of [Http.v]. A [float32] is what the JSON library reads from
    a number: its type [F] and the reader [float32_of] are parameters, a number
    that does not fit is an error of the decoder. *)

From S2P Require Import Prelude GoLang Core Json World Interfaces Memory Resilience Providers Http OpenAI.
From stdpp Require Import base gmap strings list.

#[local] Open Scope go_scope.

Record embeddingReq := mkEmbeddingReq { eq_Input : string; eq_Model : string }.

Definition marshal_embeddingReq (r : embeddingReq) : json :=
  JObj [("input", JString (eq_Input r)); ("model", JString (eq_Model r))].

Section decode.
Context {F : Type} (float32_of : json -> option F).

(** One entry of [Data]. *)
Definition dec_embedding (j : json) : option (list F) :=
  match j with
  | JNull => Some []
  | JObj m => field [] (dec_list float32_of) "embedding" m
  | _ => None
  end.

Definition dec_embeddingResp (j : json) : option (list (list F)) :=
  match j with
  | JNull => Some []
  | JObj m => field [] (dec_list dec_embedding) "data" m
  | _ => None
  end.
End decode.

Definition embedding_node : string := "OpenAIEmbeddingProvider".

(** [NewOpenAIEmbeddingProvider]: defaults for the address, the model and the
    client. *)
Definition NewOpenAIEmbedding {E} (default_client : http_client E) (opts : OpenAIOptions E) : OpenAIOptions E :=
  mkOpenAIOptions (oo_APIKey opts)
    (if str_empty (oo_BaseURL opts) then "https://api.openai.com/v1" else oo_BaseURL opts)
    (if str_empty (oo_Model opts) then "text-embedding-3-small" else oo_Model opts)
    (match oo_HTTPClient opts with Some c => Some c | None => Some default_client end).

Section embedding.
Context {E F : Type} (float32_of : json -> option F) (lib : Libs) (cb : Breaker E).

Definition embedding_headers (p : OpenAIOptions E) : list (string * string) :=
  [("Content-Type", "application/json")]
  ++ (if str_empty (oo_APIKey p) then [] else [("Authorization", "Bearer " +:+ oo_APIKey p)]).

(** The answer to a response. *)
Definition embedding_answer (resp : http_response) : list F * option error :=
  if bool_decide (rs_StatusCode resp = 200%Z) then
    match Decode lib (dec_embeddingResp float32_of) (rs_Body resp) with
    | inr err =>
        ([], Some (NewFatalError embedding_node (Some (ErrWrap ("json unmarshal error: " +:+ Error err) err))))
    | inl [] => ([], Some (NewFatalError embedding_node (Some (ErrNew "empty embedding data returned"))))
    | inl (emb :: _) => (emb, None)
    end
  else ([], Some (NewFatalError embedding_node
          (Some (ErrNew ("http " +:+ itoa (rs_StatusCode resp) +:+ ": " +:+ hb_Text (rs_Body resp)))))).

Definition EmbedText (p : OpenAIOptions E) (ctx : context) (text : string) :
    M E (list F * option error) :=
  r <- post lib cb (oo_HTTPClient p) embedding_node ctx (oo_BaseURL p +:+ "/embeddings")
         (embedding_headers p) (Some (marshal_embeddingReq (mkEmbeddingReq text (oo_Model p)))) ;;
  ret (match r with inl resp => embedding_answer resp | inr err => ([], Some err) end).

Definition OpenAIEmbedding (p : OpenAIOptions E) : EmbeddingProvider E (list F) :=
  mkEmbeddingProvider (EmbedText p).
End embedding.

(** ** Lemmas *)

Lemma embedding_answer_cases {F} (float32_of : json -> option F) lib resp :
  (exists v, embedding_answer float32_of lib resp = (v, None) /\ rs_StatusCode resp = 200%Z) \/
  exists cause, embedding_answer float32_of lib resp = ([], Some (NewFatalError embedding_node (Some cause))).
Proof.
  unfold embedding_answer. case_bool_decide; [|right; by eexists].
  destruct (Decode _ _ _) as [[|v vs]|e]; [right; by eexists | left; by eexists | right; by eexists].
Qed.

(** ** Properties *)

(** What an embedding ends with. A provider made by its constructor, over a client
    that answers, does not panic: it returns a vector without an error, or no
    vector and an agent error, retriable when the breaker refused or the transport
    failed, fatal otherwise. A response of any status but 200 is fatal, the rate
    limit and the outages that the chat clients treat as retriable too. *)
Theorem EmbedText_outcomes {E F} (float32_of : json -> option F) (lib : Libs) (cb : Breaker E)
    `{!BreakerOK cb} (default_client : http_client E) (opts : OpenAIOptions E) (ctx : context)
    (text : string) (w : World E) :
  (forall c req w, oo_HTTPClient (NewOpenAIEmbedding default_client opts) = Some c ->
     exists r, (c ctx req w).1 = Ret r) ->
  (exists v err,
    (EmbedText float32_of lib cb (NewOpenAIEmbedding default_client opts) ctx text w).1 = Ret (v, err) /\
    (err = None \/
     v = [] /\ exists cause, err = Some (NewRetriableError embedding_node cause two_seconds)
                            \/ err = Some (NewFatalError embedding_node (Some cause)))) /\
  forall resp, rs_StatusCode resp <> 200%Z -> exists cause,
    embedding_answer float32_of lib resp = ([], Some (NewFatalError embedding_node (Some cause))).
Proof.
  intros Hc. split.
  2: { intros resp Hs. by destruct (embedding_answer_cases float32_of lib resp) as [(v & _ & ?)|?]. }
  set (p := NewOpenAIEmbedding default_client opts) in *.
  assert (exists c, oo_HTTPClient p = Some c) as [c Hp].
  { unfold p. simpl. destruct (oo_HTTPClient opts); by eexists. }
  unfold EmbedText. rewrite Hp.
  set (body := Some (marshal_embeddingReq (mkEmbeddingReq text (oo_Model p)))).
  pose proof (post_cases lib cb c embedding_node ctx (oo_BaseURL p +:+ "/embeddings") (embedding_headers p) body w)
    as Hpost. cbv zeta in Hpost.
  unfold bind. destruct (post lib cb (Some c) _ _ _ _ body w) as [o w1]. cbn [fst] in Hpost.
  destruct Hpost as [(err & -> & cause & He)|(_ & b & w0 & _ & _ & Hm)].
  - exists [], (Some err). split; [done|]. right. split; [done|]. exists cause.
    destruct (sendable _ _ _); subst err; [by left | by right].
  - destruct (Hc c (mkHttpRequest "POST" (oo_BaseURL p +:+ "/embeddings") (embedding_headers p) b)
      w0 Hp) as [r Hr].
    rewrite Hr in Hm. destruct r as [resp|]; [|done]. subst o. cbn [fst].
    destruct (embedding_answer_cases float32_of lib resp) as [(v & -> & _)|[cause ->]].
    + eexists _, _. split; [done|]. by left.
    + eexists _, _. split; [done|]. right. split; [done|]. exists cause. by right.
Qed.
