(* ===== verification/Postgres.v ===== *)
(** * storage/postgres_store.go: the PostgreSQL store

    The statements of the store are the constructors of [sql_stmt] and
    [row_query]; the database behind them and the driver are not part of the
    program: [DBQuerier] is the interface of the code and [PgLaws] says what the
    store relies on - the statements do on the tables of [migrations/] what their
    text says ([exec_stmt]), a transaction is atomic. One transaction runs at a
    time. Embeddings have a type [V]. The pruning of a save runs in a goroutine:
    it is an operation of its own. *)

From S2P Require Import Prelude GoLang Core Json World Interfaces Memory Storage.
From stdpp Require Import base gmap strings list fin_maps.

#[local] Open Scope go_scope.

(** ** The statements

    The last one is the statement of [scripts/test_rag.go]. *)

Inductive sql_stmt (V : Type) :=
  | UpsertSession (sessionID tenantID status : string)
  | UpsertState (sessionID : string) (state_json : json)
  | InsertCheckpoint (ckptID sessionID : string) (state_json : json)
  | DeleteCheckpoints (sessionID : string) (keep : Z)
  | InsertMessage (sessionID tenantID role : string) (content_json : json) (embedding : option V)
  | DeleteMessages (sessionID : string) (keep : Z)
  | InsertSession (sessionID : string).

Arguments UpsertSession {V}.
Arguments UpsertState {V}.
Arguments InsertCheckpoint {V}.
Arguments DeleteCheckpoints {V}.
Arguments InsertMessage {V}.
Arguments DeleteMessages {V}.
Arguments InsertSession {V}.

(** The queries of one row, the document of a state. *)
Inductive row_query := SelectState (sessionID : string) | SelectCheckpoint (checkpointID : string).

(** The rows of a query: each scans to a value or fails, and [rows.Err()]. *)
Record DBRows (A : Type) := mkDBRows { rows_items : list (A + error); rows_Err : option error }.

Arguments mkDBRows {A}.
Arguments rows_items {A} d.
Arguments rows_Err {A} d.

Record DBTx (E V : Type) := mkDBTx {
  tx_Exec : context -> sql_stmt V -> M E (option error);
  tx_Commit : context -> M E (option error);
  tx_Rollback : context -> M E (option error);
}.

Arguments mkDBTx {E V}.
Arguments tx_Exec {E V} d.
Arguments tx_Commit {E V} d.
Arguments tx_Rollback {E V} d.

(** [db_QueryRow] is the query and the scan of its row; the two queries of
    several rows have operations of their own. *)
Record DBQuerier (E V : Type) := mkDBQuerier {
  db_QueryRow : context -> row_query -> M E (json + error);
  db_ListCheckpoints : context -> string -> Z -> M E (DBRows CheckpointMeta + error);
  db_SearchMessages : context -> string -> V -> Z -> M E (DBRows (string * json) + error);
  db_Exec : context -> sql_stmt V -> M E (option error);
  db_BeginTx : context -> M E (DBTx E V + error);
}.

Arguments mkDBQuerier {E V}.
Arguments db_QueryRow {E V} d.
Arguments db_ListCheckpoints {E V} d.
Arguments db_SearchMessages {E V} d.
Arguments db_Exec {E V} d.
Arguments db_BeginTx {E V} d.

(** The sentinel of the store. *)
Definition errNoRows : error := ErrNew "no rows in result set".

(** [defer d]: after [m], whatever it ends with. *)
Definition deferring {E A B} (m : M E A) (d : M E B) : M E A := fun w =>
  let (r, w') := m w in (r, (d w').2).

(** ** The store *)

Record PostgresMemoryStore (E V : Type) := mkPostgresMemoryStore {
  pg_db : DBQuerier E V;
  pg_embedder : option (EmbeddingProvider E V);
  pg_maxCheckpoints : Z;
  pg_maxMessages : Z;
}.

Arguments mkPostgresMemoryStore {E V}.
Arguments pg_db {E V} p.
Arguments pg_embedder {E V} p.
Arguments pg_maxCheckpoints {E V} p.
Arguments pg_maxMessages {E V} p.

Record PostgresMemoryStoreOptions (E V : Type) := mkPostgresMemoryStoreOptions {
  MaxCheckpoints : Z;
  MaxMessages : Z;
  Embedder : option (EmbeddingProvider E V);
}.

Arguments mkPostgresMemoryStoreOptions {E V}.
Arguments MaxCheckpoints {E V} p.
Arguments MaxMessages {E V} p.
Arguments Embedder {E V} p.

Definition NewPostgresMemoryStore {E V} (db : DBQuerier E V) (opts : PostgresMemoryStoreOptions E V) :
    PostgresMemoryStore E V :=
  mkPostgresMemoryStore db (Embedder opts) (or_default 50 (MaxCheckpoints opts)) (or_default 200 (MaxMessages opts)).

(** [ctx.Value("tenantID").(string)], or the empty string. *)
Definition pg_tenant (ctx : context) : string := string_or_empty (ctx_Value ctx (KString "tenantID")).

(** The texts of a message, a line feed after each. *)
Definition text_content (m : Message) : string :=
  foldr (fun p acc => if bool_decide (part_Type p = PartTypeText)
                      then part_Text p +:+ lf +:+ acc else acc) "" (msg_Parts m).

Section store.
Context {E V : Type} `{!PlanDocs E} (st : PostgresMemoryStore E V).
(** What a failed [json.Unmarshal] leaves in the struct. *)
Context (partial : json -> AgentState).

(** The statements of a transaction, each with the text its error is wrapped in;
    the first error ends it. *)
Fixpoint run_stmts (tx : DBTx E V) (ctx : context) (stmts : list (option string * sql_stmt V)) :
    M E (option error) :=
  match stmts with
  | [] => tx_Commit tx ctx
  | (what, s) :: rest =>
      err <- tx_Exec tx ctx s ;;
      match err with
      | Some e => ret (Some (match what with
                             | Some t => ErrWrap (t +:+ ": " +:+ Error e) e
                             | None => e
                             end))
      | None => run_stmts tx ctx rest
      end
  end.

Definition save_stmts (sessionID tenantID status ckptID : string) (data : json) :
    list (option string * sql_stmt V) :=
  [(Some "upsert session", UpsertSession sessionID tenantID status);
   (Some "upsert agent_state", UpsertState sessionID data);
   (Some "insert checkpoint", InsertCheckpoint ckptID sessionID data)].

Definition Pg_Save (ctx : context) (sessionID : string) (state : loc) : M E (string * option error) :=
  data <- json_Marshal state ;;
  match data with
  | None => ret ("", Some ErrMarshal)
  | Some data =>
      ckptID <- uuid_New ;;
      tx <- db_BeginTx (pg_db st) ctx ;;
      match tx with
      | inr err => ret ("", Some err)
      | inl tx =>
          deferring
            (s <- load state ;;
             err <- run_stmts tx ctx (save_stmts sessionID (pg_tenant ctx) (Status s) ckptID data) ;;
             ret (match err with Some e => ("", Some e) | None => (ckptID, None) end))
            (tx_Rollback tx ctx)
      end
  end.

Definition Pg_pruneCheckpoints (ctx : context) (sessionID : string) : M E unit :=
  db_Exec (pg_db st) ctx (DeleteCheckpoints sessionID (pg_maxCheckpoints st)) ;; ret tt.

(** [var state core.AgentState; return &state, json.Unmarshal(...)]: the pointer
    is returned with the error. *)
Definition decode_row (data : json) : M E (option loc * option error) :=
  match unmarshal_AgentState data with
  | Some s => l <- alloc s ;; ret (Some l, None)
  | None => l <- alloc (partial data) ;; ret (Some l, Some ErrUnmarshal)
  end.

Definition query_state (ctx : context) (q : row_query) (missing : string) : M E (option loc * option error) :=
  r <- db_QueryRow (pg_db st) ctx q ;;
  match r with
  | inr err => ret (None, Some (if errors_Is err errNoRows then ErrNew missing else err))
  | inl raw => decode_row raw
  end.

Definition Pg_Load (ctx : context) (sessionID : string) : M E (option loc * option error) :=
  query_state ctx (SelectState sessionID) ("session " +:+ sessionID +:+ " not found").

Definition Pg_LoadCheckpoint (ctx : context) (checkpointID : string) : M E (option loc * option error) :=
  query_state ctx (SelectCheckpoint checkpointID) ("checkpoint " +:+ checkpointID +:+ " not found").

(** The loop over the rows, [f] giving what is appended for a row: a row that
    does not scan ends it with nothing. *)
Fixpoint scan_rows {A B} (f : A -> option B) (items : list (A + error)) (acc : list B)
    (last : option error) : list B * option error :=
  match items with
  | [] => (acc, last)
  | inr e :: _ => ([], Some e)
  | inl a :: rest => scan_rows f rest (acc ++ option_list (f a)) last
  end.

Definition collect_rows {A B} (f : A -> option B) (rows : DBRows A) : list B * option error :=
  scan_rows f (rows_items rows) [] (rows_Err rows).

Definition Pg_ListCheckpoints (ctx : context) (sessionID : string) : M E (list CheckpointMeta * option error) :=
  r <- db_ListCheckpoints (pg_db st) ctx sessionID (pg_maxCheckpoints st) ;;
  ret (match r with inr err => ([], Some err) | inl rows => collect_rows Some rows end).

(** The embedding of a message: only a user's, and only if it has a text; the
    error of the embedder is ignored. *)
Definition embed_message (ctx : context) (m : Message) : M E (option V) :=
  match pg_embedder st with
  | Some embedder =>
      if bool_decide (msg_Role m = RoleUser) && negb (str_empty (text_content m)) then
        let* (emb, err) := emb_EmbedText embedder ctx (text_content m) in
        ret (match err with None => Some emb | Some _ => None end)
      else ret None
  | None => ret None
  end.

(** The loop of [AppendMessages]; [docs] are the documents of the plans. *)
Fixpoint insert_messages (tx : DBTx E V) (ctx : context) (sessionID : string) (ms : list Message) :
    M E (option error) :=
  match ms with
  | [] =>
      err <- tx_Exec tx ctx (DeleteMessages sessionID (pg_maxMessages st)) ;;
      match err with Some e => ret (Some e) | None => tx_Commit tx ctx end
  | m :: rest =>
      parts <- (fun w => (Ret (marshal_list (marshal_Part (plan_doc (w_ext w))) (msg_Parts m)), w)) ;;
      match parts with
      | None => ret (Some ErrMarshal)
      | Some b =>
          emb <- embed_message ctx m ;;
          err <- tx_Exec tx ctx (InsertMessage sessionID (pg_tenant ctx) (msg_Role m) b emb) ;;
          match err with Some e => ret (Some e) | None => insert_messages tx ctx sessionID rest end
      end
  end.

Definition Pg_AppendMessages (ctx : context) (sessionID : string) (ms : list Message) : M E (option error) :=
  tx <- db_BeginTx (pg_db st) ctx ;;
  match tx with
  | inr err => ret (Some err)
  | inl tx => deferring (insert_messages tx ctx sessionID ms) (tx_Rollback tx ctx)
  end.

(** A row of a search; a row whose content does not decode is skipped. *)
Definition row_message (row : string * json) : option Message :=
  (fun ps => message row.1 ps) <$>
  (match row.2 with JNull => Some [] | j => dec_list dec_Part j end).

Definition Pg_Search (ctx : context) (sessionID query : string) (topK : Z) :
    M E (list Message * option error) :=
  match pg_embedder st with
  | None => ret ([], Some (ErrNew "embedding provider not configured for pg store"))
  | Some embedder =>
      let* (emb, err) := emb_EmbedText embedder ctx query in
      match err with
      | Some e => ret ([], Some (ErrWrap ("embed query failed: " +:+ Error e) e))
      | None =>
          r <- db_SearchMessages (pg_db st) ctx sessionID emb topK ;;
          ret (match r with inr err => ([], Some err) | inl rows => collect_rows row_message rows end)
      end
  end.

Definition Postgres : MemoryStore E :=
  mkMemoryStore Pg_Save Pg_Load Pg_LoadCheckpoint Pg_ListCheckpoints Pg_AppendMessages Pg_Search.
End store.

(** ** storage/pgx_driver.go

    [pool] is the pool of pgx behind the same operations; the driver adapts its
    errors. *)
Definition translatePgError (err : option error) : option error :=
  match err with
  | Some e => Some (if bool_decide (Error e = "no rows in result set") then errNoRows else e)
  | None => None
  end.

Definition pgxTxAdapter {E V} (tx : DBTx E V) : DBTx E V :=
  mkDBTx (fun ctx s => err <- tx_Exec tx ctx s ;; ret (translatePgError err)) (tx_Commit tx) (tx_Rollback tx).

(** What [NewPostgresDriver] calls, with a configuration of a type [C]; the
    connections are told to register the types of pgvector. *)
Record PgxLib (E V C : Type) := mkPgxLib {
  pl_ParseConfig : string -> C + error;
  pl_set_MaxConns : Z -> C -> C;
  pl_AfterConnect_RegisterTypes : C -> C;
  pl_NewWithConfig : context -> C -> M E (DBQuerier E V + error);
  pl_Ping : DBQuerier E V -> context -> M E (option error);
}.

Arguments mkPgxLib {E V C}.
Arguments pl_ParseConfig {E V C} p.
Arguments pl_set_MaxConns {E V C} p.
Arguments pl_AfterConnect_RegisterTypes {E V C} p.
Arguments pl_NewWithConfig {E V C} p.
Arguments pl_Ping {E V C} p.

(** [int32(z)]. *)
Definition int32 (z : Z) : Z := ((z + 2 ^ 31) mod 2 ^ 32 - 2 ^ 31)%Z.

Definition PgxDriver {E V} (pool : DBQuerier E V) : DBQuerier E V :=
  mkDBQuerier (db_QueryRow pool) (db_ListCheckpoints pool) (db_SearchMessages pool)
    (fun ctx s => err <- db_Exec pool ctx s ;; ret (translatePgError err))
    (fun ctx => r <- db_BeginTx pool ctx ;;
                ret (match r with inl tx => inl (pgxTxAdapter tx) | inr err => inr err end)).

Definition NewPostgresDriver {E V C} (lib : PgxLib E V C) (url : string) (maxConns : Z) :
    M E (DBQuerier E V + error) :=
  match pl_ParseConfig lib url with
  | inr err => ret (inr err)
  | inl config =>
      pool <- pl_NewWithConfig lib Background
                (pl_AfterConnect_RegisterTypes lib (pl_set_MaxConns lib (int32 maxConns) config)) ;;
      match pool with
      | inr err => ret (inr err)
      | inl pool =>
          err <- pl_Ping lib pool Background ;;
          ret (match err with Some e => inr e | None => inl (PgxDriver pool) end)
      end
  end.

(** ** Reference definitions: what the statements do

    The tables of [migrations/001] and [002], without the times of the sessions
    and of the states. *)

Record ckpt_row := mkCkptRow { cr_id : string; cr_session : string; cr_json : json; cr_created : Z }.

Record msg_row (V : Type) := mkMsgRow {
  mr_id : Z;
  mr_session : string;
  mr_tenant : string;
  mr_role : string;
  mr_content : json;
  mr_embedding : option V;
  mr_created : Z;
}.

Arguments mkMsgRow {V}.
Arguments mr_id {V} m.
Arguments mr_session {V} m.
Arguments mr_tenant {V} m.
Arguments mr_role {V} m.
Arguments mr_content {V} m.
Arguments mr_embedding {V} m.
Arguments mr_created {V} m.

(** A session has its tenant and its status, a state its document and its
    version; [t_next] is the sequence of the messages' identifiers. *)
Record pg_tables (V : Type) := mkTables {
  t_sessions : gmap string (string * string);
  t_states : gmap string (json * Z);
  t_ckpts : list ckpt_row;
  t_msgs : list (msg_row V);
  t_next : Z;
}.

Arguments mkTables {V}.
Arguments t_sessions {V} p.
Arguments t_states {V} p.
Arguments t_ckpts {V} p.
Arguments t_msgs {V} p.
Arguments t_next {V} p.

(** [SELECT ... ORDER BY time DESC LIMIT n]: rows of the same time may come in any
    order. *)
Definition newest {A} (time : A -> Z) (n : Z) (rows kept : list A) : Prop :=
  (0 <= n)%Z /\ kept `sublist_of` rows /\ length kept = Nat.min (Z.to_nat n) (length rows) /\
  forall r k, r ∈ rows -> r ∉ kept -> k ∈ kept -> (time r <= time k)%Z.

(** A statement in a transaction that began at [t], the [NOW()] of its statements. *)
Inductive exec_stmt {V} (t : Z) (d : pg_tables V) : sql_stmt V -> pg_tables V -> Prop :=
  | exec_session sid tenant status :
      exec_stmt t d (UpsertSession sid tenant status)
        (mkTables (<[sid := (match t_sessions d !! sid with Some (tn, _) => tn | None => tenant end, status)]>
                     (t_sessions d)) (t_states d) (t_ckpts d) (t_msgs d) (t_next d))
  | exec_state sid doc :
      is_Some (t_sessions d !! sid) ->
      exec_stmt t d (UpsertState sid doc)
        (mkTables (t_sessions d)
           (<[sid := (doc, match t_states d !! sid with Some (_, v) => v + 1 | None => 1 end)%Z]> (t_states d))
           (t_ckpts d) (t_msgs d) (t_next d))
  | exec_ckpt id sid doc :
      is_Some (t_sessions d !! sid) -> id ∉ (cr_id <$> t_ckpts d) ->
      exec_stmt t d (InsertCheckpoint id sid doc)
        (mkTables (t_sessions d) (t_states d) (t_ckpts d ++ [mkCkptRow id sid doc t]) (t_msgs d) (t_next d))
  | exec_del_ckpts sid n kept :
      newest cr_created n (filter (fun r => cr_session r = sid) (t_ckpts d)) kept ->
      exec_stmt t d (DeleteCheckpoints sid n)
        (mkTables (t_sessions d) (t_states d)
           (filter (fun r => cr_session r <> sid \/ cr_id r ∈ (cr_id <$> kept)) (t_ckpts d))
           (t_msgs d) (t_next d))
  | exec_msg sid tenant role content emb :
      is_Some (t_sessions d !! sid) ->
      exec_stmt t d (InsertMessage sid tenant role content emb)
        (mkTables (t_sessions d) (t_states d) (t_ckpts d)
           (t_msgs d ++ [mkMsgRow (t_next d) sid tenant role content emb t]) (t_next d + 1)%Z)
  | exec_del_msgs sid n kept :
      newest mr_created n (filter (fun r => mr_session r = sid) (t_msgs d)) kept ->
      exec_stmt t d (DeleteMessages sid n)
        (mkTables (t_sessions d) (t_states d) (t_ckpts d)
           (filter (fun r => mr_session r <> sid \/ mr_id r ∈ (mr_id <$> kept)) (t_msgs d)) (t_next d))
  | exec_new_session sid :
      exec_stmt t d (InsertSession sid)
        (mkTables (match t_sessions d !! sid with
                   | Some _ => t_sessions d
                   | None => <[sid := ("default", "Running")]> (t_sessions d)
                   end) (t_states d) (t_ckpts d) (t_msgs d) (t_next d)).

Inductive exec_all {V} (t : Z) : pg_tables V -> list (sql_stmt V) -> pg_tables V -> Prop :=
  | exec_nil d : exec_all t d [] d
  | exec_cons d s d1 ss d2 : exec_stmt t d s d1 -> exec_all t d1 ss d2 -> exec_all t d (s :: ss) d2.

Definition row_of {V} (d : pg_tables V) (q : row_query) : option json :=
  match q with
  | SelectState sid => fst <$> t_states d !! sid
  | SelectCheckpoint id => (fun r => cr_json r.2) <$> list_find (fun r => cr_id r = id) (t_ckpts d)
  end.

(** Two worlds that differ in neither the states, the plans nor the tables. *)
Definition same_tables {E V} `{!PlanDocs E} (db_of : E -> pg_tables V) (w w' : World E) : Prop :=
  w_heap w' = w_heap w /\ plan_doc (w_ext w') = plan_doc (w_ext w) /\
  db_of (w_ext w') = db_of (w_ext w).

(** A database whose committed tables are [db_of]; [handle tx] says that [tx] is
    one of its transactions, [holds tx w t d] that it is open, was begun at [t] and
    sees the tables [d]. A commit that fails may
    have happened. A query of one row finds the row or answers [no_rows]. *)
Class PgLaws {E V} `{!PlanDocs E} (q : DBQuerier E V) (db_of : E -> pg_tables V)
    (handle : DBTx E V -> Prop) (holds : DBTx E V -> World E -> Z -> pg_tables V -> Prop)
    (no_rows : error) : Prop := {
  law_begin : forall ctx w,
    (exists e w', db_BeginTx q ctx w = (Ret (inr e), w') /\ same_tables db_of w w') \/
    (exists tx t w', db_BeginTx q ctx w = (Ret (inl tx), w') /\ same_tables db_of w w' /\
       handle tx /\ holds tx w' t (db_of (w_ext w)));
  law_exec : forall tx ctx s w t d, holds tx w t d ->
    exists err w', tx_Exec tx ctx s w = (Ret err, w') /\ same_tables db_of w w' /\
      (err = None -> exists d', exec_stmt t d s d' /\ holds tx w' t d');
  law_commit : forall tx ctx w t d, holds tx w t d ->
    exists err w', tx_Commit tx ctx w = (Ret err, w') /\ w_heap w' = w_heap w /\
      (err = None -> db_of (w_ext w') = d) /\
      (err <> None -> db_of (w_ext w') = db_of (w_ext w) \/ db_of (w_ext w') = d);
  law_rollback : forall (tx : DBTx E V) ctx w, handle tx ->
    exists r w', tx_Rollback tx ctx w = (r, w') /\ w_heap w' = w_heap w /\
      db_of (w_ext w') = db_of (w_ext w);
  law_row : forall ctx k w,
    db_QueryRow q ctx k w =
    (Ret (match row_of (db_of (w_ext w)) k with Some j => inl j | None => inr no_rows end), w);
}.

(** [db'] is [db] after a save of [doc]: the state and its version, one more
    checkpoint, and nothing else but the row of the session. *)
Definition saved {V} (db db' : pg_tables V) (sid id : string) (doc : json) : Prop :=
  exists t, ~ (id ∈ (cr_id <$> t_ckpts db)) /\
    t_states db' = <[sid := (doc, match t_states db !! sid with Some (_, v) => v + 1 | None => 1 end)%Z]>
                     (t_states db) /\
    t_ckpts db' = t_ckpts db ++ [mkCkptRow id sid doc t] /\ t_msgs db' = t_msgs db.

(** An embedding the store may have for a message. *)
Definition embeds {E V} (st : PostgresMemoryStore E V) (ctx : context) (m : Message) (v : option V) : Prop :=
  exists w w', embed_message st ctx m w = (Ret v, w').

(** The rows of messages appended by a transaction that began at [t], with
    embeddings that [emb] admits. *)
Definition appended {V} (emb : Message -> option V -> Prop) (plan_json : nat -> option json) (sid tenant : string)
    (t : Z) (ms : list Message) (rows : list (msg_row V)) : Prop :=
  Forall2 (fun m r => mr_session r = sid /\ mr_tenant r = tenant /\ mr_role r = msg_Role m /\
    marshal_list (marshal_Part plan_json) (msg_Parts m) = Some (mr_content r) /\ mr_created r = t /\
    emb m (mr_embedding r)) ms rows.

(** [db'] is [db] after [ms] were appended to a session and its window trimmed to
    [n] messages. *)
Definition windowed {V} (emb : Message -> option V -> Prop) (plan_json : nat -> option json) (sid tenant : string)
    (n : Z) (ms : list Message) (db db' : pg_tables V) : Prop :=
  exists t rows kept, appended emb plan_json sid tenant t ms rows /\
    newest mr_created n (filter (fun r => mr_session r = sid) (t_msgs db ++ rows)) kept /\
    filter (fun r => mr_session r = sid) (t_msgs db') = kept /\
    filter (fun r => mr_session r <> sid) (t_msgs db') = filter (fun r => mr_session r <> sid) (t_msgs db) /\
    t_states db' = t_states db /\ t_ckpts db' = t_ckpts db.

(** The identifiers of the messages are distinct and below the sequence. *)
Definition tables_wf {V} (d : pg_tables V) : Prop :=
  NoDup (mr_id <$> t_msgs d) /\ Forall (fun r => (mr_id r < t_next d)%Z) (t_msgs d).

(** An embedder that answers and leaves the database alone. *)
Class EmbedderOK {E V} `{!PlanDocs E} (emb : EmbeddingProvider E V) (db_of : E -> pg_tables V)
    (holds : DBTx E V -> World E -> Z -> pg_tables V -> Prop) : Prop := {
  embed_answers : forall ctx text w, exists v err w',
    emb_EmbedText emb ctx text w = (Ret (v, err), w') /\ same_tables db_of w w' /\
    forall tx t d, holds tx w t d -> holds tx w' t d;
}.

(** ** Lemmas *)

Section lemmas.
Context {E V : Type} `{!PlanDocs E} (db_of : E -> pg_tables V)
  (handle : DBTx E V -> Prop) (holds : DBTx E V -> World E -> Z -> pg_tables V -> Prop).

Lemma same_refl w : same_tables db_of w w.
Proof. done. Qed.

Lemma same_trans w1 w2 w3 : same_tables db_of w1 w2 -> same_tables db_of w2 w3 -> same_tables db_of w1 w3.
Proof. intros (H1 & H2 & H3) (H4 & H5 & H6). split_and!; congruence. Qed.

Section pg.
Context (q : DBQuerier E V) (no_rows : error) `{!PgLaws q db_of handle holds no_rows}.

Lemma run_stmts_spec tx ctx stmts w t d :
  holds tx w t d ->
  exists err w', run_stmts tx ctx stmts w = (Ret err, w') /\ w_heap w' = w_heap w /\
    (err = None -> exec_all t d stmts.*2 (db_of (w_ext w'))) /\
    (err <> None -> db_of (w_ext w') = db_of (w_ext w) \/ exec_all t d stmts.*2 (db_of (w_ext w'))).
Proof.
  revert w d. induction stmts as [|[what s] stmts IH]; intros w d Hh; cbn [run_stmts].
  - destruct (law_commit tx ctx w t d Hh) as (err & w' & Hc & Hw & H1 & H2).
    exists err, w'. split_and!; [done|done| |]; intros He; rewrite ?H1 by done; [constructor|].
    destruct (H2 He) as [->| ->]; [by left | right; constructor].
  - destruct (law_exec tx ctx s w t d Hh) as (err & w1 & Hx & (Hw1 & Hp1 & Hd1) & Hok).
    rewrite (bind_Ret _ _ _ _ _ Hx). destruct err as [e|].
    + eexists _, w1. split_and!; [done|done|done|]. intros _. by left.
    + destruct Hok as (d1 & Hs & Hh1); [done|].
      destruct (IH w1 d1 Hh1) as (err & w2 & Hr & Hw2 & H1 & H2).
      exists err, w2. split_and!; [done|congruence| |]; intros He; rewrite fmap_cons.
      * econstructor; [exact Hs | by apply H1].
      * destruct (H2 He) as [Hd2|Hd2]; [left; congruence | right; by econstructor].
Qed.

Lemma deferring_eq {A B} (m : M E A) (d : M E B) w a w1 :
  m w = (Ret a, w1) -> deferring m d w = (Ret a, (d w1).2).
Proof. unfold deferring. by intros ->. Qed.

Lemma save_stmts_saved t d sid tenant status id doc d' :
  exec_all t d (save_stmts (V := V) sid tenant status id doc).*2 d' -> saved d d' sid id doc.
Proof.
  intros H. repeat match goal with
  | H : exec_all _ _ _ _ |- _ => inversion H; clear H; subst
  | H : exec_stmt _ _ _ _ |- _ => inversion H; clear H; subst
  end. exists t. simpl in *. by split_and!.
Qed.

Lemma exec_stmt_wf t d s d' : tables_wf d -> exec_stmt (V := V) t d s d' -> tables_wf d'.
Proof.
  intros [Hn Hl] []; try done; split; simpl.
  - rewrite fmap_app. apply NoDup_app. split_and!; [done| |apply NoDup_singleton].
    intros i Hi ->%list_elem_of_singleton. apply list_elem_of_fmap in Hi as (r & Hi & Hr).
    rewrite Forall_forall in Hl. specialize (Hl r Hr). simpl in Hi. lia.
  - apply Forall_app. split; [|constructor; [simpl; lia | constructor]].
    eapply Forall_impl; [exact Hl|]. simpl. lia.
  - eapply sublist_NoDup; [exact Hn|]. apply fmap_sublist, sublist_filter.
  - by apply Forall_filter_keep.
Qed.

Lemma exec_all_wf t d ss d' : tables_wf d -> exec_all (V := V) t d ss d' -> tables_wf d'.
Proof. intros Hw. induction 1; [done|]. eauto using exec_stmt_wf. Qed.
End pg.
End lemmas.

(** ** Lemmas: windows *)

Section window.
Context {V : Type}.
Implicit Types (d : pg_tables V) (r : msg_row V).

(** In rows with distinct identifiers the ones whose identifier is kept are the
    kept ones. *)
Lemma filter_kept (rows kept : list (msg_row V)) :
  NoDup (mr_id <$> rows) -> kept `sublist_of` rows ->
  filter (fun r => mr_id r ∈ (mr_id <$> kept)) rows = kept.
Proof.
  intros Hn Hs. induction Hs as [|r kept rows Hs IH|r kept rows Hs IH]; [done| |];
    apply NoDup_cons in Hn as [Hr Hn]; rewrite filter_cons.
  - rewrite decide_True by (rewrite fmap_cons; left). f_equal. etransitivity; [|exact (IH Hn)].
    apply filter_iff_in. intros x Hx. rewrite fmap_cons, elem_of_cons. split; [|by right].
    intros [He|?]; [|done]. exfalso. apply Hr. rewrite <- He. by apply list_elem_of_fmap_2.
  - rewrite decide_False; [by apply IH|]. intros Hin. apply Hr.
    by eapply elem_of_sublist; [|apply fmap_sublist].
Qed.

Lemma sublist_filter_kept (P : msg_row V -> Prop) `{!forall r, Decision (P r)} rows kept :
  NoDup (mr_id <$> rows) -> kept `sublist_of` filter P rows ->
  filter P (filter (fun r => ~ P r \/ mr_id r ∈ (mr_id <$> kept)) rows) = kept /\
  filter (fun r => ~ P r) (filter (fun r => ~ P r \/ mr_id r ∈ (mr_id <$> kept)) rows)
    = filter (fun r => ~ P r) rows.
Proof.
  intros Hn Hs. rewrite !list_filter_filter. split.
  - etransitivity; [|apply (filter_kept (filter P rows) kept); [|done]].
    + rewrite list_filter_filter. apply filter_iff_in. intros r _. tauto.
    + eapply sublist_NoDup; [exact Hn|]. apply fmap_sublist, sublist_filter.
  - apply filter_iff_in. intros r _. tauto.
Qed.

(** A trim leaves the window of its session and the other sessions. *)
Lemma delete_messages_window t d sid n d' :
  tables_wf d -> exec_stmt t d (DeleteMessages sid n) d' ->
  exists kept, newest mr_created n (filter (fun r => mr_session r = sid) (t_msgs d)) kept /\
    filter (fun r => mr_session r = sid) (t_msgs d') = kept /\
    filter (fun r => mr_session r <> sid) (t_msgs d') = filter (fun r => mr_session r <> sid) (t_msgs d) /\
    t_states d' = t_states d /\ t_ckpts d' = t_ckpts d.
Proof.
  intros [Hn _] H. inversion H as [| | | | |? ? kept Hk|]; subst. exists kept. split; [done|]. simpl.
  destruct Hk as (_ & Hs & _). by destruct (sublist_filter_kept _ _ _ Hn Hs) as [-> ->].
Qed.

Lemma insert_message_row t d sid tenant role content emb d' :
  exec_stmt t d (InsertMessage sid tenant role content emb) d' ->
  t_msgs d' = t_msgs d ++ [mkMsgRow (t_next d) sid tenant role content emb t] /\
  t_states d' = t_states d /\ t_ckpts d' = t_ckpts d.
Proof. by inversion 1. Qed.
End window.

Section append.
Context {E V : Type} `{!PlanDocs E} (db_of : E -> pg_tables V)
  (handle : DBTx E V -> Prop) (holds : DBTx E V -> World E -> Z -> pg_tables V -> Prop) (no_rows : error)
  (st : PostgresMemoryStore E V) `{!PgLaws (pg_db st) db_of handle holds no_rows}.
Context (Hemb : forall emb, pg_embedder st = Some emb -> EmbedderOK emb db_of holds).

Lemma embed_message_keeps ctx m w :
  exists v w', embed_message st ctx m w = (Ret v, w') /\ same_tables db_of w w' /\
    forall tx t d, holds tx w t d -> holds tx w' t d.
Proof.
  unfold embed_message. destruct (pg_embedder st) as [emb|] eqn:He; [|by exists None, w].
  case_match; [|by exists None, w].
  destruct (Hemb emb eq_refl) as [Ha]. destruct (Ha ctx (text_content m) w) as (v & err & w' & Hr & Hs & Hh).
  rewrite (bind_Ret _ _ _ _ _ Hr). by eexists _, w'.
Qed.

(** The loop of [AppendMessages] over the tables [d] the transaction sees: its
    effect when it reports none. *)
Definition inserted (ctx : context) (pj : nat -> option json) (sid tenant : string) (t : Z) (ms : list Message)
    (d d' : pg_tables V) : Prop :=
  exists rows kept, appended (embeds st ctx) pj sid tenant t ms rows /\
    newest mr_created (pg_maxMessages st) (filter (fun r => mr_session r = sid) (t_msgs d ++ rows)) kept /\
    filter (fun r => mr_session r = sid) (t_msgs d') = kept /\
    filter (fun r => mr_session r <> sid) (t_msgs d') = filter (fun r => mr_session r <> sid) (t_msgs d) /\
    t_states d' = t_states d /\ t_ckpts d' = t_ckpts d.

Lemma insert_messages_spec tx ctx sid ms w t d :
  tables_wf d -> holds tx w t d ->
  exists err w', insert_messages st tx ctx sid ms w = (Ret err, w') /\ w_heap w' = w_heap w /\
    (err = None -> tables_wf (db_of (w_ext w')) /\
       inserted ctx (plan_doc (w_ext w)) sid (pg_tenant ctx) t ms d (db_of (w_ext w'))) /\
    (err <> None -> db_of (w_ext w') = db_of (w_ext w) \/
       inserted ctx (plan_doc (w_ext w)) sid (pg_tenant ctx) t ms d (db_of (w_ext w'))).
Proof.
  revert w d. induction ms as [|m ms IH]; intros w d Hwf Hh; cbn [insert_messages].
  - destruct (law_exec tx ctx (DeleteMessages sid (pg_maxMessages st)) w t d Hh)
      as (err & w1 & Hx & (Hw1 & Hp1 & Hd1) & Hok).
    rewrite (bind_Ret _ _ _ _ _ Hx). destruct err as [e|].
    { exists (Some e), w1. split_and!; [done|done|done|]. intros _. by left. }
    destruct Hok as (d1 & Hs & Hh1); [done|].
    destruct (law_commit tx ctx w1 t d1 Hh1) as (err & w2 & Hc & Hw2 & H1 & H2).
    assert (Hins : inserted ctx (plan_doc (w_ext w)) sid (pg_tenant ctx) t [] d d1).
    { destruct (delete_messages_window _ _ _ _ _ Hwf Hs) as (kept & Hk).
      exists [], kept. rewrite app_nil_r. split; [constructor | exact Hk]. }
    exists err, w2. split_and!; [done|congruence| |]; intros He.
    + rewrite (H1 He). split; [by eapply exec_stmt_wf | done].
    + destruct (H2 He) as [->| ->]; [by left; rewrite Hd1 | by right].
  - rewrite (bind_Ret _ _ (marshal_list (marshal_Part (plan_doc (w_ext w))) (msg_Parts m)) w w) by done.
    destruct (marshal_list _ _) as [b|] eqn:Hb.
    2: { exists (Some ErrMarshal), w. split_and!; [done|done|done|]. intros _. by left. }
    destruct (embed_message_keeps ctx m w) as (v & w0 & He0 & (Hw0 & Hp0 & Hd0) & Hh0).
    rewrite (bind_Ret _ _ _ _ _ He0).
    destruct (law_exec tx ctx (InsertMessage sid (pg_tenant ctx) (msg_Role m) b v) w0 t d (Hh0 _ _ _ Hh))
      as (err & w1 & Hx & (Hw1 & Hp1 & Hd1) & Hok).
    rewrite (bind_Ret _ _ _ _ _ Hx). destruct err as [e|].
    { exists (Some e), w1. split_and!; [done|congruence|done|]. intros _. left. congruence. }
    destruct Hok as (d1 & Hs & Hh1); [done|].
    destruct (IH w1 d1 (exec_stmt_wf _ _ _ _ Hwf Hs) Hh1) as (err & w2 & Hr & Hw2 & H1 & H2).
    destruct (insert_message_row _ _ _ _ _ _ _ _ Hs) as (Hm1 & Hst1 & Hck1).
    assert (Hins : forall d2, inserted ctx (plan_doc (w_ext w1)) sid (pg_tenant ctx) t ms d1 d2 ->
      inserted ctx (plan_doc (w_ext w)) sid (pg_tenant ctx) t (m :: ms) d d2).
    { intros d2 (rows & kept & Ha & Hk & Hf & Ho & Hst & Hck). rewrite Hp1, Hp0 in Ha. rewrite Hm1 in Hk, Ho.
      exists (mkMsgRow (t_next d) sid (pg_tenant ctx) (msg_Role m) b v t :: rows), kept. split_and!.
      - constructor; [|exact Ha]. split_and!; try done. by exists w, w0.
      - by rewrite <- app_assoc in Hk.
      - done.
      - rewrite Ho, filter_app, filter_cons_False, filter_nil, app_nil_r; [done|]. simpl. tauto.
      - congruence.
      - congruence. }
    exists err, w2. split_and!; [done|congruence| |]; intros He.
    + destruct (H1 He). split; [done | by apply Hins].
    + destruct (H2 He) as [->|?]; [left; congruence | right; by apply Hins].
Qed.
End append.

(** The driver over a pool that keeps the laws keeps them. *)
Section driver.
Context {E V : Type} `{!PlanDocs E} (db_of : E -> pg_tables V)
  (handle : DBTx E V -> Prop) (holds : DBTx E V -> World E -> Z -> pg_tables V -> Prop) (no_rows : error)
  (pool : DBQuerier E V) `{!PgLaws pool db_of handle holds no_rows}.

Definition driver_handle (tx : DBTx E V) : Prop := exists tx0, handle tx0 /\ tx = pgxTxAdapter tx0.

Definition driver_holds (tx : DBTx E V) (w : World E) (t : Z) (d : pg_tables V) : Prop :=
  exists tx0, tx = pgxTxAdapter tx0 /\ holds tx0 w t d.

#[export] Instance PgxDriver_laws : PgLaws (PgxDriver pool) db_of driver_handle driver_holds no_rows.
Proof.
  split.
  - intros ctx w. destruct (law_begin ctx w) as [(e & w' & Hb & Hs)|(tx & t & w' & Hb & Hs & Hh & Ht)].
    + left. exists e, w'. cbn. rewrite (bind_Ret _ _ _ _ _ Hb). by split_and!.
    + right. exists (pgxTxAdapter tx), t, w'. cbn. rewrite (bind_Ret _ _ _ _ _ Hb).
      split_and!; [done|done|by exists tx|by exists tx].
  - intros ? ctx s w t d (tx & -> & Ht). destruct (law_exec tx ctx s w t d Ht) as (err & w' & Hx & Hs & Hok).
    exists (translatePgError err), w'. cbn. rewrite (bind_Ret _ _ _ _ _ Hx). split_and!; [done|done|].
    intros He. destruct err; [done|]. destruct Hok as (d' & Hd & Ht'); [done|].
    exists d'. split; [done | by exists tx].
  - intros ? ctx w t d (tx & -> & Ht). by apply (law_commit tx ctx w t d).
  - intros ? ctx w (tx & Hh & ->). by apply (law_rollback tx ctx w).
  - intros. cbn. apply law_row.
Qed.
End driver.

Lemma find_new_ckpt l id sid doc t :
  ~ (id ∈ (cr_id <$> l)) ->
  list_find (fun r => cr_id r = id) (l ++ [mkCkptRow id sid doc t]) = Some (length l, mkCkptRow id sid doc t).
Proof.
  induction l as [|r l IH]; intros Hid; [simpl; by rewrite decide_True|].
  rewrite fmap_cons, elem_of_cons in Hid. simpl. rewrite decide_False by naive_solver.
  rewrite IH by tauto. done.
Qed.

(** The window of the messages, for the theorem below and the search. *)
Lemma append_window {E V} `{!PlanDocs E} (st : PostgresMemoryStore E V)
    (db_of : E -> pg_tables V) (handle : DBTx E V -> Prop)
    (holds : DBTx E V -> World E -> Z -> pg_tables V -> Prop) (no_rows : error)
    (ctx : context) (sid : string) (ms : list Message) (w : World E) :
  PgLaws (pg_db st) db_of handle holds no_rows ->
  (forall emb, pg_embedder st = Some emb -> EmbedderOK emb db_of holds) ->
  tables_wf (db_of (w_ext w)) ->
  exists err w', Pg_AppendMessages st ctx sid ms w = (Ret err, w') /\ w_heap w' = w_heap w /\
    (err = None -> tables_wf (db_of (w_ext w')) /\
       windowed (embeds st ctx) (plan_doc (w_ext w)) sid (pg_tenant ctx) (pg_maxMessages st) ms
         (db_of (w_ext w)) (db_of (w_ext w')) /\
       length (filter (fun r => mr_session r = sid) (t_msgs (db_of (w_ext w')))) =
         Nat.min (Z.to_nat (pg_maxMessages st))
           (length (filter (fun r => mr_session r = sid) (t_msgs (db_of (w_ext w)))) + length ms)) /\
    (err <> None -> db_of (w_ext w') = db_of (w_ext w) \/
       windowed (embeds st ctx) (plan_doc (w_ext w)) sid (pg_tenant ctx) (pg_maxMessages st) ms
         (db_of (w_ext w)) (db_of (w_ext w'))).
Proof.
  intros HL Hemb Hwf. unfold Pg_AppendMessages.
  destruct (law_begin ctx w) as [(e & w1 & Hb & Hw1 & _ & Hd1)|(tx & t & w1 & Hb & (Hw1 & Hp1 & Hd1) & Hh & Ht)];
    rewrite (bind_Ret _ _ _ _ _ Hb).
  { exists (Some e), w1. split_and!; [done|done|done|]. intros _. by left. }
  destruct (insert_messages_spec db_of handle holds no_rows st Hemb tx ctx sid ms w1 t _ Hwf Ht)
    as (err & w2 & Hr & Hw2 & Hok & Herr).
  destruct (law_rollback tx ctx w2 Hh) as (rr & w3 & Hroll & Hw3 & Hd3).
  rewrite (deferring_eq _ _ _ _ _ Hr), Hroll. cbn [snd]. rewrite Hp1 in *.
  exists err, w3. split_and!; [done | congruence | |]; intros He.
  - destruct (Hok He) as [Hwf' Hins]. rewrite Hd3. split_and!; [done|by exists t|].
    destruct Hins as (rows & kept & Ha & (_ & _ & Hlen & _) & -> & _). rewrite Hlen, filter_app, length_app.
    do 2 f_equal. transitivity (length rows); [|symmetry; by eapply Forall2_length].
    f_equal. clear -Ha. induction Ha as [|m r ms rows [Hs _] _ IH]; [done|].
    by rewrite filter_cons_True, IH.
  - rewrite Hd3. destruct (Herr He) as [Hd|Hins]; [left; congruence | right; by exists t].
Qed.

(** ** Properties *)

(** C30: a save is all or nothing, and what was saved is what is loaded. Over a
    database that keeps its laws, a save of a state that has a document either
    succeeds - the state of the session is replaced whatever its version, which
    goes up by one, one checkpoint is added and the messages are untouched - or
    fails with the tables as they were, unless the commit itself failed after the
    fact. After a success the session and its checkpoint load, under any tenant,
    the state up to the decoding of its dynamic values. *)
Theorem Pg_Save_atomic {E V} `{!PlanDocs E} (st : PostgresMemoryStore E V) (partial : json -> AgentState)
    (db_of : E -> pg_tables V) (handle : DBTx E V -> Prop)
    (holds : DBTx E V -> World E -> Z -> pg_tables V -> Prop) (no_rows : error)
    (ctx : context) (sid : string) (l : loc) (s : AgentState) (doc : json) (w : World E) :
  PgLaws (pg_db st) db_of handle holds no_rows ->
  w_heap w !! l = Some s -> marshal_AgentState (plan_doc (w_ext w)) s = Some doc ->
  exists id err w', Pg_Save st ctx sid l w = (Ret (id, err), w') /\ w_heap w' = w_heap w /\
    (err = None ->
       saved (db_of (w_ext w)) (db_of (w_ext w')) sid id doc /\
       forall ctx', let loaded := (Ret (Some (length (w_heap w)), None),
           set_heap (w_heap w ++ [norm_AgentState (plan_doc (w_ext w)) s]) w') in
         Pg_Load st partial ctx' sid w' = loaded /\ Pg_LoadCheckpoint st partial ctx' id w' = loaded) /\
    (err <> None ->
       db_of (w_ext w') = db_of (w_ext w) \/
       exists id', saved (db_of (w_ext w)) (db_of (w_ext w')) sid id' doc).
Proof.
  intros HL Hl Hdoc. unfold Pg_Save, json_Marshal.
  rewrite bind_assoc, (bind_load _ s), (bind_Ret _ _ (Some doc) w w) by (by rewrite ?Hdoc).
  set (id := or_uuid (w_orc w) (or_tick (w_orc w))). set (w0 := set_orc (next_tick (w_orc w)) w).
  rewrite (bind_Ret uuid_New _ id w w0) by done.
  destruct (law_begin ctx w0) as [(e & w1 & Hb & Hw1 & _ & Hd1)|(tx & t & w1 & Hb & (Hw1 & Hp1 & Hd1) & Hh & Ht)];
    rewrite (bind_Ret _ _ _ _ _ Hb).
  { exists "", (Some e), w1. split_and!; [done|done|done|]. intros _. by left. }
  destruct (run_stmts_spec db_of handle holds (pg_db st) no_rows tx ctx
    (save_stmts sid (pg_tenant ctx) (Status s) id doc) w1 t _ Ht) as (err & w2 & Hr & Hw2 & Hok & Herr).
  destruct (law_rollback tx ctx w2 Hh) as (rr & w3 & Hroll & Hw3 & Hd3).
  assert (Hbody : bind (load l) (fun s => bind (run_stmts tx ctx (save_stmts sid (pg_tenant ctx) (Status s) id doc))
    (fun err => ret (match err with Some e => ("", Some e) | None => (id, None) end))) w1
    = (Ret (match err with Some e => ("", Some e) | None => (id, None) end), w2)).
  { rewrite (bind_load _ s) by (by rewrite Hw1). by rewrite (bind_Ret _ _ _ _ _ Hr). }
  rewrite (deferring_eq _ _ _ _ _ Hbody), Hroll. cbn [snd].
  change (db_of (w_ext w0)) with (db_of (w_ext w)) in *. change (w_heap w0) with (w_heap w) in *.
  exists (match err with Some _ => "" | None => id end), err, w3.
  split_and!; [by destruct err | congruence | |].
  - intros ->. assert (Hsv : saved (db_of (w_ext w)) (db_of (w_ext w3)) sid id doc).
    { rewrite Hd3. by eapply save_stmts_saved, Hok. }
    split; [exact Hsv|]. intros ctx'. destruct Hsv as (tc & Hid & Hst & Hck & _).
    assert (Hdec : decode_row partial doc w3 = (Ret (Some (length (w_heap w)), None),
      set_heap (w_heap w ++ [norm_AgentState (plan_doc (w_ext w)) s]) w3)).
    { unfold decode_row. rewrite (unmarshal_marshal_AgentState _ _ _ Hdoc).
      assert (Hw : w_heap w3 = w_heap w) by congruence. rewrite <- Hw. done. }
    split; unfold Pg_Load, Pg_LoadCheckpoint, query_state; rewrite (bind_Ret _ _ _ _ _ (law_row _ _ _)); simpl.
    + by rewrite Hst, lookup_insert_eq.
    + by rewrite Hck, find_new_ckpt.
  - intros He. rewrite Hd3. destruct (Herr He) as [Hd|Hs]; [left; congruence|].
    right. exists id. by eapply save_stmts_saved.
Qed.

(** C35: the window of the messages. Over a database that keeps its laws, with an
    embedder that answers or none, appending messages is all or nothing: on
    success each message is a row of its session, with its role, its parts, the
    tenant of the context and, for a user's text, an embedding, all with the one time of the transaction; of these
    and the earlier rows of the session the newest [maxMessages] by time are kept,
    so that many or all of them remain, the other sessions, the states and the
    checkpoints are untouched and the identifiers stay distinct; on an error
    nothing is changed, unless the commit failed after the fact. *)
Theorem Pg_AppendMessages_window {E V} `{!PlanDocs E} (st : PostgresMemoryStore E V)
    (db_of : E -> pg_tables V) (handle : DBTx E V -> Prop)
    (holds : DBTx E V -> World E -> Z -> pg_tables V -> Prop) (no_rows : error)
    (ctx : context) (sid : string) (ms : list Message) (w : World E) :
  PgLaws (pg_db st) db_of handle holds no_rows ->
  (forall emb, pg_embedder st = Some emb -> EmbedderOK emb db_of holds) ->
  tables_wf (db_of (w_ext w)) ->
  exists err w', Pg_AppendMessages st ctx sid ms w = (Ret err, w') /\ w_heap w' = w_heap w /\
    (err = None -> tables_wf (db_of (w_ext w')) /\
       windowed (embeds st ctx) (plan_doc (w_ext w)) sid (pg_tenant ctx) (pg_maxMessages st) ms
         (db_of (w_ext w)) (db_of (w_ext w')) /\
       length (filter (fun r => mr_session r = sid) (t_msgs (db_of (w_ext w')))) =
         Nat.min (Z.to_nat (pg_maxMessages st))
           (length (filter (fun r => mr_session r = sid) (t_msgs (db_of (w_ext w)))) + length ms)) /\
    (err <> None -> db_of (w_ext w') = db_of (w_ext w) \/
       windowed (embeds st ctx) (plan_doc (w_ext w)) sid (pg_tenant ctx) (pg_maxMessages st) ms
         (db_of (w_ext w)) (db_of (w_ext w'))).
Proof. intros HL Hemb Hwf. by apply (append_window st db_of handle holds no_rows). Qed.

(** A missing session is not reported as such. Through the driver of the
    repository the query of a session that has no row ends with the library's own
    error; [translatePgError], which would turn it into the sentinel the store
    looks for, is not on the path of a query, so the message that names the
    session is never produced. *)
Theorem Pg_missing_session {E V} `{!PlanDocs E} (pool : DBQuerier E V) (partial : json -> AgentState)
    (db_of : E -> pg_tables V) (handle : DBTx E V -> Prop)
    (holds : DBTx E V -> World E -> Z -> pg_tables V -> Prop) (no_rows : error)
    (opts : PostgresMemoryStoreOptions E V) (ctx : context) (sid : string) (w : World E) :
  PgLaws pool db_of handle holds no_rows ->
  Error no_rows = "no rows in result set" -> errors_Is no_rows errNoRows = false ->
  t_states (db_of (w_ext w)) !! sid = None ->
  Pg_Load (NewPostgresMemoryStore (PgxDriver pool) opts) partial ctx sid w
    = (Ret (None, Some no_rows), w) /\
  translatePgError (Some no_rows) = Some errNoRows.
Proof.
  intros HL Ht Hs Hn. split.
  - unfold Pg_Load, query_state. cbn [NewPostgresMemoryStore pg_db PgxDriver db_QueryRow].
    rewrite (bind_Ret _ _ _ _ _ (law_row _ _ _)). unfold row_of. rewrite Hn.
    change (fst <$> None) with (@None json). cbv iota beta. by rewrite Hs.
  - simpl. by rewrite Ht.
Qed.

(** The rows of one transaction have one time: when two of them do not fit the
    window the database may drop either, the later message too. *)
Theorem Pg_trim_ties {V} (t now : Z) (d : pg_tables V) (sid : string) (r1 r2 : msg_row V) :
  t_msgs d = [r1; r2] -> mr_session r1 = sid -> mr_session r2 = sid -> mr_id r1 <> mr_id r2 ->
  mr_created r1 = now -> mr_created r2 = now ->
  exists d1 d2, exec_stmt t d (DeleteMessages sid 1) d1 /\ t_msgs d1 = [r1] /\
                exec_stmt t d (DeleteMessages sid 1) d2 /\ t_msgs d2 = [r2].
Proof.
  intros Hm H1 H2 Hid Ht1 Ht2.
  assert (Hf : filter (fun r => mr_session r = sid) (t_msgs d) = [r1; r2]).
  { by rewrite Hm, filter_cons_True, filter_cons_True, filter_nil. }
  eexists _, _. split_and!.
  - apply (exec_del_msgs t d sid 1 [r1]). rewrite Hf. split_and!; [done|by repeat constructor|done|].
    intros r k Hr _ ->%list_elem_of_singleton.
    apply elem_of_cons in Hr as [->|Hr]; [lia|]. apply list_elem_of_singleton in Hr as ->. lia.
  - simpl. rewrite Hm, filter_cons_True by set_solver. rewrite filter_cons_False, filter_nil; [done|].
    set_solver.
  - apply (exec_del_msgs t d sid 1 [r2]). rewrite Hf. split_and!; [done|by repeat constructor|done|].
    intros r k Hr _ ->%list_elem_of_singleton.
    apply elem_of_cons in Hr as [->|Hr]; [lia|]. apply list_elem_of_singleton in Hr as ->. lia.
  - simpl. rewrite Hm, filter_cons_False by set_solver. rewrite filter_cons_True, filter_nil; [done|].
    set_solver.
Qed.

(** ** Witnesses

    A database that runs the statements, and refuses to delete. *)
Definition run_stmt {V} (d : pg_tables V) (s : sql_stmt V) : option (pg_tables V) :=
  match s with
  | UpsertSession sid tenant status =>
      Some (mkTables (<[sid := (match t_sessions d !! sid with Some (tn, _) => tn | None => tenant end, status)]>
                        (t_sessions d)) (t_states d) (t_ckpts d) (t_msgs d) (t_next d))
  | UpsertState sid doc =>
      match t_sessions d !! sid with
      | Some _ => Some (mkTables (t_sessions d)
           (<[sid := (doc, match t_states d !! sid with Some (_, v) => v + 1 | None => 1 end)%Z]> (t_states d))
           (t_ckpts d) (t_msgs d) (t_next d))
      | None => None
      end
  | InsertCheckpoint id sid doc =>
      match t_sessions d !! sid with
      | Some _ =>
          if decide (id ∈ (cr_id <$> t_ckpts d)) then None
          else Some (mkTables (t_sessions d) (t_states d) (t_ckpts d ++ [mkCkptRow id sid doc 0])
                       (t_msgs d) (t_next d))
      | None => None
      end
  | InsertMessage sid tenant role content emb =>
      match t_sessions d !! sid with
      | Some _ => Some (mkTables (t_sessions d) (t_states d) (t_ckpts d)
           (t_msgs d ++ [mkMsgRow (t_next d) sid tenant role content emb 0%Z]) (t_next d + 1)%Z)
      | None => None
      end
  | DeleteMessages sid n =>
      let rows := filter (fun r => mr_session r = sid) (t_msgs d) in
      if (Z.of_nat (length rows) <=? n)%Z
      then Some (mkTables (t_sessions d) (t_states d) (t_ckpts d)
             (filter (fun r => mr_session r <> sid \/ mr_id r ∈ (mr_id <$> rows)) (t_msgs d)) (t_next d))
      else None
  | DeleteCheckpoints _ _ => None
  | InsertSession sid =>
      Some (mkTables (match t_sessions d !! sid with
                      | Some _ => t_sessions d
                      | None => <[sid := ("default", "Running")]> (t_sessions d)
                      end) (t_states d) (t_ckpts d) (t_msgs d) (t_next d))
  end.

Definition demo_db (V : Type) : Type := pg_tables V * option (pg_tables V).

#[export] Instance demo_db_docs V : PlanDocs (demo_db V) := fun _ _ => None.

Definition demo_tx {V} : DBTx (demo_db V) V :=
  mkDBTx
    (fun _ s w =>
       match (w_ext w).2 ≫= fun d => run_stmt d s with
       | Some d => (Ret None, set_ext ((w_ext w).1, Some d) w)
       | None => (Ret (Some (ErrNew "constraint")), w)
       end)
    (fun _ w =>
       match (w_ext w).2 with
       | Some d => (Ret None, set_ext (d, None) w)
       | None => (Ret (Some (ErrNew "tx is closed")), w)
       end)
    (fun _ w => (Ret None, set_ext ((w_ext w).1, None) w)).

Definition demo_no_rows : error := ErrWrap "no rows in result set" (ErrNew "sql: no rows in result set").

Definition demo_pool {V} : DBQuerier (demo_db V) V :=
  mkDBQuerier
    (fun _ k w => (Ret (match row_of (w_ext w).1 k with Some j => inl j | None => inr demo_no_rows end), w))
    (fun _ _ _ => ret (inr (ErrNew "down"))) (fun _ _ _ _ => ret (inr (ErrNew "down")))
    (fun _ _ => ret (Some (ErrNew "down")))
    (fun _ w => (Ret (inl demo_tx), set_ext ((w_ext w).1, Some (w_ext w).1) w)).

Definition demo_holds {V} (tx : DBTx (demo_db V) V) (w : World (demo_db V)) (t : Z) (d : pg_tables V) : Prop :=
  tx = demo_tx /\ t = 0%Z /\ (w_ext w).2 = Some d.

Lemma run_stmt_exec {V} (d : pg_tables V) s d' : run_stmt d s = Some d' -> exec_stmt 0 d s d'.
Proof.
  destruct s as [| sid ? | ? sid ? | | sid ? ? ? ? |sid n|]; simpl; intros H;
    try (destruct (t_sessions d !! sid) eqn:Hs; [|done]).
  - injection H as <-. constructor.
  - injection H as <-. constructor. by rewrite Hs.
  - case_decide; [done|]. injection H as <-. constructor; [by rewrite Hs | done].
  - done.
  - injection H as <-. constructor. by rewrite Hs.
  - destruct (Z.leb_spec (Z.of_nat (length (filter (fun r => mr_session r = sid) (t_msgs d)))) n); [|done].
    injection H as <-. constructor. split_and!; [lia | done | lia | done].
  - injection H as <-. constructor.
Qed.

#[export] Instance demo_laws {V} : PgLaws (V := V) demo_pool fst (fun tx => tx = demo_tx) demo_holds demo_no_rows.
Proof.
  split.
  - intros ctx w. right. by exists demo_tx, 0%Z, (set_ext ((w_ext w).1, Some (w_ext w).1) w).
  - intros ? ctx s [h o [x p]] t d (-> & -> & Hd). simpl in *. subst p. simpl.
    destruct (run_stmt d s) as [d'|] eqn:Hr.
    + eexists _, _. split_and!; [done|done|]. intros _. exists d'. split; [by apply run_stmt_exec | done].
    + by eexists _, _.
  - intros ? ctx [h o [x p]] t d (-> & -> & Hd). simpl in *. subst p. by eexists _, _.
  - intros ? ctx w ->. by eexists _, _.
  - done.
Qed.

Definition empty_tables : pg_tables unit := mkTables {["s" := ("acme", "Running")]} ∅ [] [] 1.

Definition pg_world : World (demo_db unit) :=
  mkWorld [NewState] (mkOracle (fun _ => 0%Z) (fun _ => float_of_Z 0) (fun _ => "k1") (fun _ => None) 0 [])
    (empty_tables, None).

Definition demo_store : PostgresMemoryStore (demo_db unit) unit :=
  NewPostgresMemoryStore (PgxDriver demo_pool) (mkPostgresMemoryStoreOptions 0 0 None).

Lemma Pg_Save_atomic_witness :
  exists doc id err w', Pg_Save demo_store Background "s" 0 pg_world = (Ret (id, err), w') /\ err = None /\
    saved empty_tables (w_ext w').1 "s" id doc.
Proof.
  assert (Hd : is_Some (marshal_AgentState (fun _ => None) NewState)) by (vm_compute; by eexists).
  destruct Hd as [doc Hd].
  destruct (Pg_Save_atomic demo_store (fun _ => zero_AgentState) fst _ _ demo_no_rows Background "s" 0
    NewState doc pg_world (PgxDriver_laws fst _ _ _ demo_pool) eq_refl Hd) as (id & err & w' & Hs & _ & Hok & _).
  exists doc, id, err, w'. split; [exact Hs|].
  assert (He : err = None).
  { pose proof (f_equal fst Hs) as H. vm_compute in H. by injection H. }
  split; [exact He | exact (proj1 (Hok He))].
Defined.

Lemma Pg_AppendMessages_window_witness :
  exists err w', Pg_AppendMessages demo_store Background "s" [message RoleUser [text_part "hi"]] pg_world
      = (Ret err, w') /\ err = None /\
    length (filter (fun r => mr_session r = "s") (t_msgs (w_ext w').1)) = 1.
Proof.
  destruct (Pg_AppendMessages_window demo_store fst _ _ demo_no_rows Background "s"
    [message RoleUser [text_part "hi"]] pg_world (PgxDriver_laws fst _ _ _ demo_pool))
    as (err & w' & Hs & _ & Hok & _).
  - intros emb H. discriminate H.
  - split; [apply NoDup_nil_2 | constructor].
  - exists err, w'. split; [exact Hs|].
    assert (He : err = None).
    { pose proof (f_equal fst Hs) as H. vm_compute in H. by injection H. }
    split; [exact He | exact (proj2 (proj2 (Hok He)))].
Defined.

Lemma Pg_missing_session_witness :
  Pg_Load demo_store (fun _ => zero_AgentState) Background "nobody" pg_world
    = (Ret (None, Some demo_no_rows), pg_world).
Proof.
  exact (proj1 (Pg_missing_session demo_pool (fun _ => zero_AgentState) fst _ _ demo_no_rows (mkPostgresMemoryStoreOptions 0 0 None)
    Background "nobody" pg_world demo_laws eq_refl eq_refl eq_refl)).
Defined.
