(* ===== verification/Eval.v ===== *)
(** * Package eval: the evaluation harness

    [eval/harness.go]. A suite is read by the operating system and decoded by a
    YAML library: the reader is an argument of [RunSuite]. *)

From S2P Require Import Prelude GoLang Core World Interfaces Engine.
From stdpp Require Import base gmap strings list.

#[local] Open Scope go_scope.

Record Assertion := mkAssertion {
  as_Type : string;
  as_Key : string;
  as_Value : string;
  as_Threshold : float64;
}.

(** [Variables] lists the map in the order of the loop that reads it. *)
Record TestCase := mkTestCase {
  tcase_Name : string;
  tcase_Description : string;
  tcase_Input : string;
  tcase_Expected : list Assertion;
  tcase_Variables : list (string * any);
}.

Record Result := mkResult {
  res_Name : string;
  res_Passed : bool;
  res_Error : string;
  res_Metrics : amap;
}.

(** Some text part of a message of the assistant contains the value. *)
Definition assistant_says (s : AgentState) (value : string) : bool :=
  existsb (fun msg =>
    bool_decide (msg_Role msg = RoleAssistant)
    && existsb (fun part => bool_decide (part_Type part = PartTypeText) && contains (part_Text part) value)
         (msg_Parts msg)) (Messages s).

Definition checkAssertion (state : option AgentState) (err : option error) (a : Assertion) : bool :=
  match state with
  | None =>
      if bool_decide (as_Type a = "status_is") && bool_decide (as_Value a = "Failed")
      then match err with Some _ => true | None => false end
      else false
  | Some s =>
      if bool_decide (as_Type a = "status_is") then bool_decide (Status s = as_Value a)
      else if bool_decide (as_Type a = "variable_equals") then
        match GetStringVariable s (as_Key a) with
        | inr _ => false
        | inl v => bool_decide (v = as_Value a)
        end
      else if bool_decide (as_Type a = "contains") then assistant_says s (as_Value a)
      else if bool_decide (as_Type a = "not_contains") then negb (assistant_says s (as_Value a))
      else false
  end.

(** The assertion that turns an expected failure into a pass. *)
Definition expects_failure (err : option error) (a : Assertion) : bool :=
  bool_decide (as_Type a = "status_is") && bool_decide (as_Value a = "Failed")
  && match err with Some _ => true | None => false end.

(** One iteration of the loop over [tc.Expected]. *)
Definition judge (state : option AgentState) (err : option error) (res : Result) (a : Assertion) :
    Result :=
  if checkAssertion state err a then
    if expects_failure err a then mkResult (res_Name res) true "" (res_Metrics res) else res
  else
    mkResult (res_Name res) false
      (res_Error res +:+ "Assertion failed: " +:+ as_Type a +:+ " " +:+ as_Key a +:+ " " +:+ as_Value a
       +:+ "; ")
      (res_Metrics res).

(** The result before the assertions. *)
Definition first_result (name : string) (err : option error) : Result :=
  match err with
  | None => mkResult name true "" []
  | Some e => mkResult name false (Error e) []
  end.

Section harness.
Context {E : Type}.

Record EvalHarness := mkEvalHarness { engine : Engine E }.

(** The state a case starts from. *)
Definition initial_state (tc : TestCase) : M E loc :=
  state <- alloc NewState ;;
  state <- inject (tcase_Variables tc) state ;;
  modify state (set_TaskID ("eval-" +:+ tcase_Name tc)) ;;
  modify state (set_ContextID "eval-context") ;;
  WithMessage state (message RoleUser [text_part (tcase_Input tc)]).

(** The context of the run: it names the tenant of the variables, if any. *)
Definition run_context (ctx : context) (tc : TestCase) : context :=
  match as_string (alookup "tenant_id" (tcase_Variables tc)) with
  | Some tid => WithValue ctx (KString "tenantID") (AString tid)
  | None => ctx
  end.

(** [RunTestCase]; [fuel] bounds the loop of the engine. *)
Definition RunTestCase (fuel : nat) (h : EvalHarness) (ctx : context) (tc : TestCase) : M E Result :=
  state <- initial_state tc ;;
  s <- load state ;;
  let* (final, err) := Start fuel (engine h) (run_context ctx tc) (TaskID s) (Some state) in
  finalState <- match final with Some l => s' <- load l ;; ret (Some s') | None => ret None end ;;
  ret (foldl (judge finalState err) (first_result (tcase_Name tc) err) (tcase_Expected tc)).

Fixpoint run_cases (fuel : nat) (h : EvalHarness) (ctx : context) (suite : list TestCase) :
    M E (list Result) :=
  match suite with
  | [] => ret []
  | tc :: rest =>
      res <- RunTestCase fuel h ctx tc ;;
      results <- run_cases fuel h ctx rest ;;
      ret (res :: results)
  end.

(** [read_suite] is [os.ReadFile] followed by [yaml.Unmarshal]. *)
Definition RunSuite (read_suite : string -> M E (list TestCase + error)) (fuel : nat)
    (h : EvalHarness) (ctx : context) (filePath : string) : M E (list Result * option error) :=
  suite <- read_suite filePath ;;
  match suite with
  | inr err => ret ([], Some err)
  | inl suite => results <- run_cases fuel h ctx suite ;; ret (results, None)
  end.
End harness.

Arguments EvalHarness E : clear implicits.
Arguments mkEvalHarness {E}.
Arguments engine {E} e.

(** ** Lemmas *)

Lemma judge_passed state err res a :
  res_Passed (judge state err res a) =
  checkAssertion state err a && (expects_failure err a || res_Passed res).
Proof. unfold judge. by destruct (checkAssertion _ _ _), (expects_failure _ _). Qed.

Lemma assistant_says_iff s v :
  assistant_says s v = true <->
  exists msg part pre post, msg ∈ Messages s /\ msg_Role msg = RoleAssistant /\ part ∈ msg_Parts msg /\
    part_Type part = PartTypeText /\ part_Text part = (pre +:+ v +:+ post).
Proof.
  unfold assistant_says. rewrite existsb_exists. setoid_rewrite andb_true_iff.
  setoid_rewrite existsb_exists. setoid_rewrite andb_true_iff. setoid_rewrite bool_decide_eq_true.
  setoid_rewrite contains_iff. setoid_rewrite <- list_elem_of_In. naive_solver.
Qed.

(** The state of the loop of the assertions: what decides [Passed]. *)
Lemma judge_all state err expected res :
  (res_Passed res = true -> res_Error res = "") ->
  let holds := fun a => checkAssertion state err a = true in
  let final := foldl (judge state err) res expected in
  (res_Passed final = true -> res_Error final = "") /\
  (res_Passed final = true <->
    (res_Passed res = true /\ Forall holds expected) \/
    exists pre a post, expected = pre ++ a :: post /\
      expects_failure err a = true /\ holds a /\ Forall holds post).
Proof.
  intros Hres holds. revert res Hres. induction expected as [|a rest IH]; intros res Hres final.
  - split; [done|]. split; [naive_solver|]. intros [[? _]|(pre & ? & ? & Hx & _)]; [done|].
    by destruct pre.
  - destruct (IH (judge state err res a)) as [IH1 IH2].
    { unfold judge. destruct (checkAssertion _ _ _); [|done]. destruct (expects_failure _ _); auto. }
    split; [exact IH1|]. unfold final. cbn [foldl]. rewrite IH2, judge_passed, andb_true_iff, orb_true_iff.
    split.
    + intros [[[Ha [He|Hr]] Hrest]|(pre & b & post & -> & Hb)].
      * right. by exists [], a, rest.
      * left. split; [done|]. by constructor.
      * right. by exists (a :: pre), b, post.
    + intros [[Hr Hall]|(pre & b & post & Hx & He & Hb & Hpost)].
      * inversion Hall; subst. left. auto.
      * destruct pre as [|c pre]; simplify_eq/=; [left; auto|]. right. by exists pre, b, post.
Qed.

Lemma or_iff (P Q P' Q' : Prop) : (P <-> P') -> (Q <-> Q') -> (P \/ Q <-> P' \/ Q').
Proof. tauto. Qed.

(** ** Properties *)

(** What a passed case means. When the engine answers [final] and [err], the
    case passes exactly when the engine returned without error and every
    assertion holds, or some assertion [status_is Failed] holds after an error
    and every assertion after it holds: the assertions before it do not count,
    even when they fail. A passed case has no error text. *)
Theorem RunTestCase_passed_iff {E} (fuel : nat) (h : EvalHarness E) (ctx : context) (tc : TestCase)
    (w w1 w2 : World E) (state : loc) (s : AgentState) (final : option loc) (err : option error)
    (sf : option AgentState) :
  initial_state tc w = (Ret state, w1) -> w_heap w1 !! state = Some s ->
  Start fuel (engine h) (run_context ctx tc) (TaskID s) (Some state) w1 = (Ret (final, err), w2) ->
  match final with Some l => w_heap w2 !! l = sf /\ is_Some sf | None => sf = None end ->
  let holds := fun a => checkAssertion sf err a = true in
  exists res, RunTestCase fuel h ctx tc w = (Ret res, w2) /\ res_Name res = tcase_Name tc /\
    (res_Passed res = true <->
      (err = None /\ Forall holds (tcase_Expected tc)) \/
      exists pre a post, tcase_Expected tc = pre ++ a :: post /\
        as_Type a = "status_is" /\ as_Value a = "Failed" /\ is_Some err /\ holds a /\
        Forall holds post) /\
    (res_Passed res = true -> res_Error res = "").
Proof.
  intros Hi Hs Hstart Hsf holds.
  destruct (judge_all sf err (tcase_Expected tc) (first_result (tcase_Name tc) err)) as [Herr Hiff].
  { by destruct err. }
  eexists. split; [|split; [|split; [|exact Herr]]].
  - unfold RunTestCase. rewrite (bind_Ret _ _ _ _ _ Hi), (bind_load _ s) by done.
    rewrite (bind_Ret _ _ _ _ _ Hstart). rewrite (bind_Ret _ _ sf w2 w2); [done|].
    destruct final as [l|]; [|by subst]. destruct Hsf as [Hl [s' ->]]. by rewrite (bind_load _ s').
  - generalize (tcase_Expected tc). intros l. assert (Hn : forall r, res_Name (foldl (judge sf err) r l) = res_Name r).
    { induction l as [|a l IH]; intros r; [done|]. simpl. rewrite IH. unfold judge.
      by destruct (checkAssertion sf err a), (expects_failure err a). }
    rewrite Hn. by destruct err.
  - rewrite Hiff. apply or_iff; [destruct err; naive_solver|].
    assert (He : forall a, expects_failure err a = true <->
      as_Type a = "status_is" /\ as_Value a = "Failed" /\ is_Some err).
    { intros a. unfold expects_failure. rewrite !andb_true_iff, !bool_decide_eq_true.
      destruct err; naive_solver. }
    setoid_rewrite He. naive_solver.
Qed.

(** ** Witnesses *)

Definition demo_case : TestCase :=
  mkTestCase "c" "" "hi"
    [mkAssertion "contains" "" "never said" (float_of_Z 0);
     mkAssertion "status_is" "" "Failed" (float_of_Z 0)] [("k", AString "v")].

(** An engine whose graph has no entry node: every run fails. *)
Definition demo_harness : EvalHarness demo_ext :=
  mkEvalHarness (NewEngine (Some (Graph.mkGraph ∅ [] "nowhere" ∅)) (memoryStore (demo_engine 1%Z)) None []).

Definition demo_started : World demo_ext := (initial_state demo_case (demo_engine_world [])).2.

Definition demo_first : AgentState := default NewState (w_heap demo_started !! 2).

Definition demo_run : outcome (option loc * option error) * World demo_ext :=
  Start 5 (engine demo_harness) (run_context Background demo_case) (TaskID demo_first) (Some 2) demo_started.

Definition demo_final : AgentState := default NewState (w_heap demo_run.2 !! 4).

(** The first assertion fails, and the case passes. *)
Lemma RunTestCase_passed_iff_witness :
  checkAssertion (Some demo_final) (Some ErrNoNextNode) (mkAssertion "contains" "" "never said" (float_of_Z 0)) = false /\
  exists res, RunTestCase 5 demo_harness Background demo_case (demo_engine_world []) = (Ret res, demo_run.2) /\
    res_Passed res = true.
Proof.
  split; [vm_compute; reflexivity|].
  assert (H1 : initial_state demo_case (demo_engine_world []) = (Ret 2, demo_started)).
  { apply run_eq. vm_compute. reflexivity. }
  assert (H2 : w_heap demo_started !! 2 = Some demo_first) by (vm_compute; reflexivity).
  assert (H3 : Start 5 (engine demo_harness) (run_context Background demo_case) (TaskID demo_first)
    (Some 2) demo_started = (Ret (Some 4, Some ErrNoNextNode), demo_run.2)).
  { apply run_eq. vm_compute. reflexivity. }
  assert (H4 : w_heap demo_run.2 !! 4 = Some demo_final /\ is_Some (Some demo_final)).
  { split; [vm_compute; reflexivity | by eexists]. }
  destruct (RunTestCase_passed_iff 5 demo_harness Background demo_case (demo_engine_world []) demo_started
    demo_run.2 2 demo_first (Some 4) (Some ErrNoNextNode) (Some demo_final) H1 H2 H3 H4)
    as (res & Hrun & _ & Hiff & _).
  exists res. split; [exact Hrun|]. apply Hiff. right.
  exists [mkAssertion "contains" "" "never said" (float_of_Z 0)],
    (mkAssertion "status_is" "" "Failed" (float_of_Z 0)), [].
  split_and!; [done | done | done | by eexists | vm_compute; reflexivity | constructor].
Defined.
