(* ===== verification/Security.v ===== *)
(** * Package security: input sanitization and the audit log

    [security/sanitizer.go] and [security/audit.go]. A Go string is a string of
    bytes here as there. The patterns of the sanitizer are literal texts matched
    anywhere without regard to case; under the simple case folding of Unicode the
    letters k and s have a third variant each, outside ASCII. The audit log is a
    bounded channel that a goroutine empties into a file: the goroutine is a step
    of its own. The masks are in [Guard]. *)

From S2P Require Import Prelude GoLang Core Utf8 World Interfaces Engine.
From stdpp Require Import base gmap strings list.

#[local] Open Scope go_scope.

(** ** security/sanitizer.go *)

Definition byte (n : nat) : string := String (Ascii.ascii_of_nat n) "".

(** The encodings that the pattern letter [c] matches under the flag [(?i)]. *)
Definition variants (c : Ascii.ascii) : list string :=
  let n := Ascii.nat_of_ascii c in
  let lower := if (Nat.leb 65 n && Nat.leb n 90)%bool then n + 32 else n in
  let upper := if (Nat.leb 97 n && Nat.leb n 122)%bool then n - 32 else n in
  [byte lower; byte upper]
  ++ (if Nat.eqb lower 107 then [byte 226 +:+ byte 132 +:+ byte 170] else [])
  ++ (if Nat.eqb lower 115 then [byte 197 +:+ byte 191] else []).

(** The rest of [s] after the first of [vs] that is a prefix of it. *)
Fixpoint eat (vs : list string) (s : string) : option string :=
  match vs with
  | [] => None
  | v :: vs' => if has_prefix s v then Some (drop_str (String.length v) s) else eat vs' s
  end.

(** The pattern [p] matches at the start of [s]. *)
Fixpoint match_here (p s : string) : bool :=
  match p with
  | EmptyString => true
  | String c p' => match eat (variants c) s with Some s' => match_here p' s' | None => false end
  end.

Fixpoint match_in (p s : string) : bool :=
  match_here p s || match s with EmptyString => false | String _ s' => match_in p s' end.

(** A pattern: its source text and the literals it stands for. *)
Definition injectionPatterns : list (string * list string) :=
  [("(?i)ignore (all )?previous instructions",
    ["ignore previous instructions"; "ignore all previous instructions"]);
   ("(?i)system prompt", ["system prompt"]);
   ("(?i)instead of what I just said", ["instead of what I just said"]);
   ("(?i)you are now a", ["you are now a"]);
   ("(?i)new role", ["new role"])].

Definition MatchString (p : string * list string) (text : string) : bool :=
  existsb (fun lit => match_in lit text) p.2.

(** The loop over the patterns: the first that matches. *)
Fixpoint first_match (ps : list (string * list string)) (text : string) : option error :=
  match ps with
  | [] => None
  | p :: ps' =>
      if MatchString p text
      then Some (ErrNew ("potential prompt injection detected: matching pattern " +:+ p.1))
      else first_match ps' text
  end.

Definition SanitizeInput (text : string) : option error :=
  match first_match injectionPatterns text with
  | Some e => Some e
  | None =>
      if (50000 <? Z.of_nat (String.length text))%Z
      then Some (ErrNew "input text exceeds maximum security limit (50k chars)")
      else None
  end.

Fixpoint sanitize_parts (parts : list Part) : option error :=
  match parts with
  | [] => None
  | part :: rest =>
      if bool_decide (part_Type part = PartTypeText) then
        match SanitizeInput (part_Text part) with
        | Some err => Some err
        | None => sanitize_parts rest
        end
      else sanitize_parts rest
  end.

Definition SanitizeMessage (m : Message) : option error := sanitize_parts (msg_Parts m).

(** A rune that the function given to [strings.Map] drops. *)
Definition control_rune (r : string) : bool :=
  match r with
  | String c EmptyString =>
      let n := Ascii.nat_of_ascii c in Nat.ltb n 32 && negb (existsb (Nat.eqb n) [9; 10; 13])
  | _ => false
  end.

(** [strings.Map] writes a rune it reads at an invalid byte as U+FFFD. *)
Definition StripSensitiveChars (text : string) : string :=
  concat_str (filter (fun r => control_rune r = false) (runes text)).

(** ** security/audit.go *)

(** The capacity of the channel. *)
Definition audit_capacity : nat := N.to_nat 1000.

(** The buffered messages, the lines of the file, what went to the standard
    error because the channel was full, and whether the channel is closed. *)
Record AuditLog := mkAuditLog {
  al_ch : list string;
  al_file : list string;
  al_stderr : list string;
  al_closed : bool;
}.

Definition NewAuditLog : AuditLog := mkAuditLog [] [] [] false.

(** The line written to the standard error. *)
Definition bus_full (msg : string) : string := "AUDIT_LOG_BUS_FULL: " +:+ msg.

(** [h.log]: the send, or the default branch of the [select]; a send on a closed
    channel panics. *)
Definition audit_log (msg : string) (a : AuditLog) : option AuditLog :=
  if al_closed a then None
  else if Nat.ltb (length (al_ch a)) audit_capacity
  then Some (mkAuditLog (al_ch a ++ [msg]) (al_file a) (al_stderr a) false)
  else Some (mkAuditLog (al_ch a) (al_file a)
               (al_stderr a ++ [bus_full msg]) false).

(** One iteration of the logging loop. *)
Definition audit_drain (a : AuditLog) : option AuditLog :=
  match al_ch a with
  | [] => None
  | msg :: rest => Some (mkAuditLog rest (al_file a ++ [msg]) (al_stderr a) (al_closed a))
  end.

(** [Close]; closing twice panics. *)
Definition audit_Close (a : AuditLog) : option AuditLog :=
  if al_closed a then None else Some (mkAuditLog (al_ch a) (al_file a) (al_stderr a) true).

Section audit.
Context {E : Type} `{!Has AuditLog E}.

Definition log (msg : string) : M E unit :=
  a <- get (T := AuditLog) ;;
  match audit_log msg a with
  | Some a' => put a'
  | None => panic "send on closed channel"
  end.

Definition LogViolation (tenantID sessionID violationType detail : string) : M E unit :=
  log ("[POLICY_VIOLATION] Type=" +:+ violationType +:+ " Tenant=" +:+ tenantID +:+ " Session="
       +:+ sessionID +:+ " Details=" +:+ detail).

(** The tenant of the variables, if it is a string that is not empty. *)
Definition audit_tenant (state : option AgentState) : string :=
  match state with
  | Some s =>
      match as_string (var_get s "tenant_id") with
      | Some tid => if bool_decide (tid = "") then "default" else tid
      | None => "default"
      end
  | None => "default"
  end.

Definition SecurityAudit_OnHook (state : option loc) (meta : HookMeta) : M E unit :=
  s <- match state with None => ret None | Some l => s <- load l ;; ret (Some s) end ;;
  let tenantID := audit_tenant s in
  if bool_decide (hm_Point meta = HookBeforeNode) then
    if (hm_StepCount meta =? 0)%Z then
      s <- deref s ;;
      log ("[SESSION_STARTED] Tenant=" +:+ tenantID +:+ " Session=" +:+ ContextID s +:+ " TaskID="
           +:+ TaskID s)
    else ret tt
  else if bool_decide (hm_Point meta = HookOnError) then
    log ("[EXECUTION_ERROR] Tenant=" +:+ tenantID +:+ " Node=" +:+ hm_NodeID meta +:+ " Error="
         +:+ match hm_Err meta with Some e => Error e | None => "<nil>" end)
  else ret tt.
End audit.

(** ** Reference definitions *)

(** [x] is the literal [p] up to case. *)
Inductive same_fold : string -> string -> Prop :=
  | fold_nil : same_fold "" ""
  | fold_cons c p v x : v ∈ variants c -> same_fold p x -> same_fold (String c p) (v +:+ x).

(** [text] contains a variant of one of the literals of the patterns. *)
Definition suspicious (text : string) : Prop :=
  exists lit pre x post, lit ∈ injectionPatterns ≫= snd /\ same_fold lit x /\
    text = (pre +:+ x +:+ post).

(** The log over time: messages are logged, the loop writes. *)
Inductive audit_run : list string -> AuditLog -> Prop :=
  | run_new : audit_run [] NewAuditLog
  | run_log msgs a msg a' :
      audit_run msgs a -> audit_log msg a = Some a' -> audit_run (msgs ++ [msg]) a'
  | run_drain msgs a a' : audit_run msgs a -> audit_drain a = Some a' -> audit_run msgs a'.

(** ** Lemmas *)

#[local] Arguments String.append !s1 s2 /.

Lemma variants_nonempty c : "" ∉ variants c.
Proof.
  unfold variants. intros Hv. repeat apply elem_of_app in Hv as [Hv|Hv];
    repeat case_match; repeat (apply elem_of_cons in Hv as [Hv|Hv]; [done|]); by apply elem_of_nil in Hv.
Qed.

(** No variant of a letter is a prefix of a text that starts with another one:
    at most one way to eat. *)
Lemma variants_det c v v' s s' :
  v ∈ variants c -> v' ∈ variants c -> (v +:+ s) = (v' +:+ s') -> v = v'.
Proof.
  assert (H : forallb (fun c => forallb (fun v => forallb (fun v' =>
    negb (has_prefix (take_str 1 v) (take_str 1 v')) || String.eqb v v') (variants c)) (variants c))
    (Ascii.ascii_of_nat <$> seq 0 256) = true) by (vm_compute; reflexivity).
  rewrite forallb_forall in H. specialize (H c).
  assert (Hc : In c (Ascii.ascii_of_nat <$> seq 0 256)).
  { apply list_elem_of_In, list_elem_of_fmap. exists (Ascii.nat_of_ascii c).
    split; [by rewrite Ascii.ascii_nat_embedding|].
    apply elem_of_seq. pose proof (Ascii.nat_ascii_bounded c). lia. }
  specialize (H Hc). rewrite forallb_forall in H. intros Hv Hv' Heq.
  specialize (H v (proj1 (list_elem_of_In _ _) Hv)). rewrite forallb_forall in H.
  specialize (H v' (proj1 (list_elem_of_In _ _) Hv')). apply orb_true_iff in H as [H|H].
  - exfalso. apply negb_true_iff in H. destruct v as [|a v], v' as [|b v']; simpl in *; try done.
    + by apply variants_nonempty in Hv.
    + injection Heq as -> _. by rewrite bool_decide_eq_true_2 in H.
  - by apply String.eqb_eq in H.
Qed.

Lemma eat_iff vs s s' :
  (forall v v' t t', v ∈ vs -> v' ∈ vs -> (v +:+ t) = (v' +:+ t') -> v = v') ->
  eat vs s = Some s' <-> exists v, v ∈ vs /\ s = (v +:+ s').
Proof.
  induction vs as [|v vs IH]; intros Hdet; simpl; [set_solver|].
  destruct (has_prefix s v) eqn:Hp.
  - apply has_prefix_iff in Hp as [t ->]. rewrite drop_str_append. split.
    + intros [= <-]. exists v. split; [by left | done].
    + intros (v' & Hv' & Heq). assert (v = v') as <- by (eapply Hdet; [by left | exact Hv' | exact Heq]).
      by apply append_inj_l in Heq as ->.
  - rewrite IH; [|intros; eapply Hdet; [by right | by right | done]].
    split; intros (v' & Hv' & Heq); exists v'; (split; [|done]); [by right|].
    apply elem_of_cons in Hv' as [->|?]; [|done]. exfalso. apply not_true_iff_false in Hp. apply Hp.
    apply has_prefix_iff. eauto.
Qed.

Lemma match_here_iff p s : match_here p s = true <-> exists x post, same_fold p x /\ s = (x +:+ post).
Proof.
  revert s. induction p as [|c p IH]; intros s.
  - simpl. split; [intros _; exists "", s; split; [constructor | done] | done].
  - cbn [match_here]. destruct (eat (variants c) s) as [s'|] eqn:He.
    + apply (eat_iff _ s s' (variants_det c)) in He as (v & Hv & ->). rewrite IH. split.
      * intros (x & post & Hx & ->). exists (v +:+ x), post. split; [by constructor|].
        by rewrite append_assoc.
      * intros (x & post & Hx & Heq). inversion Hx as [|c' p' v' y Hv' Hy]; subst.
        rewrite append_assoc in Heq. pose proof (variants_det _ _ _ _ _ Hv Hv' Heq) as <-.
        apply append_inj_l in Heq. eauto.
    + split; [done|]. intros (x & post & Hx & ->). inversion Hx as [|c' p' v' y Hv' Hy]; subst.
      assert (eat (variants c) ((v' +:+ y) +:+ post) = Some (y +:+ post)) as Hs; [|by rewrite Hs in He].
      apply (eat_iff _ _ _ (variants_det c)). exists v'. by rewrite append_assoc.
Qed.

Lemma match_in_iff p s :
  match_in p s = true <-> exists pre x post, same_fold p x /\ s = (pre +:+ x +:+ post).
Proof.
  induction s as [|a s IH].
  - cbn [match_in]. rewrite orb_false_r, match_here_iff. split.
    + intros (x & post & Hx & Hs). by exists "", x, post.
    + intros (pre & x & post & Hx & Hs). destruct pre; [|done]. eauto.
  - cbn [match_in]. rewrite orb_true_iff, match_here_iff, IH. split.
    + intros [(x & post & Hx & Hs)|(pre & x & post & Hx & ->)]; [by exists "", x, post|].
      by exists (String a pre), x, post.
    + intros (pre & x & post & Hx & Hs). destruct pre as [|b pre]; simpl in Hs; [left; eauto|].
      right. injection Hs as -> ->. eauto.
Qed.

Lemma MatchString_iff p text :
  MatchString p text = true <->
  exists lit pre x post, lit ∈ p.2 /\ same_fold lit x /\ text = (pre +:+ x +:+ post).
Proof.
  unfold MatchString. rewrite existsb_exists. setoid_rewrite match_in_iff.
  setoid_rewrite <- list_elem_of_In. naive_solver.
Qed.

Lemma first_match_None ps text :
  first_match ps text = None <-> Forall (fun p => MatchString p text = false) ps.
Proof.
  induction ps as [|p ps IH]; [done|]. cbn [first_match]. rewrite Forall_cons.
  destruct (MatchString p text); [naive_solver|]. rewrite IH. naive_solver.
Qed.

Lemma not_suspicious_iff text : first_match injectionPatterns text = None <-> ~ suspicious text.
Proof.
  rewrite first_match_None, Forall_forall. unfold suspicious. split.
  - intros H (lit & pre & x & post & Hl & Hx & Ht). apply list_elem_of_bind in Hl as (p & Hl & Hp).
    specialize (H p Hp). apply not_true_iff_false in H. apply H, MatchString_iff. eauto 10.
  - intros H p Hp. apply not_true_iff_false. intros (lit & pre & x & post & Hl & Hx)%MatchString_iff.
    apply H. exists lit, pre, x, post. split; [|done]. apply list_elem_of_bind. eauto.
Qed.

Lemma sanitize_parts_iff parts :
  sanitize_parts parts = None <->
  Forall (fun p => part_Type p = PartTypeText -> SanitizeInput (part_Text p) = None) parts.
Proof.
  induction parts as [|p parts IH]; [done|]. cbn [sanitize_parts]. rewrite Forall_cons.
  case_bool_decide; [|naive_solver]. destruct (SanitizeInput (part_Text p)); naive_solver.
Qed.

Lemma suspicious_nonempty text : suspicious text -> text <> "".
Proof.
  intros (lit & pre & x & post & Hlit & Hx & Htext) ->.
  assert (x = "") as -> by (by destruct pre, x). inversion Hx as [Hnil|c p v y Hv Hy Hp Hempty]; subst.
  - revert Hlit. vm_compute. intros Hlit. repeat (apply elem_of_cons in Hlit as [Hlit|Hlit]; [done|]).
    by apply elem_of_nil in Hlit.
  - destruct v; [by apply variants_nonempty in Hv | done].
Qed.

Lemma SanitizeMessage_suspicious m p :
  SanitizeMessage m = None -> p ∈ msg_Parts m -> part_Type p = PartTypeText -> ~ suspicious (part_Text p).
Proof.
  unfold SanitizeMessage. rewrite sanitize_parts_iff, Forall_forall. intros H Hp Ht. specialize (H p Hp Ht).
  unfold SanitizeInput in H. apply not_suspicious_iff. by destruct (first_match _ _).
Qed.

Lemma rune_clean r :
  rune_shape r -> control_rune r = false ->
  Forall (fun c => 32 <= Ascii.nat_of_ascii c \/ Ascii.nat_of_ascii c ∈ [9; 10; 13])
    (String.list_ascii_of_string r).
Proof.
  intros [(c & -> & Hc)|Hr] Hk.
  - constructor; [|constructor]. cbn in Hk. apply andb_false_iff in Hk as [Hk|Hk].
    + apply Nat.leb_gt in Hk. left. lia.
    + right. apply negb_false_iff in Hk. rewrite !orb_true_iff, !Nat.eqb_eq in Hk. set_solver.
  - eapply Forall_impl; [exact Hr|]. simpl. intros c Hc. left. lia.
Qed.

(** No control character but tab, line feed and carriage return is left, and a
    valid text without one is not changed. *)
Theorem StripSensitiveChars_clean (text : string) :
  Forall (fun c => 32 <= Ascii.nat_of_ascii c \/ Ascii.nat_of_ascii c ∈ [9; 10; 13])
    (String.list_ascii_of_string (StripSensitiveChars text)) /\
  (valid_utf8 text = true -> Forall (fun r => control_rune r = false) (runes text) ->
   StripSensitiveChars text = text).
Proof.
  split.
  - unfold StripSensitiveChars. pose proof (runes_shape text) as Hs.
    induction Hs as [|r rs Hr _ IH]; [constructor|]. rewrite filter_cons.
    destruct (decide (control_rune r = false)) as [Hk|]; [|exact IH].
    cbn [concat_str foldr]. fold (concat_str (filter (fun r => control_rune r = false) rs)).
    rewrite list_ascii_app. apply Forall_app. split; [by apply rune_clean | exact IH].
  - intros Hv Hc. unfold StripSensitiveChars.
    assert (Hf : filter (fun r => control_rune r = false) (runes text) = runes text).
    { induction Hc as [|r rs Hr _ IH]; [done|]. by rewrite filter_cons_True, IH. }
    rewrite Hf.
    by apply runes_valid.
Qed.

(** ** Properties *)

(** C36: what the sanitizer lets through. A message passes exactly when each of
    its text parts has at most 50000 bytes and contains, at no position and in no
    mixture of cases, one of the phrases of the patterns; the parts of the other
    types are not looked at. *)
Theorem SanitizeMessage_iff (m : Message) :
  SanitizeMessage m = None <->
  forall p, p ∈ msg_Parts m -> part_Type p = PartTypeText ->
    String.length (part_Text p) <= N.to_nat 50000 /\ ~ suspicious (part_Text p).
Proof.
  unfold SanitizeMessage. rewrite sanitize_parts_iff, Forall_forall.
  assert (Hi : forall t, SanitizeInput t = None <->
    String.length t <= N.to_nat 50000 /\ ~ suspicious t); [|naive_solver].
  intros t. rewrite <- not_suspicious_iff. unfold SanitizeInput.
  destruct (first_match injectionPatterns t); [naive_solver|].
  destruct (50000 <? Z.of_nat (String.length t))%Z eqn:Hlen; lia || naive_solver lia.
Qed.

(** The audit log loses nothing and never blocks. However the logging loop is
    scheduled, every message that was logged is in the file, waits in the channel
    or was written to the standard error, exactly once; the file followed by the
    channel keeps the order of the calls; at most 1000 messages wait; an open log
    accepts every message, and its loop writes as long as one waits. *)
Theorem audit_log_keeps (msgs : list string) (a : AuditLog) :
  audit_run msgs a ->
  (exists spilled, msgs ≡ₚ al_file a ++ al_ch a ++ spilled /\
     al_stderr a = bus_full <$> spilled) /\
  (al_file a ++ al_ch a) `sublist_of` msgs /\
  length (al_ch a) <= audit_capacity /\
  (forall msg, is_Some (audit_log msg a)) /\
  (al_ch a <> [] -> is_Some (audit_drain a)).
Proof.
  intros Hrun. assert (H : al_closed a = false /\
    (exists spilled, msgs ≡ₚ al_file a ++ al_ch a ++ spilled /\
       al_stderr a = bus_full <$> spilled) /\
    (al_file a ++ al_ch a) `sublist_of` msgs /\ length (al_ch a) <= audit_capacity).
  { induction Hrun as [|msgs a msg a' _ (Hc & (sp & Hp & He) & Hs & Hl) Hlog
                       |msgs a a' _ (Hc & (sp & Hp & He) & Hs & Hl) Hd].
    - split_and!; [done | by exists [] | done | simpl; lia].
    - unfold audit_log in Hlog. rewrite Hc in Hlog. destruct (Nat.ltb _ _) eqn:Hcap; simplify_eq/=.
      + apply Nat.ltb_lt in Hcap. split_and!; [done | | | rewrite length_app; simpl; lia].
        * exists sp. split; [|done]. rewrite Hp. solve_Permutation.
        * rewrite app_assoc. by apply sublist_app.
      + split_and!; [done | | by apply sublist_inserts_r | done].
        exists (sp ++ [msg]). rewrite fmap_app, He, Hp. split; [by rewrite <- !app_assoc | done].
    - unfold audit_drain in Hd. destruct (al_ch a) as [|m rest] eqn:Hch; simplify_eq/=.
      split_and!; [done | exists sp; by rewrite <- app_assoc | by rewrite <- app_assoc | lia]. }
  destruct H as (Hc & Hsp & Hs & Hl). split_and!; [done..| |].
  - intros msg. unfold audit_log. rewrite Hc. case_match; eauto.
  - intros Hne. unfold audit_drain. destruct (al_ch a); eauto. done.
Qed.

(** ** Witnesses *)

Definition demo_log : AuditLog := mkAuditLog ["b"] ["a"] [] false.

Lemma audit_log_keeps_witness :
  audit_run ["a"; "b"] demo_log /\ (al_file demo_log ++ al_ch demo_log) `sublist_of` ["a"; "b"].
Proof.
  assert (H : audit_run ["a"; "b"] demo_log).
  { apply (run_log ["a"] (mkAuditLog [] ["a"] [] false) "b"); [|reflexivity].
    apply (run_drain ["a"] (mkAuditLog ["a"] [] [] false)); [|reflexivity].
    apply (run_log [] NewAuditLog "a"); [apply run_new | reflexivity]. }
  split; [exact H|]. apply (audit_log_keeps ["a"; "b"] demo_log H).
Defined.
