(* ===== verification/A2A.v ===== *)
(** * Package a2a: the service

    [a2a/models.go], [a2a/rpc_models.go], [a2a/auth.go], [a2a/server.go] and
    [a2a/grpc_server.go]. A handler returns what it writes and the engine runs it
    starts with [go]: a run is a value of [Job], [run_job] is what the goroutine
    executes, at any time after. The router of chi has matched the request
    ([Route]); the body is the JSON value of its text; the JWT library is the
    parameter [parse_token]. Keys of a body are matched exactly. The stream of
    events is in [Sse], the headers are in [Headers]; the Prometheus endpoint and
    the log lines are not modelled. *)

From S2P Require Import Prelude GoLang Core Json World Interfaces Memory Engine Inspector Tools TaskJson Storage Security.
From stdpp Require Import base gmap strings list.

#[local] Open Scope go_scope.

(** ** a2a/models.go *)

Record AgentCapabilities := mkAgentCapabilities {
  cap_Streaming : bool;
  cap_PushNotifications : bool;
  cap_ExtendedAgentCard : bool;
  cap_StateTimeTravel : bool;
  cap_MultiTenancy : bool;
}.

Record AgentSkill := mkAgentSkill {
  sk_ID : string;
  sk_Name : string;
  sk_Description : string;
  sk_InputSchema : ToolInputSchema;
  sk_InputModes : list string;
  sk_OutputModes : list string;
  sk_Tags : list string;
}.

Record SecurityScheme := mkSecurityScheme {
  sec_Type : string;
  sec_AuthURL : string;
  sec_TokenURL : string;
  sec_VerificationMode : string;
}.

Record AgentCard := mkAgentCard {
  card_Name : string;
  card_Description : string;
  card_Version : string;
  card_URL : string;
  card_ProtocolVersion : string;
  card_Capabilities : AgentCapabilities;
  card_Skills : list AgentSkill;
  card_Security : list SecurityScheme;
}.

Definition skill_of {E} (t : Tool E) : AgentSkill :=
  mkAgentSkill (tool_Name t) (tool_Name t) (tool_Description t) (tool_InputSchema t)
    ["text"; "structured_data"] ["text"] [].

(** [tools] is [registry.ListTools()]. *)
Definition NewAgentCard {E} (name desc version url : string) (tools : list (Tool E))
    (caps : AgentCapabilities) : AgentCard :=
  mkAgentCard name desc version url "1.0" caps (skill_of <$> tools) [].

(** ** a2a/rpc_models.go *)

(** [Params] is the raw value, [None] when the key is missing. *)
Record RPCRequest := mkRPCRequest {
  rpc_JSONRPC : string;
  rpc_Method : string;
  rpc_Params : option json;
  rpc_ID : any;
}.

Record RPCError := mkRPCError {
  re_Code : Z;
  re_Message : string;
}.

Definition RPCCodeParseError : Z := -32700.

Definition RPCCodeInvalidRequest : Z := -32600.

Definition RPCCodeMethodNotFound : Z := -32601.

Definition RPCCodeInvalidParams : Z := -32602.

Definition RPCCodeInternalError : Z := -32603.

Definition RPCCodeTaskNotFound : Z := -32001.

Definition RPCCodeUnauthorized : Z := -32002.

Record SendMessageParams := mkSendMessageParams {
  sm_Message : Message;
  sm_TaskID : string;
  sm_ContextID : string;
  sm_ReturnImmediately : bool;
  sm_Configuration : amap;
}.

Record CreatePushConfigParams := mkCreatePushConfigParams {
  cp_TaskID : string;
  cp_URL : string;
  cp_Secret : string;
  cp_EventTypes : list string;
  cp_Headers : list (string * string);
}.

(** The values the handlers encode. *)
Inductive payload :=
  | PCard (c : AgentCard)
  | PTask (t : Task)
  | PWebhook (c : WebhookConfig)
  | PTimeline (l : list StateSnapshot)
  | PDiff (d : StateDiff).

(** [RPCResponse]: a result or an error. *)
Record RPCResponse := mkRPCResponse {
  rs_ID : any;
  rs_Result : payload + RPCError;
}.

Definition dec_RPCRequest (j : json) : option RPCRequest :=
  match j with
  | JNull => Some (mkRPCRequest "" "" None ANil)
  | JObj m =>
      match field "" dec_string "jsonrpc" m, field "" dec_string "method" m,
            field ANil (fun j => Some (unmarshal_any j)) "id" m with
      | Some v, Some me, Some i => Some (mkRPCRequest v me (alookup "params" m) i)
      | _, _, _ => None
      end
  | _ => None
  end.

Definition dec_SendMessageParams (j : json) : option SendMessageParams :=
  match j with
  | JNull => Some (mkSendMessageParams zero_Message "" "" false [])
  | JObj m =>
      match field zero_Message dec_Message "message" m, field "" dec_string "taskId" m,
            field "" dec_string "contextId" m, field false dec_bool "returnImmediately" m,
            field [] dec_amap "configuration" m with
      | Some msg, Some t, Some c, Some r, Some cf => Some (mkSendMessageParams msg t c r cf)
      | _, _, _, _, _ => None
      end
  | _ => None
  end.

(** The parameters of [tasks/get]. *)
Definition dec_taskId (j : json) : option string :=
  match j with
  | JNull => Some ""
  | JObj m => field "" dec_string "taskId" m
  | _ => None
  end.

Definition dec_CreatePushConfigParams (j : json) : option CreatePushConfigParams :=
  match j with
  | JNull => Some (mkCreatePushConfigParams "" "" "" [] [])
  | JObj m =>
      match field "" dec_string "taskId" m, field "" dec_string "url" m,
            field "" dec_string "secret" m, field [] (dec_list dec_string) "eventTypes" m,
            field [] dec_headers "headers" m with
      | Some t, Some u, Some s, Some e, Some h => Some (mkCreatePushConfigParams t u s e h)
      | _, _, _, _, _ => None
      end
  | _ => None
  end.

(** ** a2a/auth.go *)

Record Claims := mkClaims {
  cl_TenantID : string;
  cl_Scopes : list string;
  cl_IssuedAt : Z;
  cl_ExpiresAt : Z;
}.

(** [strings.Split(s, " ")]. *)
Fixpoint split_space (s : string) : list string :=
  match s with
  | EmptyString => [""]
  | String c s' =>
      if bool_decide (c = Ascii.ascii_of_nat 32) then "" :: split_space s'
      else match split_space s' with
           | p :: ps => String c p :: ps
           | [] => [String c ""]
           end
  end.

(** [strings.ToLower] on the ASCII letters: enough for the comparison with
    [bearer], whose letters have no other upper case. *)
Fixpoint lower (s : string) : string :=
  match s with
  | EmptyString => ""
  | String c s' =>
      let n := Ascii.nat_of_ascii c in
      String (if (Nat.leb 65 n && Nat.leb n 90)%bool then Ascii.ascii_of_nat (n + 32) else c) (lower s')
  end.

(** The token of the header, or the text of the refusal. *)
Definition bearer_token (authHeader : string) : string + string :=
  if bool_decide (authHeader = "") then inr "missing authorization header"
  else
    match split_space authHeader with
    | [scheme; tokenStr] =>
        if bool_decide (lower scheme = "bearer") then inl tokenStr
        else inr "invalid authorization header format"
    | _ => inr "invalid authorization header format"
    end.

(** The context of the handlers behind the middleware. *)
Definition claims_ctx (ctx : context) (claims : Claims) : context :=
  WithValue (WithValue ctx (KString "tenantID") (AString (cl_TenantID claims)))
    (KString "scopes") (AStrings (cl_Scopes claims)).

Definition HasScope (ctx : context) (scope : string) : bool :=
  match ctx_Value ctx (KString "scopes") with
  | Some (AStrings scopes) =>
      existsb (fun s => bool_decide (s = scope) || bool_decide (s = "agent:admin")) scopes
  | _ => false
  end.

(** ** a2a/server.go *)

Record ServerOptions := mkServerOptions {
  so_Name : string;
  so_Description : string;
  so_Version : string;
  so_URL : string;
  so_Secret : string;
}.

(** [audit] is nil when the file of the log does not open. *)
Record Server (E : Type) := mkServer {
  sv_engine : Engine E;
  sv_taskStore : TaskStore E;
  sv_eventBus : option (EventBus E);
  sv_secret : string;
  sv_card : AgentCard;
  sv_memory : MemoryStore E;
  sv_audit : bool;
}.

Arguments mkServer {E}.
Arguments sv_engine {E} s.
Arguments sv_taskStore {E} s.
Arguments sv_eventBus {E} s.
Arguments sv_secret {E} s.
Arguments sv_card {E} s.
Arguments sv_memory {E} s.
Arguments sv_audit {E} s.

Definition NewServer {E} (eng : Engine E) (ts : TaskStore E) (mem : MemoryStore E)
    (tools : list (Tool E)) (bus : option (EventBus E)) (opts : ServerOptions) (log_opens : bool) :
    Server E :=
  mkServer eng ts bus (so_Secret opts)
    (NewAgentCard (so_Name opts) (so_Description opts) (so_Version opts) (so_URL opts) tools
       (mkAgentCapabilities true false false true true))
    mem log_opens.

(** What a handler writes: an error with its status, a JSON-RPC response, a JSON
    document, a bare status. *)
Inductive Reply :=
  | HTTPError (msg : string) (status : Z)
  | RPC (r : RPCResponse)
  | JSON (p : payload)
  | StatusOnly (status : Z).

(** [go func() { _, _ = s.engine.Start(context.Background(), taskID, state) }()]. *)
Record Job := mkJob {
  job_session : string;
  job_state : option loc;
}.

Definition sendRPCError (id : any) (code : Z) (message : string) : Reply :=
  RPC (mkRPCResponse id (inr (mkRPCError code message))).

Definition sendRPCResult (id : any) (result : payload) : Reply := RPC (mkRPCResponse id (inl result)).

(** The requests the router hands out. *)
Inductive Route :=
  | RAgentCard
  | RJSONRPC (body : option json)
  | RGetTask (taskID : string)
  | RCancelTask (taskID : string)
  | RTimeline (taskID : string)
  | RDiff (cpA cpB : string)
  | RReplay (checkpointID : string).

Section server.
Context {E : Type} `{!Has AuditLog E}.
Context (parse_token : string -> Z -> string -> option Claims).
Context (sort_Slice : list StateSnapshot -> list StateSnapshot) (Sprintf_v : any -> string).
Implicit Types s : Server E.

Definition run_job (fuel : nat) s (j : Job) : M E (option loc * option error) :=
  Start fuel (sv_engine s) Background (job_session j) (job_state j).

(** A reply that starts no run. *)
Definition reply (r : Reply) : M E (Reply * list Job) := ret (r, []).

Definition handleAgentCard s : M E (Reply * list Job) := reply (JSON (PCard (sv_card s))).

(** The branch of a task that waits for input. *)
Definition resume_task s (ctx : context) (id : any) (params : SendMessageParams) (task : Task) :
    M E (Reply * list Job) :=
  let taskID := sm_TaskID params in
  t <- now ;;
  let status := mkTaskStatus TaskStateWorking (ts_Timestamp (task_Status task))
                  (ts_Message (task_Status task)) in
  tks_UpdateStatus (sv_taskStore s) ctx taskID status ;;
  tks_AppendMessage (sv_taskStore s) ctx taskID (sm_Message params) ;;
  ret (sendRPCResult id (PTask (mkTask (task_ID task) (task_ContextID task) (task_TenantID task) status
         (task_History task ++ [sm_Message params]) (task_Artifacts task) (task_Webhooks task)
         (task_Metadata task) (task_CreatedAt task) t)),
       [mkJob taskID None]).

(** [if x == "" { x = uuid.New().String() }]. *)
Definition or_uuid_New (x : string) : M E string :=
  if bool_decide (x = "") then uuid_New else ret x.

(** The messages of the previous tasks of the context. *)
Definition inherited_history s (ctx : context) (contextID : string) : M E (list Message) :=
  if bool_decide (contextID = "") then ret []
  else
    let* (prevTasks, err) := tks_ListByContextID (sv_taskStore s) ctx contextID in
    ret (match err with None => prevTasks ≫= task_History | Some _ => [] end).

(** The state the engine starts from. *)
Definition prepare_state (taskID contextID : string) (history : list Message) (message : Message) :
    M E loc :=
  state <- alloc NewState ;;
  modify state (set_TaskID taskID) ;;
  modify state (set_ContextID contextID) ;;
  modify state (fun st => set_Messages (Messages st ++ history) st) ;;
  WithMessage state message.

(** The branch of a new task. *)
Definition new_task s (ctx : context) (id : any) (tenantID : string) (params : SendMessageParams) :
    M E (Reply * list Job) :=
  taskID <- or_uuid_New (sm_TaskID params) ;;
  contextID <- or_uuid_New (sm_ContextID params) ;;
  t <- now ;; created <- now ;; updated <- now ;;
  history <- inherited_history s ctx (sm_ContextID params) ;;
  let task := mkTask taskID contextID tenantID (mkTaskStatus TaskStateSubmitted t "") history [] [] []
                created updated in
  err <- tks_Create (sv_taskStore s) ctx task ;;
  match err with
  | Some _ => reply (sendRPCError id RPCCodeInternalError "Failed to create task")
  | None =>
      state <- prepare_state taskID contextID history (sm_Message params) ;;
      ret (sendRPCResult id (PTask task), [mkJob taskID (Some state)])
  end.

(** The tenant of the context, [default] when it is missing or empty. *)
Definition request_tenant (ctx : context) : string :=
  let tenantID := string_or_empty (ctx_Value ctx (KString "tenantID")) in
  if bool_decide (tenantID = "") then "default" else tenantID.

Definition find_task s (ctx : context) (taskID : string) : M E (option Task) :=
  if bool_decide (taskID = "") then ret None
  else let* (task, _) := tks_GetByID (sv_taskStore s) ctx taskID in ret task.

Definition handleSendMessage s (ctx : context) (req : RPCRequest) : M E (Reply * list Job) :=
  match rpc_Params req ≫= dec_SendMessageParams with
  | None => reply (sendRPCError (rpc_ID req) RPCCodeInvalidParams "Invalid params")
  | Some params =>
      let tenantID := request_tenant ctx in
      match SanitizeMessage (sm_Message params) with
      | Some err =>
          (if sv_audit s
           then LogViolation tenantID (sm_ContextID params) "INPUT_SANITIZATION_FAILED" (Error err)
           else ret tt) ;;
          reply (sendRPCError (rpc_ID req) RPCCodeInvalidParams (Error err))
      | None =>
          if HasScope ctx "agent:write" then
            existingTask <- find_task s ctx (sm_TaskID params) ;;
            match existingTask with
            | Some task =>
                if bool_decide (ts_State (task_Status task) = TaskStateInputRequired)
                then resume_task s ctx (rpc_ID req) params task
                else new_task s ctx (rpc_ID req) tenantID params
            | None => new_task s ctx (rpc_ID req) tenantID params
            end
          else reply (sendRPCError (rpc_ID req) RPCCodeUnauthorized "Insufficient scope")
      end
  end.

Definition handleGetTaskRPC s (ctx : context) (req : RPCRequest) : M E (Reply * list Job) :=
  match rpc_Params req ≫= dec_taskId with
  | None => reply (sendRPCError (rpc_ID req) RPCCodeInvalidParams "Invalid params")
  | Some taskID =>
      let* (task, err) := tks_GetByID (sv_taskStore s) ctx taskID in
      match err with
      | Some _ => reply (sendRPCError (rpc_ID req) RPCCodeTaskNotFound "Task not found")
      | None => task <- deref task ;; reply (sendRPCResult (rpc_ID req) (PTask task))
      end
  end.

Definition handleGetTask s (ctx : context) (taskID : string) : M E (Reply * list Job) :=
  let* (task, err) := tks_GetByID (sv_taskStore s) ctx taskID in
  match err with
  | Some _ => reply (HTTPError "task not found" 404)
  | None => task <- deref task ;; reply (JSON (PTask task))
  end.

Definition handleCreatePushConfig s (ctx : context) (req : RPCRequest) : M E (Reply * list Job) :=
  match rpc_Params req ≫= dec_CreatePushConfigParams with
  | None => reply (sendRPCError (rpc_ID req) RPCCodeInvalidParams "Invalid params")
  | Some params =>
      id <- uuid_New ;;
      let config := mkWebhookConfig id (cp_URL params) (cp_Secret params) (cp_EventTypes params)
                      (cp_Headers params) in
      err <- tks_AddWebhook (sv_taskStore s) ctx (cp_TaskID params) config ;;
      match err with
      | Some _ => reply (sendRPCError (rpc_ID req) RPCCodeInternalError "Failed to add webhook")
      | None => reply (sendRPCResult (rpc_ID req) (PWebhook config))
      end
  end.

Definition handleCancelTask : M E (Reply * list Job) := reply (StatusOnly 202).

Definition handleJSONRPC s (ctx : context) (body : option json) : M E (Reply * list Job) :=
  match body ≫= dec_RPCRequest with
  | None => reply (sendRPCError ANil RPCCodeParseError "Parse error")
  | Some req =>
      if bool_decide (rpc_JSONRPC req = "2.0") then
        if bool_decide (rpc_Method req = "message/send") then handleSendMessage s ctx req
        else if bool_decide (rpc_Method req = "tasks/get") then handleGetTaskRPC s ctx req
        else if bool_decide (rpc_Method req = "tasks/pushNotificationConfig/create")
        then handleCreatePushConfig s ctx req
        else reply (sendRPCError (rpc_ID req) RPCCodeMethodNotFound "Method not found")
      else reply (sendRPCError (rpc_ID req) RPCCodeInvalidRequest "Invalid Request")
  end.

(** The guard of the three debug endpoints. *)
Definition debug_only (ctx : context) (h : M E (Reply * list Job)) : M E (Reply * list Job) :=
  if HasScope ctx "agent:debug" then h else reply (HTTPError "Insufficient scope" 403).

Definition handleGetTimeline s (ctx : context) (taskID : string) : M E (Reply * list Job) :=
  debug_only ctx
    (let* (timeline, err) := GetTimeline (sv_memory s) sort_Slice ctx taskID in
     match err with
     | Some e => reply (HTTPError (Error e) 500)
     | None => reply (JSON (PTimeline timeline))
     end).

Definition handleDiffCheckpoints s (ctx : context) (cpA cpB : string) : M E (Reply * list Job) :=
  debug_only ctx
    (let* (diff, err) := DiffCheckpoints (sv_memory s) Sprintf_v ctx cpA cpB in
     match err with
     | Some e => reply (HTTPError (Error e) 500)
     | None => diff <- deref diff ;; reply (JSON (PDiff diff))
     end).

Definition handleReplayFrom s (ctx : context) (checkpointID : string) : M E (Reply * list Job) :=
  debug_only ctx
    (let* (state, err) := ReplayFrom (sv_memory s) ctx checkpointID in
     match err with
     | Some e => reply (HTTPError (Error e) 500)
     | None =>
         state <- deref state ;;
         st <- load state ;;
         let tenantID := match GetStringVariable st "tenant_id" with
                         | inl t => if bool_decide (t = "") then "default" else t
                         | inr _ => "default"
                         end in
         taskID <- uuid_New ;;
         t <- now ;; created <- now ;; updated <- now ;;
         let task := mkTask taskID (ContextID st) tenantID (mkTaskStatus TaskStateWorking t "")
                       (Messages st) [] [] [] created updated in
         err <- tks_Create (sv_taskStore s) ctx task ;;
         match err with
         | Some e => reply (HTTPError (Error e) 500)
         | None => ret (JSON (PTask task), [mkJob taskID (Some state)])
         end
     end).

(** [Authenticator.Middleware]. *)
Definition Middleware s (ctx : context) (authHeader : string)
    (next : context -> M E (Reply * list Job)) : M E (Reply * list Job) :=
  match bearer_token authHeader with
  | inr msg => reply (HTTPError msg 401)
  | inl tokenStr =>
      t <- now ;;
      match parse_token (sv_secret s) t tokenStr with
      | None => reply (HTTPError "invalid token" 401)
      | Some claims => next (claims_ctx ctx claims)
      end
  end.

(** The handlers of [setupRoutes] as the router calls them: the card is public, these
    others are behind the middleware. [Wire.serve] has the whole router. *)
Definition handle_route s (ctx : context) (authHeader : string) (r : Route) : M E (Reply * list Job) :=
  match r with
  | RAgentCard => handleAgentCard s
  | RJSONRPC body => Middleware s ctx authHeader (fun ctx => handleJSONRPC s ctx body)
  | RGetTask id => Middleware s ctx authHeader (fun ctx => handleGetTask s ctx id)
  | RCancelTask _ => Middleware s ctx authHeader (fun _ => handleCancelTask)
  | RTimeline id => Middleware s ctx authHeader (fun ctx => handleGetTimeline s ctx id)
  | RDiff a b => Middleware s ctx authHeader (fun ctx => handleDiffCheckpoints s ctx a b)
  | RReplay id => Middleware s ctx authHeader (fun ctx => handleReplayFrom s ctx id)
  end.

(** ** a2a/grpc_server.go *)

(** A part of a protobuf message is its text, empty for the other kinds. *)
Record PBMessage := mkPBMessage {
  pb_Role : string;
  pb_Parts : list string;
}.

Definition pb_part (text : string) : Part :=
  if bool_decide (text = "") then zero_Part else text_part text.

Definition mapPBToCoreMessage (m : PBMessage) : Message :=
  message (pb_Role m) (pb_part <$> pb_Parts m).

Record PBTask := mkPBTask {
  pbt_Id : string;
  pbt_ContextId : string;
  pbt_TenantId : string;
  pbt_State : string;
  pbt_Detail : string;
  pbt_Timestamp : Z;
  pbt_CreatedAt : Z;
  pbt_UpdatedAt : Z;
}.

Definition mapCoreToPBTask (t : Task) : PBTask :=
  mkPBTask (task_ID t) (task_ContextID t) (task_TenantID t) (ts_State (task_Status t))
    (ts_Message (task_Status t)) (ts_Timestamp (task_Status t)) (task_CreatedAt t) (task_UpdatedAt t).

(** The gRPC service is the server of the HTTP service behind other methods. *)
Definition NewGRPCServer s : Server E := s.

(** A nil message panics. *)
Definition Grpc_SendMessage (ctx : context) (taskId contextId : string) (pbMsg : option PBMessage) :
    M E (PBTask * list Job) :=
  taskID <- or_uuid_New taskId ;;
  pbMsg <- deref pbMsg ;;
  state <- prepare_state taskID contextId [] (mapPBToCoreMessage pbMsg) ;;
  t <- now ;; created <- now ;; updated <- now ;;
  ret (mapCoreToPBTask (mkTask taskID contextId (request_tenant ctx)
         (mkTaskStatus TaskStateSubmitted t "") [] [] [] [] created updated),
       [mkJob taskID (Some state)]).

Definition Grpc_GetTask s (ctx : context) (taskId : string) : M E (option PBTask * option error) :=
  let* (task, err) := tks_GetByID (sv_taskStore s) ctx taskId in
  match err with
  | Some e => ret (None, Some (ErrWrap ("task not found: " +:+ Error e) e))
  | None => task <- deref task ;; ret (Some (mapCoreToPBTask task), None)
  end.

(** The stream ends at once, without an event. *)
Definition Grpc_StreamTaskEvents s (ctx : context) (taskId : string) : M E (option error) := ret None.
End server.

(** ** Reference definitions *)

(** The context the engine gives the nodes of a run the service started. *)
Definition job_context (j : Job) : context :=
  WithValue Background (KContextKey "session_id") (AString (job_session j)).

(** Who may start a run: a request with a valid token, either to send a message
    that passes the sanitizer with the scope to write, or to replay a checkpoint
    with the scope to debug. *)
Inductive may_start (claims : Claims) : Route -> Prop :=
  | start_send body req params :
      dec_RPCRequest body = Some req -> rpc_Params req ≫= dec_SendMessageParams = Some params ->
      SanitizeMessage (sm_Message params) = None ->
      "agent:write" ∈ cl_Scopes claims \/ "agent:admin" ∈ cl_Scopes claims ->
      may_start claims (RJSONRPC (Some body))
  | start_replay id :
      "agent:debug" ∈ cl_Scopes claims \/ "agent:admin" ∈ cl_Scopes claims ->
      may_start claims (RReplay id).

(** ** Lemmas *)

Lemma HasScope_claims ctx claims scope :
  HasScope (claims_ctx ctx claims) scope = true <->
  scope ∈ cl_Scopes claims \/ "agent:admin" ∈ cl_Scopes claims.
Proof.
  unfold HasScope, claims_ctx. rewrite ctx_Value_WithValue_eq, existsb_exists. setoid_rewrite orb_true_iff.
  setoid_rewrite bool_decide_eq_true. setoid_rewrite <- list_elem_of_In. naive_solver.
Qed.

Lemma split_space_app a b :
  split_space (a +:+ String (Ascii.ascii_of_nat 32) b) = split_space a ++ split_space b.
Proof.
  induction a as [|c a IH].
  - change ("" +:+ String (Ascii.ascii_of_nat 32) b) with (String (Ascii.ascii_of_nat 32) b).
    cbn [split_space]. by rewrite bool_decide_eq_true_2.
  - change (String c a +:+ String (Ascii.ascii_of_nat 32) b)
      with (String c (a +:+ String (Ascii.ascii_of_nat 32) b)).
    cbn [split_space]. rewrite IH. case_bool_decide; [done|].
    destruct (split_space a) as [|p ps] eqn:Ha; [|done]. exfalso.
    destruct a as [|x y]; cbn [split_space] in Ha; [done|]. case_bool_decide; [done|]. by destruct (split_space y).
Qed.

(** The header a client sends is accepted. *)
Lemma bearer_token_bearer tok : split_space tok = [tok] -> bearer_token ("Bearer " +:+ tok) = inl tok.
Proof.
  intros Ht. unfold bearer_token. rewrite bool_decide_eq_false_2 by done.
  change ("Bearer " +:+ tok) with ("Bearer" +:+ String (Ascii.ascii_of_nat 32) tok).
  rewrite split_space_app, Ht. done.
Qed.

Section lemmas.
Context {E : Type} `{!Has AuditLog E}.
Context (parse_token : string -> Z -> string -> option Claims).
Context (sort_Slice : list StateSnapshot -> list StateSnapshot) (Sprintf_v : any -> string).
Implicit Types s : Server E.
Implicit Types w : World E.

(** Postconditions on the runs a handler starts. *)
Definition starts (P : list Job -> Prop) (m : M E (Reply * list Job)) : Prop :=
  forall w, wp m (if_returns (fun r _ => P r.2)) w.

Lemma starts_bind {A} (P : list Job -> Prop) (m : M E A) k :
  (forall a, starts P (k a)) -> starts P (bind m k).
Proof. intros Hk w. apply ir_bind. intros a w' _. apply Hk. Qed.

Lemma starts_ret (P : list Job -> Prop) r jobs : P jobs -> starts P (ret (r, jobs)).
Proof. by intros ? w. Qed.

Definition no_run (jobs : list Job) : Prop := jobs = [].

Definition one_run (jobs : list Job) : Prop := exists j, jobs = [j].

(** Runs the tactic [t] on each leaf of a handler. *)
Ltac leaves t :=
  repeat first
    [ apply starts_ret; t
    | apply starts_bind; intros []
    | apply starts_bind; intros ?
    | case_match ].

Lemma resume_task_starts s ctx id params task : starts one_run (resume_task s ctx id params task).
Proof. unfold resume_task. leaves ltac:(by eexists). Qed.

Lemma new_task_starts s ctx id tenant params :
  starts (fun jobs => no_run jobs \/ one_run jobs) (new_task s ctx id tenant params).
Proof. unfold new_task, reply. leaves ltac:(unfold no_run, one_run; eauto). Qed.

Lemma starts_weaken (P Q : list Job -> Prop) m : (forall jobs, P jobs -> Q jobs) -> starts P m -> starts Q m.
Proof. intros HPQ Hm w. eapply wp_mono; [apply Hm|]. intros [] w'; simpl; auto. Qed.

Lemma handleSendMessage_starts s ctx claims req :
  starts (fun jobs => no_run jobs \/ one_run jobs /\ exists params,
      rpc_Params req ≫= dec_SendMessageParams = Some params /\
      SanitizeMessage (sm_Message params) = None /\
      ("agent:write" ∈ cl_Scopes claims \/ "agent:admin" ∈ cl_Scopes claims))
    (handleSendMessage s (claims_ctx ctx claims) req).
Proof.
  unfold handleSendMessage. destruct (rpc_Params req ≫= dec_SendMessageParams) as [params|] eqn:Hp;
    [|apply starts_ret; by left].
  destruct (SanitizeMessage (sm_Message params)) as [err|] eqn:Hs.
  { apply starts_bind. intros _. apply starts_ret. by left. }
  destruct (HasScope (claims_ctx ctx claims) "agent:write") eqn:Hh; [|apply starts_ret; by left].
  apply HasScope_claims in Hh. apply starts_bind. intros existing.
  assert (Hn : starts (fun jobs => no_run jobs \/ one_run jobs /\ exists params0,
    Some params = Some params0 /\ SanitizeMessage (sm_Message params0) = None /\
    ("agent:write" ∈ cl_Scopes claims \/ "agent:admin" ∈ cl_Scopes claims))
    (new_task s (claims_ctx ctx claims) (rpc_ID req) (request_tenant (claims_ctx ctx claims)) params)).
  { eapply starts_weaken, new_task_starts. naive_solver. }
  destruct existing as [task|]; [|exact Hn]. case_bool_decide; [|exact Hn].
  eapply starts_weaken, resume_task_starts. naive_solver.
Qed.

Lemma handler_no_run s ctx :
  starts no_run (handleAgentCard s) /\ (forall id, starts no_run (handleGetTask s ctx id)) /\
  starts no_run (handleCancelTask (E := E)) /\
  (forall id, starts no_run (handleGetTimeline sort_Slice s ctx id)) /\
  (forall a b, starts no_run (handleDiffCheckpoints Sprintf_v s ctx a b)) /\
  (forall req, starts no_run (handleGetTaskRPC s ctx req)) /\
  (forall req, starts no_run (handleCreatePushConfig s ctx req)).
Proof.
  unfold handleAgentCard, handleGetTask, handleCancelTask, handleGetTimeline, handleDiffCheckpoints,
    handleGetTaskRPC, handleCreatePushConfig, debug_only, reply.
  split_and!; intros; leaves ltac:(done).
Qed.

Lemma handleReplayFrom_starts s ctx claims id :
  starts (fun jobs => no_run jobs \/ one_run jobs /\
      ("agent:debug" ∈ cl_Scopes claims \/ "agent:admin" ∈ cl_Scopes claims))
    (handleReplayFrom s (claims_ctx ctx claims) id).
Proof.
  unfold handleReplayFrom, debug_only. destruct (HasScope _ _) eqn:Hh; [|apply starts_ret; by left].
  apply HasScope_claims in Hh. unfold reply, one_run. leaves ltac:(first [by left | right; eauto]).
Qed.

Lemma handleJSONRPC_starts s ctx claims body :
  starts (fun jobs => no_run jobs \/ one_run jobs /\ may_start claims (RJSONRPC body))
    (handleJSONRPC s (claims_ctx ctx claims) body).
Proof.
  unfold handleJSONRPC. destruct body as [b|]; simpl; [|apply starts_ret; by left].
  destruct (dec_RPCRequest b) as [req|] eqn:Hb; [|apply starts_ret; by left].
  destruct (handler_no_run s (claims_ctx ctx claims)) as (_ & _ & _ & _ & _ & H1 & H2).
  repeat case_bool_decide; try (apply starts_ret; by left).
  - eapply starts_weaken, handleSendMessage_starts. intros jobs [?|(? & params & ? & ? & ?)]; [by left|].
    right. split; [done|]. by eapply start_send.
  - eapply starts_weaken, H1. by left.
  - eapply starts_weaken, H2. by left.
Qed.

Lemma prepare_state_eq taskID contextID history m w :
  exists w', prepare_state taskID contextID history m w = (Ret (S (length (w_heap w))), w') /\
    w_ext w' = w_ext w /\ w_orc w' = w_orc w /\
    w_heap w' !! S (length (w_heap w)) = Some (with_message m
      (set_Messages ([] ++ history) (set_ContextID contextID (set_TaskID taskID NewState)))).
Proof.
  set (w1 := set_heap (w_heap w ++ [NewState]) w).
  assert (H1 : w_heap w1 !! length (w_heap w) = Some NewState) by apply lookup_snoc_eq.
  unfold prepare_state. rewrite (bind_Ret (alloc NewState) _ _ w w1) by done.
  rewrite (bind_modify _ _ NewState) by exact H1.
  rewrite (bind_modify _ _ (set_TaskID taskID NewState))
    by (apply list_lookup_insert_eq; by eapply lookup_lt_Some).
  rewrite (bind_modify _ _ (set_ContextID contextID (set_TaskID taskID NewState)))
    by (apply list_lookup_insert_eq; simpl; rewrite length_insert; by eapply lookup_lt_Some).
  unfold WithMessage. erewrite bind_load
    by (simpl; apply list_lookup_insert_eq; rewrite !length_insert; by eapply lookup_lt_Some).
  assert (Hlen : forall h : list AgentState, length h = S (length (w_heap w)) ->
    alloc (E := E) (with_message m (set_Messages ([] ++ history)
      (set_ContextID contextID (set_TaskID taskID NewState)))) (set_heap h w)
    = (Ret (S (length (w_heap w))), set_heap (h ++ [with_message m (set_Messages ([] ++ history)
      (set_ContextID contextID (set_TaskID taskID NewState)))]) w)).
  { intros h Hh. unfold alloc. simpl. by rewrite Hh. }
  eexists. split; [apply Hlen; simpl; rewrite !length_insert, length_app; simpl; lia|].
  split_and!; [done | done |]. simpl. rewrite lookup_app_r; rewrite !length_insert, length_app; simpl; [|lia].
  by replace (S (length (w_heap w)) - (length (w_heap w) + 1)) with 0 by lia.
Qed.
Lemma Middleware_starts s ctx hdr (Q : Claims -> list Job -> Prop) next :
  (forall claims, starts (fun jobs => no_run jobs \/ Q claims jobs) (next (claims_ctx ctx claims))) ->
  starts (fun jobs => no_run jobs \/ exists tok t claims, bearer_token hdr = inl tok /\
    parse_token (sv_secret s) t tok = Some claims /\ Q claims jobs)
    (Middleware parse_token s ctx hdr next).
Proof.
  intros Hn. unfold Middleware, reply. destruct (bearer_token hdr) as [tok|msg]; [|apply starts_ret; by left].
  apply starts_bind. intros t. destruct (parse_token _ t tok) as [claims|] eqn:Hp; [|apply starts_ret; by left].
  eapply starts_weaken, Hn. intros jobs [?|?]; [by left|]. right. by exists tok, t, claims.
Qed.

(** What a handler starts, and what it answers without a header. *)
Lemma route_starts s (ctx : context) (hdr : string) (r : Route) w (rep : Reply) (jobs : list Job) w' :
  handle_route parse_token sort_Slice Sprintf_v s ctx hdr r w = (Ret (rep, jobs), w') ->
  jobs <> [] -> length jobs = 1 /\ exists tok t claims, bearer_token hdr = inl tok /\
     parse_token (sv_secret s) t tok = Some claims /\ may_start claims r.
Proof.
  intros Hrun Hne. assert (Hs : starts (fun jobs => no_run jobs \/ exists tok t claims,
      bearer_token hdr = inl tok /\ parse_token (sv_secret s) t tok = Some claims /\
      (one_run jobs /\ may_start claims r)) (handle_route parse_token sort_Slice Sprintf_v s ctx hdr r)).
    { destruct (handler_no_run s ctx) as (Hc & _).
      destruct r; cbn [handle_route]; [eapply starts_weaken, Hc; by left|..];
        apply (Middleware_starts s ctx hdr (fun claims jobs => one_run jobs /\ may_start claims _)); intros claims.
      all: destruct (handler_no_run s (claims_ctx ctx claims)) as (_ & H1 & H2 & H3 & H4 & _).
      - apply handleJSONRPC_starts.
      - eapply starts_weaken, H1. by left.
      - eapply starts_weaken, H2. by left.
      - eapply starts_weaken, H3. by left.
      - eapply starts_weaken, H4. by left.
      - eapply starts_weaken, handleReplayFrom_starts. intros jobs' [?|[? ?]]; [by left|]. right.
        split; [done | by constructor]. }
    specialize (Hs w). unfold wp in Hs. rewrite Hrun in Hs. simpl in Hs.
    destruct Hs as [?|(tok & t & claims & ? & ? & [j ->] & ?)]; [done|]. split; [done|]. eauto 10.
Qed.

(** Whom the middleware turns away, and with what text: a header that is not well
    formed, or a token that the secret does not verify at any time. *)
Definition refused s (hdr msg : string) : Prop :=
  bearer_token hdr = inr msg \/
  exists tok, bearer_token hdr = inl tok /\ (forall t, parse_token (sv_secret s) t tok = None) /\ msg = "invalid token".

Lemma Middleware_refuses s ctx hdr msg next w : refused s hdr msg ->
  exists w', Middleware parse_token s ctx hdr next w = (Ret (HTTPError msg 401, []), w') /\
    w_heap w' = w_heap w /\ w_ext w' = w_ext w /\ (bearer_token hdr = inr msg -> w' = w).
Proof.
  unfold Middleware. intros [Hm|(tok & Ht & Hnone & ->)].
  - rewrite Hm. by eexists.
  - rewrite Ht. unfold now, bind, ask. cbv beta iota. rewrite Hnone. eexists. by split_and!.
Qed.

Lemma route_refuses s ctx hdr msg r w : refused s hdr msg -> r <> RAgentCard ->
  exists w', handle_route parse_token sort_Slice Sprintf_v s ctx hdr r w = (Ret (HTTPError msg 401, []), w') /\
    w_heap w' = w_heap w /\ w_ext w' = w_ext w /\ (bearer_token hdr = inr msg -> w' = w).
Proof. intros Hm Hr. destruct r; [done|..]; cbn [handle_route]; by apply Middleware_refuses. Qed.

Lemma Grpc_SendMessage_starts ctx taskId contextId m w :
  exists t j w', Grpc_SendMessage (E := E) ctx taskId contextId (Some m) w = (Ret (t, [j]), w').
Proof.
  unfold Grpc_SendMessage. assert (Hid : exists id w0, or_uuid_New (E := E) taskId w = (Ret id, w0)).
  { unfold or_uuid_New. case_bool_decide; by eexists _, _. }
  destruct Hid as (id & w0 & Hid). rewrite (bind_Ret _ _ _ _ _ Hid), (bind_Ret (deref (Some m)) _ m w0 w0) by done.
  destruct (prepare_state_eq id contextId [] (mapPBToCoreMessage m) w0) as (w1 & Hp & _).
  rewrite (bind_Ret _ _ _ _ _ Hp). by eexists _, _, _.
Qed.

End lemmas.

(** A new task on the Redis store, under an identifier the request chose. *)
Lemma new_task_redis {E} `{!Has AuditLog E} `{!PlanDocs E} (s : Server E) (ts : RedisTaskStore E)
    (db_of : E -> redis_db) (ctx : context) (id : any) (params : SendMessageParams) (w : World E) :
  RedisLaws (tclient ts) db_of -> sv_taskStore s = RedisTasks ts ->
  tenantFromCtx ctx = request_tenant ctx -> sm_TaskID params <> "" -> sm_ContextID params = "" ->
  exists rep jobs w', new_task s ctx id (request_tenant ctx) params w = (Ret (rep, jobs), w') /\
    (jobs <> [] -> exists task,
       rep = sendRPCResult id (PTask task) /\
       GetByID ts ctx (sm_TaskID params) w' = (Ret (Some task, None), w') /\
       task_ID task = sm_TaskID params /\ ts_State (task_Status task) = TaskStateSubmitted /\
       task_History task = [] /\ task_Artifacts task = [] /\ task_Webhooks task = []).
Proof.
  intros Hlaws Hts Htenant Hid Hcx. unfold new_task.
  rewrite (bind_Ret (or_uuid_New (sm_TaskID params)) _ (sm_TaskID params) w w)
    by (unfold or_uuid_New; by rewrite bool_decide_eq_false_2).
  unfold or_uuid_New, inherited_history. rewrite Hcx, !bool_decide_eq_true_2 by done.
  set (w0 := set_orc (next_tick (next_tick (next_tick (next_tick (w_orc w))))) w).
  set (cid := or_uuid (w_orc w) (or_tick (w_orc w))).
  erewrite (bind_Ret uuid_New _ cid w (set_orc (next_tick (w_orc w)) w)) by done.
  erewrite (bind_Ret now) by done. erewrite (bind_Ret now) by done. erewrite (bind_Ret now _ _ _ w0) by done.
  rewrite (bind_Ret (ret []) _ [] w0 w0) by done. rewrite Hts. cbn [RedisTasks tks_Create].
  set (task := mkTask (sm_TaskID params) cid _ _ _ _ _ _ _ _).
  destruct (marshal_Task (plan_doc (w_ext w0)) task) as [data|] eqn:Hm; [|done].
  assert (Htt : task_tenant task = tenantFromCtx ctx).
  { unfold task_tenant. simpl. rewrite Htenant. unfold request_tenant at 1 2.
    repeat case_bool_decide; done. }
  destruct (law_tx (db_of := db_of) ctx (create_cmds ts (task_tenant task) task data) w0)
    as (err & w1 & Htx & Hex & _).
  rewrite (bind_Ret (Create ts ctx task) _ err w0 w1) by (by rewrite (Create_eq ts ctx task data w0 Hm)).
  destruct err as [e|]; [eexists _, _, _; split; [reflexivity | done]|].
  destruct (prepare_state_eq (sm_TaskID params) cid [] (sm_Message params) w1) as (w2 & Hp & He & _).
  rewrite (bind_Ret _ _ _ _ _ Hp). eexists _, _, w2. split; [reflexivity|]. intros _. exists task.
  split; [done|]. split; [|by split_and!].
  pose proof (create_cmds_ok ts task data _ _ Hex) as Hk. rewrite Htt in Hk.
  change (task_ID task) with (sm_TaskID params) in Hk. rewrite (GetByID_eq ts db_of), He, Hk.
  unfold get_task_answer. simpl. rewrite (unmarshal_marshal_Task _ _ _ Hm).
  done.
Qed.

(** ** Properties *)

Section properties.
Context {E : Type} `{!Has AuditLog E}.
Context (parse_token : string -> Z -> string -> option Claims).
Context (sort_Slice : list StateSnapshot -> list StateSnapshot) (Sprintf_v : any -> string).
Implicit Types s : Server E.
Implicit Types w : World E.

(** A run of the service has lost its tenant. The engine runs with the
    background context: the nodes and the tools of the run see no tenant, so the
    registry authorizes every call and the Redis stores use the tenant [default],
    although the token of the request named a tenant without any permission. *)
Theorem started_runs_have_no_tenant s (fuel : nat) (j : Job) (r : ConcreteToolRegistry E) (tool : string)
    (ctx : context) (claims : Claims) w :
  cl_TenantID claims <> "" -> reg_permissions r !! cl_TenantID claims = None ->
  run_job fuel s j w =
    (state <- match job_state j with Some l => ret l | None => alloc NewState end ;;
     state <- WithStatus state StatusRunning ;;
     st <- load state ;;
     (if bool_decide (LastNodeID st = "")
      then g <- deref (graph (sv_engine s)) ;; modify state (set_LastNodeID (Graph.Entry g)) else ret tt) ;;
     loop fuel (sv_engine s) (job_context j) (job_session j) state)%go w /\
  AuthorizeCall (job_context j) tool r = None /\
  tenantFromCtx (job_context j) = "default" /\
  is_Some (AuthorizeCall (claims_ctx ctx claims) tool r) /\
  tenantFromCtx (claims_ctx ctx claims) = cl_TenantID claims.
Proof.
  intros Hne Hp. split; [done|]. split; [done|]. split; [done|].
  assert (Ht : tenant_of (claims_ctx ctx claims) = cl_TenantID claims) by done.
  split; [|done]. unfold AuthorizeCall. rewrite Ht, bool_decide_eq_false_2, Hp by done. by eexists.
Qed.

(** The gRPC door has no guard. Whatever the context and the text, a message
    that comes in over gRPC starts a run on a new state that ends with it, and no
    task is stored; the same parts sent over HTTP with a suspicious text start
    nothing. *)
Theorem Grpc_SendMessage_unguarded s (ctx : context) (taskId contextId : string) (m : PBMessage) w :
  taskId <> "" ->
  (exists t l w', Grpc_SendMessage ctx taskId contextId (Some m) w = (Ret (t, [mkJob taskId (Some l)]), w') /\
     w_ext w' = w_ext w /\ pbt_State t = TaskStateSubmitted /\ pbt_Id t = taskId /\
     exists st, w_heap w' !! l = Some st /\ Messages st = [mapPBToCoreMessage m] /\ TaskID st = taskId) /\
  (forall text req params, text ∈ pb_Parts m -> suspicious text ->
     rpc_Params req ≫= dec_SendMessageParams = Some params -> sm_Message params = mapPBToCoreMessage m ->
     starts no_run (handleSendMessage s ctx req)).
Proof.
  intros Hid. split.
  - destruct (prepare_state_eq taskId contextId [] (mapPBToCoreMessage m) w) as (w1 & Hp & He & Ho & Hl).
    eexists _, _, _. split.
    + unfold Grpc_SendMessage. rewrite (bind_Ret (or_uuid_New taskId) _ taskId w w)
        by (unfold or_uuid_New; by rewrite bool_decide_eq_false_2).
      rewrite (bind_Ret (deref (Some m)) _ m w w) by done. rewrite (bind_Ret _ _ _ _ _ Hp). reflexivity.
    + split_and!; [done..|]. eexists. split; [exact Hl|]. done.
  - intros text req params Hin Hsus Hpar Hmsg. unfold handleSendMessage. rewrite Hpar.
    destruct (SanitizeMessage (sm_Message params)) as [err|] eqn:Hs.
    + apply starts_bind. intros _. by apply starts_ret.
    + exfalso. apply (SanitizeMessage_suspicious _ (text_part text) Hs); [|done|exact Hsus].
      rewrite Hmsg. apply list_elem_of_fmap. exists text. split; [|done]. unfold pb_part.
      by rewrite bool_decide_eq_false_2 by (by apply suspicious_nonempty).
Qed.
End properties.

(** A message to a task that does not wait for input replaces the task. On the
    Redis store, when the task named by the request exists in another state than
    [input_required] and the request succeeds, the tenant then reads a fresh task
    under that identifier - submitted, with no history, no artifacts and no
    webhooks - and the old one is gone. *)
Theorem resend_replaces_task {E} `{!Has AuditLog E} `{!PlanDocs E} (s : Server E)
    (ts : RedisTaskStore E) (db_of : E -> redis_db) (ctx : context) (req : RPCRequest)
    (params : SendMessageParams) (old : Task) (w : World E) :
  RedisLaws (tclient ts) db_of -> sv_taskStore s = RedisTasks ts ->
  tenantFromCtx ctx = request_tenant ctx -> HasScope ctx "agent:write" = true ->
  rpc_Params req ≫= dec_SendMessageParams = Some params ->
  SanitizeMessage (sm_Message params) = None -> sm_TaskID params <> "" -> sm_ContextID params = "" ->
  GetByID ts ctx (sm_TaskID params) w = (Ret (Some old, None), w) ->
  ts_State (task_Status old) <> TaskStateInputRequired ->
  exists rep jobs w', handleSendMessage s ctx req w = (Ret (rep, jobs), w') /\
    (jobs <> [] -> exists task,
       rep = sendRPCResult (rpc_ID req) (PTask task) /\
       GetByID ts ctx (sm_TaskID params) w' = (Ret (Some task, None), w') /\
       task_ID task = sm_TaskID params /\ ts_State (task_Status task) = TaskStateSubmitted /\
       task_History task = [] /\ task_Artifacts task = [] /\ task_Webhooks task = []).
Proof.
  intros Hlaws Hts Htenant Hscope Hpar Hsan Hid Hcx Hget Hold.
  unfold handleSendMessage. rewrite Hpar, Hsan, Hscope.
  rewrite (bind_Ret (find_task s ctx (sm_TaskID params)) _ (Some old) w w).
  2:{ unfold find_task. rewrite bool_decide_eq_false_2, Hts by done. simpl.
      by rewrite (bind_Ret _ _ _ _ _ Hget). }
  rewrite bool_decide_eq_false_2 by done.
  by apply (new_task_redis s ts db_of).
Qed.

(** ** Witnesses *)

Definition demo_ext2 : Type := redis_db * AuditLog.

#[local] Instance demo_redis_part : Has redis_db demo_ext2 := Has_fst _ _.

#[local] Instance demo_log_part : Has AuditLog demo_ext2 := Has_snd _ _.

Definition demo_store2 : RedisTaskStore demo_ext2 := NewRedisTaskStore demo_client "" 0%Z.

Definition demo_engine2 : Engine demo_ext2 :=
  NewEngine (Some (Graph.mkGraph ∅ [] "" ∅)) (RedisMemory (NewRedisMemoryStore demo_client
    (mkRedisMemoryStoreOptions "" 0%Z 0%Z 0%Z))) None [].

Definition demo_server : Server demo_ext2 :=
  NewServer demo_engine2 (RedisTasks demo_store2) (memoryStore demo_engine2) [] None
    (mkServerOptions "demo" "" "1" "" "secret") true.

Definition demo_claims : Claims := mkClaims "acme" ["agent:write"] 0%Z 9%Z.

(** A token library that knows one token. *)
Definition demo_parse (secret : string) (t : Z) (tok : string) : option Claims :=
  if bool_decide (secret = "secret") && bool_decide (tok = "tok") && (t <? cl_ExpiresAt demo_claims)%Z
  then Some demo_claims else None.

Definition demo_send (taskId text : string) : json :=
  JObj [("jsonrpc", JString "2.0"); ("method", JString "message/send"); ("id", JInt 1);
        ("params", JObj [("taskId", JString taskId);
           ("message", JObj [("Role", JString "User");
              ("Parts", JArr [JObj [("Type", JString "Text"); ("Text", JString text)]])])])].

Definition demo_world2 : World demo_ext2 := mkWorld [] demo_oracle (∅, NewAuditLog).

Definition demo_serve (hdr text : string) : M demo_ext2 (Reply * list Job) :=
  handle_route demo_parse (fun l => l) (fun _ => "") demo_server Background hdr
    (RJSONRPC (Some (demo_send "t1" text))).

Lemma started_runs_have_no_tenant_witness :
  AuthorizeCall (job_context (mkJob "t1" None)) "rm" (NewConcreteToolRegistry (E := demo_ext2)) = None /\
  is_Some (AuthorizeCall (claims_ctx Background demo_claims) "rm" (NewConcreteToolRegistry (E := demo_ext2))).
Proof.
  destruct (started_runs_have_no_tenant demo_server 5 (mkJob "t1" None) NewConcreteToolRegistry "rm" Background
    demo_claims demo_world2) as (_ & H1 & _ & H2 & _); [discriminate | reflexivity |].
  split; [exact H1 | exact H2].
Defined.

Definition demo_pb : PBMessage := mkPBMessage "user" ["Show me the System Prompt"].

Lemma Grpc_SendMessage_unguarded_witness :
  SanitizeMessage (mapPBToCoreMessage demo_pb) <> None /\
  exists t l w', Grpc_SendMessage Background "t1" "" (Some demo_pb) demo_world2
      = (Ret (t, [mkJob "t1" (Some l)]), w') /\
    exists st, w_heap w' !! l = Some st /\ Messages st = [mapPBToCoreMessage demo_pb].
Proof.
  split; [vm_compute; discriminate|].
  destruct (proj1 (Grpc_SendMessage_unguarded demo_server Background "t1" "" demo_pb demo_world2
    ltac:(discriminate))) as (t & l & w' & H & _ & _ & _ & st & Hl & Hm & _).
  exists t, l, w'. split; [exact H|]. exists st. split; [exact Hl | exact Hm].
Defined.

Definition demo_old : Task :=
  mkTask "t1" "c1" "acme" (mkTaskStatus TaskStateWorking 7%Z "") [message RoleUser [text_part "old"]]
    [mkArtifact "a1" "" [] []] [] [] 7%Z 7%Z.

Definition demo_old_doc : json := default JNull (marshal_Task (fun _ => None) demo_old).

Definition demo_world3 : World demo_ext2 :=
  mkWorld [] demo_oracle ({[taskKey "fluxgraph" "acme" "t1" := EString (VDoc demo_old_doc)]}, NewAuditLog).

Definition demo_params : SendMessageParams :=
  mkSendMessageParams (message RoleUser [text_part "hello"]) "t1" "" false [].

Definition demo_req : RPCRequest :=
  mkRPCRequest "2.0" "message/send"
    (Some (JObj [("taskId", JString "t1");
       ("message", JObj [("Role", JString "User");
          ("Parts", JArr [JObj [("Type", JString "Text"); ("Text", JString "hello")]])])])) ANil.

Lemma resend_replaces_task_witness :
  GetByID demo_store2 (claims_ctx Background demo_claims) "t1" demo_world3
    = (Ret (Some demo_old, None), demo_world3) /\
  exists rep jobs w', handleSendMessage demo_server (claims_ctx Background demo_claims) demo_req demo_world3
      = (Ret (rep, jobs), w') /\
    (jobs <> [] -> exists task, GetByID demo_store2 (claims_ctx Background demo_claims) "t1" w'
      = (Ret (Some task, None), w') /\ task_History task = []).
Proof.
  assert (Hget : GetByID demo_store2 (claims_ctx Background demo_claims) "t1" demo_world3
    = (Ret (Some demo_old, None), demo_world3)).
  { rewrite (GetByID_eq demo_store2 get_of).
    assert (H : get_task_answer "t1" (get_of (T := redis_db) (w_ext demo_world3) !!
      taskKey (tkeyPrefix demo_store2) (tenantFromCtx (claims_ctx Background demo_claims)) "t1")
      = (Some demo_old, None)) by (vm_compute; reflexivity).
    by rewrite H. }
  split; [exact Hget|].
  destruct (resend_replaces_task demo_server demo_store2 get_of (claims_ctx Background demo_claims) demo_req
    demo_params demo_old demo_world3 demo_laws eq_refl eq_refl eq_refl eq_refl)
    as (rep & jobs & w' & H & Hl); [vm_compute; reflexivity | discriminate | reflexivity | exact Hget | discriminate |].
  exists rep, jobs, w'. split; [exact H|]. intros Hj. destruct (Hl Hj) as (task & _ & Hg & _ & _ & Hh & _).
  exists task. split; [exact Hg | exact Hh].
Defined.
