(* ===== verification/Requests.v ===== *)
(** * From a message to the end of its run: a2a/server.go over engine/engine.go

    What the runs are that a request starts: the state each begins on, and what
    it ends with, by the contract of the engine in [EngineSpec]. *)

From S2P Require Import Prelude GoLang Core Json World Interfaces Memory Graph Resilience Engine EngineSpec Inspector Tools TaskJson Storage Security A2A.
From stdpp Require Import base gmap strings list.

#[local] Open Scope go_scope.

(** The state of a run for a message: the session, what came before, the message. *)
Definition prepared_state (taskID contextID : string) (history : list Message) (msg : Message) : AgentState :=
  with_message msg (set_Messages history (set_ContextID contextID (set_TaskID taskID NewState))).

(** The message a request may start a run for. *)
Definition asks (body : option json) (msg : Message) : Prop :=
  exists req params, body ≫= dec_RPCRequest = Some req /\ rpc_Params req ≫= dec_SendMessageParams = Some params /\
    msg = sm_Message params /\ SanitizeMessage msg = None.

(** The message of a call of the gRPC service, which nothing checks. *)
Definition asks_pb (pb : option PBMessage) (msg : Message) : Prop :=
  exists m, pb = Some m /\ msg = mapPBToCoreMessage m.

(** The state a run of [j] begins on, for a message of [Q]; a task that waited for
    input gets a new state. *)
Definition begins_on (Q : Message -> Prop) (j : Job) (st : AgentState) : Prop :=
  match job_state j with
  | None => st = NewState
  | Some _ => exists contextID history msg, Q msg /\ st = prepared_state (job_session j) contextID history msg
  end.

(** The runs a request starts, over HTTP or gRPC: the message of the request, the
    job, and the world when the request is answered. *)
Inductive begins {E} `{!Has AuditLog E} parse_token sort_Slice Sprintf_v (s : Server E) :
    (Message -> Prop) -> Job -> World E -> Prop :=
  | b_http ctx hdr body w rep jobs j w' :
      handle_route parse_token sort_Slice Sprintf_v s ctx hdr (RJSONRPC body) w = (Ret (rep, jobs), w') -> j ∈ jobs ->
      begins parse_token sort_Slice Sprintf_v s (asks body) j w'
  | b_grpc ctx taskId contextId pb w rep jobs j w' :
      Grpc_SendMessage ctx taskId contextId pb w = (Ret (rep, jobs), w') -> j ∈ jobs ->
      begins parse_token sort_Slice Sprintf_v s (asks_pb pb) j w'.

(** What the goroutine of [j] does first: it makes a new state [st] and enters the
    loop on it. Nothing that existed was written. *)
Definition enters_loop {E} (fuel : nat) (s : Server E) (j : Job) (st : AgentState) (w : World E) : Prop :=
  exists l w0, heap_frame w w0 /\ w_ext w0 = w_ext w /\ length (w_heap w) <= l /\ w_heap w0 !! l = Some st /\
    run_job fuel s j w = runLoop fuel (sv_engine s) Background (job_session j) l w0.

(** ** Lemmas: the jobs of a request *)

Section jobs.
Context {E : Type} `{!Has AuditLog E}.
Implicit Types (s : Server E) (w : World E) (Q : Message -> Prop).

Definition begun Q (j : Job) w : Prop :=
  forall l, job_state j = Some l -> exists st, w_heap w !! l = Some st /\ begins_on Q j st.

(** A computation that prepares jobs. *)
Definition prepares Q {A} (m : M E (A * list Job)) : Prop :=
  forall w, wp m (if_returns (fun r w' => forall j, j ∈ r.2 -> begun Q j w')) w.

Lemma if_returns_run {A} (m : M E A) P w a w' : wp m (if_returns P) w -> m w = (Ret a, w') -> P a w'.
Proof. unfold wp. intros H Hr. by rewrite Hr in H. Qed.

Lemma prepares_bind Q {A B} (m : M E A) (k : A -> M E (B * list Job)) :
  (forall a, prepares Q (k a)) -> prepares Q (bind m k).
Proof. intros Hk w. apply ir_bind. intros a w' _. apply Hk. Qed.

Lemma prepares_none Q {A} (a : A) : prepares Q (ret (a, [])).
Proof. intros w. apply wp_ret. by intros j Hj%elem_of_nil. Qed.

Lemma prepares_prepared Q {A} taskID contextID history msg (k : loc -> A * list Job) : Q msg ->
  (forall l j, j ∈ (k l).2 -> j = mkJob taskID (Some l)) ->
  prepares Q (l <- prepare_state taskID contextID history msg ;; ret (k l)).
Proof.
  intros HQ Hk w. destruct (prepare_state_eq taskID contextID history msg w) as (w' & Hp & _ & _ & Hl).
  apply ir_bind. intros l w1 H1. rewrite Hp in H1. injection H1 as <- <-. apply wp_ret.
  intros j Hj l' Hs. apply Hk in Hj as ->. injection Hs as <-. eexists. split; [exact Hl|].
  by exists contextID, history, msg.
Qed.

Lemma prepares_new_task Q s ctx id tenant params : Q (sm_Message params) -> prepares Q (new_task s ctx id tenant params).
Proof.
  intros HQ. unfold new_task. do 6 (apply prepares_bind; intros ?). cbv zeta. apply prepares_bind. intros [err|].
  - apply prepares_none.
  - apply prepares_prepared; [done|]. by intros l j ->%list_elem_of_singleton.
Qed.

Lemma prepares_resume Q s ctx id params task : prepares Q (resume_task s ctx id params task).
Proof.
  unfold resume_task. do 3 (apply prepares_bind; intros ?). intros w. apply wp_ret.
  by intros j ->%list_elem_of_singleton.
Qed.

Lemma prepares_send Q s ctx req :
  (forall params, rpc_Params req ≫= dec_SendMessageParams = Some params ->
     SanitizeMessage (sm_Message params) = None -> Q (sm_Message params)) ->
  prepares Q (handleSendMessage s ctx req).
Proof.
  intros HQ. unfold handleSendMessage. destruct (_ ≫= _) as [params|]; [|apply prepares_none]. specialize (HQ params eq_refl).
  destruct (SanitizeMessage _); [apply prepares_bind; intros ?; apply prepares_none|]. specialize (HQ eq_refl).
  destruct (HasScope _ _); [|apply prepares_none]. apply prepares_bind. intros [task|]; [case_match|];
    auto using prepares_new_task, prepares_resume.
Qed.

Lemma prepares_rpc s ctx body : prepares (asks body) (handleJSONRPC s ctx body).
Proof.
  unfold handleJSONRPC, handleGetTaskRPC, handleCreatePushConfig.
  destruct (body ≫= dec_RPCRequest) as [req|] eqn:Hreq; [|apply prepares_none]. case_match; [|apply prepares_none].
  case_match; [apply prepares_send; intros params Hp Hs; by exists req, params|]. repeat first
    [ apply prepares_none | apply prepares_bind; intros [] | apply prepares_bind; intros ? | case_match ].
Qed.

Lemma prepares_serve parse_token sort_Slice Sprintf_v s ctx hdr body :
  prepares (asks body) (handle_route parse_token sort_Slice Sprintf_v s ctx hdr (RJSONRPC body)).
Proof.
  cbn [handle_route]. unfold Middleware. case_match; [|apply prepares_none]. apply prepares_bind. intros t.
  case_match; [apply prepares_rpc | apply prepares_none].
Qed.

Lemma prepares_grpc ctx taskId contextId (pb : option PBMessage) :
  prepares (asks_pb pb) (Grpc_SendMessage (E := E) ctx taskId contextId pb).
Proof.
  unfold Grpc_SendMessage. apply prepares_bind. intros taskID w. apply ir_bind. intros m w1 Hm. destruct pb as [m'|]; [|done].
  injection Hm as -> ->. destruct (prepare_state_eq taskID contextId [] (mapPBToCoreMessage m) w1) as (w' & Hp & _ & _ & Hl).
  apply ir_bind. intros l w2 H1. rewrite Hp in H1. injection H1 as <- <-.
  do 3 (apply ir_bind; intros ? ? [= _ <-]). apply wp_ret. intros j ->%list_elem_of_singleton l' [= <-].
  eexists. split; [exact Hl|]. exists contextId, [], (mapPBToCoreMessage m). split; [by exists m | done].
Qed.

Lemma begins_begun parse_token sort_Slice Sprintf_v s Q j w :
  begins parse_token sort_Slice Sprintf_v s Q j w -> begun Q j w.
Proof.
  destruct 1 as [ctx hdr body w rep jobs j w' Hr Hj | ctx taskId contextId pb w rep jobs j w' Hr Hj].
  - exact (if_returns_run _ _ _ _ _ (prepares_serve parse_token sort_Slice Sprintf_v s ctx hdr body w) Hr j Hj).
  - exact (if_returns_run _ _ _ _ _ (prepares_grpc ctx taskId contextId pb w) Hr j Hj).
Qed.

(** ** Lemmas: their runs *)

Lemma begins_on_start Q j st (e : Engine E) : begins_on Q j st ->
  StepCount st = 0%Z /\ LastNodeID st = "" /\ LastNodeID (spec_start e st) = Entry (graph_of e).
Proof.
  unfold begins_on. destruct (job_state j).
  - by intros (contextID & history & msg & _ & ->).
  - by intros ->.
Qed.

Lemma spec_start_steps (e : Engine E) st : StepCount (spec_start e st) = StepCount st.
Proof. unfold spec_start. by case_match. Qed.

Lemma spec_start_running (e : Engine E) st : Status (spec_start e st) = StatusRunning.
Proof. unfold spec_start. by case_match. Qed.

(** What a request made is still there when only new states were added. *)
Lemma begun_frame Q j w later l : begun Q j w -> heap_frame w later -> job_state j = Some l -> w_heap later !! l = w_heap w !! l.
Proof. intros Hb Hf Hj. destruct (Hb l Hj) as (st & Hl & _). rewrite Hl. by eapply heap_frame_lookup. Qed.

(** [Start] on a state: it works on a copy, which is Running at the entry. *)
Lemma Start_eq (e : Engine E) g fuel ctx sid l st w : graph e = Some g -> w_heap w !! l = Some st -> LastNodeID st = "" ->
  Start fuel e ctx sid (Some l) w =
  runLoop fuel e ctx sid (length (w_heap w)) (set_heap (w_heap w ++ [spec_start e st]) w).
Proof.
  intros Hg Hl Hn. unfold Start. erewrite bind_Ret by reflexivity.
  unfold WithStatus. rewrite bind_assoc, (bind_load l st) by done. erewrite (bind_Ret (alloc _)) by reflexivity.
  rewrite (bind_load _ (with_status StatusRunning st)) by apply lookup_snoc_eq.
  rewrite bool_decide_eq_true_2 by exact Hn. unfold deref. rewrite Hg, bind_assoc. erewrite (bind_Ret (ret g)) by reflexivity.
  rewrite (bind_modify _ _ (with_status StatusRunning st)) by apply lookup_snoc_eq. f_equal. unfold set_heap. cbn. f_equal.
  rewrite insert_app_r_alt by lia. rewrite Nat.sub_diag. cbn. unfold spec_start, graph_of. cbn. rewrite Hn, Hg. done.
Qed.

Lemma job_starts Q s g fuel j w later : graph (sv_engine s) = Some g ->
  begun Q j w -> (forall l, job_state j = Some l -> w_heap later !! l = w_heap w !! l) ->
  exists st, begins_on Q j st /\ enters_loop fuel s j (spec_start (sv_engine s) st) later.
Proof.
  intros Hg Hb Hsame. unfold enters_loop, run_job. destruct (job_state j) as [l|] eqn:Hj.
  - destruct (Hb l Hj) as (st & Hl & Hst). rewrite <- (Hsame l eq_refl) in Hl. exists st. split; [done|].
    destruct (begins_on_start Q j st (sv_engine s) Hst) as (_ & Hn & _).
    eexists _, _. split_and!; [| | | |by apply (Start_eq _ g)]; [by eexists [_] | done | done | apply lookup_snoc_eq].
  - exists NewState. split; [unfold begins_on; by rewrite Hj|].
    set (w0 := set_heap (w_heap later ++ [NewState]) later).
    change (Start fuel (sv_engine s) Background (job_session j) None later)
      with (Start fuel (sv_engine s) Background (job_session j) (Some (length (w_heap later))) w0).
    eexists _, _. split_and!; [| | | | apply (Start_eq _ g _ _ _ _ NewState); [done | apply lookup_snoc_eq | done]].
    + exists [NewState; spec_start (sv_engine s) NewState]. unfold w0. cbn. by rewrite <- app_assoc.
    + done.
    + unfold w0. cbn. rewrite length_app. lia.
    + apply lookup_snoc_eq.
Qed.

(** A run on a state that was at no node, without a graph. *)
Lemma nil_graph_panics (e : Engine E) fuel ctx sid l (s : AgentState) w :
  graph e = None -> w_heap w !! l = Some s -> LastNodeID s = "" ->
  (Start fuel e ctx sid (Some l) w).1 = Panic nil_deref.
Proof.
  intros Hg Hl Hid. unfold Start, WithStatus. rewrite (bind_Ret (ret l) _ l w w) by done.
  rewrite bind_assoc, (bind_load _ s) by done. unfold alloc at 1, bind at 1. rewrite (bind_load _ (with_status StatusRunning s)).
  - cbn [LastNodeID with_status set_Status]. rewrite bool_decide_eq_true_2 by exact Hid. by rewrite Hg.
  - apply lookup_snoc_eq.
Qed.

(** A run of a request, without a graph. *)
Lemma job_panics s Q fuel j w later :
  graph (sv_engine s) = None -> begun Q j w -> (forall l, job_state j = Some l -> w_heap later !! l = w_heap w !! l) ->
  (run_job fuel s j later).1 = Panic nil_deref.
Proof.
  intros Hg Hb Hsame. unfold run_job. destruct (job_state j) as [l|] eqn:Hl.
  - destruct (Hb l Hl) as (st & Hst & Hid). rewrite <- (Hsame l eq_refl) in Hst. eapply nil_graph_panics; [done | done |].
    by apply (begins_on_start Q j st (sv_engine s)).
  - change (Start fuel (sv_engine s) Background (job_session j) None later)
      with (Start fuel (sv_engine s) Background (job_session j) (Some (length (w_heap later)))
              (set_heap (w_heap later ++ [NewState]) later)).
    eapply nil_graph_panics; [done | apply lookup_snoc_eq | done].
Qed.

(** The runs of a job whose loop begins on the state [st], with any parts. *)
Lemma job_ends fuel s j st w : EngineOK (sv_engine s) -> StepCount st = 0%Z ->
  in_int64 (maxSteps (sv_engine s)) -> Z.to_nat (maxSteps (sv_engine s)) < fuel -> enters_loop fuel s j st w ->
  wp (run_job fuel s j) (may_panic (fun r w' => returned_steps (sv_engine s) 0 r w' /\
    saved_exit (sv_engine s) (in_session Background (job_session j)) (job_session j) r w')) w.
Proof.
  intros Hok Hst Hmax Hfuel (l & w0 & _ & _ & _ & Hl & Hrun). unfold wp. rewrite Hrun.
  apply loop_ends_saved; [done | split; vm_compute; discriminate | done | by exists st | by rewrite Z.sub_0_r].
Qed.

(** The runs of a job whose parts do what [q] lists. *)
Lemma job_runs fuel s j (q : behaviours) st w `{!Conforms (sv_engine s) q} : StepCount st = 0%Z ->
  in_int64 (maxSteps (sv_engine s)) -> Z.to_nat (maxSteps (sv_engine s)) < fuel -> enters_loop fuel s j st w ->
  may_call q (in_session Background (job_session j)) -> may_visit q st ->
  wp (run_job fuel s j) (returns (ran (sv_engine s) q st)) w.
Proof.
  intros Hst Hmax Hfuel (l & w0 & _ & _ & _ & Hl & Hrun) Hcall Hvis. unfold wp. rewrite Hrun.
  apply (loop_runs (sv_engine s) q); [done | done | done | rewrite Hst; split; vm_compute; discriminate | done | by rewrite Hst, Z.sub_0_r].
Qed.
End jobs.

(** ** Properties *)

(** C10: from a request to the end of its run. Take any run that a JSON-RPC
    request or a gRPC call starts, whenever the goroutine gets to it and whatever
    ran in between, as long as nobody wrote the state made for it. It begins on
    the state of the contract: the session of the task, no node, no step, and as
    its last message the message of the request, which over HTTP [SanitizeMessage]
    passed; a request to a task that waits for input begins on an empty state
    instead. Of an engine without a graph, as the one of the shipped program, the
    run panics. Of an engine with a graph, it makes a Running copy of that state at
    the entry of the graph and enters the loop on it. Then:
    - with any parts as in [EngineOK] - nodes, routers and hooks that end and leave
      the step counts alone, though they may fail, panic or rewrite messages, and
      stores and a bus that end and write no state, as those of
      [scripts/test_server.go] ([Pentest.test_server_ok]) - it never runs for ever
      ([maxSteps + 1] iterations are enough): it panics in a part, or returns
      within the step limit a Failed, Completed or Paused state that was saved
      with this status last;
    - when the parts moreover do what [q] lists, in the sense of [Conforms] (nodes
      return, write no state that exists and hand back a new one in a new cell,
      failures are not retriable and no [AgentError] is without a cause, routers,
      stores and the bus return, and hooks, routers, stores and the bus write no
      state), it returns, and what it hands back is the end of a
      run of the specification of the engine from that state. *)
Theorem request_runs {E} `{!Has AuditLog E} parse_token sort_Slice Sprintf_v (s : Server E)
    (Q : Message -> Prop) (j : Job) (w later : World E) (fuel : nat) :
  begins parse_token sort_Slice Sprintf_v s Q j w ->
  (forall l, job_state j = Some l -> w_heap later !! l = w_heap w !! l) ->
  in_int64 (maxSteps (sv_engine s)) -> Z.to_nat (maxSteps (sv_engine s)) < fuel ->
  match graph (sv_engine s) with
  | None => (run_job fuel s j later).1 = Panic nil_deref
  | Some g => exists st, begins_on Q j st /\
      let st' := spec_start (sv_engine s) st in
      Status st' = StatusRunning /\ LastNodeID st' = Entry g /\ enters_loop fuel s j st' later /\
      (EngineOK (sv_engine s) -> wp (run_job fuel s j) (may_panic (fun r w' => returned_steps (sv_engine s) 0 r w' /\
         saved_exit (sv_engine s) (in_session Background (job_session j)) (job_session j) r w')) later) /\
      (forall q, Conforms (sv_engine s) q -> may_call q (in_session Background (job_session j)) -> may_visit q st' ->
         wp (run_job fuel s j) (returns (ran (sv_engine s) q st')) later)
  end.
Proof.
  intros Hb%begins_begun Hsame Hmax Hfuel. destruct (graph (sv_engine s)) as [g|] eqn:Hg; [|by eapply job_panics].
  destruct (job_starts Q s g fuel j w later Hg Hb Hsame) as (st & Hst & Hin).
  destruct (begins_on_start Q j st (sv_engine s) Hst) as (Hn & Hid & He). exists st. split; [done|]. cbv zeta.
  assert (Hn' : StepCount (spec_start (sv_engine s) st) = 0%Z) by (by rewrite spec_start_steps).
  split; [apply spec_start_running|]. split; [unfold graph_of in He; by rewrite Hg in He|]. split; [exact Hin|]. split.
  - intros Hok. by apply (job_ends fuel s j (spec_start (sv_engine s) st)).
  - intros q Hq Hcall Hvis. by apply (job_runs fuel s j q).
Qed.

(** ** Witnesses *)

(** An agent that answers with the parts of the last message it was sent. *)
Definition answer (s : AgentState) : AgentState :=
  match last (Messages s) with Some m => with_message (message RoleAssistant (msg_Parts m)) s | None => s end.

Definition answer_node : Node demo_ext2 :=
  mkNode "a" (fun _ l => s <- load l ;; l' <- alloc (answer s) ;; ret (Some (mkNodeResult (Some l') [] None), None)).

Definition silent_memory : MemoryStore demo_ext2 :=
  mkMemoryStore (fun _ _ _ => ret ("c", None)) (fun _ _ => ret (None, None)) (fun _ _ => ret (None, None))
    (fun _ _ => ret ([], None)) (fun _ _ _ => ret None) (fun _ _ _ _ => ret ([], None)).

Definition answer_engine : Engine demo_ext2 :=
  NewEngine (Some (mkGraph {["a" := answer_node]} [] "a" {["a" := true]})) silent_memory None [WithMaxSteps 9].

Definition answers : behaviours :=
  mkBehaviours (fun _ => True) (fun _ => True) (fun _ s b => b = Yields (answer s) [] None)
    (fun _ _ _ => False) (fun _ err => err = None).

#[local] Instance answer_conforms : Conforms answer_engine answers.
Proof.
  split; try done.
  - intros node ctx l s w _ Hn _ Hl. simpl in Hn. apply lookup_singleton_Some in Hn as [_ <-].
    eapply rt_load; [done|]. apply wp_bind, wp_alloc, wp_ret.
    split; [by eexists [_]|]. eexists. split; [reflexivity|]. split_and!; [done|done|].
    eexists. split_and!; [done | simpl; lia | apply lookup_snoc_eq].
  - intros edge ctx l s w He. by apply elem_of_nil in He.
  - intros h pt meta Hh. by apply elem_of_nil in Hh.
Qed.

Definition answer_server : Server demo_ext2 :=
  NewServer answer_engine (RedisTasks demo_store2) silent_memory [] None (mkServerOptions "demo" "" "1" "" "secret") true.

Definition answer_asked : outcome (Reply * list Job) * World demo_ext2 :=
  handle_route demo_parse (fun l => l) (fun _ => "") answer_server Background "Bearer tok"
    (RJSONRPC (Some (demo_send "t1" "hello"))) demo_world2.

Definition answered : option (AgentStatus * list Message) :=
  match run_job 10 answer_server (mkJob "t1" (Some 1)) answer_asked.2 with
  | (Ret (Some l, None), w') => st ← w_heap w' !! l; Some (Status st, Messages st)
  | _ => None
  end.

#[local] Instance answer_ok : EngineOK answer_engine.
Proof.
  split.
  - intros h pt meta Hh. by apply elem_of_nil in Hh.
  - intros g id n ctx l [= <-] Hn. simpl in Hn. apply lookup_singleton_Some in Hn as [_ <-].
    apply ends_bind; [apply _ | apply ends_load, _ | intros s]. apply frames_keeps.
    apply frames_bind; [apply frames_alloc | intros l'; apply frames_ret].
  - intros g edge r ctx l [= <-] He. by apply elem_of_nil in He.
  - split; intros; apply frames_ret.
  - intros ts Hts. done.
  - intros bus Hbus. done.
Qed.

(** The run of a request that says hello; the agent repeats it. *)
Lemma request_runs_witness :
  (exists st, begins_on (asks (Some (demo_send "t1" "hello"))) (mkJob "t1" (Some 1)) st /\
    LastNodeID (spec_start answer_engine st) = "a" /\
    enters_loop 10 answer_server (mkJob "t1" (Some 1)) (spec_start answer_engine st) answer_asked.2 /\
    wp (run_job 10 answer_server (mkJob "t1" (Some 1)))
      (may_panic (fun r w' => returned_steps answer_engine 0 r w' /\
         saved_exit answer_engine (in_session Background "t1") "t1" r w')) answer_asked.2 /\
    wp (run_job 10 answer_server (mkJob "t1" (Some 1)))
      (returns (ran answer_engine answers (spec_start answer_engine st))) answer_asked.2) /\
  answered = Some (StatusCompleted,
    [message RoleUser [text_part "hello"]; message RoleAssistant [text_part "hello"]]).
Proof.
  split.
  - assert (H : exists rep, answer_asked.1 = Ret (rep, [mkJob "t1" (Some 1)])) by (eexists; vm_compute; reflexivity).
    destruct H as (rep & H).
    destruct (request_runs demo_parse (fun l => l) (fun _ => "") answer_server
      (asks (Some (demo_send "t1" "hello"))) (mkJob "t1" (Some 1)) answer_asked.2 answer_asked.2 10)
      as (st & Hst & _ & Hid & Hin & Hends & Hrun); [| intros l _; reflexivity | split; vm_compute; discriminate | cbn; lia
      | exists st; split_and!; [exact Hst | exact Hid | exact Hin | exact (Hends answer_ok) | exact (Hrun answers answer_conforms I I)]].
    eapply (b_http demo_parse (fun l => l) (fun _ => "") answer_server Background "Bearer tok" _ demo_world2 rep
      [mkJob "t1" (Some 1)]); [|by left].
    unfold answer_asked in *. destruct (handle_route _ _ _ _ _ _ _ _) as [o w']. cbn [fst snd] in *. by rewrite H.
  - vm_compute. reflexivity.
Defined.
