(* ===== verification/TaskLife.v ===== *)
(** * The life of a task: engine/engine.go and a2a/server.go on one store

    Which statuses a task is given by the runs of the engine and by the handlers
    of the service. A store is watched by [tap_tasks]: it keeps the list of the
    statuses that are written, in the order of the calls. *)

From S2P Require Import Prelude GoLang Core Json World Interfaces Memory Graph Resilience Engine Inspector Tools TaskJson Storage Security A2A.
From stdpp Require Import base gmap strings list.

#[local] Open Scope go_scope.

Create HintDb still discriminated.

Section life.
Context {E : Type} `{!Has (list TaskState) E}.
Implicit Types (e : Engine E) (w : World E).

(** The statuses written so far. *)
Definition told w : list TaskState := get_of (w_ext w).

Definition tell (st : TaskState) : M E unit := l <- get (T := list TaskState) ;; put (l ++ [st]).

Definition tap_tasks (ts : TaskStore E) : TaskStore E :=
  mkTaskStore
    (fun ctx t => tell (ts_State (task_Status t)) ;; tks_Create ts ctx t)
    (tks_GetByID ts)
    (fun ctx id st => tell (ts_State st) ;; tks_UpdateStatus ts ctx id st)
    (tks_AppendMessage ts) (tks_AppendArtifact ts) (tks_AddWebhook ts) (tks_ListByContextID ts)
    (tks_ListByTenantID ts).

(** Every state that exists keeps its status. *)
Definition same_status w w' : Prop :=
  forall l s, w_heap w !! l = Some s -> exists s', w_heap w' !! l = Some s' /\ Status s' = Status s.

(** Nothing is written and no state changes its status. *)
Definition still {A} (m : M E A) : Prop :=
  forall w, told (m w).2 = told w /\ same_status w (m w).2.

(** The statuses that are written are allowed; a result satisfies [P]. *)
Definition writes (allowed : TaskState -> Prop) {A} (P : A -> World E -> Prop) (m : M E A) w : Prop :=
  exists sts, told (m w).2 = told w ++ sts /\ Forall allowed sts /\
    match (m w).1 with Ret a => P a (m w).2 | _ => True end.

(** The state is running. *)
Definition running (l : loc) w : Prop := exists s, w_heap w !! l = Some s /\ Status s = StatusRunning.

(** The stores, the bus, the hooks and the routers change the status of no state -
    they may write its messages, as [OutputGuardHook] does - and tell the store of
    the tasks nothing; a node hands back a state that is running when it was given
    one, and leaves that one running. *)
Class KeepsRunning e (ts : TaskStore E) : Prop := {
  kr_node : forall g id n ctx l w, graph e = Some g -> Nodes g !! id = Some n -> running l w ->
    writes (fun _ => False) (fun r w' => running l w' /\
      forall res l', r.1 = Some res -> nr_State res = Some l' -> running l' w') (node_Process n ctx l) w;
  kr_hook : forall h p meta, h ∈ hooks e -> still (OnHook h p meta);
  kr_router : forall g edge r ctx l, graph e = Some g -> edge ∈ Edges g -> Router edge = Some r -> still (r ctx l);
  kr_save : forall ctx sid l, still (ms_Save (memoryStore e) ctx sid l);
  kr_load : forall ctx sid, still (ms_Load (memoryStore e) ctx sid);
  kr_publish : forall bus ev, eventBus e = Some bus -> still (bus_Publish bus ev);
  kr_update : forall ctx id st, still (tks_UpdateStatus ts ctx id st);
  kr_append : forall ctx id a, still (tks_AppendArtifact ts ctx id a);
}.

(** ** Lemmas *)

Lemma same_status_refl w : same_status w w.
Proof. intros l s Hl. by exists s. Qed.

Lemma same_status_trans w1 w2 w3 : same_status w1 w2 -> same_status w2 w3 -> same_status w1 w3.
Proof.
  intros H1 H2 l s Hl. destruct (H1 l s Hl) as (s2 & Hl2 & <-). destruct (H2 l s2 Hl2) as (s3 & Hl3 & <-). by exists s3.
Qed.

#[local] Instance same_status_preorder : PreOrder same_status.
Proof. split; [exact same_status_refl | exact same_status_trans]. Qed.

Lemma same_status_frame w w' : heap_frame w w' -> same_status w w'.
Proof. intros Hf l s Hl. exists s. split; [by eapply heap_frame_lookup | done]. Qed.

Lemma same_status_eq w w' : w_heap w' = w_heap w -> same_status w w'.
Proof. intros H. by apply same_status_frame, heap_frame_eq. Qed.

Lemma still_ret {A} (a : A) : still (ret a).
Proof. intros w. split; [done | apply same_status_refl]. Qed.

Lemma still_panic {A} v : still (panic (A := A) v).
Proof. intros w. split; [done | apply same_status_refl]. Qed.

Lemma still_bind {A B} (m : M E A) (k : A -> M E B) : still m -> (forall a, still (k a)) -> still (bind m k).
Proof.
  intros Hm Hk w. destruct (Hm w) as [Ht Hf]. unfold bind. destruct (m w) as [[a|v|] w']; [|by split..].
  destruct (Hk a w') as [Ht' Hf']. rewrite Ht'. split; [done|]. by etransitivity.
Qed.

Lemma still_recovering (m : M E unit) : still m -> still (recovering m).
Proof. intros Hm w. specialize (Hm w). unfold recovering. by destruct (m w) as [[] w']. Qed.

Lemma still_for_each {A} (f : A -> M E unit) l : (forall x, x ∈ l -> still (f x)) -> still (for_each f l).
Proof.
  induction l as [|x l IH]; intros Hf; [apply still_ret|]. apply still_bind; [apply Hf; by left|].
  intros _. apply IH. intros y Hy. apply Hf. by right.
Qed.

Lemma still_read l : still (load l).
Proof. intros w. unfold load. by case_match; (split; [done | apply same_status_refl]). Qed.

Lemma still_alloc s : still (alloc s).
Proof. intros w. split; [done | apply same_status_frame; by exists [s]]. Qed.

Lemma still_ask {A} (f : Oracle -> A) : still (ask f).
Proof. intros w. split; [done | by apply same_status_eq]. Qed.

Lemma still_now : still now.
Proof. apply still_ask. Qed.

Lemma still_wait ctx d : still (wait ctx d).
Proof. intros w. split; [done | by apply same_status_eq]. Qed.

Lemma still_deref {A} (p : option A) : still (deref p).
Proof. destruct p; [apply still_ret | apply still_panic]. Qed.

Lemma still_deref_bind {A B} (p : option A) (k : A -> M E B) :
  (forall a, p = Some a -> still (k a)) -> still (bind (deref p) k).
Proof. destruct p as [a|]; intros Hk; [exact (Hk a eq_refl) | apply still_panic]. Qed.

Lemma still_WithStatus l st : still (WithStatus l st).
Proof. apply still_bind; [apply still_read | intros s; apply still_alloc]. Qed.

Lemma still_WithVariable l k v : still (WithVariable l k v).
Proof. apply still_bind; [apply still_read | intros s; apply still_alloc]. Qed.

Lemma running_frame l w w' : running l w -> same_status w w' -> running l w'.
Proof. intros (s & Hl & Hs) Hf. destruct (Hf l s Hl) as (s' & Hl' & He). exists s'. split; [done | congruence]. Qed.

Section writes.
Context (allowed : TaskState -> Prop).

Lemma writes_ret {A} (P : A -> World E -> Prop) a w : P a w -> writes allowed P (ret a) w.
Proof. intros HP. exists []. by rewrite app_nil_r. Qed.

Lemma writes_panic {A} (P : A -> World E -> Prop) v w : writes allowed P (panic v) w.
Proof. exists []. by rewrite app_nil_r. Qed.

Lemma writes_bind {A B} (P : A -> World E -> Prop) (Q : B -> World E -> Prop) (m : M E A) k w :
  writes allowed P m w -> (forall a w', P a w' -> writes allowed Q (k a) w') -> writes allowed Q (bind m k) w.
Proof.
  intros (sts & Ht & Ha & HP) Hk. unfold writes, bind. destruct (m w) as [[a|v|] w']; cbn [fst snd] in *; [|by exists sts..].
  destruct (Hk a w' HP) as (sts' & Ht' & Ha' & HQ). exists (sts ++ sts'). rewrite Ht', Ht, app_assoc.
  split; [done|]. split; [by apply Forall_app|done].
Qed.

Lemma writes_mono {A} (P Q : A -> World E -> Prop) m w :
  (forall a w', P a w' -> Q a w') -> writes allowed P m w -> writes allowed Q m w.
Proof. intros HPQ (sts & Ht & Ha & HP). exists sts. split_and!; [done..|].
  destruct (m w) as [[a|v|] w']; cbn in *; auto.
Qed.

Lemma writes_still {A} (m : M E A) w : still m -> writes allowed (fun _ w' => same_status w w') m w.
Proof. intros Hm. destruct (Hm w) as [Ht Hf]. exists []. rewrite app_nil_r. split_and!; [done..|]. by destruct (m w).1. Qed.

Lemma writes_weaken {A} (fewer : TaskState -> Prop) (P : A -> World E -> Prop) m w :
  (forall st, fewer st -> allowed st) -> writes fewer P m w -> writes allowed P m w.
Proof. intros Hst (sts & Ht & Ha & HP). exists sts. split_and!; [done | by eapply Forall_impl | done]. Qed.

(** A part that writes nothing, in front of others. *)
Lemma writes_after {A B} (Q : B -> World E -> Prop) (m : M E A) k w :
  still m -> (forall a w', same_status w w' -> writes allowed Q (k a) w') -> writes allowed Q (bind m k) w.
Proof. intros Hm. apply writes_bind. by apply writes_still. Qed.

Lemma writes_deref {A B} (Q : B -> World E -> Prop) (p : option A) k w :
  (forall a, p = Some a -> writes allowed Q (k a) w) -> writes allowed Q (bind (deref p) k) w.
Proof. destruct p as [a|]; intros Hk; [exact (Hk a eq_refl) | apply writes_panic]. Qed.

Lemma writes_any {A} (m : M E A) w : still m -> writes allowed (fun _ _ => True) m w.
Proof. intros Hm. eapply writes_mono, writes_still; done. Qed.

Lemma writes_tell st (w : World E) : allowed st -> writes allowed (fun _ w' => same_status w w') (tell st) w.
Proof.
  intros Ha. exists [st]. unfold tell, bind, get, put. cbn. unfold told at 1. cbn. rewrite get_set_of.
  split_and!; [done | by constructor | by apply same_status_eq].
Qed.

Lemma writes_update (ts : TaskStore E) ctx id st w : allowed (ts_State st) ->
  (forall ctx id st, still (tks_UpdateStatus ts ctx id st)) ->
  writes allowed (fun _ w' => same_status w w') (tks_UpdateStatus (tap_tasks ts) ctx id st) w.
Proof.
  intros Ha Hs. eapply writes_bind; [by apply writes_tell|]. intros ? w' Hf.
  eapply writes_mono, writes_still, Hs. intros ? w'' Hf'. exact (same_status_trans _ _ _ Hf Hf').
Qed.

Lemma writes_modify l f s w : w_heap w !! l = Some s ->
  writes allowed (fun _ w' => w' = set_heap (<[l := f s]> (w_heap w)) w) (modify l f) w.
Proof.
  intros Hl. exists []. rewrite app_nil_r. unfold modify. rewrite (bind_load _ s) by done.
  unfold store. by rewrite Hl.
Qed.

(** What was running is running. *)
Definition run_on (w w' : World E) : Prop := forall l, running l w -> running l w'.

Lemma run_on_modify l f w : (forall s, Status (f s) = Status s) ->
  writes allowed (fun _ w' => run_on w w') (modify l f) w.
Proof.
  intros Hf. destruct (w_heap w !! l) as [s|] eqn:Hl.
  2: { exists []. rewrite app_nil_r. unfold modify, bind, load. by rewrite Hl. }
  eapply writes_mono; [|by apply (writes_modify l f s w)]. intros ? w' -> k (t & Hk & Ht). unfold running. cbn.
  destruct (decide (k = l)) as [->|Hne].
  - exists (f s). split; [apply list_lookup_insert_eq; by eapply lookup_lt_Some|]. rewrite Hf. congruence.
  - exists t. by rewrite list_lookup_insert_ne.
Qed.
End writes.

Lemma run_on_frame w w' : same_status w w' -> run_on w w'.
Proof. intros Hf l Hl. by eapply running_frame. Qed.
End life.

#[export] Hint Resolve still_ret still_panic still_bind still_read still_alloc still_ask still_now still_wait
  still_deref still_WithStatus still_WithVariable : still.

(** ** Lemmas: the engine *)

(** What the engine writes while its nodes leave the states running. *)
Definition engine_status (st : TaskState) : Prop := st = TaskStateWorking \/ st = TaskStateFailed.

(** What it writes until a node fails. *)
Definition at_work (st : TaskState) : Prop := st = TaskStateWorking.

(** Only work has been told since. *)
Definition worked {E} `{!Has (list TaskState) E} (w0 w : World E) : Prop :=
  exists sts, told w = told w0 ++ sts /\ Forall at_work sts.

(** What the run hands back is not completed. *)
Definition stopped {E} (r : option loc * option error) (w : World E) : Prop :=
  exists l s, r.1 = Some l /\ w_heap w !! l = Some s /\ Status s <> StatusCompleted.

Section engine.
Context {E : Type} `{!Has (list TaskState) E}.
Context (e : Engine E) (ts : TaskStore E) `{!KeepsRunning e ts}.
Context (Hts : taskStore e = Some (tap_tasks ts)).

Lemma still_fireHooks p meta : still (fireHooks e p meta).
Proof. apply still_for_each. intros h Hh. apply still_recovering. by exact (kr_hook (ts := ts) h _ _ Hh). Qed.

Lemma still_resolve ctx l : still (resolveNextNode e ctx l).
Proof.
  apply still_deref_bind. intros g Hg. apply still_bind; [auto with still | intros s].
  destruct (first_edge _ _) as [edge|] eqn:He; [|apply still_ret]. destruct (IsCond edge); [|apply still_ret].
  destruct (Router edge) as [r|] eqn:Hr; [|apply still_panic].
  intros w. exact (kr_router (ts := ts) g edge r ctx l Hg (first_edge_elem _ _ _ He) Hr w).
Qed.

Lemma still_save_as ctx sid st l : still (save_as e ctx sid st l).
Proof. apply still_bind; [auto with still | intros l']. apply still_bind; [exact (kr_save (ts := ts) _ _ _) | auto with still]. Qed.

Lemma still_publish_paused sid payload : still payload -> still (publish_paused e sid payload).
Proof.
  intros Hp. unfold publish_paused. destruct (eventBus e) as [bus|] eqn:Hbus; [|apply still_ret].
  apply still_bind; [done | intros p]. apply still_bind; [exact (kr_publish (ts := ts) bus _ Hbus) | auto with still].
Qed.

(** A part that ends the run. *)
Lemma writes_exit {A} (m : M E A) w : still m -> writes engine_status (fun _ _ => True) m w.
Proof. apply writes_any. Qed.

Lemma writes_update_task ctx l msg w :
  writes engine_status (fun _ w' => same_status w w') (update_task e ctx l TaskStateFailed msg) w.
Proof.
  unfold update_task. apply writes_after; [apply still_read | intros s w1 H1]. rewrite Hts. case_match.
  { by apply writes_ret. }
  apply writes_after; [apply still_now | intros t w2 H2].
  eapply writes_bind; [apply writes_update; [by right | exact (kr_update (e := e) (ts := ts))]|]. intros ? w3 H3.
  apply writes_ret. by eauto using same_status_trans.
Qed.

Lemma worked_refl (w : World E) : worked w w.
Proof. exists []. by rewrite app_nil_r. Qed.

(** Parts that tell of work only, in a run that told of work only. *)
Lemma writes_worked {A} (P : A -> World E -> Prop) (m : M E A) w0 w :
  worked w0 w -> writes at_work P m w -> writes engine_status (fun a w' => P a w' /\ worked w0 w') m w.
Proof.
  intros (sts0 & H0 & F0) (sts & H1 & F1 & HP). exists sts. split; [done|].
  split; [eapply Forall_impl; [exact F1|]; by left|]. destruct (m w).1; [|done..]. split; [done|].
  exists (sts0 ++ sts). rewrite H1, H0, app_assoc. split; [done | by apply Forall_app].
Qed.

Lemma writes_save_as (allowed : TaskState -> Prop) ctx sid st l w : st <> StatusCompleted ->
  writes allowed (fun l' w' => exists s, w_heap w' !! l' = Some s /\ Status s <> StatusCompleted) (save_as e ctx sid st l) w.
Proof.
  intros Hst. unfold save_as.
  eapply (writes_bind _ (fun l' w' => exists s, w_heap w' !! l' = Some s /\ Status s <> StatusCompleted)).
  - unfold writes, WithStatus, bind, load. destruct (w_heap w !! l) as [s|]; [|exists []; by rewrite app_nil_r].
    exists []. rewrite app_nil_r. split_and!; [done..|]. eexists. split; [apply lookup_snoc_eq | done].
  - intros l' w1 (s & Hl & Hs). apply writes_after; [exact (kr_save (ts := ts) _ _ _) | intros ? w2 Hf].
    apply writes_ret. destruct (Hf _ _ Hl) as (s' & Hl' & Hs'). exists s'. by rewrite Hs'.
Qed.

(** A part that leaves what was stopped as it was. *)
Lemma writes_stopped (allowed : TaskState -> Prop) {A} (m : M E A) err l w : still m ->
  (exists s, w_heap w !! l = Some s /\ Status s <> StatusCompleted) ->
  writes allowed stopped (m ;; ret (Some l, err))%go w.
Proof.
  intros Hm (s & Hl & Hs). apply writes_after; [done | intros ? w1 Hf]. apply writes_ret.
  destruct (Hf _ _ Hl) as (s' & Hl' & Hs'). exists l, s'. split_and!; [done | done | by rewrite Hs'].
Qed.

Lemma writes_handle_error ctx sid id d l err w :
  writes engine_status stopped (handle_error e ctx sid id d l err) w.
Proof.
  unfold handle_error. apply writes_after; [apply still_read | intros s w1 _].
  apply writes_after; [apply still_fireHooks | intros ? w2 _].
  eapply writes_bind; [apply writes_update_task | intros ? w3 _].
  destruct (errors_As err) as [ae|]; [case_decide|];
    (eapply writes_bind; [by apply writes_save_as | intros l' w4 Hl']).
  - apply writes_stopped; [|done]. apply still_publish_paused.
    apply still_bind; [apply still_deref | intros c; apply still_ret].
  - destruct Hl' as (s' & Hl' & Hs'). apply writes_ret. by exists l', s'.
  - destruct Hl' as (s' & Hl' & Hs'). apply writes_ret. by exists l', s'.
Qed.

(** The synchronisation of the task after a node: the state is running, and the
    task is told that it works. *)
Lemma writes_sync_task ctx id l rs w : running rs w ->
  writes at_work (fun _ w' => same_status w w') (sync_task e ctx id l rs) w.
Proof.
  intros Hrun. unfold sync_task. apply writes_after; [apply still_read | intros r w1 H1]. rewrite Hts.
  case_match; [by apply writes_ret|]. apply writes_after; [apply still_read | intros s w2 H2].
  case_match; [apply writes_panic|]. apply writes_after.
  { apply still_for_each. intros a _. apply still_bind; [apply still_read | intros r'].
    apply still_bind; [exact (kr_append (e := e) (ts := ts) _ _ _) | intros _; apply still_ret]. }
  intros ? w3 H3. assert (Hrun3 : running rs w3).
  { eapply running_frame; [|exact H3]. eapply running_frame; [|exact H2]. by eapply running_frame. }
  destruct Hrun3 as (r' & Hr' & Hst). unfold writes. rewrite (bind_load _ r') by done.
  change (writes at_work (fun (_ : unit) w' => same_status w w') (t <- now ;;
    tks_UpdateStatus (tap_tasks ts) ctx (TaskID r') (mkTaskStatus (MapAgentStatusToTaskState (Status r')) t
      ("Completed node " +:+ id)) ;; ret tt) w3).
  apply writes_after; [apply still_now | intros t w4 H4].
  eapply writes_bind; [apply writes_update; [cbn; by rewrite Hst | exact (kr_update (e := e) (ts := ts))]|].
  intros ? w5 H5. apply writes_ret. by eauto 6 using same_status_trans.
Qed.

Lemma writes_adopt_state ctx id l rs w : running l w -> (forall l', rs = Some l' -> running l' w) ->
  writes at_work (fun l' w' => running l' w') (adopt_state e ctx id l rs) w.
Proof.
  intros Hl Hrs. destruct rs as [rs|]; [|by apply writes_ret]. unfold adopt_state. specialize (Hrs rs eq_refl).
  apply writes_after; [apply still_read | intros s w1 H1].
  eapply writes_bind; [by apply run_on_modify | intros ? w2 H2].
  eapply writes_bind; [by apply run_on_modify | intros ? w3 H3]. cbv beta in *.
  assert (Hr3 : running rs w3) by (apply H3, H2; by eapply running_frame).
  eapply writes_bind; [by apply writes_sync_task | intros ? w4 H4]. apply writes_ret. by eapply running_frame.
Qed.

(** The result of a node that succeeded. *)
Definition good_result (r : option NodeResult) (w : World E) : Prop :=
  forall res l', r = Some res -> nr_State res = Some l' -> running l' w.

Lemma writes_process g ctx id node l w : graph e = Some g -> Nodes g !! id = Some node -> running l w ->
  writes at_work (fun r w' => running l w' /\ good_result r.1 w') (processNodeWithRetry e ctx node l) w.
Proof.
  intros Hg Hn. unfold processNodeWithRetry, Execute. generalize (Z.to_nat (MaxAttempts (retry e))) as n.
  intros n. generalize 0%Z as attempt. generalize (BaseDelay (retry e)) as delay. revert w.
  induction n as [|n IH]; intros w delay attempt Hl.
  { apply writes_ret. split; [done|]. by intros ? ? [=]. }
  cbn [execute_loop].
  assert (Hbody : writes at_work (fun r w' => running l w' /\ good_result r.1 w' /\ (r.2 <> None -> r.1 = None))
    (let* (r, err) := node_Process node ctx l in
     match err with Some x => ret (None, Some x) | None => ret (r, None) end)%go w).
  { eapply writes_bind; [eapply writes_weaken; [|by eapply (kr_node (ts := ts) g id node ctx l w Hg Hn)]; done|].
    intros [r err] w1 [H1 H2]. destruct err as [x|]; apply writes_ret; (split; [done|]); (split; [|done]).
    - by intros ? ? [=].
    - exact H2. }
  eapply writes_bind; [exact Hbody | intros [r err] w1 (H1 & H2 & H3)]. cbn [fst snd] in *.
  destruct err as [x|]; [|by apply writes_ret]. assert (Hr : r = None) by (by apply H3). subst r.
  assert (Hnone : forall w', good_result None w') by (by intros w' ? ? [=]).
  destruct (retriable x) as [ae|]; [|by apply writes_ret].
  destruct (_ =? _)%Z; [by apply writes_ret|].
  apply writes_after; [apply still_ask | intros u w2 F2]. apply writes_after; [apply still_wait | intros d w3 F3].
  assert (Hl3 : running l w3) by (eapply running_frame; [|exact F3]; by eapply running_frame).
  destruct d as [ctx_err|]; [by apply writes_ret | by apply IH].
Qed.

(** An iteration goes on with a running state. *)
Definition goes_on (r : loc + (option loc * option error)) (w : World E) : Prop :=
  match r with inl l' => running l' w | inr _ => True end.

Lemma writes_stop ctx sid st l err w :
  writes at_work goes_on (state' <- save_as e ctx sid st l ;; ret (inr (Some state', err)))%go w.
Proof. apply writes_after; [apply still_save_as | intros l' w' _]. by apply writes_ret. Qed.

Lemma writes_handle_result ctx sid id d l res w : running l w -> good_result res w ->
  writes at_work goes_on (handle_result e ctx sid id d l res) w.
Proof.
  intros Hl Hres. unfold handle_result. destruct res as [result|]; [|apply writes_panic].
  eapply writes_bind; [by apply (writes_ret _ (fun r w' => r = result /\ w' = w))|]. intros r w' [-> ->].
  apply writes_after; [apply still_read | intros s w1 F1].
  apply writes_after; [apply still_fireHooks | intros ? w2 F2].
  assert (Hf : same_status w w2) by (by eapply same_status_trans).
  eapply writes_bind; [apply writes_adopt_state; [by eapply running_frame|]|].
  { intros l' Hl'. eapply running_frame; [by eapply Hres | done]. }
  intros l' w3 Hl'. destruct (nr_Interrupt result) as [signal|].
  - apply writes_after; [apply still_save_as | intros l2 w4 _].
    apply writes_after; [apply still_publish_paused, still_ret | intros ? w5 _]. by apply writes_ret.
  - apply writes_after.
    { unfold choose_next. destruct (nr_NextNodes result); [apply still_resolve | apply still_ret]. }
    intros [next [x|]] w4 F4; [apply writes_stop|]. case_match; [apply writes_deref; intros g _; case_match; apply writes_stop|].
    eapply writes_bind; [by apply run_on_modify | intros ? w5 H5]. apply writes_ret.
    cbv beta in H5. apply H5. exact (running_frame _ _ _ Hl' F4).
Qed.

(** An iteration of a run that told of work only, and its end. *)
Definition worked_on (w0 : World E) (r : loc + (option loc * option error)) (w : World E) : Prop :=
  match r with
  | inl l' => running l' w /\ worked w0 w
  | inr r => worked w0 w \/ stopped r w
  end.

Lemma worked_on_goes w0 r w : goes_on r w /\ worked w0 w -> worked_on w0 r w.
Proof. destruct r; [done|]. intros [_ ?]. by left. Qed.

Lemma writes_at_work {A} (P : A -> World E -> Prop) m w : writes at_work P m w -> writes engine_status P m w.
Proof. apply writes_weaken. by left. Qed.

Lemma writes_loop_body ctx sid l w0 w : running l w -> worked w0 w ->
  writes engine_status (worked_on w0) (loop_body e ctx sid l) w.
Proof.
  intros Hl Hw. unfold loop_body.
  assert (Hquiet : forall {A} (m : M E A) k w1, worked w0 w1 -> still m ->
    (forall a w', same_status w1 w' -> worked w0 w' -> writes engine_status (worked_on w0) (k a) w') ->
    writes engine_status (worked_on w0) (bind m k) w1).
  { intros A m k w1 Hw1 Hm Hk. eapply writes_bind; [apply (writes_worked (fun _ w' => same_status w1 w') _ w0); [done | by apply writes_still]|].
    intros a w' [Hf Hw']. by apply Hk. }
  assert (Hstop : forall st err w1, worked w0 w1 -> writes engine_status (worked_on w0)
    (state' <- save_as e ctx sid st l ;; ret (inr (Some state', err)))%go w1).
  { intros st err w1 Hw1. apply Hquiet; [done | apply still_save_as | intros l' w' _ Hw']. apply writes_ret. by left. }
  apply Hquiet; [done | apply still_read | intros s w1 F1 W1]. case_match.
  { apply Hquiet; [done | exact (kr_save (ts := ts) _ _ _) | intros [c err] w2 _ W2]. apply writes_ret. by left. }
  case_match; [by apply Hstop|]. cbv zeta.
  apply writes_deref. intros g Hg. destruct (Graph_Node g (LastNodeID s)) as [node|] eqn:Hn; [|by apply Hstop].
  apply Hquiet; [done | apply still_fireHooks | intros ? w2 F2 W2].
  apply Hquiet; [done | apply still_now | intros t0 w3 F3 W3].
  assert (Hl3 : running l w3) by (eapply running_frame; [exact Hl|]; by eauto using same_status_trans).
  eapply writes_bind; [apply (writes_worked (fun r w' => running l w' /\ good_result r.1 w') _ w0); [exact W3 | by eapply writes_process]|].
  intros [res err] w4 [[Hl4 Hg4] W4].
  apply Hquiet; [done | apply still_now | intros t w5 F5 W5].
  eapply writes_bind; [apply (writes_worked (fun _ w' => run_on w5 w') _ w0); [exact W5 | by apply run_on_modify]|].
  intros ? w6 [H6 W6]. cbv beta in H6.
  assert (Hl6 : running l w6) by (apply H6; by eapply running_frame).
  assert (Hg6 : good_result res w6).
  { intros r l' Hr Hl'. apply H6. eapply running_frame; [|exact F5]. by eapply Hg4. }
  destruct err as [x|].
  - eapply writes_bind; [apply writes_handle_error | intros r w7 Hr]. apply writes_ret. by right.
  - eapply writes_mono; [apply worked_on_goes|]. apply writes_worked; [exact W6 | by apply writes_handle_result].
Qed.

Lemma writes_loop fuel ctx sid l w0 w : running l w -> worked w0 w ->
  writes engine_status (fun r w' => worked w0 w' \/ stopped r w') (loop fuel e ctx sid l) w.
Proof.
  revert l w. induction fuel as [|fuel IH]; intros l w Hl Hw; [exists []; by rewrite app_nil_r|]. cbn [loop].
  eapply writes_bind; [by apply (writes_loop_body _ _ _ w0)|]. intros [l'|r] w' Hr.
  - destruct Hr as [Hl' Hw']. by apply IH.
  - by apply writes_ret.
Qed.

(** [WithStatus] makes a running state. *)
Lemma writes_WithStatus l w :
  writes at_work (fun l' w' => running l' w') (WithStatus l StatusRunning) w.
Proof.
  unfold writes, WithStatus, bind, load. destruct (w_heap w !! l) as [s|]; [|exists []; by rewrite app_nil_r].
  exists []. rewrite app_nil_r. split_and!; [done..|]. eexists. split; [apply lookup_snoc_eq | done].
Qed.

(** A run that begins on a state it makes running. *)
Lemma writes_begun {A} (m : M E A) k w0 w :
  worked w0 w -> (exists P, writes at_work P m w /\ forall a w', P a w' -> worked w0 w' ->
    writes engine_status (fun r w' => worked w0 w' \/ stopped r w') (k a) w') ->
  writes engine_status (fun r w' => worked w0 w' \/ stopped r w') (bind m k) w.
Proof.
  intros Hw (P & Hm & Hk). eapply writes_bind; [by apply (writes_worked P _ w0)|].
  intros a w' [HP Hw']. by apply Hk.
Qed.

Lemma writes_begun_still {A} (m : M E A) k w0 w :
  worked w0 w -> still m -> (forall a w', same_status w w' -> worked w0 w' ->
    writes engine_status (fun r w' => worked w0 w' \/ stopped r w') (k a) w') ->
  writes engine_status (fun r w' => worked w0 w' \/ stopped r w') (bind m k) w.
Proof. intros Hw Hm Hk. apply writes_begun; [done|]. eexists. split; [by apply writes_still | exact Hk]. Qed.

Lemma writes_Start fuel ctx sid init w :
  writes engine_status (fun r w' => worked w w' \/ stopped r w') (Start fuel e ctx sid init) w.
Proof.
  unfold Start. apply writes_begun_still; [apply worked_refl | destruct init; auto with still | intros l0 w1 _ W1].
  apply writes_begun; [done|]. eexists. split; [apply writes_WithStatus | intros l w2 Hl W2].
  apply writes_begun_still; [done | apply still_read | intros s w3 F3 W3].
  assert (Hl3 : running l w3) by (by eapply running_frame).
  apply writes_begun; [done|]. exists (fun _ w' => running l w'). split; [|intros ? w4 Hl4 W4; by apply writes_loop].
  case_match; [|by apply writes_ret]. apply writes_deref. intros g _.
  eapply writes_mono; [|by apply run_on_modify]. intros ? w4 H4. by apply H4.
Qed.

Lemma writes_Resume fuel ctx sid inj w :
  writes engine_status (fun r w' => worked w w' \/ stopped r w') (Resume fuel e ctx sid inj) w.
Proof.
  unfold Resume. apply writes_begun_still; [apply worked_refl | exact (kr_load (ts := ts) _ _) | intros [loaded err] w1 _ W1].
  destruct err as [x|]; [apply writes_ret; by left|]. apply writes_begun_still; [done | apply still_deref | intros l0 w2 _ W2].
  apply writes_begun_still; [done | apply still_read | intros s0 w3 _ W3]. case_match; [|apply writes_ret; by left].
  apply writes_begun_still; [done | |].
  { clear. revert l0. induction inj as [|kv inj IH]; intros l; [apply still_ret|].
    apply still_bind; [apply still_WithVariable | intros l'; apply IH]. }
  intros l1 w4 _ W4. apply writes_begun; [done|]. eexists. split; [apply writes_WithStatus | intros l w5 Hl W5].
  apply writes_begun_still; [done | apply still_resolve | intros [next rErr] w6 F6 W6].
  destruct rErr as [x|]; [apply writes_ret; by left|]. case_match.
  - apply writes_begun_still; [done | apply still_read | intros s w7 _ W7]. apply writes_deref. intros g _.
    case_match; [|apply writes_ret; by left].
    apply writes_begun_still; [done | apply still_save_as | intros l2 w8 _ W8]. apply writes_ret. by left.
  - apply writes_begun; [done|]. exists (fun _ w' => running l w'). split; [|intros ? w7 Hl7 W7; by apply writes_loop].
    eapply writes_mono; [|by apply run_on_modify]. intros ? w7 H7. apply H7. by eapply running_frame.
Qed.
End engine.

(** ** Lemmas: the service *)

Section service.
Context {E : Type} `{!Has (list TaskState) E} `{!Has AuditLog E}.
Context (parse_token : string -> Z -> string -> option Claims).
Context (sort_Slice : list StateSnapshot -> list StateSnapshot) (Sprintf_v : any -> string).
Implicit Types w : World E.

(** No status is written. *)
Definition mute {A} (m : M E A) : Prop := forall w, told (m w).2 = told w.

(** Only allowed statuses are written, whatever the result. *)
Definition limits (allowed : TaskState -> Prop) {A} (m : M E A) : Prop :=
  forall w, writes allowed (fun _ _ => True) m w.

(** The stores behind the service write no status of their own. *)
Class MuteStores (s : Server E) (ts : TaskStore E) : Prop := {
  mu_create : forall ctx t, mute (tks_Create ts ctx t);
  mu_get : forall ctx id, mute (tks_GetByID ts ctx id);
  mu_update : forall ctx id st, mute (tks_UpdateStatus ts ctx id st);
  mu_message : forall ctx id m, mute (tks_AppendMessage ts ctx id m);
  mu_webhook : forall ctx id c, mute (tks_AddWebhook ts ctx id c);
  mu_context : forall ctx id, mute (tks_ListByContextID ts ctx id);
  mu_checkpoint : forall ctx id, mute (ms_LoadCheckpoint (sv_memory s) ctx id);
  mu_checkpoints : forall ctx id, mute (ms_ListCheckpoints (sv_memory s) ctx id);
  mu_audit : forall tenant sid typ text, mute (LogViolation (E := E) tenant sid typ text);
}.

(** What a handler writes. *)
Definition service_status (st : TaskState) : Prop := st = TaskStateSubmitted \/ st = TaskStateWorking.

Lemma still_mute {A} (m : M E A) : still m -> mute m.
Proof. intros Hm w. apply Hm. Qed.

Lemma mute_bind {A B} (m : M E A) (k : A -> M E B) : mute m -> (forall a, mute (k a)) -> mute (bind m k).
Proof. intros Hm Hk w. specialize (Hm w). unfold bind. destruct (m w) as [[a|v|] w']; [by rewrite Hk|done..]. Qed.

Lemma mute_modify l f : mute (modify l f).
Proof. apply mute_bind; [apply still_mute, still_read|]. intros s w. unfold store. by case_match. Qed.

Lemma mute_uuid : mute uuid_New.
Proof. by intros w. Qed.

Lemma limits_mute allowed {A} (m : M E A) : mute m -> limits allowed m.
Proof. intros Hm w. exists []. rewrite app_nil_r. split_and!; [apply Hm | done |]. by destruct (m w).1. Qed.

Lemma limits_bind allowed {A B} (m : M E A) (k : A -> M E B) :
  limits allowed m -> (forall a, limits allowed (k a)) -> limits allowed (bind m k).
Proof. intros Hm Hk w. eapply writes_bind; [apply Hm|]. intros a w' _. apply Hk. Qed.

Lemma limits_tell (allowed : TaskState -> Prop) st {A} (m : M E A) :
  allowed st -> mute m -> limits allowed (tell st ;; m).
Proof.
  intros Ha Hm. apply limits_bind; [|intros _; by apply limits_mute].
  intros w. eapply writes_mono; [|by apply writes_tell]. done.
Qed.
End service.

Create HintDb mute discriminated.

#[export] Hint Resolve still_mute mute_modify mute_uuid mu_create mu_get mu_update mu_message mu_webhook
  mu_context mu_checkpoint mu_checkpoints mu_audit : mute.
#[export] Hint Resolve still_ret still_panic still_read still_alloc still_now still_deref still_WithStatus : mute.

(** Names a result, and its parts when it is a pair. *)
Ltac result :=
  let x := fresh "x" in
  intros x; lazymatch type of x with prod _ _ => destruct x | unit => destruct x | _ => idtac end.

(** Follows the binds and the branches of a computation down to parts the hints
    know. *)
Ltac quiet :=
  repeat lazymatch goal with
    | |- mute (bind _ _) => apply mute_bind; [|result]
    | |- mute (match ?x with _ => _ end) => destruct x
    | |- mute _ => solve [eauto 3 with mute]
    end.

(** The same, up to the statuses that are written: [t] shows each is allowed. *)
Ltac limit t :=
  repeat lazymatch goal with
    | |- limits _ (bind (tell _) _) => apply limits_tell; [t | quiet]
    | |- limits _ (bind _ _) => apply limits_bind; [|result]
    | |- limits _ (match ?x with _ => _ end) => destruct x
    | |- limits _ _ => apply limits_mute; solve [quiet]
    end.

Section handlers.
Context {E : Type} `{!Has (list TaskState) E} `{!Has AuditLog E}.
Context (parse_token : string -> Z -> string -> option Claims).
Context (sort_Slice : list StateSnapshot -> list StateSnapshot) (Sprintf_v : any -> string).
Context (s : Server E) (ts : TaskStore E) `{!MuteStores s ts}.
Context (Hts : sv_taskStore s = tap_tasks ts).

Lemma mute_collect ctx metas : mute (collect (sv_memory s) ctx metas).
Proof.
  induction metas as [|m metas IH]; [quiet|]. cbn [collect]. apply mute_bind; [quiet|].
  intros [st [x|]]; [apply IH|]. quiet.
Qed.

Lemma mute_timeline ctx sid : mute (GetTimeline (sv_memory s) sort_Slice ctx sid).
Proof. unfold GetTimeline. quiet. apply mute_collect. Qed.

Lemma mute_diff ctx a b : mute (DiffCheckpoints (sv_memory s) Sprintf_v ctx a b).
Proof. unfold DiffCheckpoints. quiet. Qed.

Lemma mute_replay ctx id : mute (ReplayFrom (sv_memory s) ctx id).
Proof. unfold ReplayFrom. quiet. Qed.

Lemma mute_prepare taskID contextID history message :
  mute (prepare_state taskID contextID history message : M E loc).
Proof. unfold prepare_state, WithMessage. quiet. Qed.

Lemma mute_or_uuid x : mute (or_uuid_New x : M E string).
Proof. unfold or_uuid_New. quiet. Qed.

Lemma mute_history ctx contextID : mute (inherited_history s ctx contextID).
Proof. unfold inherited_history. rewrite Hts. cbn [tap_tasks tks_ListByContextID]. quiet. Qed.
End handlers.

#[export] Hint Resolve mute_timeline mute_diff mute_replay mute_prepare mute_or_uuid mute_history : mute.

(** Proves that a handler writes statuses of the service only. *)
Ltac serves Hts :=
  unfold reply; rewrite ?Hts; cbn [tap_tasks tks_Create tks_GetByID tks_UpdateStatus tks_AppendMessage
    tks_AddWebhook tks_ListByContextID];
  limit ltac:(by (left + right)).

Section serve.
Context {E : Type} `{!Has (list TaskState) E} `{!Has AuditLog E}.
Context (parse_token : string -> Z -> string -> option Claims).
Context (sort_Slice : list StateSnapshot -> list StateSnapshot) (Sprintf_v : any -> string).
Context (s : Server E) (ts : TaskStore E) `{!MuteStores s ts}.
Context (Hts : sv_taskStore s = tap_tasks ts).

Lemma limits_resume_task ctx id params task : limits service_status (resume_task s ctx id params task).
Proof using Type*. unfold resume_task. serves Hts. Qed.

Lemma limits_new_task ctx id tenant params : limits service_status (new_task s ctx id tenant params).
Proof using Type*. unfold new_task. serves Hts. Qed.

Lemma limits_send ctx req : limits service_status (handleSendMessage s ctx req).
Proof using Type*.
  unfold handleSendMessage. destruct (rpc_Params req ≫= _) as [params|]; [|serves Hts].
  destruct (SanitizeMessage _); [serves Hts|]. destruct (HasScope _ _); [|serves Hts].
  apply limits_bind; [unfold find_task; serves Hts | intros [task|]]; [case_match|];
    auto using limits_new_task, limits_resume_task.
Qed.

Lemma limits_rpc ctx body : limits service_status (handleJSONRPC s ctx body).
Proof using Type*.
  unfold handleJSONRPC. destruct (body ≫= _) as [req|]; [|serves Hts]. case_match; [|serves Hts].
  case_match; [apply limits_send|]. case_match; [unfold handleGetTaskRPC; serves Hts|].
  case_match; [unfold handleCreatePushConfig; serves Hts | serves Hts].
Qed.

Lemma limits_replay ctx id : limits service_status (handleReplayFrom s ctx id).
Proof using Type*. unfold handleReplayFrom, debug_only. serves Hts. Qed.

Lemma limits_middleware ctx hdr next :
  (forall ctx, limits service_status (next ctx)) -> limits service_status (Middleware parse_token s ctx hdr next).
Proof using Type*. intros Hn. unfold Middleware. serves Hts. apply Hn. Qed.

Lemma limits_serve ctx hdr r :
  limits service_status (handle_route parse_token sort_Slice Sprintf_v s ctx hdr r).
Proof using Type*.
  destruct r; cbn [handle_route]; [unfold handleAgentCard; serves Hts | apply limits_middleware; intros ctx'..].
  - apply limits_rpc.
  - unfold handleGetTask. serves Hts.
  - unfold handleCancelTask. serves Hts.
  - unfold handleGetTimeline, debug_only. serves Hts.
  - unfold handleDiffCheckpoints, debug_only. serves Hts.
  - apply limits_replay.
Qed.
End serve.

(** ** The running service *)

Section system.
Context {E : Type} `{!Has (list TaskState) E} `{!Has AuditLog E}.
Context (parse_token : string -> Z -> string -> option Claims).
Context (sort_Slice : list StateSnapshot -> list StateSnapshot) (Sprintf_v : any -> string).

(** What may happen to the service, one thing after the other: a request over
    HTTP or gRPC, a run of the engine, a run that goes on. Any session may be run
    from any state, in particular the jobs the handlers return. *)
Inductive happens (s : Server E) : World E -> World E -> Prop :=
  | a_request ctx hdr r w :
      happens s w (handle_route parse_token sort_Slice Sprintf_v s ctx hdr r w).2
  | a_call ctx taskId contextId msg w :
      happens s w (Grpc_SendMessage ctx taskId contextId msg w).2
  | a_query ctx taskId w : happens s w (Grpc_GetTask s ctx taskId w).2
  | a_start fuel ctx sid init w : happens s w (Start fuel (sv_engine s) ctx sid init w).2
  | a_resume fuel ctx sid injection w : happens s w (Resume fuel (sv_engine s) ctx sid injection w).2.

(** A task is submitted, works, or has failed. *)
Definition unfinished (st : TaskState) : Prop := st ∈ [TaskStateSubmitted; TaskStateWorking; TaskStateFailed].

Definition grows (w w' : World E) : Prop := exists sts, told w' = told w ++ sts /\ Forall unfinished sts.

#[export] Instance grows_preorder : PreOrder grows.
Proof.
  split; [intros w; exists []; by rewrite app_nil_r|]. intros w1 w2 w3 (a & Ha & Fa) (b & Hb & Fb).
  exists (a ++ b). rewrite Hb, Ha, app_assoc. split; [done | by apply Forall_app].
Qed.

Lemma writes_grows (allowed : TaskState -> Prop) {A} (P : A -> World E -> Prop) (m : M E A) w :
  (forall st, allowed st -> unfinished st) -> writes allowed P m w -> grows w (m w).2.
Proof. intros Ha (sts & Ht & Hs & _). exists sts. split; [done | by eapply Forall_impl]. Qed.

Lemma engine_unfinished st : engine_status st -> unfinished st.
Proof. intros [-> | ->]; unfold unfinished; set_solver. Qed.

Lemma service_unfinished st : service_status st -> unfinished st.
Proof. intros [-> | ->]; unfold unfinished; set_solver. Qed.

Context (s : Server E) (ts : TaskStore E) `{!MuteStores s ts} `{!KeepsRunning (sv_engine s) ts}.
Context (Hs : sv_taskStore s = tap_tasks ts) (He : taskStore (sv_engine s) = Some (tap_tasks ts)).

Lemma limits_grpc_send ctx taskId contextId msg :
  limits service_status (Grpc_SendMessage (E := E) ctx taskId contextId msg).
Proof using Type*. unfold Grpc_SendMessage. serves Hs. Qed.

Lemma limits_grpc_get ctx taskId : limits service_status (Grpc_GetTask s ctx taskId).
Proof using Type*. unfold Grpc_GetTask. serves Hs. Qed.

Lemma happens_grows w w' : happens s w w' -> grows w w'.
Proof using Type*.
  intros [].
  - eapply writes_grows; [exact service_unfinished | by eapply limits_serve].
  - eapply writes_grows; [exact service_unfinished | apply limits_grpc_send].
  - eapply writes_grows; [exact service_unfinished | apply limits_grpc_get].
  - eapply writes_grows; [exact engine_unfinished | by eapply writes_Start].
  - eapply writes_grows; [exact engine_unfinished | by eapply writes_Resume].
Qed.
End system.

(** ** Lemmas: what the store reads *)

Lemma find_task_read {E} `{!Has (list TaskState) E} `{!Has AuditLog E} (s : Server E) (ts : TaskStore E) ctx id t (w w' : World E) :
  sv_taskStore s = tap_tasks ts -> find_task s ctx id w = (Ret (Some t), w') ->
  exists err, tks_GetByID ts ctx id w = (Ret (Some t, err), w').
Proof.
  intros Hs. unfold find_task. case_bool_decide; [done|]. rewrite Hs. cbn [tap_tasks tks_GetByID].
  unfold bind. destruct (tks_GetByID ts ctx id w) as [[[r err]|v|] w1]; [|done..]. intros [= -> ->]. by exists err.
Qed.

Lemma run_worked {E} `{!Has (list TaskState) E} (m : M E (option loc * option error)) (w w' : World E) l st err :
  writes engine_status (fun r w' => worked w w' \/ stopped r w') m w -> m w = (Ret (Some l, err), w') ->
  w_heap w' !! l = Some st -> Status st = StatusCompleted ->
  exists sts, told w' = told w ++ sts /\ forall x, x ∈ sts -> x = TaskStateWorking.
Proof.
  intros (sts & _ & _ & HP) Hm Hl Hst. rewrite Hm in HP. cbn [fst snd] in HP.
  destruct HP as [(sts' & Ht & Hw)|(l' & s' & [= <-] & Hl' & Hs')]; [|congruence].
  exists sts'. split; [done|]. by apply Forall_forall.
Qed.

(** ** Properties *)

(** C7: no task is ever completed. Whatever the handlers of the service are asked
    over HTTP and gRPC - the event stream and the metrics, which have no task store,
    aside - and whatever runs are started and resumed, in any order and number, the
    task store they share is only ever told that a task is submitted, works or has
    failed, as long as no node changes the status of the state it is handed or hands
    back one that is not running, and hooks, routers, stores and the bus change the
    status of no state and tell the task store nothing themselves. A run
    that ends with its state completed has told the store of work and of nothing
    else, so the task stays at work. When the store was not told before that a task
    waits for input, and hands out tasks with statuses it was told, then message/send
    never finds a task that waits, and its branch that resumes one is not reached. *)
Theorem tasks_never_complete {E} `{!Has (list TaskState) E} `{!Has AuditLog E} parse_token sort_Slice Sprintf_v
    (s : Server E) (ts : TaskStore E) w w' :
  MuteStores s ts -> KeepsRunning (sv_engine s) ts ->
  sv_taskStore s = tap_tasks ts -> taskStore (sv_engine s) = Some (tap_tasks ts) ->
  rtc (happens parse_token sort_Slice Sprintf_v s) w w' ->
  (exists sts, told w' = told w ++ sts /\
    forall st, st ∈ sts -> st = TaskStateSubmitted \/ st = TaskStateWorking \/ st = TaskStateFailed) /\
  (forall fuel ctx sid init injection l st err w1,
     Start fuel (sv_engine s) ctx sid init w' = (Ret (Some l, err), w1) \/
     Resume fuel (sv_engine s) ctx sid injection w' = (Ret (Some l, err), w1) ->
     w_heap w1 !! l = Some st -> Status st = StatusCompleted ->
     exists sts, told w1 = told w' ++ sts /\ forall x, x ∈ sts -> x = TaskStateWorking) /\
  ((TaskStateInputRequired ∉ told w) ->
   (forall ctx id t err w1, tks_GetByID ts ctx id w' = (Ret (Some t, err), w1) -> ts_State (task_Status t) ∈ told w') ->
   forall ctx id t w1, find_task s ctx id w' = (Ret (Some t), w1) ->
     ts_State (task_Status t) <> TaskStateInputRequired).
Proof.
  intros Hm Hk Hs He Hr. assert (Hg : grows w w').
  { induction Hr as [|w1 w2 w3 H1 _ IH]; [done|]. etransitivity; [by eapply happens_grows | exact IH]. }
  destruct Hg as (sts & Ht & Hsts). rewrite Forall_forall in Hsts. split_and!.
  - exists sts. split; [done|]. intros st Hst. specialize (Hsts st Hst). unfold unfinished in Hsts. set_solver.
  - intros fuel ctx sid init injection l st err w1 [Hrun|Hrun] Hl Hst.
    + by eapply run_worked; [apply (writes_Start (sv_engine s) ts He) | exact Hrun | exact Hl |].
    + by eapply run_worked; [apply (writes_Resume (sv_engine s) ts He) | exact Hrun | exact Hl |].
  - intros Hno Hread ctx id t w1 Hf Hst. destruct (find_task_read s ts ctx id t w' w1 Hs Hf) as [err Hget].
    apply Hread in Hget. rewrite Hst, Ht, elem_of_app in Hget. destruct Hget as [?|Hin]; [done|].
    specialize (Hsts _ Hin). unfold unfinished in Hsts. set_solver.
Qed.

(** ** Witnesses *)

Definition life_ext : Type := list TaskState * AuditLog.

#[local] Instance life_statuses : Has (list TaskState) life_ext := Has_fst _ _.

#[local] Instance life_log : Has AuditLog life_ext := Has_snd _ _.

(** A graph of one node, which hands its state on and is terminal. *)
Definition working_node : Node life_ext :=
  mkNode "work" (fun _ l => ret (Some (mkNodeResult (Some l) [] None), None)).

Definition working_graph : Graph.Graph life_ext :=
  Graph.mkGraph {["work" := working_node]} [] "work" {["work" := true]}.

(** A store that reads the last status it was told. *)
Definition last_task (id : string) (st : TaskState) : Task :=
  mkTask id "" "" (mkTaskStatus st 0%Z "") [] [] [] [] 0%Z 0%Z.

Definition blank_tasks : TaskStore life_ext :=
  mkTaskStore (fun _ _ => ret None) (fun _ id w => (Ret (last_task id <$> last (told w), None), w)) (fun _ _ _ => ret None)
    (fun _ _ _ => ret None) (fun _ _ _ => ret None) (fun _ _ _ => ret None) (fun _ _ => ret ([], None))
    (fun _ _ _ _ => ret ([], "", None)).

Definition blank_memory : MemoryStore life_ext :=
  mkMemoryStore (fun _ _ _ => ret ("", None)) (fun _ _ => ret (None, Some ErrNoNextNode))
    (fun _ _ => ret (None, Some ErrNoNextNode)) (fun _ _ => ret ([], None)) (fun _ _ _ => ret None)
    (fun _ _ _ _ => ret ([], None)).

Definition life_engine : Engine life_ext :=
  NewEngine (Some working_graph) blank_memory None [WithTaskStore (tap_tasks blank_tasks)].

Definition life_server : Server life_ext :=
  NewServer life_engine (tap_tasks blank_tasks) blank_memory [] None (mkServerOptions "demo" "" "1" "" "secret") true.

Definition life_world : World life_ext := mkWorld [] demo_oracle ([], NewAuditLog).

#[local] Instance life_mute : MuteStores life_server blank_tasks.
Proof. split; try (intros; by intros w). intros tenant sid typ text w. unfold LogViolation, log, told, bind, get. cbn. by case_match. Qed.

#[local] Instance life_running : KeepsRunning life_engine blank_tasks.
Proof.
  split; try (intros; apply still_ret); try done.
  - intros g id n ctx l w [= <-] Hn Hl. simpl in Hn. apply lookup_singleton_Some in Hn as [_ <-].
    apply writes_ret. split; [done|]. by intros res l' [= <-] [= <-].
  - intros h p meta H. by apply elem_of_nil in H.
  - intros g edge r ctx l [= <-] H. by apply elem_of_nil in H.
Qed.

(** The world after the request and the one after its run. *)
Definition life_asked : World life_ext :=
  (handle_route demo_parse (fun l => l) (fun _ => "") life_server Background "Bearer tok"
    (RJSONRPC (Some (demo_send "t1" "hello"))) life_world).2.

Definition life_done : World life_ext := (Start 3 (sv_engine life_server) Background "t1" (Some 1) life_asked).2.

Lemma blank_reads (w : World life_ext) ctx id t err w1 :
  tks_GetByID blank_tasks ctx id w = (Ret (Some t, err), w1) -> ts_State (task_Status t) ∈ told w.
Proof.
  cbn [blank_tasks tks_GetByID]. destruct (last (told w)) as [st|] eqn:Hl; [|done]. intros [= <- _ _].
  apply last_Some in Hl as [l' ->]. cbn. apply elem_of_app. right. by left.
Qed.

(** The session is completed, the task it ran for is not, and a message to it does
    not find it waiting. *)
Lemma tasks_never_complete_witness :
  told life_done = [TaskStateSubmitted; TaskStateWorking] /\
  Status <$> last (w_heap life_done) = Some StatusCompleted /\
  (forall l st err w1, Start 3 (sv_engine life_server) Background "t1" (Some 1) life_asked = (Ret (Some l, err), w1) ->
     w_heap w1 !! l = Some st -> Status st = StatusCompleted ->
     exists sts, told w1 = told life_asked ++ sts /\ forall x, x ∈ sts -> x = TaskStateWorking) /\
  forall t w1, find_task life_server Background "t1" life_done = (Ret (Some t), w1) ->
    ts_State (task_Status t) <> TaskStateInputRequired.
Proof.
  split; [vm_compute; reflexivity|]. split; [vm_compute; reflexivity|].
  assert (H1 : rtc (happens demo_parse (fun l => l) (fun _ => "") life_server) life_world life_asked) by apply rtc_once, a_request.
  split.
  - intros l st err w1 Hrun.
    exact (proj1 (proj2 (tasks_never_complete demo_parse (fun l => l) (fun _ => "") life_server blank_tasks life_world life_asked
      life_mute life_running eq_refl eq_refl H1)) 3 Background "t1" (Some 1) [] l st err w1 (or_introl Hrun)).
  - refine (proj2 (proj2 (tasks_never_complete demo_parse (fun l => l) (fun _ => "") life_server blank_tasks life_world life_done
      life_mute life_running eq_refl eq_refl (rtc_r _ _ _ H1 (a_start _ _ _ _ 3 Background "t1" (Some 1) life_asked)))) _ _ Background "t1").
    + by intros ?%elem_of_nil.
    + apply blank_reads.
Defined.
