(* ===== verification/Webhook.v ===== *)
(** * a2a/webhook.go: events pushed to webhooks

    The dispatcher listens to the bus; its handler starts [dispatch] in a
    goroutine, which is run here at once. The HTTP client and the keyed hash are
    parameters: [http_post] sends a request and answers its status or an error
    (an address that does not parse is such an error), [hmac_hex] is the
    hexadecimal HMAC-SHA256 of a payload under a secret. *)

From S2P Require Import Prelude GoLang Core Json World Interfaces Memory Graph Resilience Engine.
From stdpp Require Import base gmap strings list.

#[local] Open Scope go_scope.

(** ** Requests *)

(** The headers by canonical key. *)
Record OutRequest := mkOutRequest {
  out_URL : string;
  out_Headers : list (string * string);
  out_Body : option json;
}.

(** The bytes a header name may have. *)
Definition token_byte (c : Ascii.ascii) : bool :=
  let n := Ascii.nat_of_ascii c in
  (Nat.leb 48 n && Nat.leb n 57) || (Nat.leb 65 n && Nat.leb n 90) || (Nat.leb 97 n && Nat.leb n 122)
  || existsb (Nat.eqb n) [33; 35; 36; 37; 38; 39; 42; 43; 45; 46; 94; 95; 96; 124; 126].

Fixpoint canonical_bytes (upper : bool) (s : string) : string :=
  match s with
  | EmptyString => ""
  | String c s' =>
      let n := Ascii.nat_of_ascii c in
      let n' := if upper && Nat.leb 97 n && Nat.leb n 122 then n - 32
                else if negb upper && Nat.leb 65 n && Nat.leb n 90 then n + 32 else n in
      String (Ascii.ascii_of_nat n') (canonical_bytes (Nat.eqb n 45) s')
  end.

(** [textproto.CanonicalMIMEHeaderKey]. *)
Definition canonical_key (s : string) : string :=
  if all_bytes token_byte s then canonical_bytes true s else s.

(** [req.Header.Set]. *)
Definition set_header (h : list (string * string)) (kv : string * string) : list (string * string) :=
  aset (canonical_key kv.1) kv.2 h.

(** [time.Sleep]. *)
Definition sleep {E} (d : Duration) : M E unit := fun w => (Ret tt, set_orc (log_sleep d (w_orc w)) w).

(** [json.Marshal] of an event, which has no tags. *)
Definition marshal_Event (plan_json : nat -> option json) (ev : Event) : option json :=
  match marshal_amap plan_json (ev_Payload ev) with
  | Some p => Some (JObj [("Type", JString (ev_Type ev)); ("SessionID", JString (ev_SessionID ev));
                          ("TaskID", JString (ev_TaskID ev)); ("Payload", p);
                          ("Timestamp", JTime (ev_Timestamp ev))])
  | None => None
  end.

(** ** The dispatcher *)

Section dispatcher.
Context {E : Type} `{!PlanDocs E}.
Context (hmac_hex : option json -> string -> string) (http_post : OutRequest -> M E (Z + error)).

Record WebhookDispatcher := mkWebhookDispatcher {
  wd_taskStore : TaskStore E;
  wd_bus : EventBus E;
}.

Definition webhook_points : list EventType := [EventAgentPaused; EventTaskCompleted; EventNodeCompleted].

(** The loop of [Start] over the events; [handler] names the handler. *)
Fixpoint subscribe_all (d : WebhookDispatcher) (handler : EventHandler) (points : list EventType) :
    M E (option error) :=
  match points with
  | [] => ret None
  | p :: rest =>
      let* (_, err) := bus_Subscribe (wd_bus d) p handler in
      match err with
      | Some e => ret (Some e)
      | None => subscribe_all d handler rest
      end
  end.

Definition Dispatcher_Start (d : WebhookDispatcher) (handler : EventHandler) : M E (option error) :=
  subscribe_all d handler webhook_points.

(** The request of [send]; [cfg.Headers] in the order of the loop over it. *)
Definition webhook_request (cfg : WebhookConfig) (payload : option json) : OutRequest :=
  let h := foldl set_header []
             ([("Content-Type", "application/json"); ("X-A2A-Event", "fluxgraph")] ++ wh_Headers cfg) in
  let h := if bool_decide (wh_Secret cfg = "") then h
           else set_header h ("X-A2A-Signature", hmac_hex payload (wh_Secret cfg)) in
  mkOutRequest (wh_URL cfg) h payload.

Definition send (cfg : WebhookConfig) (payload : option json) : M E (option error) :=
  resp <- http_post (webhook_request cfg payload) ;;
  match resp with
  | inr err => ret (Some err)
  | inl status =>
      ret (if (400 <=? status)%Z then Some (ErrNew ("webhook failed with status " +:+ itoa status))
           else None)
  end.

(** The loop of [sendWithRetry] from the attempt [i] on; [n] attempts are left. *)
Fixpoint send_loop (n : nat) (i : Z) (cfg : WebhookConfig) (payload : option json) : M E unit :=
  match n with
  | O => ret tt
  | S n' =>
      err <- send cfg payload ;;
      match err with
      | None => ret tt
      | Some _ => sleep ((i + 1) * Second)%Z ;; send_loop n' (i + 1)%Z cfg payload
      end
  end.

Definition sendWithRetry (cfg : WebhookConfig) (payload : option json) : M E unit :=
  send_loop 3 0 cfg payload.

(** The filter on the type of the event. *)
Definition wants (ev : Event) (cfg : WebhookConfig) : bool :=
  match wh_EventTypes cfg with
  | [] => true
  | types => existsb (fun t => bool_decide (t = ev_Type ev)) types
  end.

Definition dispatch (d : WebhookDispatcher) (ev : Event) : M E unit :=
  if bool_decide (ev_TaskID ev = "") then ret tt
  else
    let* (task, err) := tks_GetByID (wd_taskStore d) Background (ev_TaskID ev) in
    match err with
    | Some _ => ret tt
    | None =>
        task <- deref task ;;
        match task_Webhooks task with
        | [] => ret tt
        | webhooks =>
            fun w => for_each (fun cfg =>
                if wants ev cfg then sendWithRetry cfg (marshal_Event (plan_doc (w_ext w)) ev)
                else ret tt) webhooks w
        end
    end.
End dispatcher.

Arguments WebhookDispatcher E : clear implicits.
Arguments mkWebhookDispatcher {E}.

(** ** Reference definitions *)

(** [n] deliveries in a row from [w] to [w'], all but possibly the last one
    failed; [slept] are the waits and [ok] says whether the last one succeeded. *)
Inductive deliveries {E} (http_post : OutRequest -> M E (Z + error)) (req : OutRequest) :
    Z -> World E -> nat -> bool -> World E -> Prop :=
  | deliver_ok i w status w' :
      http_post req w = (Ret (inl status), w') -> (status < 400)%Z ->
      deliveries http_post req i w 1 true w'
  | deliver_failed i w resp w' :
      http_post req w = (Ret resp, w') ->
      match resp with inl status => (400 <= status)%Z | inr _ => True end ->
      deliveries http_post req i w 1 false (set_orc (log_sleep ((i + 1) * Second)%Z (w_orc w')) w')
  | deliver_again i w resp w1 n ok w' :
      http_post req w = (Ret resp, w1) ->
      match resp with inl status => (400 <= status)%Z | inr _ => True end ->
      deliveries http_post req (i + 1)%Z
        (set_orc (log_sleep ((i + 1) * Second)%Z (w_orc w1)) w1) n ok w' ->
      deliveries http_post req i w (S n) ok w'.

(** ** Lemmas *)

Section lemmas.
Context {E : Type} `{!PlanDocs E}.
Context (hmac_hex : option json -> string -> string) (http_post : OutRequest -> M E (Z + error)).
Implicit Types w : World E.

Lemma send_ok cfg payload w resp w' :
  http_post (webhook_request hmac_hex cfg payload) w = (Ret resp, w') ->
  exists err, send hmac_hex http_post cfg payload w = (Ret err, w') /\
    match resp with
    | inl status => err = None <-> (status < 400)%Z
    | inr _ => err <> None
    end.
Proof.
  intros Hp. unfold send. rewrite (bind_Ret _ _ _ _ _ Hp). destruct resp as [status|e].
  - eexists. split; [reflexivity|]. destruct (400 <=? status)%Z eqn:Hs; split; intros; try done; lia.
  - by eexists.
Qed.

Lemma send_loop_ok n i cfg payload w :
  (forall w, exists resp w', http_post (webhook_request hmac_hex cfg payload) w = (Ret resp, w')) ->
  exists k ok w', send_loop hmac_hex http_post (S n) i cfg payload w = (Ret tt, w') /\
    deliveries http_post (webhook_request hmac_hex cfg payload) i w k ok w' /\
    k <= S n /\ (ok = false -> k = S n).
Proof.
  intros Hret. revert i w. induction n as [|n IH]; intros i w;
    destruct (Hret w) as (resp & w1 & Hp); destruct (send_ok _ _ _ _ _ Hp) as (err & Hs & Herr).
  - cbn [send_loop]. rewrite (bind_Ret _ _ _ _ _ Hs). destruct err as [e|].
    + eexists 1, false, _. split; [reflexivity|]. split; [|split; [lia | done]].
      eapply deliver_failed; [exact Hp|]. destruct resp; [|done].
      destruct (decide (z < 400)%Z); [naive_solver | lia].
    + eexists 1, true, _. split; [reflexivity|]. split; [|split; [lia | done]].
      destruct resp as [z|]; [|done]. eapply deliver_ok; [exact Hp | naive_solver].
  - cbn [send_loop]. rewrite (bind_Ret _ _ _ _ _ Hs). destruct err as [e|].
    + destruct (IH (i + 1)%Z (set_orc (log_sleep ((i + 1) * Second)%Z (w_orc w1)) w1))
        as (k & ok & w' & Hrun & Hd & Hk & Hok).
      eexists (S k), ok, w'. split; [exact Hrun|]. split; [|split; [lia | intros ?; rewrite Hok by done; done]].
      eapply deliver_again; [exact Hp | | exact Hd]. destruct resp; [|done].
      destruct (decide (z < 400)%Z); [naive_solver | lia].
    + eexists 1, true, _. split; [reflexivity|]. split; [|split; [lia | done]].
      destruct resp as [z|]; [|done]. eapply deliver_ok; [exact Hp | naive_solver].
Qed.

Lemma for_each_filter {A} (p : A -> bool) (f : A -> M E unit) (l : list A) w :
  for_each (fun x => if p x then f x else ret tt) l w = for_each f (base.filter (fun x => p x = true) l) w.
Proof.
  revert w. induction l as [|x l IH]; intros w; [done|]. cbn [for_each].
  destruct (p x) eqn:Hp.
  - rewrite filter_cons_True by done. cbn [for_each]. unfold bind. by destruct (f x w) as [[] ?].
  - rewrite filter_cons_False by congruence. rewrite (bind_Ret _ _ tt w w) by done. apply IH.
Qed.

(** A dispatch without a task does nothing. *)
Lemma dispatch_no_task d ev w :
  ev_TaskID ev = "" -> dispatch hmac_hex http_post d ev w = (Ret tt, w).
Proof. intros H. unfold dispatch. by rewrite bool_decide_eq_true_2. Qed.

Lemma for_each_idle {A} (f : A -> M E unit) (l : list A) w :
  (forall x, f x w = (Ret tt, w)) -> for_each f l w = (Ret tt, w).
Proof. intros Hf. induction l as [|x l IH]; [done|]. cbn [for_each]. by rewrite (bind_Ret _ _ _ _ _ (Hf x)). Qed.
End lemmas.

(** ** Properties *)

(** C29: what an event sends. For an event of a task that the store finds with the
    background context, the request goes, in order, to each webhook of the task
    that lists the type of the event or lists none, and to no other; to each it
    is posted at least once and at most three times, again after a status of 400
    or more or an error, after waits of one, two and three seconds, until one
    succeeds. *)
Theorem dispatch_delivers {E} `{!PlanDocs E} (hmac_hex : option json -> string -> string)
    (http_post : OutRequest -> M E (Z + error)) (d : WebhookDispatcher E) (ev : Event) (task : Task)
    (w w1 : World E) :
  ev_TaskID ev <> "" ->
  tks_GetByID (wd_taskStore d) Background (ev_TaskID ev) w = (Ret (Some task, None), w1) ->
  (forall req w, exists resp w', http_post req w = (Ret resp, w')) ->
  let payload := marshal_Event (plan_doc (w_ext w1)) ev in
  dispatch hmac_hex http_post d ev w =
    for_each (fun cfg => sendWithRetry hmac_hex http_post cfg payload)
      (base.filter (fun cfg => wh_EventTypes cfg = [] \/ ev_Type ev ∈ wh_EventTypes cfg)
         (task_Webhooks task)) w1 /\
  forall cfg w2, exists k ok w3,
    sendWithRetry hmac_hex http_post cfg payload w2 = (Ret tt, w3) /\
    deliveries http_post (webhook_request hmac_hex cfg payload) 0 w2 k ok w3 /\
    k <= 3 /\ (ok = false -> k = 3).
Proof.
  intros Hid Hget Hret payload. split.
  - unfold dispatch. rewrite bool_decide_eq_false_2 by done. rewrite (bind_Ret _ _ _ _ _ Hget).
    rewrite (bind_Ret (deref (Some task)) _ task w1 w1) by done.
    assert (Hf : base.filter (fun cfg => wh_EventTypes cfg = [] \/ ev_Type ev ∈ wh_EventTypes cfg)
      (task_Webhooks task) = base.filter (fun cfg => wants ev cfg = true) (task_Webhooks task)).
    { apply list_filter_iff. intros cfg. unfold wants. destruct (wh_EventTypes cfg) as [|t ts]; [naive_solver|].
      rewrite existsb_exists. setoid_rewrite bool_decide_eq_true. setoid_rewrite <- list_elem_of_In. naive_solver. }
    rewrite Hf, <- for_each_filter. by destruct (task_Webhooks task).
  - intros cfg w2. apply send_loop_ok. intros w3. apply Hret.
Qed.

(** A pause is never pushed. The event the engine publishes when a session
    pauses names the session but no task, and the dispatcher ignores an event
    without a task: with the dispatcher behind every subscription of the bus, the
    publication changes nothing and sends nothing. *)
Theorem pause_never_pushed {E} `{!PlanDocs E} `{!Has InMemoryEventBus E}
    (hmac_hex : option json -> string -> string) (http_post : OutRequest -> M E (Z + error))
    (d : WebhookDispatcher E) (range : forall A, list (string * A) -> list (string * A))
    (e : Engine E) (sid : string) (p : amap) (w : World E) :
  eventBus e = Some (InMemoryBus (fun _ ev => dispatch hmac_hex http_post d ev) range) ->
  publish_paused e sid (ret p) w = (Ret tt, w).
Proof.
  intros Hb. unfold publish_paused. rewrite Hb. rewrite (bind_Ret (ret p) _ p w w) by done.
  cbn [InMemoryBus bus_Publish]. rewrite (bind_Ret _ _ None w w); [done|]. unfold Publish.
  rewrite (bind_Ret get _ (get_of (w_ext w)) w w) by done. case_match; [|done].
  rewrite (bind_Ret _ _ tt w w); [done|]. apply for_each_idle. intros h. by apply dispatch_no_task.
Qed.

(** ** Witnesses *)

Definition demo_hook_cfg (id : string) (types : list string) : WebhookConfig :=
  mkWebhookConfig id ("http://" +:+ id) "k" types [("content-type", "text/plain")].

Definition demo_hooked : Task :=
  mkTask "t1" "" "" (mkTaskStatus TaskStateWorking 0%Z "") [] []
    [demo_hook_cfg "a" []; demo_hook_cfg "b" ["NodeCompleted"]; demo_hook_cfg "c" ["TaskCompleted"]] [] 0%Z 0%Z.

(** A task store that knows one task. *)
Definition one_task {E} (t : Task) : TaskStore E :=
  mkTaskStore (fun _ _ => ret None)
    (fun _ id => if bool_decide (id = task_ID t) then ret (Some t, None) else ret (None, Some (ErrNew "no task")))
    (fun _ _ _ => ret None) (fun _ _ _ => ret None) (fun _ _ _ => ret None) (fun _ _ _ => ret None)
    (fun _ _ => ret ([], None)) (fun _ _ _ _ => ret ([], "", None)).

(** A server that records the addresses and answers [status]. *)
Definition demo_post (status : Z) (req : OutRequest) : M (list string) (Z + error) := fun w =>
  (Ret (inl status), set_ext (w_ext w ++ [out_URL req]) w).

Definition demo_dispatcher : WebhookDispatcher (list string) :=
  mkWebhookDispatcher (one_task demo_hooked)
    (mkEventBus (fun _ => ret None) (fun _ _ => ret ("", None)) (fun _ => ret None)).

Definition demo_event : Event := mkEvent EventTaskCompleted "s" "t1" [] 0%Z.

Definition hook_world : World (list string) := mkWorld [] demo_oracle [].

Lemma dispatch_delivers_witness :
  w_ext (dispatch (fun _ s => s) (demo_post 500) demo_dispatcher demo_event hook_world).2
    = ["http://a"; "http://a"; "http://a"; "http://c"; "http://c"; "http://c"] /\
  dispatch (fun _ s => s) (demo_post 500) demo_dispatcher demo_event hook_world =
    for_each (fun cfg => sendWithRetry (fun _ s => s) (demo_post 500) cfg
        (marshal_Event (plan_doc (w_ext hook_world)) demo_event))
      [demo_hook_cfg "a" []; demo_hook_cfg "c" ["TaskCompleted"]] hook_world.
Proof.
  split; [vm_compute; reflexivity|].
  apply (proj1 (dispatch_delivers (fun _ s => s) (demo_post 500) demo_dispatcher demo_event demo_hooked
    hook_world hook_world ltac:(discriminate) eq_refl (fun req w => ex_intro _ _ (ex_intro _ _ eq_refl)))).
Defined.

Definition demo_bus_ext : Type := InMemoryEventBus * list string.

#[local] Instance demo_bus_part : Has InMemoryEventBus demo_bus_ext := Has_fst _ _.

Definition demo_pushing : Engine demo_bus_ext :=
  NewEngine (Some (mkGraph ∅ [] "" ∅))
    (mkMemoryStore (fun _ _ _ => ret ("", None)) (fun _ _ => ret (None, None)) (fun _ _ => ret (None, None))
       (fun _ _ => ret ([], None)) (fun _ _ _ => ret None) (fun _ _ _ _ => ret ([], None)))
    (Some (InMemoryBus (fun _ ev => dispatch (fun _ s => s) (fun _ => ret (inl 200%Z))
             (mkWebhookDispatcher (one_task demo_hooked)
                (mkEventBus (fun _ => ret None) (fun _ _ => ret ("", None)) (fun _ => ret None))) ev)
       (fun _ l => l))) [].

Definition demo_bus_ready : World demo_bus_ext :=
  mkWorld [] demo_oracle
    (mkInMemoryEventBus {[EventAgentPaused := {["id" := "webhook"]}]}, []).

Lemma pause_never_pushed_witness :
  publish_paused demo_pushing "s" (ret []) demo_bus_ready = (Ret tt, demo_bus_ready).
Proof.
  apply (pause_never_pushed (fun _ s => s) (fun _ => ret (inl 200%Z))
    (mkWebhookDispatcher (one_task demo_hooked)
       (mkEventBus (fun _ => ret None) (fun _ _ => ret ("", None)) (fun _ => ret None)))
    (fun _ l => l) demo_pushing "s" [] demo_bus_ready eq_refl).
Defined.
