(* ===== verification/Sse.v ===== *)
(** * The stream of the events of a task: a2a/server.go and a2a/client.go

    The service writes the events of a task as server-sent events
    ([handleTaskEvents]); the client of another agent reads them line by line
    ([StreamEvents]). The text of a JSON value is the library's: [print] and
    [parse] are parameters. What the handler finds in its [select] - the end of
    the request, the ticker, an event of the channel - is a list of inputs. The
    client's own cancellation is not modelled. *)

From S2P Require Import Prelude GoLang Core Json World Interfaces Security Webhook.
From stdpp Require Import base gmap strings list.
From Stdlib Require Import Ascii.

#[local] Open Scope string_scope.

(** ** The wire form of an event *)

Definition dec_Event (j : json) : option Event :=
  match j with
  | JNull => Some (mkEvent "" "" "" [] zero_Time)
  | JObj m =>
      match field "" dec_string "Type" m, field "" dec_string "SessionID" m,
            field "" dec_string "TaskID" m, field [] dec_amap "Payload" m,
            field zero_Time dec_time "Timestamp" m with
      | Some ty, Some s, Some t, Some p, Some ts => Some (mkEvent ty s t p ts)
      | _, _, _, _, _ => None
      end
  | _ => None
  end.

(** An event as the other side reads it. *)
Definition norm_Event (plan_json : nat -> option json) (ev : Event) : Event :=
  mkEvent (ev_Type ev) (ev_SessionID ev) (ev_TaskID ev) (norm_amap plan_json (ev_Payload ev))
    (ev_Timestamp ev).

(** ** handleTaskEvents *)

(** The test of the handler the service subscribes. *)
Definition concerns (taskID : string) (ev : Event) : bool :=
  bool_decide (ev_TaskID ev = taskID) || bool_decide (ev_SessionID ev = taskID).

Inductive sse_input :=
  | SDone
  | STick
  | SEvent (ev : Event).

Section server.
Context (plan_json : nat -> option json) (print : json -> string).

(** [data, _ := json.Marshal(ev)]. *)
Definition event_text (ev : Event) : string :=
  match marshal_Event plan_json ev with Some j => print j | None => "" end.

Definition frame (ev : Event) : string :=
  "event: " +:+ ev_Type ev +:+ lf +:+ "data: " +:+ event_text ev +:+ lf +:+ lf.

Definition keep_alive : string := ": keep-alive" +:+ lf +:+ lf.

(** What the loop of [handleTaskEvents] writes. *)
Fixpoint handleTaskEvents (inputs : list sse_input) : string :=
  match inputs with
  | [] => ""
  | SDone :: _ => ""
  | STick :: rest => keep_alive +:+ handleTaskEvents rest
  | SEvent ev :: rest =>
      frame ev +:+ (if bool_decide (ev_Type ev = EventTaskCompleted) then "" else handleTaskEvents rest)
  end.
End server.

(** ** StreamEvents *)

(** The encodings of the white space of Unicode. *)
Definition spaces : list string :=
  [byte 9; byte 10; byte 11; byte 12; byte 13; byte 32; byte 194 +:+ byte 133; byte 194 +:+ byte 160;
   byte 225 +:+ byte 154 +:+ byte 128]
  ++ ((fun n => byte 226 +:+ byte 128 +:+ byte n) <$> [128; 129; 130; 131; 132; 133; 134; 135; 136; 137; 138; 168; 169; 175])
  ++ [byte 226 +:+ byte 129 +:+ byte 159; byte 227 +:+ byte 128 +:+ byte 128].

Fixpoint trim_left (fuel : nat) (s : string) : string :=
  match fuel with
  | O => s
  | S f => match eat spaces s with Some s' => trim_left f s' | None => s end
  end.

Fixpoint eat_end (vs : list string) (s : string) : option string :=
  match vs with
  | [] => None
  | v :: vs' => if has_suffix s v then Some (trim_suffix s v) else eat_end vs' s
  end.

Fixpoint trim_right (fuel : nat) (s : string) : string :=
  match fuel with
  | O => s
  | S f => match eat_end spaces s with Some s' => trim_right f s' | None => s end
  end.

(** [strings.TrimSpace]: each round removes at least a byte. *)
Definition TrimSpace (s : string) : string :=
  let s := trim_left (String.length s) s in trim_right (String.length s) s.

(** The lines [ReadString] returns before the error at the end of the stream; an
    unfinished line is dropped. *)
Fixpoint split_lines (acc s : string) : list string :=
  match s with
  | EmptyString => []
  | String c s' =>
      if bool_decide (c = Ascii.ascii_of_nat 10) then acc :: split_lines "" s'
      else split_lines (acc +:+ String c "") s'
  end.

Section client.
Context (parse : string -> option json).

(** The events the goroutine sends to the channel. *)
Fixpoint read_events (ls : list string) : list Event :=
  match ls with
  | [] => []
  | l :: rest =>
      let line := TrimSpace l in
      if bool_decide (line = "") || has_prefix line ":" then read_events rest
      else if has_prefix line "data: " then
        match parse (trim_prefix line "data: ") ≫= dec_Event with
        | Some ev => ev :: (if bool_decide (ev_Type ev = EventTaskCompleted) then [] else read_events rest)
        | None => read_events rest
        end
      else read_events rest
  end.

Definition StreamEvents (body : string) : list Event := read_events (split_lines "" body).
End client.

(** ** Reference definitions *)

(** The events the loop gets to: up to the end of the request or the completion
    of the task. *)
Fixpoint delivered (inputs : list sse_input) : list Event :=
  match inputs with
  | [] => []
  | SDone :: _ => []
  | STick :: rest => delivered rest
  | SEvent ev :: rest =>
      ev :: (if bool_decide (ev_Type ev = EventTaskCompleted) then [] else delivered rest)
  end.

(** ** Lemmas *)

#[local] Arguments String.append !s1 s2 /.

Lemma dec_marshal_Event plan_json ev j :
  marshal_Event plan_json ev = Some j -> dec_Event j = Some (norm_Event plan_json ev).
Proof.
  unfold marshal_Event. destruct (marshal_amap plan_json (ev_Payload ev)) as [p|] eqn:Hp; [|done].
  intros [= <-]. destruct (marshal_amap_obj plan_json _ _ Hp) as [mo ->]. apply dec_marshal_amap in Hp.
  unfold dec_Event, field. cbn -[dec_amap]. by rewrite Hp.
Qed.

Lemma split_lines_line acc s rest :
  no_lf s = true -> split_lines acc (s +:+ lf +:+ rest) = (acc +:+ s) :: split_lines "" rest.
Proof.
  revert acc. induction s as [|c s IH]; intros acc H.
  - rewrite append_nil_r. change ("" +:+ lf +:+ rest) with (String (Ascii.ascii_of_nat 10) rest).
    cbn [split_lines]. by rewrite bool_decide_eq_true_2.
  - unfold no_lf in H. cbn [all_bytes] in H. apply andb_true_iff in H as [Hc H].
    apply negb_true_iff, bool_decide_eq_false in Hc.
    change (String c s +:+ lf +:+ rest) with (String c (s +:+ lf +:+ rest)). cbn [split_lines].
    rewrite bool_decide_eq_false_2 by done. rewrite IH by done. by rewrite append_assoc.
Qed.

Lemma split_empty_line rest : split_lines "" (lf +:+ rest) = "" :: split_lines "" rest.
Proof. exact (split_lines_line "" "" rest eq_refl). Qed.

(** A text that starts with a letter of the frames is not cut on the left. *)
Lemma eat_spaces_none c s : c ∈ ["e"; "d"; ":"]%char -> eat spaces (String c s) = None.
Proof.
  intros H. repeat (apply elem_of_cons in H as [->|H]; [reflexivity|]). by apply elem_of_nil in H.
Qed.

Lemma trim_left_id c s : c ∈ ["e"; "d"; ":"]%char ->
  trim_left (String.length (String c s)) (String c s) = String c s.
Proof. intros H. cbn [String.length trim_left]. by rewrite eat_spaces_none. Qed.

Lemma trim_suffix_prefix s v : has_suffix s v = true -> exists t, s = (trim_suffix s v +:+ t).
Proof. intros [t ->]%has_suffix_iff. exists v. by rewrite trim_suffix_append. Qed.

Lemma eat_end_prefix vs s s' : eat_end vs s = Some s' -> exists t, s = (s' +:+ t).
Proof.
  induction vs as [|v vs IH]; [done|]. cbn [eat_end]. destruct (has_suffix s v) eqn:Hs; [|done].
  intros [= <-]. by apply trim_suffix_prefix.
Qed.

Lemma trim_right_prefix n s : exists t, s = (trim_right n s +:+ t).
Proof.
  revert s. induction n as [|n IH]; intros s; cbn [trim_right]; [exists ""; by rewrite append_nil_r|].
  destruct (eat_end spaces s) as [s'|] eqn:He; [|exists ""; by rewrite append_nil_r].
  apply eat_end_prefix in He as [t Ht]. destruct (IH s') as [t' Ht'].
  exists (t' +:+ t). rewrite <- append_assoc, <- Ht'. done.
Qed.

Lemma eat_end_brace x : eat_end spaces (x +:+ "}") = None.
Proof.
  assert (Hl : Forall (fun v => String.length v <> 0 /\ drop_str (String.length v - 1) v <> "}" /\
    String.length (drop_str (String.length v - 1) v) = 1) spaces).
  { repeat constructor; vm_compute; discriminate. }
  induction spaces as [|v vs IH]; [done|]. apply Forall_cons in Hl as [(H0 & H1 & H2) Hl].
  cbn [eat_end]. destruct (has_suffix (x +:+ "}") v) eqn:Hs; [|by apply IH].
  exfalso. apply has_suffix_iff in Hs as [t Ht]. apply H1. symmetry.
  rewrite <- (take_drop_str (String.length v - 1) v), <- append_assoc in Ht.
  by apply append_ends in Ht.
Qed.

(** The lines of a frame that the client skips. *)
Lemma skipped_line parse c s rest :
  c ∈ ["e"; ":"]%char -> read_events parse (String c s :: rest) = read_events parse rest.
Proof.
  intros Hc. cbn [read_events]. unfold TrimSpace. rewrite trim_left_id by set_solver.
  destruct (trim_right_prefix (String.length (String c s)) (String c s)) as [t Ht].
  destruct (trim_right _ _) as [|a r]; [done|]. injection Ht as <- _.
  repeat (apply elem_of_cons in Hc as [->|Hc]; [by destruct r|]). by apply elem_of_nil in Hc.
Qed.

Lemma empty_line parse rest : read_events parse ("" :: rest) = read_events parse rest.
Proof. done. Qed.

(** The line of the data of an event. *)
Lemma data_line parse mid rest :
  read_events parse (("data: " +:+ "{" +:+ mid +:+ "}") :: rest) =
  match parse ("{" +:+ mid +:+ "}") ≫= dec_Event with
  | Some ev => ev :: (if bool_decide (ev_Type ev = EventTaskCompleted) then [] else read_events parse rest)
  | None => read_events parse rest
  end.
Proof.
  cbn [read_events]. assert (Ht : TrimSpace ("data: " +:+ "{" +:+ mid +:+ "}") = ("data: " +:+ "{" +:+ mid +:+ "}")).
  { unfold TrimSpace. change ("data: " +:+ "{" +:+ mid +:+ "}") with (String "d" ("ata: {" +:+ mid +:+ "}")).
    rewrite trim_left_id by set_solver. cbn [String.length trim_right].
    change (String "d" ("ata: {" +:+ mid +:+ "}")) with (("data: {" +:+ mid) +:+ "}").
    by rewrite eat_end_brace. }
  rewrite Ht. reflexivity.
Qed.

(** An event whose type is one line and whose document the JSON library prints on
    one line between braces and parses back. *)
Definition readable (plan_json : nat -> option json) (print : json -> string)
    (parse : string -> option json) (ev : Event) : Prop :=
  no_lf (ev_Type ev) = true /\
  exists j mid, marshal_Event plan_json ev = Some j /\ print j = ("{" +:+ mid +:+ "}") /\
    no_lf (print j) = true /\ parse (print j) = Some j.

Lemma stream_read plan_json print parse inputs :
  (forall ev, ev ∈ delivered inputs -> readable plan_json print parse ev) ->
  StreamEvents parse (handleTaskEvents plan_json print inputs) = norm_Event plan_json <$> delivered inputs.
Proof.
  unfold StreamEvents. induction inputs as [|[| |ev] rest IH]; intros H; [done|done| |].
  - cbn [handleTaskEvents delivered]. unfold keep_alive. rewrite !append_assoc.
    rewrite (split_lines_line "" ": keep-alive") by done. rewrite split_empty_line.
    change ("" +:+ ": keep-alive") with (String ":" " keep-alive").
    rewrite skipped_line, empty_line by set_solver. by apply IH.
  - cbn [handleTaskEvents delivered] in *. destruct (H ev) as (Hty & j & mid & Hj & Hp & Hlf & Hparse); [by left|].
    unfold frame, event_text. rewrite Hj, !append_assoc.
    rewrite <- (append_assoc "event: "), split_lines_line by (unfold no_lf in *; done).
    rewrite <- (append_assoc "data: "), split_lines_line by (unfold no_lf in *; done).
    rewrite split_empty_line.
    change ("" +:+ "event: " +:+ ev_Type ev) with (String "e" ("vent: " +:+ ev_Type ev)).
    rewrite skipped_line by set_solver. change ("" +:+ "data: " +:+ print j) with ("data: " +:+ print j).
    rewrite Hp, data_line, <- Hp, Hparse. cbn [mbind option_bind]. rewrite (dec_marshal_Event _ _ _ Hj), fmap_cons.
    f_equal. cbn [norm_Event ev_Type]. rewrite empty_line. case_bool_decide; [done|]. apply IH. intros ev' Hev'.
    apply H. by right.
Qed.

(** ** Properties *)

(** C27: what the service streams is what the client reads. For events whose type
    is one line and whose document the JSON library prints on one line between
    braces and parses back, the client receives, from the text the service wrote
    and whatever keep-alives are between them, exactly the events the service got
    to, in order, up to the decoding of dynamic values; both stop after the
    completion of the task. *)
Theorem stream_roundtrip (plan_json : nat -> option json) (print : json -> string)
    (parse : string -> option json) (inputs : list sse_input) :
  (forall ev, ev ∈ delivered inputs -> no_lf (ev_Type ev) = true /\
     exists j mid, marshal_Event plan_json ev = Some j /\ print j = ("{" +:+ mid +:+ "}") /\
       no_lf (print j) = true /\ parse (print j) = Some j) ->
  StreamEvents parse (handleTaskEvents plan_json print inputs) = norm_Event plan_json <$> delivered inputs.
Proof. exact (stream_read plan_json print parse inputs). Qed.

(** ** Witnesses *)

Definition demo_done : Event := mkEvent EventTaskCompleted "s" "t1" [("k", AString "v")] 0%Z.

Definition demo_done_doc : json := default JNull (marshal_Event (fun _ => None) demo_done).

Lemma stream_roundtrip_witness :
  delivered [STick; SEvent demo_done; STick] = [demo_done] /\
  StreamEvents (fun _ => Some demo_done_doc)
    (handleTaskEvents (fun _ => None) (fun _ => "{...}") [STick; SEvent demo_done; STick]) = [demo_done].
Proof.
  split; [reflexivity|].
  apply (stream_roundtrip (fun _ => None) (fun _ => "{...}") (fun _ => Some demo_done_doc)
    [STick; SEvent demo_done; STick]).
  intros ev Hev. apply list_elem_of_singleton in Hev as ->. split; [reflexivity|].
  exists demo_done_doc, "...". split_and!; reflexivity.
Defined.
