(* ===== verification/Delegate.v ===== *)
(** * a2a/client.go and a2a/delegate_node.go: work handed to another agent

    The client of a remote agent over an HTTP library ([http_Do]), and the node
    that delegates to it. A response has a status, the JSON value of its body and
    the text of its stream. The headers are in [Headers]. *)

From S2P Require Import Prelude GoLang Core Json World Interfaces TaskJson A2A Sse.
From stdpp Require Import base gmap strings list.

#[local] Open Scope go_scope.

(** ** Documents *)

Definition dec_Capabilities (j : json) : option AgentCapabilities :=
  match j with
  | JObj m =>
      match field false dec_bool "streaming" m, field false dec_bool "pushNotifications" m,
            field false dec_bool "extendedAgentCard" m, field false dec_bool "stateTimeTravel" m,
            field false dec_bool "multiTenancy" m with
      | Some a, Some b, Some c, Some d, Some e => Some (mkAgentCapabilities a b c d e)
      | _, _, _, _, _ => None
      end
  | _ => None
  end.

Definition dec_properties (j : json) : option (list (string * amap)) :=
  match j with JObj m => all_some (keyed dec_amap <$> m) | _ => None end.

Definition dec_InputSchema (j : json) : option ToolInputSchema :=
  match j with
  | JObj m =>
      match field "" dec_string "type" m, field [] dec_properties "properties" m,
            field [] (dec_list dec_string) "required" m with
      | Some t, Some p, Some r => Some (mkToolInputSchema t p r)
      | _, _, _ => None
      end
  | _ => None
  end.

Definition dec_Skill (j : json) : option AgentSkill :=
  match j with
  | JObj m =>
      match field "" dec_string "id" m, field "" dec_string "name" m,
            field "" dec_string "description" m,
            field (mkToolInputSchema "" [] []) dec_InputSchema "inputSchema" m,
            field [] (dec_list dec_string) "inputModes" m, field [] (dec_list dec_string) "outputModes" m,
            field [] (dec_list dec_string) "tags" m with
      | Some i, Some n, Some d, Some s, Some im, Some om, Some t => Some (mkAgentSkill i n d s im om t)
      | _, _, _, _, _, _, _ => None
      end
  | _ => None
  end.

Definition dec_SecurityScheme (j : json) : option SecurityScheme :=
  match j with
  | JObj m =>
      match field "" dec_string "type" m, field "" dec_string "authUrl" m,
            field "" dec_string "tokenUrl" m, field "" dec_string "verificationMode" m with
      | Some t, Some a, Some k, Some v => Some (mkSecurityScheme t a k v)
      | _, _, _, _ => None
      end
  | _ => None
  end.

Definition dec_AgentCard (j : json) : option AgentCard :=
  match j with
  | JObj m =>
      match field "" dec_string "name" m, field "" dec_string "description" m,
            field "" dec_string "version" m, field "" dec_string "url" m,
            field "" dec_string "protocolVersion" m,
            field (mkAgentCapabilities false false false false false) dec_Capabilities "capabilities" m,
            field [] (dec_list dec_Skill) "skills" m, field [] (dec_list dec_SecurityScheme) "security" m with
      | Some n, Some d, Some v, Some u, Some p, Some c, Some s, Some sec => Some (mkAgentCard n d v u p c s sec)
      | _, _, _, _, _, _, _, _ => None
      end
  | JNull => Some (mkAgentCard "" "" "" "" "" (mkAgentCapabilities false false false false false) [] [])
  | _ => None
  end.

(** [json.Marshal] of the parameters; [omitempty] on all fields but the message. *)
Definition marshal_SendMessageParams (plan_json : nat -> option json) (p : SendMessageParams) : option json :=
  match marshal_Message plan_json (sm_Message p),
        omitempty (is_nil (sm_Configuration p)) "configuration" (marshal_amap plan_json (sm_Configuration p)) with
  | Some msg, Some cf =>
      Some (JObj ([("message", msg)] ++ opt_string "taskId" (sm_TaskID p)
        ++ opt_string "contextId" (sm_ContextID p)
        ++ (if sm_ReturnImmediately p then [("returnImmediately", JBool true)] else []) ++ cf))
  | _, _ => None
  end.

(** The request document; a nil [params] is left out. *)
Definition rpc_document (method : string) (params : option json) (id : Z) : json :=
  JObj ([("jsonrpc", JString "2.0"); ("method", JString method)]
        ++ match params with Some p => [("params", p)] | None => [] end ++ [("id", JInt id)]).

(** The response as the client sees it: the result and the message of the error. *)
Record ClientRPCResponse := mkClientRPCResponse {
  crpc_Result : any;
  crpc_Error : option string;
}.

Definition dec_RPCError (j : json) : option string :=
  match j with
  | JObj m =>
      match field 0%Z dec_int "code" m, field "" dec_string "message" m with
      | Some _, Some s => Some s
      | _, _ => None
      end
  | _ => None
  end.

Definition dec_RPCResponse (j : json) : option ClientRPCResponse :=
  match j with
  | JNull => Some (mkClientRPCResponse ANil None)
  | JObj m =>
      match field "" dec_string "jsonrpc" m, field ANil (fun j => Some (unmarshal_any j)) "result" m,
            field None (dec_ptr dec_RPCError) "error" m with
      | Some _, Some r, Some e => Some (mkClientRPCResponse r e)
      | _, _, _ => None
      end
  | _ => None
  end.

(** ** The client *)

Record ClientRequest := mkClientRequest {
  cq_Method : string;
  cq_URL : string;
  cq_Headers : list (string * string);
  cq_Body : option json;
}.

Record ClientResponse := mkClientResponse {
  cr_Status : Z;
  cr_Body : option json;
  cr_Stream : string;
}.

Record A2AClient := mkA2AClient { token : string }.

Definition bearer_header (c : A2AClient) : list (string * string) :=
  if bool_decide (token c = "") then [] else [("Authorization", "Bearer " +:+ token c)].

Definition ErrDecode : error := ErrNew "invalid JSON document".

Record DelegateNode := mkDelegateNode {
  dn_id : string;
  dn_remoteAgentURL : string;
  dn_client : A2AClient;
  dn_preferStream : bool;
}.

Definition NewDelegateNode (id url : string) (client : A2AClient) : DelegateNode :=
  mkDelegateNode id url client true.

(** The artifact of an event, when it is a completed node that carries one: the
    identifier is asserted to be a string ([inr] when the assertion panics). *)
Definition remote_artifact (ev : Event) : option (Artifact + unit) :=
  if bool_decide (ev_Type ev = EventNodeCompleted) then
    match alookup "artifact" (ev_Payload ev) with
    | Some (AMap art) =>
        match as_string (alookup "id" art) with
        | Some id =>
            Some (inl (mkArtifact id "RemoteArtifact" []
              [("type", default ANil (alookup "type" art)); ("data", default ANil (alookup "data" art))]))
        | None => Some (inr tt)
        end
    | _ => None
    end
  else None.

Section delegate.
Context {E : Type} (plan_doc : E -> nat -> option json).
Context (http_Do : context -> ClientRequest -> M E (ClientResponse + error)).
Context (parse : string -> option json).

Definition Discover (c : A2AClient) (ctx : context) (agentURL : string) : M E (AgentCard + error) :=
  resp <- http_Do ctx (mkClientRequest "GET" (trim_suffix agentURL "/" +:+ "/.well-known/agent.json") [] None) ;;
  match resp with
  | inr err => ret (inr err)
  | inl resp =>
      if (cr_Status resp =? 200)%Z then
        ret (match cr_Body resp ≫= dec_AgentCard with Some card => inl card | None => inr ErrDecode end)
      else ret (inr (ErrNew ("failed to fetch agent card: " +:+ itoa (cr_Status resp))))
  end.

(** The status of the response is not looked at. *)
Definition SendMessage (c : A2AClient) (ctx : context) (agentURL : string) (params : SendMessageParams) :
    M E (ClientRPCResponse + error) :=
  fun w =>
    (id <- now ;;
     let body := rpc_document "message/send" (marshal_SendMessageParams (plan_doc (w_ext w)) params) id in
     resp <- http_Do ctx (mkClientRequest "POST" agentURL
               (("Content-Type", "application/json") :: bearer_header c) (Some body)) ;;
     match resp with
     | inr err => ret (inr err)
     | inl resp =>
         ret (match cr_Body resp ≫= dec_RPCResponse with Some r => inl r | None => inr ErrDecode end)
     end) w.

Definition Client_StreamEvents (c : A2AClient) (ctx : context) (agentURL taskID : string) :
    M E (list Event + error) :=
  resp <- http_Do ctx (mkClientRequest "GET" (trim_suffix agentURL "/" +:+ "/tasks/" +:+ taskID +:+ "/events")
            (bearer_header c ++ [("Accept", "text/event-stream")]) None) ;;
  match resp with
  | inr err => ret (inr err)
  | inl resp =>
      if (cr_Status resp =? 200)%Z then ret (inl (StreamEvents parse (cr_Stream resp)))
      else ret (inr (ErrNew ("failed to connect to stream: " +:+ itoa (cr_Status resp))))
  end.

(** The loop over the events: the artifacts are appended to the given state. *)
Fixpoint collect_events (state : loc) (events : list Event) : M E unit :=
  match events with
  | [] => ret tt
  | ev :: rest =>
      match remote_artifact ev with
      | Some (inl a) => modify state (fun s => set_Artifacts (Artifacts s ++ [a]) s)
      | Some (inr _) => panic "interface conversion: interface is not string"
      | None => ret tt
      end ;;
      if bool_decide (ev_Type ev = EventTaskCompleted) then ret tt else collect_events state rest
  end.

(** [json.Marshal(rpcResp.Result)] and [json.Unmarshal] into a task. *)
Definition remote_task (result : any) : option Task :=
  match marshal_any (fun _ => None) result with
  | Some JNull => Some (mkTask "" "" "" zero_TaskStatus [] [] [] [] zero_Time zero_Time)
  | Some j => unmarshal_Task j
  | None => None
  end.

Definition Delegate_Process (n : DelegateNode) (ctx : context) (state : loc) :
    M E (option NodeResult * option error) :=
  s <- load state ;;
  let params := mkSendMessageParams (LastMessage s) "" (ContextID s) true [] in
  card <- Discover (dn_client n) ctx (dn_remoteAgentURL n) ;;
  match card with
  | inr err => ret (None, Some (ErrWrap ("delegate discovery failed: " +:+ Error err) err))
  | inl card =>
      rpcResp <- SendMessage (dn_client n) ctx (dn_remoteAgentURL n) params ;;
      match rpcResp with
      | inr err => ret (None, Some (ErrWrap ("delegate initiation failed: " +:+ Error err) err))
      | inl rpcResp =>
          match crpc_Error rpcResp, remote_task (crpc_Result rpcResp) with
          | Some msg, _ => ret (None, Some (ErrNew ("remote agent error: " +:+ msg)))
          | None, None =>
              ret (None, Some (ErrWrap ("failed to decode remote task: " +:+ Error ErrDecode) ErrDecode))
          | None, Some remoteTask =>
              (if dn_preferStream n && cap_Streaming (card_Capabilities card) then
                 events <- Client_StreamEvents (dn_client n) ctx (dn_remoteAgentURL n) (task_ID remoteTask) ;;
                 match events with
                 | inr _ => ret tt
                 | inl events => collect_events state events
                 end
               else ret tt) ;;
              ret (Some (mkNodeResult (Some state) [] None), None)
          end
      end
  end.

Definition Delegate (n : DelegateNode) : Node E := mkNode (dn_id n) (Delegate_Process n).
End delegate.

(** ** Reference definitions *)

(** The events up to the completion of the task. *)
Fixpoint until_completed (events : list Event) : list Event :=
  match events with
  | [] => []
  | ev :: rest => ev :: (if bool_decide (ev_Type ev = EventTaskCompleted) then [] else until_completed rest)
  end.

Definition artifacts_of (events : list Event) : list Artifact :=
  omap (fun ev => match remote_artifact ev with Some (inl a) => Some a | _ => None end) events.

(** ** Lemmas *)

Lemma set_Artifacts_twice a b s : set_Artifacts a (set_Artifacts b s) = set_Artifacts a s.
Proof. done. Qed.

Lemma set_Artifacts_same s : set_Artifacts (Artifacts s) s = s.
Proof. by destruct s. Qed.

Lemma collect_events_eq {E} state events s (w : World E) :
  w_heap w !! state = Some s ->
  (forall ev, ev ∈ until_completed events -> remote_artifact ev <> Some (inr tt)) ->
  collect_events state events w =
  (Ret tt, set_heap (<[state := set_Artifacts (Artifacts s ++ artifacts_of (until_completed events)) s]>
             (w_heap w)) w).
Proof.
  revert s w. induction events as [|ev rest IH]; intros s w Hs Hok.
  - cbn. rewrite app_nil_r, set_Artifacts_same, list_insert_id by done. by destruct w.
  - cbn [collect_events until_completed] in *. assert (Hev := Hok ev ltac:(by left)).
    destruct (remote_artifact ev) as [[a|[]]|] eqn:Hr; [|done|].
    + rewrite (bind_modify _ _ s) by done. set (s1 := set_Artifacts (Artifacts s ++ [a]) s).
      set (w1 := set_heap (<[state:=s1]> (w_heap w)) w).
      assert (Hs1 : w_heap w1 !! state = Some s1).
      { simpl. apply list_lookup_insert_eq. by eapply lookup_lt_Some. }
      case_bool_decide; [cbn; by rewrite Hr|].
      rewrite (IH s1 w1 Hs1) by (intros; apply Hok; by right). cbn [artifacts_of omap list_omap].
      rewrite Hr. unfold w1, set_heap. simpl. rewrite list_insert_insert_eq. unfold s1.
      rewrite set_Artifacts_twice. simpl. by rewrite <- app_assoc.
    + rewrite (bind_Ret _ _ tt w w) by done.
      case_bool_decide.
      * cbn. rewrite Hr, app_nil_r, set_Artifacts_same, list_insert_id by done. by destruct w.
      * rewrite (IH s w Hs) by (intros; apply Hok; by right). cbn [artifacts_of omap list_omap]. by rewrite Hr.
Qed.

(** The parameters the client encodes are the ones the server decodes. *)
Lemma dec_marshal_SendMessageParams plan_json p j :
  marshal_SendMessageParams plan_json p = Some j ->
  dec_SendMessageParams j = Some (mkSendMessageParams (norm_Message plan_json (sm_Message p)) (sm_TaskID p)
    (sm_ContextID p) (sm_ReturnImmediately p) (norm_amap plan_json (sm_Configuration p))).
Proof.
  destruct p as [msg t c r cf]. unfold marshal_SendMessageParams, omitempty, opt_string. cbn -[marshal_amap].
  destruct (marshal_Message plan_json msg) as [mj|] eqn:Hm; [|done].
  assert (exists mo, mj = JObj mo) as [mo ->].
  { unfold marshal_Message in Hm. repeat case_match; simplify_eq. by eexists. }
  apply dec_marshal_Message in Hm.
  destruct (str_empty t) eqn:Ht; try (apply str_empty_true in Ht; subst t);
  destruct (str_empty c) eqn:Hc; try (apply str_empty_true in Hc; subst c);
  destruct r; destruct (is_nil cf) eqn:Hn; try (apply is_nil_true in Hn; subst cf);
  try (destruct (marshal_amap plan_json cf) as [cj|] eqn:Hcf; [|done];
       destruct (marshal_amap_obj plan_json _ _ Hcf) as [co ->]; apply dec_marshal_amap in Hcf);
  intros; simplify_eq; unfold dec_SendMessageParams, field; cbn -[dec_amap dec_Message]; rewrite ?Hm, ?Hcf; done.
Qed.

(** ** Properties *)

(** A delegation that succeeds. When the remote agent is found, accepts the
    last message with the parameters the server decodes, and streams, the node
    hands back the very state it was given, to which it appended, in order, the
    artifacts of the nodes the remote task completed up to its own completion, and
    nothing else was written. *)
Theorem Delegate_collects {E} (plan_doc : E -> nat -> option json)
    (http_Do : context -> ClientRequest -> M E (ClientResponse + error)) (parse : string -> option json)
    (n : DelegateNode) (ctx : context) (state : loc) (s : AgentState) (card : AgentCard)
    (resp : ClientRPCResponse) (task : Task) (events : list Event) (w w1 w2 w3 : World E) :
  w_heap w !! state = Some s ->
  Discover http_Do (dn_client n) ctx (dn_remoteAgentURL n) w = (Ret (inl card), w1) ->
  SendMessage plan_doc http_Do (dn_client n) ctx (dn_remoteAgentURL n)
    (mkSendMessageParams (LastMessage s) "" (ContextID s) true []) w1 = (Ret (inl resp), w2) ->
  crpc_Error resp = None -> remote_task (crpc_Result resp) = Some task ->
  dn_preferStream n = true -> cap_Streaming (card_Capabilities card) = true ->
  Client_StreamEvents http_Do parse (dn_client n) ctx (dn_remoteAgentURL n) (task_ID task) w2
    = (Ret (inl events), w3) ->
  w_heap w3 !! state = Some s ->
  (forall ev, ev ∈ until_completed events -> remote_artifact ev <> Some (inr tt)) ->
  Delegate_Process plan_doc http_Do parse n ctx state w =
    (Ret (Some (mkNodeResult (Some state) [] None), None),
     set_heap (<[state := set_Artifacts (Artifacts s ++ artifacts_of (until_completed events)) s]>
       (w_heap w3)) w3) /\
  (forall j, marshal_SendMessageParams (plan_doc (w_ext w1))
       (mkSendMessageParams (LastMessage s) "" (ContextID s) true []) = Some j ->
     exists msg, dec_SendMessageParams j = Some (mkSendMessageParams msg "" (ContextID s) true []) /\
       msg = norm_Message (plan_doc (w_ext w1)) (LastMessage s)).
Proof.
  intros Hs Hd Hm Herr Ht Hps Hcap Hst Hs3 Hok. split.
  - unfold Delegate_Process. rewrite (bind_load _ s) by done. rewrite (bind_Ret _ _ _ _ _ Hd).
    rewrite (bind_Ret _ _ _ _ _ Hm), Herr, Ht, Hps, Hcap. simpl andb. cbv iota.
    rewrite bind_assoc, (bind_Ret _ _ _ _ _ Hst).
    by rewrite (bind_Ret _ _ _ _ _ (collect_events_eq state events s w3 Hs3 Hok)).
  - intros j Hj. apply dec_marshal_SendMessageParams in Hj. eexists. by split.
Qed.

(** ** Witnesses *)

Definition demo_remote_event : Event :=
  mkEvent EventNodeCompleted "r1" "r1"
    [("artifact", AMap [("id", AString "a9"); ("type", AString "text"); ("data", AString "done")])] 0%Z.

(** A remote agent: its card, a task [r1], a stream of one event. *)
Definition demo_remote (ctx : context) (req : ClientRequest) : M unit (ClientResponse + error) :=
  ret (inl (
    if has_suffix (cq_URL req) "agent.json" then
      mkClientResponse 200 (Some (JObj [("name", JString "remote");
        ("capabilities", JObj [("streaming", JBool true)])])) ""
    else if bool_decide (cq_Method req = "POST") then
      mkClientResponse 200 (Some (JObj [("jsonrpc", JString "2.0");
        ("result", JObj [("id", JString "r1"); ("history", JNull)])])) ""
    else mkClientResponse 200 None ("event: NodeCompleted" +:+ lf +:+ "data: {...}" +:+ lf +:+ lf))).

Definition demo_parse_event (text : string) : option json :=
  Webhook.marshal_Event (fun _ => None) demo_remote_event.

Definition demo_delegate : DelegateNode := NewDelegateNode "d" "http://remote/" (mkA2AClient "tok").

Definition delegate_world : World unit := mkWorld [NewState] Memory.demo_oracle tt.

Lemma Delegate_collects_witness :
  exists w', Delegate_Process (fun _ _ => None) demo_remote demo_parse_event demo_delegate Background 0
      delegate_world = (Ret (Some (mkNodeResult (Some 0) [] None), None), w') /\
    (art_ID <$> (w_heap w' ≫= Artifacts)) = ["a9"].
Proof.
  assert (Hok : forall ev, ev ∈ until_completed [demo_remote_event] -> remote_artifact ev <> Some (inr tt)).
  { intros ev Hev. apply list_elem_of_singleton in Hev as ->. discriminate. }
  edestruct (Delegate_collects (fun _ _ => None) demo_remote demo_parse_event demo_delegate Background 0 NewState
    (mkAgentCard "remote" "" "" "" "" (mkAgentCapabilities true false false false false) [] [])
    (mkClientRPCResponse (AMap [("id", AString "r1"); ("history", ANil)]) None)
    (mkTask "r1" "" "" zero_TaskStatus [] [] [] [] zero_Time zero_Time) [demo_remote_event] delegate_world
    delegate_world (set_orc (next_tick Memory.demo_oracle) delegate_world)
    (set_orc (next_tick Memory.demo_oracle) delegate_world)
    eq_refl eq_refl eq_refl eq_refl eq_refl eq_refl eq_refl eq_refl eq_refl Hok) as [H _].
  eexists. split; [exact H|]. reflexivity.
Defined.
