(* ===== verification/Mock.v ===== *)
(** * mock/tool.go: the tools and the registry of the tests

    The mock registry authorizes every call and runs the calls one after the
    other; the theorem says which executions of the real registry it stands for. *)

From S2P Require Import Prelude GoLang Core World Interfaces Tools.
From stdpp Require Import base gmap strings list relations.

#[local] Open Scope go_scope.

(** ** MockTool *)

Record MockTool := mkMockTool {
  mt_ToolName : string;
  mt_Desc : string;
  mt_BehaviorFunc : option (amap -> string * option error);
  mt_FixedResult : string;
  mt_ReqPermissions : list string;
}.

Section mock.
Context {E : Type}.

(** [ExecuteHistory] is the part of [E] that the tool owns. *)
Definition MockTool_Execute `{!Has (list amap) E} (t : MockTool) (ctx : context) (args : amap) :
    M E (string * option error) :=
  history <- get (T := list amap) ;;
  put (history ++ [args]) ;;
  match mt_BehaviorFunc t with
  | Some f => ret (f args)
  | None => ret (mt_FixedResult t, None)
  end.

Definition MockTool_tool `{!Has (list amap) E} (t : MockTool) : Tool E :=
  mkTool (mt_ToolName t) (mt_Desc t) (mkToolInputSchema "" [] []) (mt_ReqPermissions t)
    (MockTool_Execute t).

(** ** MockToolRegistry *)

Record MockToolRegistry := mkMockToolRegistry { mr_tools : gmap string (Tool E) }.

Definition NewMockToolRegistry : MockToolRegistry := mkMockToolRegistry ∅.

Definition Mock_Register (tool : Tool E) (permissions : list string) (r : MockToolRegistry) :
    MockToolRegistry * option error :=
  (mkMockToolRegistry (<[tool_Name tool := tool]> (mr_tools r)), None).

Definition Mock_GetTool (name : string) (r : MockToolRegistry) : option (Tool E) := mr_tools r !! name.

Definition Mock_ListTools (r : MockToolRegistry) : list (Tool E) := (map_to_list (mr_tools r)).*2.

Definition Mock_AuthorizeCall (ctx : context) (toolName : string) (r : MockToolRegistry) : option error :=
  None.

(** The loop of [ExecuteConcurrent]. *)
Fixpoint Mock_ExecuteConcurrent (r : MockToolRegistry) (ctx : context) (calls : list ToolCallPart) :
    M E (list ToolResultPart) :=
  match calls with
  | [] => ret []
  | call :: rest =>
      result <- match mr_tools r !! tc_ToolName call with
                | None => ret (mkToolResultPart (tc_CallID call) "tool not found" true)
                | Some tool =>
                    let* (res, err) := tool_Execute tool ctx (tc_args call) in
                    ret (tool_result call res err)
                end ;;
      results <- Mock_ExecuteConcurrent r ctx rest ;;
      ret (result :: results)
  end.
End mock.

Arguments MockToolRegistry E : clear implicits.
Arguments mkMockToolRegistry {E}.

(** ** Lemmas *)

Section lemmas.
Context {E : Type}.

(** With every tool registered and no tenant the two dispatches are the same. *)
Lemma mock_in_order (m : MockToolRegistry E) (r : ConcreteToolRegistry E) ctx calls w :
  reg_tools r = mr_tools m -> tenant_of ctx = "" ->
  (forall tc, tc ∈ calls -> is_Some (mr_tools m !! tc_ToolName tc)) ->
  ExecuteInOrder r ctx calls w = Mock_ExecuteConcurrent m ctx calls w.
Proof.
  intros Hr Ht. revert w. induction calls as [|tc calls IH]; intros w Hall; [done|].
  destruct (Hall tc) as [t Htool]; [by left|]. cbn [Mock_ExecuteConcurrent ExecuteInOrder].
  unfold run_call, AuthorizeCall, GetTool. rewrite Hr, Htool, Ht. simpl. unfold bind, ret.
  destruct (tool_Execute t ctx (tc_args tc) w) as [[[out err]|v|] w1]; [|done..].
  rewrite IH; [done|]. intros. apply Hall. by right.
Qed.
End lemmas.

(** ** Properties *)

(** The mock dispatch is an execution of the real one. For a context without a
    tenant and calls whose tools are registered, what the mock registry answers -
    with the world it leaves - is reached by the goroutines of the real registry
    with the same tools, in the schedule that runs them one after the other. *)
Theorem mock_dispatch_is_a_run {E} (m : MockToolRegistry E) (r : ConcreteToolRegistry E) (ctx : context)
    (calls : list ToolCallPart) (w : World E) (results : list ToolResultPart) (w' : World E) :
  reg_tools r = mr_tools m -> tenant_of ctx = "" ->
  (forall tc, tc ∈ calls -> is_Some (mr_tools m !! tc_ToolName tc)) ->
  Mock_ExecuteConcurrent m ctx calls w = (Ret results, w') ->
  exists c, rtc (call_step ctx calls) (started calls r w) c /\ all_done c /\
    cf_results c = results /\ cf_world c = w'.
Proof.
  intros Hr Ht Hall Hrun. apply in_order_is_a_run. by rewrite (mock_in_order m).
Qed.

(** ** Witnesses *)

Definition demo_mock : MockToolRegistry unit := (Mock_Register EchoTool [] NewMockToolRegistry).1.

Definition demo_real : ConcreteToolRegistry unit := (Register EchoTool [] NewConcreteToolRegistry).1.

Definition echo_calls : list ToolCallPart :=
  [mkToolCallPart "1" "echo" (Some [("message", AString "hi")]); mkToolCallPart "2" "echo" (Some [])].

Lemma mock_dispatch_is_a_run_witness :
  exists results c, Mock_ExecuteConcurrent demo_mock Background echo_calls unit_world = (Ret results, unit_world) /\
    rtc (call_step Background echo_calls) (started echo_calls demo_real unit_world) c /\ all_done c /\
    cf_results c = results.
Proof.
  assert (Hall : forall tc, tc ∈ echo_calls -> is_Some (mr_tools demo_mock !! tc_ToolName tc)).
  { intros tc Htc. repeat (apply elem_of_cons in Htc as [->|Htc]; [eexists; reflexivity|]).
    by apply elem_of_nil in Htc. }
  destruct (mock_dispatch_is_a_run demo_mock demo_real Background echo_calls unit_world _ unit_world
    eq_refl eq_refl Hall eq_refl) as (c & H1 & H2 & H3 & _).
  eexists _, c. split; [reflexivity|]. split; [exact H1|]. split; [exact H2 | exact H3].
Defined.
