(* ===== verification/Demo.v ===== *)
(** * examples/visual-demo/main.go: the browser demo

    The nodes and the graph of the demo, the hub that carries the events of a
    session to the browser, the hook that fills it, and the handlers. A channel of
    the hub is a cell with its queue; the goroutine a handler starts is returned
    with the reply. The event loop of [handleEvents] runs over a schedule of its
    [select]. Serving the static files and starting the listener are left out. *)

From S2P Require Import Prelude GoLang Core Json World Interfaces Memory Graph Resilience Engine EngineSpec Tools Http Security Sse.
From stdpp Require Import base gmap strings list.

#[local] Open Scope go_scope.

(** ** Standard library *)

(** [time.Sleep(d)]. *)
Definition Sleep {E} (d : Duration) : M E unit := fun w => (Ret tt, set_orc (log_sleep d (w_orc w)) w).

(** [strings.ToLower] as far as the keywords of the demo see it: no rune but an
    upper case letter of ASCII becomes one of their letters. *)
Definition lower_ascii (c : Ascii.ascii) : Ascii.ascii :=
  let n := Ascii.nat_of_ascii c in
  if Nat.leb 65 n && Nat.leb n 90 then Ascii.ascii_of_nat (n + 32) else c.

Fixpoint ToLower (s : string) : string :=
  match s with EmptyString => "" | String c s' => String (lower_ascii c) (ToLower s') end.

(** The first of the texts that [s] begins with is replaced by a space. *)
Fixpoint replace_fuel (fuel : nat) (olds : list string) (s : string) : string :=
  match fuel, s with
  | S f, String c s' =>
      match eat olds s with
      | Some rest => " " +:+ replace_fuel f olds rest
      | None => String c (replace_fuel f olds s')
      end
  | _, _ => ""
  end.

(** [strings.NewReplacer(old1, " ", old2, " ", ...).Replace(s)]. *)
Definition Replace (olds : list string) (s : string) : string := replace_fuel (String.length s) olds s.

Definition word (cur : string) : list string := if str_empty cur then [] else [cur].

Fixpoint fields_fuel (fuel : nat) (cur s : string) : list string :=
  match fuel, s with
  | S f, String c s' =>
      match eat spaces s with
      | Some rest => word cur ++ fields_fuel f "" rest
      | None => fields_fuel f (cur +:+ String c "") s'
      end
  | _, _ => word cur
  end.

(** [strings.Fields]. *)
Definition Fields (s : string) : list string := fields_fuel (String.length s) "" s.

(** The loop of [time.fmtFrac]: the digits after the point, without trailing
    zeros, and what is left of the number. *)
Fixpoint fmtFrac (prec : nat) (v : Z) (print : bool) (acc : string) : string * Z :=
  match prec with
  | O => (if print then "." +:+ acc else acc, v)
  | S p =>
      let d := (v mod 10)%Z in
      let print := print || negb (d =? 0)%Z in
      fmtFrac p (v / 10)%Z print (if print then String (digit (Z.to_nat d)) acc else acc)
  end.

Definition fmt_unit (u : Z) (prec : nat) (unit : string) : string :=
  let (frac, v) := fmtFrac prec u false "" in itoa v +:+ frac +:+ unit.

(** [time.Duration.String]. *)
Definition Duration_String (d : Duration) : string :=
  let u := Z.abs d in
  let text :=
    if (u =? 0)%Z then "0s"
    else if (u <? 1000)%Z then fmt_unit u 0 "ns"
    else if (u <? Millisecond)%Z then fmt_unit u 3 "µs"
    else if (u <? Second)%Z then fmt_unit u 6 "ms"
    else
      let (frac, v) := fmtFrac 9 u false "" in
      let secs := itoa (v mod 60) +:+ frac +:+ "s" in
      let mins := (v / 60)%Z in
      if (0 <? mins)%Z then
        let ms := itoa (mins mod 60) +:+ "m" +:+ secs in
        if (0 <? mins / 60)%Z then itoa (mins / 60) +:+ "h" +:+ ms else ms
      else secs
  in if (d <? 0)%Z then "-" +:+ text else text.

(** ** The nodes *)

Definition userMessageKey : string := "__user_message__".

(** [return &interfaces.NodeResult{State: ns}, nil]. *)
Definition node_ok {E} (ns : loc) : M E (option NodeResult * option error) :=
  ret (Some (mkNodeResult (Some ns) [] None), None).

Definition timed_message (r : Role) (p : Part) (t : Z) : Message := mkMessage "" r [p] t [] "" "".

(** [text, _ := state.GetStringVariable(key)]. *)
Definition string_variable (s : AgentState) (key : string) : string :=
  match GetStringVariable s key with inl t => t | inr _ => "" end.

Definition index_range : string := "index out of range".

Definition classified (text : string) : string :=
  let msg := ToLower text in
  if contains msg "退款" || contains msg "refund" then "refund"
  else if contains msg "订单" || contains msg "order" || contains msg "查" then "query"
  else "escalate".

(** The first word that begins with a number sign, commas and full stops being
    spaces. *)
Definition order_in (text : string) : string :=
  match filter (fun w => has_prefix w "#" = true) (Fields (Replace ["，"; ","; "。"] text)) with
  | w :: _ => trim_prefix w "#"
  | [] => "UNKNOWN"
  end.

Definition extractOrderID (s : AgentState) : string := order_in (string_variable s userMessageKey).

(** The first result of a message. *)
Fixpoint part_result (ps : list Part) : option string :=
  match ps with
  | [] => None
  | p :: ps' =>
      if bool_decide (part_Type p = PartTypeToolResult) then
        match part_ToolResult p with Some r => Some (tr_Result r) | None => part_result ps' end
      else part_result ps'
  end.

Fixpoint first_result (ms : list Message) : string :=
  match ms with
  | [] => ""
  | m :: ms' => match part_result (msg_Parts m) with Some r => r | None => first_result ms' end
  end.

(** From the last message backwards. *)
Definition lastToolResult (s : AgentState) : string := first_result (reverse (Messages s)).

Section nodes.
Context {E : Type}.

Definition intakeNode : Node E :=
  mkNode "intake" (fun _ state =>
    Sleep (150 * Millisecond)%Z ;;
    s <- load state ;;
    t <- now ;;
    ns <- WithMessage state (timed_message RoleUser (text_part (string_variable s userMessageKey)) t) ;;
    node_ok ns).

Definition classifyNode : Node E :=
  mkNode "classify" (fun _ state =>
    Sleep (350 * Millisecond)%Z ;;
    s <- load state ;;
    match msg_Parts (LastMessage s) with
    | [] => panic index_range
    | p :: _ =>
        let intent := classified (part_Text p) in
        ns <- WithVariable state "intent" (AString intent) ;;
        t <- now ;;
        ns <- WithMessage ns
                (timed_message RoleAssistant (text_part ("(internal) classified intent → " +:+ intent)) t) ;;
        node_ok ns
    end).

(** [registry] is the method [ExecuteConcurrent] of the registry. *)
Definition toolCallNode (id toolName : string) (argsFn : AgentState -> option amap)
    (registry : context -> list ToolCallPart -> M E (list ToolResultPart)) : Node E :=
  mkNode id (fun ctx state =>
    Sleep (250 * Millisecond)%Z ;;
    callID <- uuid_New ;;
    let callID := take_str 8 callID in
    s <- load state ;;
    let call := mkToolCallPart callID toolName (argsFn s) in
    t <- now ;;
    results <- registry ctx [call] ;;
    match results with
    | [] => panic index_range
    | result :: _ =>
        t' <- now ;;
        ns <- WithMessage state (timed_message RoleAssistant (tool_call_part call) t) ;;
        ns <- WithMessage ns (timed_message RoleTool (tool_result_part result) t') ;;
        node_ok ns
    end).

Definition respondNode (id : string) (tmpl : AgentState -> string) : Node E :=
  mkNode id (fun _ state =>
    Sleep (200 * Millisecond)%Z ;;
    s <- load state ;;
    t <- now ;;
    ns <- WithMessage state (timed_message RoleAssistant (text_part (tmpl s)) t) ;;
    node_ok ns).

(** [state.Variables["approved"].(bool)], false when it is not a bool. *)
Definition is_approved (s : AgentState) : bool :=
  match var_get s "approved" with Some (ABool b) => b | _ => false end.

Definition approval_needed : error :=
  agent_error (mkAgentError ErrCategoryHumanNeeded "human_review"
    (Some (ErrNew "requires supervisor approval before escalating")) 0%Z).

Definition humanReviewNode : Node E :=
  mkNode "human_review" (fun _ state =>
    Sleep (200 * Millisecond)%Z ;;
    s <- load state ;;
    if is_approved s then
      t <- now ;;
      ns <- WithMessage state
              (timed_message RoleSystem (text_part "human approved → unblocking escalation") t) ;;
      node_ok ns
    else ret (None, Some approval_needed)).
End nodes.

(** ** The graph *)

Section graph.
Context {E : Type} (registry : context -> list ToolCallPart -> M E (list ToolResultPart)).

Definition refund_args (s : AgentState) : option amap :=
  Some [("message", AString ("REFUND_OK | amount=99.00 | order=" +:+ extractOrderID s))].

Definition query_args (s : AgentState) : option amap :=
  Some [("message", AString ("ORDER_STATUS | order=" +:+ extractOrderID s
     +:+ " | status=SHIPPED | tracking=SF1234567"))].

Definition refund_reply (s : AgentState) : string :=
  "✅ 已为您发起退款，款项将在 3–5 个工作日内原路返回。" +:+ lf +:+ "详情: " +:+ lastToolResult s.

Definition query_reply (s : AgentState) : string := "📦 您的订单状态如下：" +:+ lf +:+ lastToolResult s.

Definition escalated_reply (_ : AgentState) : string :=
  "👨‍💼 已为您转接到人工客服，工号 #A042 将在 5 分钟内联系您。".

Definition demo_nodes : list (Node E) :=
  [intakeNode; classifyNode; toolCallNode "refund_tool" "echo" refund_args registry;
   toolCallNode "query_tool" "echo" query_args registry; humanReviewNode;
   respondNode "respond_refund" refund_reply; respondNode "respond_query" query_reply;
   respondNode "respond_escalated" escalated_reply].

(** The comparison of an [any] with a string. *)
Definition intent_target (s : AgentState) : string :=
  match var_get s "intent" with
  | Some (AString i) =>
      if bool_decide (i = "refund") then "refund_tool"
      else if bool_decide (i = "query") then "query_tool"
      else "human_review"
  | _ => "human_review"
  end.

Definition intent_router : RouterFunc E := fun _ state => s <- load state ;; ret (intent_target s, None).

(** [must(b.AddNode(n))]: an error ends the program. *)
Definition must_add (b : Builder E + error) (n : Node E) : Builder E + error :=
  match b with
  | inr err => inr err
  | inl b => match AddNode n b with (b', None) => inl b' | (_, Some err) => inr err end
  end.

Definition demo_edges (b : Builder E) : Builder E :=
  SetTerminal ["respond_refund"; "respond_query"; "respond_escalated"]
    (AddEdge "human_review" "respond_escalated"
       (AddEdge "query_tool" "respond_query"
          (AddEdge "refund_tool" "respond_refund"
             (AddConditionalEdge "classify" intent_router
                (AddEdge "intake" "classify" (SetEntry "intake" b)))))).

(** [order] is the order in which the runtime ranges over the terminals. *)
Definition buildGraph (order : list string) : Graph E + error :=
  match foldl must_add (inl NewBuilder) demo_nodes with
  | inr err => inr err
  | inl b => Build (demo_edges b) order
  end.
End graph.

(** ** The hub *)

Record messagePayload := mkMessagePayload { mp_Role : string; mp_Kind : string; mp_Text : string }.

Record snapshotPayload := mkSnapshotPayload {
  sp_Messages : list messagePayload;
  sp_Variables : gmap string any;
  sp_Status : string;
}.

Record sseEvent := mkSseEvent {
  se_Type : string;
  se_NodeID : string;
  se_Step : Z;
  se_Elapsed : string;
  se_Snapshot : option snapshotPayload;
  se_Error : string;
}.

(** A channel of capacity 32. *)
Record sse_chan := mkSseChan { ch_queue : list sseEvent; ch_closed : bool }.

(** The channels of the sessions are cells: a reader keeps the channel it found. *)
Record sseHub := mkSseHub { hub_chs : gmap string nat; hub_chans : list sse_chan }.

Definition newSSEHub : sseHub := mkSseHub ∅ [].

Definition chan_capacity : nat := 32.

(** What one send of a [select] with a default leaves, [None] for the panic of a
    closed channel. *)
Definition try_send (ev : sseEvent) (c : sse_chan) : option sse_chan :=
  if ch_closed c then None
  else if Nat.ltb (length (ch_queue c)) chan_capacity then Some (mkSseChan (ch_queue c ++ [ev]) false)
  else Some c.

Definition closed_send : string := "send on closed channel".

Section hub.
Context {E : Type} `{!Has sseHub E}.

Definition subscribe (sessionID : string) : M E nat :=
  h <- get (T := sseHub) ;;
  put (mkSseHub (<[sessionID := length (hub_chans h)]> (hub_chs h)) (hub_chans h ++ [mkSseChan [] false])) ;;
  ret (length (hub_chans h)).

Definition channel (sessionID : string) : M E (option nat) :=
  h <- get (T := sseHub) ;;
  ret (hub_chs h !! sessionID).

Definition publish (sessionID : string) (ev : sseEvent) : M E unit :=
  ch <- channel sessionID ;;
  match ch with
  | None => ret tt
  | Some c =>
      h <- get (T := sseHub) ;;
      match hub_chans h !! c with
      | None => ret tt
      | Some ch =>
          match try_send ev ch with
          | None => panic closed_send
          | Some ch' => put (mkSseHub (hub_chs h) (<[c := ch']> (hub_chans h)))
          end
      end
  end.

Definition close (sessionID : string) : M E unit :=
  h <- get (T := sseHub) ;;
  match hub_chs h !! sessionID with
  | None => ret tt
  | Some c =>
      put (mkSseHub (delete sessionID (hub_chs h))
             (alter (fun ch => mkSseChan (ch_queue ch) true) c (hub_chans h)))
  end.

(** The case [ev, ok := <-ch] of a [select]: not ready, the end, or an event. *)
Definition receive (c : nat) : M E (option (option sseEvent)) :=
  h <- get (T := sseHub) ;;
  match hub_chans h !! c with
  | None => ret None
  | Some ch =>
      match ch_queue ch with
      | [] => ret (if ch_closed ch then Some None else None)
      | ev :: rest =>
          put (mkSseHub (hub_chs h) (<[c := mkSseChan rest (ch_closed ch)]> (hub_chans h))) ;;
          ret (Some (Some ev))
      end
  end.
End hub.

(** ** Snapshots and the hook *)

Section events.
Context (lib : Libs) (plan_json : nat -> option json).

Definition part_payload (role : Role) (p : Part) : list messagePayload :=
  if bool_decide (part_Type p = PartTypeText) then [mkMessagePayload role "text" (part_Text p)]
  else if bool_decide (part_Type p = PartTypeToolCall) then
    [mkMessagePayload role "tool_call"
       (match part_ToolCall p with
        | Some c =>
            "→ " +:+ tc_ToolName c +:+ "("
            +:+ (match marshal_Arguments plan_json (tc_Arguments c) with Some j => print lib j | None => "" end)
            +:+ ")"
        | None => ""
        end)]
  else if bool_decide (part_Type p = PartTypeToolResult) then
    [mkMessagePayload role "tool_result"
       (match part_ToolResult p with Some r => "← " +:+ tr_Result r | None => "" end)]
  else [].

Definition payload_of (s : AgentState) : snapshotPayload :=
  mkSnapshotPayload
    (concat ((fun m => concat (part_payload (msg_Role m) <$> msg_Parts m)) <$> Messages s))
    (filter (fun kv => has_prefix kv.1 "__" = false) (default ∅ (Variables s)))
    (Status s).

Definition marshal_payload (m : messagePayload) : json :=
  JObj [("role", JString (mp_Role m)); ("kind", JString (mp_Kind m)); ("text", JString (mp_Text m))].

Definition marshal_snapshot (p : snapshotPayload) : option json :=
  (fun vs => JObj [("messages", JArr (marshal_payload <$> sp_Messages p)); ("variables", vs);
                   ("status", JString (sp_Status p))])
  <$> marshal_amap plan_json (map_to_list (sp_Variables p)).

Definition marshal_sseEvent (ev : sseEvent) : option json :=
  match omitempty (is_None (se_Snapshot ev)) "snapshot" (se_Snapshot ev ≫= marshal_snapshot) with
  | Some snapshot =>
      Some (JObj ([("type", JString (se_Type ev))]
                  ++ (if str_empty (se_NodeID ev) then [] else [("nodeID", JString (se_NodeID ev))])
                  ++ [("step", JInt (se_Step ev))]
                  ++ (if str_empty (se_Elapsed ev) then [] else [("elapsed", JString (se_Elapsed ev))])
                  ++ snapshot
                  ++ (if str_empty (se_Error ev) then [] else [("error", JString (se_Error ev))])))
  | None => None
  end.

(** [b, _ := json.Marshal(ev); fmt.Fprintf(w, "data: %s\n\n", b)]. *)
Definition sse_frame (ev : sseEvent) : string :=
  "data: " +:+ (match marshal_sseEvent ev with Some j => print lib j | None => "" end) +:+ lf +:+ lf.
End events.

(** The fields of an event that depend on the point of the hook. *)
Definition hook_event (meta : HookMeta) (snapshot : option snapshotPayload) : sseEvent :=
  let ev ty elapsed err :=
    mkSseEvent ty (hm_NodeID meta) (hm_StepCount meta) elapsed snapshot err in
  if bool_decide (hm_Point meta = HookBeforeNode) then ev "node_enter" "" ""
  else if bool_decide (hm_Point meta = HookAfterNode) then
    ev "node_exit" (Duration_String (hm_Elapsed meta)) ""
  else if bool_decide (hm_Point meta = HookOnError) then
    ev "node_error" "" (match hm_Err meta with Some e => Error e | None => "" end)
  else ev "" "" "".

Section server.
Context {E : Type} `{!PlanDocs E} `{!Has sseHub E} (lib : Libs).

Definition snapshotOf (state : option loc) : M E (option snapshotPayload) :=
  match state with
  | None => ret None
  | Some l =>
      s <- load l ;;
      pj <- docs ;;
      ret (Some (payload_of lib pj s))
  end.

Definition vizHook (sessionID : string) : LifecycleHook E :=
  mkLifecycleHook (fun state meta =>
    snapshot <- snapshotOf state ;;
    publish sessionID (hook_event meta snapshot)).

(** ** The handlers *)

Context (g : Graph E) (store : MemoryStore E).

Definition session_engine (sessionID : string) : Engine E :=
  NewEngine (Some g) store None [WithHooks [vizHook sessionID]].

(** [runEngine]; the deadline of the context is in the answers of [ctx.Done()]. *)
Definition runEngine (sessionID : string) (fn : context -> M E (option loc * option error)) : M E unit :=
  let* (final, err) := fn (WithTimeout Background (30 * Second)%Z) in
  match err with
  | Some err =>
      snapshot <- snapshotOf final ;;
      publish sessionID (mkSseEvent "failed" "" 0 "" snapshot (Error err)) ;;
      Sleep (100 * Millisecond)%Z ;;
      close sessionID
  | None =>
      l <- deref final ;;
      s <- load l ;;
      snapshot <- snapshotOf final ;;
      if bool_decide (Status s = StatusPaused) then
        publish sessionID (mkSseEvent "paused" (LastNodeID s) 0 "" snapshot "")
      else if bool_decide (Status s = StatusCompleted) then
        publish sessionID (mkSseEvent "completed" (LastNodeID s) 0 "" snapshot "") ;;
        Sleep (200 * Millisecond)%Z ;;
        close sessionID
      else
        publish sessionID (mkSseEvent "failed" "" 0 "" snapshot ("unexpected status: " +:+ Status s)) ;;
        close sessionID
  end.

(** What a handler answers. *)
Inductive demo_reply :=
  | RError (code : Z) (text : string)
  | RJSON (j : json)
  | RStatus (code : Z)
  | REvents (text : string).

Definition dec_runRequest (j : json) : option string :=
  match j with
  | JNull => Some ""
  | JObj m => field "" dec_string "message" m
  | _ => None
  end.

Definition dec_resumeRequest (j : json) : option (string * bool) :=
  match j with
  | JNull => Some ("", false)
  | JObj m =>
      match field "" dec_string "sessionID" m, field false dec_bool "approved" m with
      | Some s, Some a => Some (s, a)
      | _, _ => None
      end
  | _ => None
  end.

(** The reply and the goroutine the handler starts; [fuel] bounds the engine. *)
Definition handleRun (fuel : nat) (body : http_body) : M E (demo_reply * option (M E unit)) :=
  let bad := (RError 400 "message required", None) in
  match Decode lib dec_runRequest body with
  | inr _ => ret bad
  | inl message =>
      if str_empty (TrimSpace message) then ret bad
      else
        sessionID <- uuid_New ;;
        subscribe sessionID ;;
        l <- alloc NewState ;;
        initial <- WithVariable l userMessageKey (AString message) ;;
        ret (RJSON (JObj [("sessionID", JString sessionID)]),
             Some (runEngine sessionID (fun ctx =>
                     Start fuel (session_engine sessionID) ctx sessionID (Some initial))))
  end.

Definition handleResume (fuel : nat) (body : http_body) : M E (demo_reply * option (M E unit)) :=
  let bad := (RError 400 "sessionID required", None) in
  match Decode lib dec_resumeRequest body with
  | inr _ => ret bad
  | inl (sessionID, approved) =>
      if str_empty sessionID then ret bad
      else
        ch <- channel sessionID ;;
        match ch with
        | None => ret (RError 404 "session not found", None)
        | Some _ =>
            ret (RStatus 202,
                 Some (runEngine sessionID (fun ctx =>
                         Resume fuel (session_engine sessionID) ctx sessionID
                           [("approved", ABool approved)])))
        end
  end.

(** The case a [select] takes: the end of the request, or the channel; a channel
    with nothing to receive is not taken. *)
Inductive turn := TDone | TReceive.

Fixpoint events_loop (c : nat) (turns : list turn) : M E string :=
  match turns with
  | [] | TDone :: _ => ret ""
  | TReceive :: rest =>
      r <- receive c ;;
      match r with
      | None => events_loop c rest
      | Some None => ret ""
      | Some (Some ev) =>
          pj <- docs ;;
          out <- events_loop c rest ;;
          ret (sse_frame lib pj ev +:+ out)
      end
  end.

Definition handleEvents (sessionID : string) (flusher : bool) (turns : list turn) : M E demo_reply :=
  ch <- channel sessionID ;;
  match ch with
  | None => ret (RError 404 "unknown session")
  | Some c =>
      if flusher then out <- events_loop c turns ;; ret (REvents out)
      else ret (RError 500 "streaming not supported")
  end.

Definition node_kinds : list (string * string) :=
  [("intake", "entry"); ("classify", "llm"); ("refund_tool", "tool"); ("query_tool", "tool");
   ("human_review", "human"); ("respond_refund", "terminal"); ("respond_query", "terminal");
   ("respond_escalated", "terminal")].

Definition edge_json (from to label : string) : json :=
  JObj ([("from", JString from); ("to", JString to)]
        ++ (if str_empty label then [] else [("label", JString label)])).

(** [order] is the order in which the runtime ranges over the nodes. *)
Definition handleGraph (order : list string) : json :=
  JObj [("nodes", JArr ((fun id => JObj [("id", JString id); ("label", JString id);
           ("kind", JString (default "" (alookup id node_kinds)))]) <$> order));
        ("edges", JArr (((fun e => edge_json (FromID e) (ToID e) "") <$>
                          filter (fun e => IsCond e = false) (Edges g))
           ++ [edge_json "classify" "refund_tool" "intent=refund";
               edge_json "classify" "query_tool" "intent=query";
               edge_json "classify" "human_review" "intent=escalate"]))].
End server.

(** [main]: the registry with the echo tool. *)
Definition demo_registry {E} : ConcreteToolRegistry E := (Register EchoTool [] NewConcreteToolRegistry).1.

(** The graph that [main] serves. *)
Definition demo_graph {E} (order : list string) : Graph E + error :=
  buildGraph (ExecuteInOrder demo_registry) order.

(** ** Reference definitions *)

(** The builder when no node is refused, and its graph. *)
Definition the_builder {E} : Builder E :=
  demo_edges (foldl (fun b n => (AddNode n b).1) NewBuilder (demo_nodes (ExecuteInOrder demo_registry))).

Definition the_graph {E} : Graph E := drafted the_builder.

(** The messages of a session without their times. *)
Definition untimed (m : Message) : Message :=
  mkMessage (msg_ID m) (msg_Role m) (msg_Parts m) 0 (msg_Metadata m) (msg_ContextID m) (msg_TaskID m).

Definition spoken (s : AgentState) : list Message := untimed <$> Messages s.

Definition said (r : Role) (p : Part) : Message := timed_message r p 0.

Definition intent_part (message : string) : Part :=
  text_part ("(internal) classified intent → " +:+ classified message).

Definition opening (message : string) : list Message :=
  [said RoleUser (text_part message); said RoleAssistant (intent_part message)].

(** A call of the echo tool and its answer. *)
Definition echoed (id text : string) : list Message :=
  [said RoleAssistant (tool_call_part (mkToolCallPart id "echo" (Some [("message", AString text)])));
   said RoleTool (tool_result_part (mkToolResultPart id text false))].

Definition refund_text (message : string) : string :=
  "REFUND_OK | amount=99.00 | order=" +:+ order_in message.

Definition query_text (message : string) : string :=
  "ORDER_STATUS | order=" +:+ order_in message +:+ " | status=SHIPPED | tracking=SF1234567".

(** The session of a message when [Start] returns. *)
Inductive served (message : string) (s : AgentState) : Prop :=
  | served_refund id :
      classified message = "refund" -> Status s = StatusCompleted -> LastNodeID s = "respond_refund" ->
      spoken s = opening message ++ echoed id (refund_text message)
        ++ [said RoleAssistant (text_part ("✅ 已为您发起退款，款项将在 3–5 个工作日内原路返回。" +:+ lf
              +:+ "详情: " +:+ refund_text message))] ->
      served message s
  | served_query id :
      classified message = "query" -> Status s = StatusCompleted -> LastNodeID s = "respond_query" ->
      spoken s = opening message ++ echoed id (query_text message)
        ++ [said RoleAssistant (text_part ("📦 您的订单状态如下：" +:+ lf +:+ query_text message))] ->
      served message s
  | served_escalate :
      classified message = "escalate" -> Status s = StatusPaused -> LastNodeID s = "human_review" ->
      spoken s = opening message -> StepCount s = 3%Z -> Artifacts s = [] ->
      Variables s = Some (<["intent" := AString "escalate"]> {[userMessageKey := AString message]}) ->
      served message s.

(** A schedule of the hook and the reader of one session; the events the reader
    got. *)
Inductive hub_op := HubSend (ev : sseEvent) | HubReceive.

Fixpoint hub_run {E} `{!Has sseHub E} (sessionID : string) (c : nat) (ops : list hub_op) : M E (list sseEvent) :=
  match ops with
  | [] => ret []
  | HubSend ev :: rest => publish sessionID ev ;; hub_run sessionID c rest
  | HubReceive :: rest =>
      r <- receive c ;;
      evs <- hub_run sessionID c rest ;;
      ret (match r with Some (Some ev) => ev :: evs | _ => evs end)
  end.

Definition sent (ops : list hub_op) : list sseEvent :=
  foldr (fun op acc => match op with HubSend ev => ev :: acc | HubReceive => acc end) [] ops.

(** What the nodes may do: the times of the messages and the identifiers of the
    calls are open. *)
Definition says (r : Role) (text : AgentState -> string) (s : AgentState) (b : behaviour) : Prop :=
  exists t, b = Yields (with_message (timed_message r (text_part (text s)) t) s) [] None.

Definition calls_echo (text : AgentState -> string) (s : AgentState) (b : behaviour) : Prop :=
  exists id t t', b = Yields
    (with_message (timed_message RoleTool (tool_result_part (mkToolResultPart id (text s) false)) t')
       (with_message (timed_message RoleAssistant
          (tool_call_part (mkToolCallPart id "echo" (Some [("message", AString (text s))]))) t) s)) [] None.

Definition message_of (s : AgentState) : string := string_variable s userMessageKey.

Definition classifies (s : AgentState) (b : behaviour) : Prop :=
  exists p ps, msg_Parts (LastMessage s) = p :: ps /\
  says RoleAssistant (fun _ => "(internal) classified intent → " +:+ classified (part_Text p))
    (with_variable "intent" (AString (classified (part_Text p))) s) b.

Definition reviews (s : AgentState) (b : behaviour) : Prop :=
  if is_approved s then says RoleSystem (fun _ => "human approved → unblocking escalation") s b
  else b = Fails approval_needed.

Definition node_behaviours : list (string * (AgentState -> behaviour -> Prop)) :=
  [("intake", says RoleUser message_of); ("classify", classifies);
   ("refund_tool", calls_echo (fun s => refund_text (message_of s)));
   ("query_tool", calls_echo (fun s => query_text (message_of s)));
   ("human_review", reviews); ("respond_refund", says RoleAssistant refund_reply);
   ("respond_query", says RoleAssistant query_reply);
   ("respond_escalated", says RoleAssistant escalated_reply)].

(** No tenant is in the context, and the classifier finds a message. *)
Definition demo_behaviours : behaviours :=
  mkBehaviours (fun ctx => tenant_of ctx = "")
    (fun s => LastNodeID s = "classify" -> msg_Parts (LastMessage s) <> [])
    (fun id s b => match alookup id node_behaviours with Some f => f s b | None => False end)
    (fun _ s r => r = (intent_target s, None))
    (fun _ _ => True).

(** ** Lemmas: the graph *)

Lemma add_nodes_lookup {E} (ns : list (Node E)) b id n :
  b_nodes (foldl (fun b n => (AddNode n b).1) b ns) !! id = Some n ->
  b_nodes b !! id = Some n \/ (n ∈ ns /\ node_ID n = id).
Proof.
  revert b. induction ns as [|x ns IH]; intros b H; [by left|]. simpl in H.
  destruct (IH _ H) as [H1|[H1 H2]]; [|right; split; [by right | done]].
  unfold AddNode in H1. destruct (b_nodes b !! node_ID x); [by left|]. simpl in H1.
  apply lookup_insert_Some in H1 as [[<- <-]|[_ H1]]; [right; split; [left | done] | by left].
Qed.

Lemma must_add_eq {E} (ns : list (Node E)) b :
  NoDup (node_ID <$> ns) -> (forall n, n ∈ ns -> b_nodes b !! node_ID n = None) ->
  foldl must_add (inl b) ns = inl (foldl (fun b n => (AddNode n b).1) b ns).
Proof.
  revert b. induction ns as [|x ns IH]; intros b Hnd Hf; [done|]. cbn [foldl]. csimpl in Hnd.
  apply NoDup_cons in Hnd as [Hx Hnd].
  assert (AddNode x b = (mkBuilder (<[node_ID x := x]> (b_nodes b)) (b_edges b) (b_entry b) (b_terminals b), None))
    as Ha by (unfold AddNode; by rewrite Hf by left).
  cbn [must_add]. rewrite Ha. apply IH; [done|]. intros n Hn. cbn [b_nodes fst].
  rewrite lookup_insert_ne; [apply Hf; by right|].
  intros Heq. apply Hx. rewrite Heq. by apply list_elem_of_fmap_2.
Qed.

Lemma added_node {E} (ns : list (Node E)) b n :
  NoDup (node_ID <$> ns) -> (forall n, n ∈ ns -> b_nodes b !! node_ID n = None) -> n ∈ ns ->
  b_nodes (foldl (fun b n => (AddNode n b).1) b ns) !! node_ID n = Some n.
Proof.
  assert (Hkeep : forall (ns : list (Node E)) b id n, b_nodes b !! id = Some n ->
    b_nodes (foldl (fun b n => (AddNode n b).1) b ns) !! id = Some n).
  { clear. induction ns as [|x ns IH]; intros b id n Hb; [done|]. apply IH. unfold AddNode.
    destruct (b_nodes b !! node_ID x) eqn:Hx; [done|]. simpl. rewrite lookup_insert_ne; [done|]. congruence. }
  revert b. induction ns as [|x ns IH]; intros b Hnd Hf Hn; [by apply elem_of_nil in Hn|].
  csimpl in Hnd. apply NoDup_cons in Hnd as [Hx Hnd]. cbn [foldl].
  assert ((AddNode x b).1 = mkBuilder (<[node_ID x := x]> (b_nodes b)) (b_edges b) (b_entry b) (b_terminals b))
    as -> by (unfold AddNode; by rewrite Hf by left).
  apply elem_of_cons in Hn as [->|Hn]; [apply Hkeep; simpl; apply lookup_insert_eq|].
  apply IH; [done | | done]. intros n' Hn'. cbn [b_nodes].
  rewrite lookup_insert_ne; [apply Hf; by right|].
  intros Heq. apply Hx. rewrite Heq. by apply list_elem_of_fmap_2.
Qed.

Section the_graph.
Context {E : Type}.

Abbreviation the_nodes := (demo_nodes (E := E) (ExecuteInOrder demo_registry)).

Lemma node_ids : node_ID <$> the_nodes = node_behaviours.*1.
Proof. reflexivity. Qed.

Lemma node_ids_NoDup : NoDup (node_ID <$> the_nodes).
Proof. rewrite node_ids. by apply (bool_decide_unpack _). Qed.

Lemma the_builder_node n : n ∈ the_nodes -> b_nodes the_builder !! node_ID n = Some n.
Proof. apply added_node; [apply node_ids_NoDup | done]. Qed.

Lemma the_builder_nodes id : id ∈ node_behaviours.*1 -> is_Some (b_nodes (the_builder (E := E)) !! id).
Proof.
  rewrite <- node_ids. intros (n & -> & Hn)%list_elem_of_fmap. exists n. by apply the_builder_node.
Qed.

Lemma the_builder_edges : b_edges (the_builder (E := E)) =
  [mkEdge "intake" "classify" false None; mkEdge "classify" "" true (Some intent_router);
   mkEdge "refund_tool" "respond_refund" false None; mkEdge "query_tool" "respond_query" false None;
   mkEdge "human_review" "respond_escalated" false None].
Proof. reflexivity. Qed.

Lemma Build_ok (b : Builder E) order :
  b_entry b <> "" -> is_Some (b_nodes b !! b_entry b) ->
  Forall (fun e => is_Some (b_nodes b !! FromID e) /\ (IsCond e = false -> is_Some (b_nodes b !! ToID e)))
    (b_edges b) ->
  (forall t, t ∈ order -> is_Some (b_nodes b !! t)) ->
  Build b order = inl (drafted b).
Proof.
  intros Hne [n Hn] He Ht. unfold Build. rewrite decide_False, Hn by done.
  rewrite (proj2 (first_error_None _ (b_edges b))).
  - rewrite (proj2 (first_error_None _ order)); [done|]. intros t Hin. by apply check_terminal_None, Ht.
  - intros e Hin. apply check_edge_None. by apply (proj1 (Forall_forall _ _) He).
Qed.

(** The program builds its graph, whatever the order of the terminals. *)
Lemma demo_graph_ok order :
  (forall t, t ∈ order -> t ∈ ["respond_refund"; "respond_query"; "respond_escalated"]) ->
  demo_graph (E := E) order = inl the_graph.
Proof.
  intros Ho. unfold demo_graph, buildGraph. rewrite must_add_eq; [|apply node_ids_NoDup|done].
  apply (Build_ok the_builder).
  - done.
  - apply the_builder_nodes. by apply (bool_decide_unpack _).
  - rewrite the_builder_edges.
    repeat constructor; intros; (apply the_builder_nodes; by apply (bool_decide_unpack _)) || done.
  - intros t Ht. apply the_builder_nodes. apply Ho in Ht. revert t Ht. apply Forall_forall.
    repeat constructor; by apply (bool_decide_unpack _).
Qed.
End the_graph.

(** ** Lemmas: the nodes *)

Lemma string_variable_same (s s' : AgentState) key :
  var_get s' key = var_get s key -> string_variable s' key = string_variable s key.
Proof. unfold string_variable, GetStringVariable. by intros ->. Qed.

Section nodes_ok.
Context {E : Type}.
Implicit Types w : World E.

(** The nodes that append one message. *)
Lemma says_ok l r text s t w :
  w_heap w !! l = Some s ->
  wp (ns <- WithMessage l (timed_message r (text_part (text s)) t) ;; node_ok ns)
    (returns (fun res w' => heap_frame w w' /\
       exists b, says r text s b /\ behaves w w' b res)) w.
Proof.
  intros Hl. eapply wp_bind_Ret; [by apply WithMessage_eq|]. apply wp_ret. split; [by eexists|].
  eexists. split; [by exists t|]. split_and!; [done | done|].
  eexists. split_and!; [done | simpl; lia | apply lookup_snoc_eq].
Qed.

(** A step that leaves the states alone. *)
Lemma says_after {A} (m : M E A) (k : A -> M E (option NodeResult * option error)) (P : behaviour -> Prop) a w w' :
  m w = (Ret a, w') -> w_heap w' = w_heap w ->
  wp (k a) (returns (fun res w'' => heap_frame w' w'' /\ exists b, P b /\ behaves w' w'' b res)) w' ->
  wp (bind m k) (returns (fun res w'' => heap_frame w w'' /\ exists b, P b /\ behaves w w'' b res)) w.
Proof.
  intros Hm Hh Hk. eapply wp_bind_Ret; [exact Hm|]. eapply wp_mono; [exact Hk|].
  intros [res|v|] w2; [|done..]. unfold heap_frame, behaves. by rewrite Hh.
Qed.

Lemma run_echo ctx call text w :
  tenant_of ctx = "" -> tc_ToolName call = "echo" -> tc_Arguments call = Some [("message", AString text)] ->
  ExecuteInOrder demo_registry ctx [call] w = (Ret [mkToolResultPart (tc_CallID call) text false], w).
Proof.
  intros Ht Hn Ha. cbn [ExecuteInOrder]. unfold run_call, AuthorizeCall, tc_args. rewrite Ht, Hn. simpl.
  unfold bind, ret. by rewrite Ha.
Qed.

Lemma toolCall_ok ctx id (text : AgentState -> string) l s w :
  tenant_of ctx = "" -> w_heap w !! l = Some s ->
  wp (node_Process (toolCallNode id "echo" (fun s => Some [("message", AString (text s))])
        (ExecuteInOrder demo_registry)) ctx l)
    (returns (fun res w' => heap_frame w w' /\ exists b, calls_echo text s b /\ behaves w w' b res)) w.
Proof.
  intros Ht Hl. cbn [node_Process toolCallNode].
  eapply says_after; [reflexivity | done|]. eapply says_after; [reflexivity | done|].
  eapply says_after; [unfold load; cbn [w_heap set_orc]; by rewrite Hl | done|].
  eapply says_after; [reflexivity | done|]. set (call := mkToolCallPart _ _ _).
  eapply says_after; [by apply (run_echo ctx call (text s)) | done|]. cbv beta iota.
  eapply says_after; [reflexivity | done|].
  eapply wp_bind_Ret; [by eapply WithMessage_eq|].
  eapply wp_bind_Ret; [eapply WithMessage_eq, lookup_snoc_eq|]. apply wp_ret.
  split; [eexists [_; _]; simpl; by rewrite <- app_assoc|].
  eexists. split; [by eexists _, _, _|]. split_and!; [done | done|].
  eexists. split_and!; [done | simpl; rewrite length_app; lia | apply lookup_snoc_eq].
Qed.

Lemma classify_ok ctx l s w :
  msg_Parts (LastMessage s) <> [] -> w_heap w !! l = Some s ->
  wp (node_Process classifyNode ctx l)
    (returns (fun res w' => heap_frame w w' /\ exists b, classifies s b /\ behaves w w' b res)) w.
Proof.
  intros Hp Hl. cbn [node_Process classifyNode]. eapply says_after; [reflexivity | done|].
  eapply says_after; [unfold load; cbn [w_heap set_orc]; by rewrite Hl | done|].
  destruct (msg_Parts (LastMessage s)) as [|p ps] eqn:Hps; [done|].
  eapply wp_bind_Ret; [by eapply WithVariable_eq|]. eapply wp_bind_Ret; [reflexivity|].
  eapply wp_bind_Ret; [eapply WithMessage_eq, lookup_snoc_eq|]. apply wp_ret.
  split; [eexists [_; _]; simpl; by rewrite <- app_assoc|].
  eexists. split; [exists p, ps; split; [done | by eexists]|].
  split_and!; [done | done|].
  eexists. split_and!; [done | simpl; rewrite length_app; lia | apply lookup_snoc_eq].
Qed.

Lemma review_ok ctx l s w :
  w_heap w !! l = Some s ->
  wp (node_Process humanReviewNode ctx l)
    (returns (fun res w' => heap_frame w w' /\ exists b, reviews s b /\ behaves w w' b res)) w.
Proof.
  intros Hl. cbn [node_Process humanReviewNode]. eapply says_after; [reflexivity | done|].
  eapply says_after; [unfold load; cbn [w_heap set_orc]; by rewrite Hl | done|].
  unfold reviews. destruct (is_approved s).
  - eapply says_after; [reflexivity | done|]. by apply (says_ok _ _ (fun _ => _)).
  - apply wp_ret. split; [apply heap_frame_refl|]. eexists. split; [done|].
    split_and!; [done | done|]. intros ae Hae. injection Hae as <-. by eexists.
Qed.

Lemma respond_ok ctx id tmpl l s w :
  w_heap w !! l = Some s ->
  wp (node_Process (respondNode id tmpl) ctx l)
    (returns (fun res w' => heap_frame w w' /\
       exists b, says RoleAssistant tmpl s b /\ behaves w w' b res)) w.
Proof.
  intros Hl. cbn [node_Process respondNode]. eapply says_after; [reflexivity | done|].
  eapply says_after; [unfold load; cbn [w_heap set_orc]; by rewrite Hl | done|].
  eapply says_after; [reflexivity | done|]. by apply says_ok.
Qed.

Lemma intake_ok ctx l s w :
  w_heap w !! l = Some s ->
  wp (node_Process intakeNode ctx l)
    (returns (fun res w' => heap_frame w w' /\
       exists b, says RoleUser message_of s b /\ behaves w w' b res)) w.
Proof.
  intros Hl. cbn [node_Process intakeNode]. eapply says_after; [reflexivity | done|].
  eapply says_after; [unfold load; cbn [w_heap set_orc]; by rewrite Hl | done|].
  eapply says_after; [reflexivity | done|]. by apply (says_ok _ _ message_of).
Qed.
End nodes_ok.

(** ** Lemmas: the hook and the engine *)

Section engine_ok.
Context {E : Type} `{!PlanDocs E} `{!Has InMemoryStore E} `{!Has sseHub E} (lib : Libs).
Implicit Types w : World E.

Lemma frames_publish sid ev : frames (publish (E := E) sid ev).
Proof.
  apply frames_bind; [apply frames_bind; [apply frames_get | intros; apply frames_ret]|].
  intros [c|]; [|apply frames_ret]. apply frames_bind; [apply frames_get|]. intros h.
  destruct (hub_chans h !! c) as [ch|]; [|apply frames_ret].
  destruct (try_send ev ch); [apply frames_put | apply ends_panic, _].
Qed.

Lemma frames_snapshotOf state : frames (snapshotOf (E := E) lib state).
Proof.
  destruct state as [l|]; [|apply frames_ret]. apply frames_bind; [apply frames_load|]. intros s.
  apply frames_bind; [|intros; apply frames_ret]. intros w. split; [done | apply heap_frame_refl].
Qed.

Lemma frames_vizHook sid state meta : frames (OnHook (vizHook (E := E) lib sid) state meta).
Proof. apply frames_bind; [apply frames_snapshotOf | intros; apply frames_publish]. Qed.

Abbreviation the_engine sid := (session_engine (E := E) lib the_graph InMemory sid).

Lemma node_of_graph id node :
  b_nodes (the_builder (E := E)) !! id = Some node ->
  node ∈ demo_nodes (ExecuteInOrder demo_registry) /\ node_ID node = id.
Proof.
  unfold the_builder. generalize (demo_nodes (E := E) (ExecuteInOrder demo_registry)). intros ns H.
  change (b_nodes (foldl (fun b n => (AddNode n b).1) NewBuilder ns) !! id = Some node) in H.
  apply add_nodes_lookup in H as [H|H]; [|done].
  unfold NewBuilder in H. cbn [b_nodes] in H. by rewrite lookup_empty in H.
Qed.

Lemma engine_graph sid : graph_of (the_engine sid) = the_graph.
Proof. reflexivity. Qed.

Lemma the_graph_Nodes : Nodes (the_graph (E := E)) = b_nodes the_builder.
Proof. reflexivity. Qed.

Lemma the_graph_Edges : Edges (the_graph (E := E)) = b_edges the_builder.
Proof. reflexivity. Qed.

(** One iteration of a session that is running. *)
Lemma demo_step sid s v :
  Status s = StatusRunning -> (0 <= StepCount s < 100)%Z -> LastNodeID s ∈ node_behaviours.*1 ->
  steps_to (the_engine sid) demo_behaviours s v ->
  exists f b, alookup (LastNodeID s) node_behaviours = Some f /\ f s b /\
    after (the_engine sid) demo_behaviours (LastNodeID s) s b v.
Proof.
  intros Hst Hn Hid. unfold steps_to. rewrite Hst. cbn [bool_decide].
  rewrite !bool_decide_eq_false_2 by done. cbn [orb].
  change (maxSteps (the_engine sid)) with 100%Z. destruct (Z.leb_spec 100 (StepCount s)); [lia|].
  unfold Graph_Node. rewrite engine_graph, the_graph_Nodes.
  destruct (the_builder_nodes (E := E) (LastNodeID s) Hid) as [n Hnode].
  rewrite Hnode.
  intros (b & Hb & Hv). cbn [may_node demo_behaviours] in Hb.
  destruct (alookup (LastNodeID s) node_behaviours) as [f|] eqn:Hf; [|done]. by exists f, b.
Qed.

Definition static_next : list (string * string) :=
  [("intake", "classify"); ("refund_tool", "respond_refund"); ("query_tool", "respond_query");
   ("human_review", "respond_escalated")].

Definition next_node (s : AgentState) : string :=
  if decide (LastNodeID s = "classify") then intent_target s
  else default "" (alookup (LastNodeID s) static_next).

Lemma demo_routes sid s choice :
  routes (the_engine sid) demo_behaviours s choice -> choice = (next_node s, None).
Proof.
  unfold routes. rewrite engine_graph, the_graph_Edges, the_builder_edges. cbn [first_edge FromID IsCond ToID demo_behaviours may_route].
  unfold next_node, static_next. cbn [alookup]. intros Hr.
  repeat match type of Hr with context [decide ?P] =>
    destruct (decide P) as [Hd|?]; [rewrite <- Hd; exact Hr|] end.
  rewrite decide_False by congruence. by rewrite !(proj2 (String.eqb_neq _ _)) by congruence.
Qed.

Lemma demo_advance sid id s v :
  LastNodeID s = id -> advances (the_engine sid) demo_behaviours id s [] None v ->
  v = settle (the_engine sid) id s (next_node s, None).
Proof. intros _ (choice & -> & Hc%demo_routes). by subst. Qed.

Lemma intent_target_ne s : intent_target s <> "classify".
Proof. unfold intent_target. repeat case_match; done. Qed.

(** Only the first node leads to the classifier, and it leaves a message. *)
Lemma demo_visits sid s s' :
  steps_to (the_engine sid) demo_behaviours s (inl s') ->
  LastNodeID s' = "classify" -> msg_Parts (LastMessage s') <> [].
Proof.
  intros Hs Hc. unfold steps_to in Hs.
  destruct (bool_decide _ || bool_decide _); [by destruct Hs as (? & ? & ?)|].
  destruct (_ <=? _)%Z; [done|]. destruct (Graph_Node _ _); [|done]. destruct Hs as (b & Hb & Hv).
  cbn [may_node demo_behaviours] in Hb. destruct (alookup _ _) as [f|] eqn:Hf; [|done].
  apply alookup_Some_elem in Hf. set (id := LastNodeID s) in *. clearbody id.
  assert (Ha : forall s2 next, LastNodeID s2 = id -> next_node s2 = next -> next <> "classify" ->
    advances (the_engine sid) demo_behaviours id s2 [] None (inl s') -> False).
  { intros s2 next Hid Hn Hne H%demo_advance; [|done]. rewrite Hn in H.
    unfold settle in H. cbn [fst snd] in H.
    destruct (bool_decide (next = "")); [by destruct (is_terminal _ _)|]. apply (inj inl) in H. by subst s'. }
  repeat (apply elem_of_cons in Hf as [[= -> ->]|Hf]); [..|by apply elem_of_nil in Hf].
  - destruct Hb as [t ->]. apply demo_advance in Hv; [|done].
    apply (inj inl) in Hv. subst s'. unfold LastMessage. cbn [Messages]. simpl. by rewrite last_snoc.
  - destruct Hb as (p & ps & _ & t & ->). exfalso. eapply Ha; [| |apply intent_target_ne|exact Hv]; done.
  - destruct Hb as (? & ? & ? & ->). exfalso. by eapply (Ha _ "respond_refund"); [| | |exact Hv].
  - destruct Hb as (? & ? & ? & ->). exfalso. by eapply (Ha _ "respond_query"); [| | |exact Hv].
  - unfold reviews in Hb. exfalso. destruct (is_approved s).
    + destruct Hb as [? ->]. by eapply (Ha _ "respond_escalated"); [| | |exact Hv].
    + subst b. cbn [after] in Hv. change (needs_human approval_needed) with true in Hv. done.
  - destruct Hb as [? ->]. exfalso. by eapply (Ha _ ""); [| | |exact Hv].
  - destruct Hb as [? ->]. exfalso. by eapply (Ha _ ""); [| | |exact Hv].
  - destruct Hb as [? ->]. exfalso. by eapply (Ha _ ""); [| | |exact Hv].
Qed.

#[export] Instance demo_conforms sid : Conforms (the_engine sid) demo_behaviours.
Proof.
  split; [done|..].
  - intros node ctx l s w Ht Hn Hv Hl. cbn [may_call may_visit demo_behaviours] in Ht, Hv.
    rewrite engine_graph, the_graph_Nodes in Hn. apply node_of_graph in Hn as [Hin Hid]. unfold may_node, demo_behaviours. rewrite <- Hid in *.
    unfold demo_nodes in Hin.
    repeat (apply elem_of_cons in Hin as [->|Hin]); [..|by apply elem_of_nil in Hin]; cbn [node_ID] in *.
    + by apply intake_ok.
    + by apply classify_ok; [apply Hv|].
    + by apply (toolCall_ok ctx "refund_tool" (fun s => refund_text (message_of s))).
    + by apply (toolCall_ok ctx "query_tool" (fun s => query_text (message_of s))).
    + by apply review_ok.
    + by apply respond_ok.
    + by apply respond_ok.
    + by apply respond_ok.
  - intros s s' _ Hs. exact (demo_visits sid s s' Hs).
  - intros edge ctx l s w He Hc Hl. rewrite engine_graph, the_graph_Edges, the_builder_edges in He.
    repeat (apply elem_of_cons in He as [->|He]; [try done|]); [|by apply elem_of_nil in He].
    exists intent_router. split; [done|]. eapply rt_load; [done|]. apply wp_ret. split; [done | apply heap_frame_refl].
  - intros ctx sid' l s w Hl. unfold wp. change (ms_Save _ ctx sid' l) with (Save (E := E) ctx sid' l).
    rewrite (Save_eq ctx sid' l s w Hl). destruct (marshal_AgentState _ s); (split; [done | by apply heap_frame_eq]).
  - done.
  - intros h pt meta Hh. apply list_elem_of_singleton in Hh as ->. apply frames_vizHook.
  - done.
  - done.
  - done.
Qed.

(** A session that is about to run a node. *)
Record stage (id : string) (n : Z) (vars : gmap string any) (sp : list Message) (s : AgentState) : Prop := mkStage {
  stage_Status : Status s = StatusRunning;
  stage_node : LastNodeID s = id;
  stage_steps : StepCount s = n;
  stage_vars : Variables s = Some vars;
  stage_spoken : spoken s = sp;
  stage_artifacts : Artifacts s = [];
}.

Lemma spoken_message m s : spoken (with_message m s) = spoken s ++ [untimed m].
Proof. unfold spoken. simpl. by rewrite fmap_app. Qed.

Lemma stage_var id n vars sp s key : stage id n vars sp s -> var_get s key = vars !! key.
Proof. intros []. unfold var_get. by rewrite stage_vars0. Qed.

Lemma last_spoken s sp r p :
  spoken s = sp ++ [said r p] -> exists ms m, Messages s = ms ++ [m] /\ msg_Parts m = [p].
Proof.
  unfold spoken. intros H. destruct (Messages s) as [|m ms _] using rev_ind; [by destruct sp|].
  rewrite fmap_app in H. apply app_inj_tail in H as [_ Hm]. exists ms, m. split; [done | by injection Hm].
Qed.

Lemma last_result s sp r id x b :
  spoken s = sp ++ [said r (tool_result_part (mkToolResultPart id x b))] -> lastToolResult s = x.
Proof.
  intros (ms & m & Hms & Hp)%last_spoken. unfold lastToolResult. rewrite Hms, reverse_snoc. simpl.
  by rewrite Hp.
Qed.

Lemma runs_inv sid s r :
  runs_to (the_engine sid) demo_behaviours s r ->
  steps_to (the_engine sid) demo_behaviours s (inr r) \/
  exists s', steps_to (the_engine sid) demo_behaviours s (inl s') /\ runs_to (the_engine sid) demo_behaviours s' r.
Proof. intros H. inversion H; subst; [by left | right; by eexists]. Qed.

(** A node that yields a state and goes on, or ends the session. *)
Lemma stage_step sid id n vars sp s r f (P : AgentState -> Prop) :
  stage id n vars sp s -> (0 <= n < 100)%Z -> alookup id node_behaviours = Some f ->
  (forall b, f s b -> exists s', P s' /\ b = Yields s' [] None) ->
  runs_to (the_engine sid) demo_behaviours s r ->
  exists s', P s' /\
    let s2 := set_LastNodeID id (set_StepCount (n + 1) s') in
    if bool_decide (next_node s2 = "") then
      r = (with_status (if is_terminal (the_graph (E := E)) id then StatusCompleted else StatusFailed) s2,
           if is_terminal (the_graph (E := E)) id then None else Some ErrNoNextNode)
    else runs_to (the_engine sid) demo_behaviours (set_LastNodeID (next_node s2) s2) r.
Proof.
  intros [Hst Hid Hn _ _ _] Hr Hf Hy Hrun.
  assert (Hin : LastNodeID s ∈ node_behaviours.*1).
  { rewrite Hid. apply alookup_Some_elem in Hf. by apply (list_elem_of_fmap_2 fst) in Hf. }
  assert (Hi : int64 (n + 1) = (n + 1)%Z) by (apply int64_id; unfold in_int64, MinInt64, MaxInt64; lia).
  assert (Hstep : forall v, steps_to (the_engine sid) demo_behaviours s v ->
    exists s', P s' /\ v = settle (the_engine sid) id (set_LastNodeID id (set_StepCount (n + 1) s'))
      (next_node (set_LastNodeID id (set_StepCount (n + 1) s')), None)).
  { intros v Hv. apply demo_step in Hv as (f' & b & Hf' & Hb & Hv); [|done|lia|done].
    rewrite Hid, Hf in Hf'. injection Hf' as <-. destruct (Hy b Hb) as (s' & HP & ->).
    exists s'. split; [done|]. rewrite Hid in Hv. cbn [after] in Hv. rewrite Hn, Hi in Hv.
    by apply demo_advance in Hv. }
  apply runs_inv in Hrun as [Hs|(s1 & Hs & Hrun)]; apply Hstep in Hs as (s' & HP & Hs); exists s'; (split; [done|]);
    unfold settle, spec_stop in Hs; cbn [fst snd] in Hs; cbv zeta; destruct (bool_decide _); try done.
  - rewrite engine_graph in Hs.
    destruct (is_terminal (the_graph (E := E)) id); by apply (inj inr) in Hs.
  - rewrite engine_graph in Hs.
    by destruct (is_terminal (the_graph (E := E)) id).
  - apply (inj inl) in Hs. by subst s1.
Qed.

Lemma stage_on id n vars sp s next s' sp' :
  stage id n vars sp s -> Variables s' = Some vars -> Status s' = Status s -> spoken s' = sp' -> Artifacts s' = Artifacts s ->
  stage next (n + 1) vars sp' (set_LastNodeID next (set_LastNodeID id (set_StepCount (n + 1) s'))).
Proof. intros [] ? ? ? ?. split; [simpl; congruence | done.. | simpl; congruence]. Qed.

Lemma next_static id next s :
  LastNodeID s = id -> alookup id static_next = Some next -> next_node s = next.
Proof.
  intros Hid Hn. unfold next_node. case_decide as Hc; [by rewrite Hid in Hc; rewrite Hc in Hn | by rewrite Hid, Hn].
Qed.

(** A node with one successor that says something. *)
Lemma stage_says sid id n vars sp s r role text next :
  stage id n vars sp s -> (0 <= n < 100)%Z -> alookup id node_behaviours = Some (says role text) ->
  alookup id static_next = Some next ->
  runs_to (the_engine sid) demo_behaviours s r ->
  exists s', stage next (n + 1) vars (sp ++ [said role (text_part (text s))]) s' /\
    runs_to (the_engine sid) demo_behaviours s' r.
Proof.
  intros Hs Hn Hf Hnext Hrun.
  eapply (stage_step _ _ _ _ _ _ _ _ (fun s' => exists t, s' = with_message (timed_message role (text_part (text s)) t) s))
    in Hrun as (s' & [t ->] & Hrun); [|done..|intros b [t ->]; by eauto].
  cbv zeta in Hrun. rewrite (next_static id next) in Hrun by done.
  assert (next <> "") as Hne.
  { intros ->. apply alookup_Some_elem in Hnext.
    repeat (apply elem_of_cons in Hnext as [[= ]|Hnext]); [by apply elem_of_nil in Hnext..]. }
  rewrite bool_decide_eq_false_2 in Hrun by done. eexists. split; [|exact Hrun].
  eapply stage_on; [exact Hs | | done | rewrite spoken_message; by rewrite (stage_spoken _ _ _ _ _ Hs) | done].
  simpl. by rewrite (stage_vars _ _ _ _ _ Hs).
Qed.

(** The last node of a session. *)
Lemma stage_ends sid id n vars sp s r role text :
  stage id n vars sp s -> (0 <= n < 100)%Z -> alookup id node_behaviours = Some (says role text) ->
  id ∈ ["respond_refund"; "respond_query"; "respond_escalated"] ->
  runs_to (the_engine sid) demo_behaviours s r ->
  r.2 = None /\ Status r.1 = StatusCompleted /\ LastNodeID r.1 = id /\
  spoken r.1 = sp ++ [said role (text_part (text s))] /\ Variables r.1 = Some vars.
Proof.
  intros Hs Hn Hf Hid Hrun.
  assert (Ht : is_terminal (the_graph (E := E)) id = true /\ alookup id static_next = None /\ id <> "classify").
  { clear Hs Hf Hrun. revert id Hid. apply Forall_forall. repeat constructor; done. }
  destruct Ht as (Ht & Hnone & Hc).
  eapply (stage_step _ _ _ _ _ _ _ _ (fun s' => exists t, s' = with_message (timed_message role (text_part (text s)) t) s))
    in Hrun as (s' & [t ->] & Hrun); [|done..|intros b [t ->]; by eauto].
  cbv zeta in Hrun. unfold next_node in Hrun. cbn [LastNodeID set_LastNodeID] in Hrun.
  rewrite decide_False, Hnone in Hrun by done. cbn [default] in Hrun. rewrite bool_decide_eq_true_2 in Hrun by done.
  rewrite Ht in Hrun. subst r. cbn [fst snd]. split_and!; [done | done | done | |].
  - change (spoken (with_message (timed_message role (text_part (text s)) t) s) = sp ++ [said role (text_part (text s))]).
    rewrite spoken_message. by rewrite (stage_spoken _ _ _ _ _ Hs).
  - simpl. by rewrite (stage_vars _ _ _ _ _ Hs).
Qed.

Lemma stage_calls sid id n vars sp s r text next :
  stage id n vars sp s -> (0 <= n < 100)%Z -> alookup id node_behaviours = Some (calls_echo text) ->
  alookup id static_next = Some next -> next <> "" ->
  runs_to (the_engine sid) demo_behaviours s r ->
  exists cid s', stage next (n + 1) vars (sp ++ echoed cid (text s)) s' /\
    runs_to (the_engine sid) demo_behaviours s' r.
Proof.
  intros Hs Hn Hf Hnext Hne Hrun.
  eapply (stage_step _ _ _ _ _ _ _ _ (fun s' => exists cid, Variables s' = Some vars /\ Status s' = Status s /\
    spoken s' = sp ++ echoed cid (text s) /\ Artifacts s' = Artifacts s)) in Hrun as (s' & (cid & Hv & Hst & Hsp & Ha) & Hrun);
    [|done..|intros b (cid & t & t' & ->)].
  - cbv zeta in Hrun. rewrite (next_static id next) in Hrun by done.
    rewrite bool_decide_eq_false_2 in Hrun by done. exists cid. eexists. split; [|exact Hrun]. by eapply stage_on.
  - eexists. split; [|done]. exists cid. split_and!; [|done| |done].
    + simpl. by rewrite (stage_vars _ _ _ _ _ Hs).
    + rewrite !spoken_message, (stage_spoken _ _ _ _ _ Hs), <- app_assoc. done.
Qed.

Definition target_of (intent : string) : string :=
  if bool_decide (intent = "refund") then "refund_tool"
  else if bool_decide (intent = "query") then "query_tool" else "human_review".

Lemma stage_classifies sid n vars sp role message s r :
  stage "classify" n vars (sp ++ [said role (text_part message)]) s -> (0 <= n < 100)%Z ->
  runs_to (the_engine sid) demo_behaviours s r ->
  exists s', stage (target_of (classified message)) (n + 1)
      (<["intent" := AString (classified message)]> vars)
      (sp ++ [said role (text_part message); said RoleAssistant (intent_part message)]) s' /\
    runs_to (the_engine sid) demo_behaviours s' r.
Proof.
  intros Hs Hn Hrun. destruct (last_spoken _ _ _ _ (stage_spoken _ _ _ _ _ Hs)) as (ms & m & Hms & Hp).
  assert (Hlast : msg_Parts (LastMessage s) = [text_part message]).
  { unfold LastMessage. by rewrite Hms, last_snoc. }
  eapply (stage_step _ _ _ _ _ _ _ _ (fun s' => exists t, s' =
    with_message (timed_message RoleAssistant (intent_part message) t)
      (with_variable "intent" (AString (classified message)) s))) in Hrun as (s' & [t ->] & Hrun); [|done..|].
  2: { intros b (p & ps & Hpp & t & ->). rewrite Hlast in Hpp. injection Hpp as <- <-. by eauto. }
  cbv zeta in Hrun. set (s2 := set_LastNodeID "classify" _) in Hrun.
  assert (Hvars : Variables s2 = Some (<["intent" := AString (classified message)]> vars)).
  { simpl. by rewrite (stage_vars _ _ _ _ _ Hs). }
  assert (next_node s2 = target_of (classified message)) as Hnext.
  { unfold next_node. rewrite decide_True by done. unfold intent_target, var_get.
    by rewrite Hvars, lookup_insert_eq. }
  rewrite Hnext in Hrun. rewrite bool_decide_eq_false_2 in Hrun by (unfold target_of; repeat case_match; done).
  eexists. split; [|exact Hrun]. split; [simpl; apply Hs | done | done | done | | simpl; apply Hs].
  change (spoken (with_message (timed_message RoleAssistant (intent_part message) t)
    (with_variable "intent" (AString (classified message)) s)) =
    sp ++ [said role (text_part message); said RoleAssistant (intent_part message)]).
  rewrite spoken_message. change (spoken (with_variable _ _ s)) with (spoken s).
  by rewrite (stage_spoken _ _ _ _ _ Hs), <- app_assoc.
Qed.

Lemma stage_review sid n vars sp s r :
  stage "human_review" n vars sp s -> (0 <= n < 100)%Z -> is_approved s = false ->
  runs_to (the_engine sid) demo_behaviours s r ->
  r = (with_status StatusPaused (set_StepCount (n + 1) s), None).
Proof.
  intros [Hst Hid Hn _ _ _] Hr Ha Hrun.
  assert (Hi : int64 (n + 1) = (n + 1)%Z) by (apply int64_id; unfold in_int64, MinInt64, MaxInt64; lia).
  assert (Hstep : forall v, steps_to (the_engine sid) demo_behaviours s v ->
    v = inr (with_status StatusPaused (set_StepCount (n + 1) s), None)).
  { intros v Hv. apply demo_step in Hv as (f & b & Hf & Hb & Hv); [|done|lia|rewrite Hid; by apply (bool_decide_unpack _)].
    rewrite Hid in Hf, Hv. injection Hf as <-. unfold reviews in Hb. rewrite Ha in Hb. subst b.
    cbn [after] in Hv. change (needs_human approval_needed) with true in Hv. cbn iota in Hv.
    by rewrite Hn, Hi in Hv. }
  apply runs_inv in Hrun as [Hs|(s1 & Hs & _)]; apply Hstep in Hs; [by apply (inj inr) in Hs | done].
Qed.

Lemma classified_cases message :
  classified message = "refund" \/ classified message = "query" \/ classified message = "escalate".
Proof. unfold classified. repeat case_match; auto. Qed.

Lemma stage_message id n vars sp s message :
  stage id n vars sp s -> vars !! userMessageKey = Some (AString message) -> message_of s = message.
Proof.
  intros Hs Hv. unfold message_of, string_variable, GetStringVariable.
  by rewrite (stage_var _ _ _ _ _ _ Hs), Hv.
Qed.

(** A tool and the reply to its result. *)
Lemma stage_tool sid id next n vars sp s r text reply :
  stage id n vars sp s -> (0 <= n < 99)%Z ->
  alookup id node_behaviours = Some (calls_echo text) -> alookup id static_next = Some next ->
  alookup next node_behaviours = Some (says RoleAssistant reply) ->
  next ∈ ["respond_refund"; "respond_query"; "respond_escalated"] ->
  runs_to (the_engine sid) demo_behaviours s r ->
  exists cid s', r.2 = None /\ Status r.1 = StatusCompleted /\ LastNodeID r.1 = next /\
    lastToolResult s' = text s /\
    spoken r.1 = sp ++ echoed cid (text s) ++ [said RoleAssistant (text_part (reply s'))].
Proof.
  intros Hs Hn Hf Hnext Hg Hin Hrun.
  eapply stage_calls in Hrun as (cid & s1 & Hs1 & Hrun); [|exact Hs | lia | exact Hf | exact Hnext |].
  - eapply stage_ends in Hrun as (He & H1 & H2 & H3 & _); [|exact Hs1 | lia | exact Hg | exact Hin].
    exists cid, s1. split_and!; [done | done | done | | by rewrite H3, <- app_assoc].
    eapply (last_result s1 (sp ++ [_])). by rewrite (stage_spoken _ _ _ _ _ Hs1), <- app_assoc.
  - intros ->. by apply alookup_Some_elem, (list_elem_of_fmap_2 fst), (bool_decide_pack _) in Hg.
Qed.

(** The whole path of a message. *)
Lemma runs_served sid message s r :
  stage "intake" 0 {[userMessageKey := AString message]} [] s ->
  runs_to (the_engine sid) demo_behaviours s r -> r.2 = None /\ served message r.1.
Proof.
  intros Hs Hrun.
  eapply stage_says in Hrun as (s1 & Hs1 & Hrun); [|exact Hs | lia | reflexivity..].
  rewrite (stage_message _ _ _ _ _ message Hs) in Hs1 by apply lookup_singleton_eq.
  eapply (stage_classifies _ _ _ []) in Hrun as (s2 & Hs2 & Hrun); [|exact Hs1 | lia].
  cbn [app] in Hs2. set (vars := <["intent" := _]> _) in Hs2.
  assert (Hm : message_of s2 = message) by (by eapply stage_message).
  destruct (classified_cases message) as [Hc|[Hc|Hc]]; rewrite Hc in Hs2.
  - eapply (stage_tool _ _ "respond_refund") in Hrun as (cid & s' & He & H1 & H2 & H3 & H4);
      [|exact Hs2 | lia | reflexivity.. | by apply (bool_decide_unpack _)].
    split; [done|]. cbv beta in *. rewrite Hm in *. eapply (served_refund _ _ cid); [done..|].
    rewrite H4. unfold refund_reply. by rewrite H3.
  - eapply (stage_tool _ _ "respond_query") in Hrun as (cid & s' & He & H1 & H2 & H3 & H4);
      [|exact Hs2 | lia | reflexivity.. | by apply (bool_decide_unpack _)].
    split; [done|]. cbv beta in *. rewrite Hm in *. eapply (served_query _ _ cid); [done..|].
    rewrite H4. unfold query_reply. by rewrite H3.
  - assert (is_approved s2 = false) as Ha.
    { unfold is_approved. by rewrite (stage_var _ _ _ _ _ _ Hs2). }
    eapply stage_review in Hrun; [|exact Hs2 | lia | done]. subst r. split; [done|]. cbn [fst].
    destruct Hs2 as [? ? ? Hv Hsp Ha2]. apply served_escalate; [done | done | done | | done | done |].
    + exact Hsp.
    + simpl. unfold vars in Hv. rewrite Hc in Hv. by rewrite Hv.
Qed.

Definition first_state (message : string) : AgentState :=
  with_variable userMessageKey (AString message) NewState.

Lemma start_serves fuel ctx sid message l w :
  tenant_of ctx = "" -> 100 < fuel -> w_heap w !! l = Some (first_state message) ->
  wp (Start fuel (the_engine sid) ctx sid (Some l))
    (returns (fun r w' => exists l' s, r = (Some l', None) /\ w_heap w' !! l' = Some s /\ served message s)) w.
Proof.
  intros Ht Hf Hl. eapply wp_mono; [eapply (start_runs (the_engine sid) demo_behaviours fuel ctx sid l (first_state message))|].
  - exact Ht.
  - done.
  - exact Hl.
  - done.
  - done.
  - simpl. lia.
  - intros [r|v|] w'; [|done..]. intros (s & err & Hrun & Herr & Hs).
    apply (runs_served sid message) in Hrun as [He Hserved]; [|by split].
    cbn [fst snd] in *. destruct r as [[l'|] err']; [|done]. cbn [fst snd] in *. subst. by exists l', s.
Qed.

(** The state that [Start] hands back is the one it saved last. *)
Lemma start_saved fuel ctx sid l w :
  wp (Start fuel (the_engine sid) ctx sid (Some l))
    (if_returns (fun r w' => exists l' s w0 res, r.1 = Some l' /\ w_heap w0 !! l' = Some s /\
       Save (E := E) (in_session ctx sid) sid l' w0 = (Ret res, w'))) w.
Proof.
  unfold Start. do 4 (apply ir_bind; intros ? ? _). eapply wp_mono; [apply exit_loop|].
  intros [r|v|] wf; [|done..]. intros (l' & s & ckpt & serr & w0 & w1 & pause & Hr & Hl & Hsave & _ & Hann).
  exists l', s, w0, (ckpt, serr). split_and!; [done | done|].
  assert (wf = w1) as -> by by destruct pause. exact Hsave.
Qed.

(** *** A session that waits for an approval, after a save and a load *)

Lemma text_messages_marshal pj sp ms :
  untimed <$> ms = sp -> Forall (fun m => exists r t, m = said r (text_part t)) sp ->
  is_Some (marshal_list (marshal_Message pj) ms) /\ norm_Message pj <$> ms = ms.
Proof.
  intros <- Hall. induction ms as [|[i r ps t md c tk] ms IH]; [by split; [eexists|]|].
  csimpl in Hall. apply Forall_cons in Hall as [(r' & t' & [= -> -> -> -> -> ->]) Hall].
  destruct (IH Hall) as [[j Hj] Hn]. split; [|csimpl; by rewrite Hn].
  apply fmap_Some in Hj as (js & Hjs & _). unfold marshal_list. rewrite fmap_cons. cbn [all_some].
  rewrite Hjs. by eexists.
Qed.

Lemma strings_marshal pj (m : gmap string any) :
  map_Forall (fun _ v => exists t, v = AString t) m ->
  is_Some (marshal_amap pj (map_to_list m)) /\ norm_any pj <$> m = m.
Proof.
  intros Hm. split.
  - unfold marshal_amap. assert (Hl : Forall (fun kv => exists t, kv.2 = AString t) (map_to_list m)).
    { apply Forall_forall. intros [k v] Hkv%elem_of_map_to_list. by apply Hm in Hkv. }
    induction Hl as [|[k v] l [t Ht] _ [j IH]]; [by eexists|]. simpl in Ht. subst v. csimpl.
    apply fmap_Some in IH as (js & IH & _). rewrite IH. by eexists.
  - apply map_eq. intros k. rewrite lookup_fmap. destruct (m !! k) as [v|] eqn:Hv; [|done].
    by apply Hm in Hv as [t ->].
Qed.

Lemma waiting_roundtrip pj message s :
  served message s -> classified message = "escalate" ->
  exists doc, marshal_AgentState pj s = Some doc /\ unmarshal_AgentState doc = Some s.
Proof.
  intros Hs Hc. destruct Hs as [? Hc'|? Hc'|_ Hst Hid Hsp Hn Ha Hv]; [congruence..|].
  destruct (text_messages_marshal pj _ _ Hsp) as [[ms Hms] Hnm].
  { repeat constructor; by eexists _, _. }
  assert (Hmap : map_Forall (fun _ v => exists t, v = AString t)
    (<["intent" := AString "escalate"]> {[userMessageKey := AString message]} : gmap string any)).
  { apply map_Forall_insert_2; [by eexists|]. apply map_Forall_singleton. by eexists. }
  destruct (strings_marshal pj _ Hmap) as [[vs Hvs] Hnv].
  assert (exists doc, marshal_AgentState pj s = Some doc) as [doc Hdoc].
  { unfold marshal_AgentState. rewrite Hms, Hv, Ha. unfold marshal_Variables. rewrite Hvs. by eexists. }
  exists doc. split; [done|]. rewrite (unmarshal_marshal_AgentState _ _ _ Hdoc). f_equal.
  unfold norm_AgentState. rewrite Hnm, Hv, Ha. cbn [fmap option_fmap option_map].
  destruct s. simpl in *. by subst.
Qed.

(** Whatever the answer, the session goes on after the review. *)
Lemma resume_escalates fuel ctx sid message approved s l w0 w :
  tenant_of ctx = "" -> 100 < fuel -> served message s -> classified message = "escalate" ->
  Load (E := E) ctx sid w0 = (Ret (Some l, None), w) -> w_heap w !! l = Some s ->
  wp (Resume fuel (the_engine sid) ctx sid [("approved", ABool approved)])
    (returns (fun r w' => exists l' s', r = (Some l', None) /\ w_heap w' !! l' = Some s' /\
       Status s' = StatusCompleted /\ LastNodeID s' = "respond_escalated" /\
       var_get s' "approved" = Some (ABool approved) /\
       spoken s' = opening message ++ [said RoleAssistant (text_part (escalated_reply s))])) w0.
Proof.
  intros Ht Hf Hs Hc Hload Hl. destruct Hs as [? Hc'|? Hc'|_ Hst Hid Hsp Hn Ha Hv]; [congruence..|].
  set (inj := [("approved", ABool approved)]).
  assert (Hstage : forall r, runs_to (the_engine sid) demo_behaviours
      (set_LastNodeID "respond_escalated" (spec_injected inj s)) r ->
    r.2 = None /\ Status r.1 = StatusCompleted /\ LastNodeID r.1 = "respond_escalated" /\
    spoken r.1 = opening message ++ [said RoleAssistant (text_part (escalated_reply s))] /\
    Variables r.1 = Some (<["approved" := ABool approved]>
      (<["intent" := AString "escalate"]> {[userMessageKey := AString message]}))).
  { intros r Hrun. eapply (stage_ends _ _ 3) in Hrun; [exact Hrun | | lia | reflexivity | by apply (bool_decide_unpack _)].
    split; [done | done | exact Hn | by simpl; rewrite Hv | exact Hsp | exact Ha]. }
  eapply wp_mono; [eapply (resume_runs (the_engine sid) demo_behaviours fuel ctx sid inj l s "respond_escalated")|].
  - exact Hload.
  - exact Hl.
  - done.
  - by rewrite Hn.
  - done.
  - rewrite Hn. simpl. lia.
  - done.
  - exact Ht.
  - done.
  - intros choice Hr%demo_routes. by rewrite (next_static "human_review" "respond_escalated") in Hr.
  - intros [r|v|] wf; [|done..]. intros (s' & err & Hrun & Herr & Hs').
    apply Hstage in Hrun as (He & H1 & H2 & H3 & H4).
    cbn [fst snd] in *. destruct r as [[l'|] err']; [|done]. cbn [fst snd] in *. subst.
    exists l', s'. split_and!; try done. unfold var_get. by rewrite H4, lookup_insert_eq.
Qed.
End engine_ok.

(** ** Lemmas: the hub *)

Section hub_lemmas.
Context {E : Type} `{!Has sseHub E}.
Implicit Types w : World E.

(** The session has the open channel [c], with the queue [q]. *)
Definition open_channel (sid : string) (c : nat) (q : list sseEvent) (h : sseHub) : Prop :=
  hub_chs h !! sid = Some c /\ hub_chans h !! c = Some (mkSseChan q false).

Definition hub_of (w : World E) : sseHub := get_of (w_ext w).

Lemma publish_eq sid c q ev w :
  open_channel sid c q (hub_of w) ->
  exists w', publish sid ev w = (Ret tt, w') /\
    open_channel sid c (if Nat.ltb (length q) chan_capacity then q ++ [ev] else q) (hub_of w').
Proof.
  intros [Hs Hc]. destruct (Nat.ltb (length q) chan_capacity) eqn:Hroom;
  unfold publish, channel, bind, get, put, ret, hub_of in *; cbn -[try_send]; rewrite Hs; cbn -[try_send]; rewrite Hc;
    unfold try_send; cbn [ch_closed ch_queue]; rewrite Hroom; (eexists; split; [reflexivity|]); cbn;
    rewrite get_set_of; (split; [done|]); cbn; apply list_lookup_insert_eq; by eapply lookup_lt_Some.
Qed.

Lemma receive_eq sid c q w :
  open_channel sid c q (hub_of w) ->
  exists w', receive c w = (Ret (match q with [] => None | ev :: _ => Some (Some ev) end), w') /\
    open_channel sid c (tail q) (hub_of w').
Proof.
  intros [Hs Hc]. unfold receive, bind, get, put, ret. unfold hub_of in *. cbn. rewrite Hc. cbn.
  assert (Hlt : c < length (hub_chans (get_of (w_ext w)))) by by eapply lookup_lt_Some.
  destruct q as [|ev q]; cbn; eexists; (split; [reflexivity|]); [by split|].
  cbn. rewrite get_set_of. split; [done|]. cbn. by apply list_lookup_insert_eq.
Qed.

Lemma hub_run_ok sid c ops q w :
  open_channel sid c q (hub_of w) -> length q <= chan_capacity ->
  exists evs q' w', hub_run sid c ops w = (Ret evs, w') /\ open_channel sid c q' (hub_of w') /\
    length q' <= chan_capacity /\ (evs ++ q') `sublist_of` (q ++ sent ops) /\
    (length q + length (sent ops) <= chan_capacity -> evs ++ q' = q ++ sent ops).
Proof.
  revert q w. induction ops as [|[ev|] ops IH]; intros q w Hc Hq.
  - exists [], q, w. rewrite app_nil_r. by split_and!.
  - destruct (publish_eq sid c q ev w Hc) as (w1 & Hp & Hc1). simpl. rewrite (bind_Ret _ _ _ _ _ Hp).
    destruct (Nat.ltb_spec (length q) chan_capacity) as [Hlt|Hge].
    + destruct (IH _ _ Hc1) as (evs & q' & w2 & Hr & Ho & Hl & Hsub & Heq).
      { rewrite length_app. simpl. unfold chan_capacity in *. lia. }
      exists evs, q', w2. rewrite <- app_assoc in Hsub, Heq. split_and!; try done.
      intros Hlen. apply Heq. rewrite length_app. simpl in *. lia.
    + destruct (IH _ _ Hc1 Hq) as (evs & q' & w2 & Hr & Ho & Hl & Hsub & Heq).
      exists evs, q', w2. split_and!; try done; [|intros; exfalso; simpl in *; lia].
      etransitivity; [exact Hsub|]. apply sublist_app; [done|]. by constructor.
  - destruct (receive_eq sid c q w Hc) as (w1 & Hp & Hc1). simpl. rewrite (bind_Ret _ _ _ _ _ Hp).
    destruct (IH _ _ Hc1) as (evs & q' & w2 & Hr & Ho & Hl & Hsub & Heq); [destruct q; simpl in *; lia|].
    rewrite (bind_Ret _ _ _ _ _ Hr). eexists _, q', w2. split; [reflexivity|]. split; [done|]. split; [done|].
    destruct q as [|ev q]; [by split|]. simpl in *. split; [by constructor|].
    intros Hlen. f_equal. apply Heq. lia.
Qed.
End hub_lemmas.

(** ** Properties *)

Section properties.
Context {E : Type} `{!PlanDocs E} `{!Has InMemoryStore E} `{!Has sseHub E} (lib : Libs).

(** C34: the demo answers every message. The graph is built whatever the order of
    its terminals, and on any world - any clock, any identifiers, whatever the
    hook does to the hub - [Start] returns without an error a session that ran the
    path of its intent: a refund or a query ends completed with the user's message,
    the intent, the call of the echo tool with the order identifier found in the
    text, its result, and the reply that quotes it; anything else pauses at the
    review. *)
Theorem demo_serves (order : list string) (fuel : nat) (ctx : context) (sid message : string)
    (l : loc) (w : World E) :
  (forall t, t ∈ order <-> t ∈ ["respond_refund"; "respond_query"; "respond_escalated"]) ->
  tenant_of ctx = "" -> 100 < fuel -> w_heap w !! l = Some (first_state message) ->
  exists g, demo_graph order = inl g /\
  wp (Start fuel (session_engine lib g InMemory sid) ctx sid (Some l))
    (returns (fun r w' => exists l' s, r = (Some l', None) /\ w_heap w' !! l' = Some s /\ served message s)) w.
Proof.
  intros Ho Ht Hf Hl. exists the_graph. split; [apply demo_graph_ok, Ho | by apply start_serves].
Qed.

(** The answer of the supervisor does not matter. After the run of a message
    that is neither a refund nor a query, which pauses at the review, [Resume] with
    the rejection and with the approval both end without an error, completed at the
    escalation, with the same messages: the review node is not run again, its
    message is never written, and the variable [approved] is stored and not read. *)
Theorem rejection_escalates (fuel : nat) (ctx : context) (sid message : string) (l : loc) (w : World E) :
  classified message = "escalate" -> tenant_of ctx = "" -> 100 < fuel ->
  w_heap w !! l = Some (first_state message) ->
  wp (Start fuel (session_engine lib the_graph InMemory sid) ctx sid (Some l))
    (returns (fun _ w' => forall approved,
       wp (Resume fuel (session_engine lib the_graph InMemory sid) ctx sid [("approved", ABool approved)])
         (returns (fun r w'' => exists l' s, r = (Some l', None) /\ w_heap w'' !! l' = Some s /\
            Status s = StatusCompleted /\ LastNodeID s = "respond_escalated" /\
            var_get s "approved" = Some (ABool approved) /\
            spoken s = opening message ++ [said RoleAssistant (text_part (escalated_reply s))])) w')) w.
Proof.
  intros Hc Ht Hf Hl. pose proof (start_serves lib fuel ctx sid message l w Ht Hf Hl) as H1.
  pose proof (start_saved lib fuel ctx sid l w) as H2. unfold wp in H1, H2 |- *.
  destruct (Start _ _ _ _ _ w) as [[r|v|] w']; [|done..]. cbn [fst snd returns if_returns] in *.
  destruct H1 as (l1 & s & -> & Hl1 & Hs). destruct H2 as (l2 & s2 & w0 & res & Hr & Hl2 & Hsave).
  injection Hr as <-. intros approved. rewrite (Save_eq _ _ _ _ _ Hl2) in Hsave.
  assert (s2 = s) as ->.
  { destruct (marshal_AgentState _ s2); injection Hsave as _ <-; simpl in Hl1; congruence. }
  destruct (waiting_roundtrip (plan_doc (w_ext w0)) message s Hs Hc) as (doc & Hdoc & Hun).
  rewrite Hdoc in Hsave. injection Hsave as _ <-.
  assert (Hload : Load ctx sid (after_save sid doc w0) = loaded s (after_save sid doc w0)).
  { unfold Load, bind, get. simpl. rewrite get_set_of. simpl. rewrite lookup_insert_eq.
    by apply json_Unmarshal_eq. }
  apply (resume_escalates lib fuel ctx sid message approved s _ _ _ Ht Hf Hs Hc Hload). apply lookup_snoc_eq.
Qed.

(** The events of a session come in order. Whatever the schedule of the hook
    and the reader, what the reader got and what waits in the channel is a
    subsequence of what was published - the events are neither reordered nor
    repeated, the hook never blocks - at most 32 events wait, and none is lost as
    long as no more than 32 are published. *)
Theorem hub_in_order (sid : string) (c : nat) (ops : list hub_op) (w : World E) :
  open_channel sid c [] (hub_of w) ->
  exists evs q w', hub_run sid c ops w = (Ret evs, w') /\ open_channel sid c q (hub_of w') /\
    length q <= 32 /\ (evs ++ q) `sublist_of` sent ops /\
    (length (sent ops) <= 32 -> evs ++ q = sent ops).
Proof. intros Hc. apply (hub_run_ok sid c ops [] w Hc). simpl. lia. Qed.
End properties.

(** ** Witnesses *)

Definition demo_ext : Type := InMemoryStore * sseHub.

#[local] Instance demo_ext_docs : PlanDocs demo_ext := fun _ _ => None.

Definition text_lib : Libs :=
  mkLibs (fun _ => "{}") (fun _ => None) (fun _ => inr ErrUnmarshal) (fun _ => None).

Definition message_world (message : string) : World demo_ext :=
  mkWorld [first_state message] demo_oracle
    (NewInMemoryStore, mkSseHub {["s" := 0]} [mkSseChan [] false]).

Lemma demo_serves_witness :
  classified "I want a REFUND, order #42." = "refund" /\
  refund_text "I want a REFUND, order #42." = "REFUND_OK | amount=99.00 | order=42." /\
  wp (Start 101 (session_engine text_lib the_graph InMemory "s") Background "s" (Some 0))
    (returns (fun r w' => exists l' s, r = (Some l', None) /\ w_heap w' !! l' = Some s /\
       served "I want a REFUND, order #42." s)) (message_world "I want a REFUND, order #42.").
Proof.
  split; [reflexivity|]. split; [vm_compute; reflexivity|].
  destruct (demo_serves text_lib ["respond_refund"; "respond_query"; "respond_escalated"] 101 Background "s"
    "I want a REFUND, order #42." 0 (message_world "I want a REFUND, order #42.")) as (g & Hg & Hrun);
    [done | done | lia | done |].
  rewrite demo_graph_ok in Hg by done. injection Hg as <-. exact Hrun.
Defined.

Lemma rejection_escalates_witness :
  classified "hello" = "escalate" /\
  wp (Start 101 (session_engine text_lib the_graph InMemory "s") Background "s" (Some 0))
    (returns (fun _ w' => forall approved,
       wp (Resume 101 (session_engine text_lib the_graph InMemory "s") Background "s"
             [("approved", ABool approved)])
         (returns (fun r w'' => exists l' s, r = (Some l', None) /\ w_heap w'' !! l' = Some s /\
            Status s = StatusCompleted /\ LastNodeID s = "respond_escalated" /\
            var_get s "approved" = Some (ABool approved) /\
            spoken s = opening "hello" ++ [said RoleAssistant (text_part (escalated_reply s))])) w'))
    (message_world "hello").
Proof. split; [reflexivity|]. apply rejection_escalates; [reflexivity | reflexivity | lia | reflexivity]. Defined.

Definition demo_event (n : Z) : sseEvent := mkSseEvent "node_enter" "intake" n "" None "".

Lemma hub_in_order_witness :
  open_channel "s" 0 [] (hub_of (message_world "")) /\
  exists evs q w', hub_run "s" 0 [HubSend (demo_event 0); HubReceive; HubSend (demo_event 1)]
      (message_world "") = (Ret evs, w') /\
    open_channel "s" 0 q (hub_of w') /\ length q <= 32 /\
    (evs ++ q) `sublist_of` [demo_event 0; demo_event 1] /\
    (length [demo_event 0; demo_event 1] <= 32 -> evs ++ q = [demo_event 0; demo_event 1]).
Proof.
  assert (Hc : open_channel "s" 0 [] (hub_of (message_world ""))) by (split; reflexivity).
  split; [exact Hc|].
  exact (hub_in_order "s" 0 [HubSend (demo_event 0); HubReceive; HubSend (demo_event 1)] _ Hc).
Defined.
