(* ===== verification/Regex.v ===== *)
(** * Regular expressions: package regexp on the patterns of the program

    [regexp] finds the leftmost match, and among those of one position the one a
    backtracking search meets first. The patterns of the program have character
    classes of ASCII only, so the search goes over bytes. The bodies of their
    unbounded repetitions are not empty, so a repetition has at most as many
    rounds as the text has bytes. *)

From S2P Require Import Prelude.
From Stdlib Require Import Ascii.
From stdpp Require Import base strings list.

(** [\b] is [WordB]; [Rep greedy lo hi r] is [r{lo,hi}], without a bound for
    [None], lazy when not greedy. *)
Inductive regex :=
  | Chr (p : Ascii.ascii -> bool)
  | WordB
  | Cat (r1 r2 : regex)
  | Rep (greedy : bool) (lo : nat) (hi : option nat) (r : regex).

Definition in_range (lo hi c : Ascii.ascii) : bool :=
  Nat.leb (Ascii.nat_of_ascii lo) (Ascii.nat_of_ascii c) && Nat.leb (Ascii.nat_of_ascii c) (Ascii.nat_of_ascii hi).

Definition is_digit (c : Ascii.ascii) : bool := in_range "0"%char "9"%char c.

Definition is_letter (c : Ascii.ascii) : bool := in_range "a"%char "z"%char c || in_range "A"%char "Z"%char c.

Definition one_of_bytes (l : list Ascii.ascii) (c : Ascii.ascii) : bool := existsb (Ascii.eqb c) l.

Definition is_word (c : option Ascii.ascii) : bool :=
  match c with Some c => is_digit c || is_letter c || Ascii.eqb c "_"%char | None => false end.

Definition head_byte (s : string) : option Ascii.ascii :=
  match s with String c _ => Some c | EmptyString => None end.

(** A place in the text: the byte before it and what follows. *)
Definition place : Type := option Ascii.ascii * string.

(** The first of two searches that finds something. *)
Definition orelse {A} (x y : option A) : option A := match x with Some _ => x | None => y end.

Section search.
Context {A : Type}.

(** A search from a place, with what is to be found after it. *)
Definition search := place -> (place -> option A) -> option A.

Fixpoint times (m : search) (n : nat) (x : place) (k : place -> option A) : option A :=
  match n with O => k x | S n' => m x (fun y => times m n' y k) end.

(** At most [n] more rounds. *)
Fixpoint rounds (m : search) (greedy : bool) (n : nat) (x : place) (k : place -> option A) : option A :=
  match n with
  | O => k x
  | S n' =>
      let more := m x (fun y => rounds m greedy n' y k) in
      if greedy then orelse more (k x) else orelse (k x) more
  end.

Fixpoint rmatch (r : regex) : search := fun x k =>
  match r with
  | Chr p => match x.2 with String c s => if p c then k (Some c, s) else None | EmptyString => None end
  | WordB => if xorb (is_word x.1) (is_word (head_byte x.2)) then k x else None
  | Cat r1 r2 => rmatch r1 x (fun y => rmatch r2 y k)
  | Rep greedy lo hi r =>
      times (rmatch r) lo x (fun y =>
        rounds (rmatch r) greedy (match hi with Some h => h - lo | None => String.length y.2 end) y k)
  end.
End search.

(** The place where the match that begins at [x] ends. *)
Definition match_at (r : regex) (x : place) : option place := rmatch r x Some.

(** The bytes between a place and a later one. *)
Definition between (x y : place) : string := take_str (String.length x.2 - String.length y.2) x.2.

(** [p.ReplaceAllStringFunc(text, f)] from a place on: each round goes on behind
    a byte or behind a match. *)
Fixpoint replace_from (fuel : nat) (r : regex) (f : string -> string) (x : place) : string :=
  match fuel, x.2 with
  | S fuel', String c s =>
      match match_at r x with
      | Some y => f (between x y) +:+ replace_from fuel' r f y
      | None => String c (replace_from fuel' r f (Some c, s))
      end
  | _, _ => ""
  end.

Definition ReplaceAllStringFunc (r : regex) (f : string -> string) (text : string) : string :=
  replace_from (String.length text) r f (None, text).

(** ** Reference definitions: the matches of an expression *)

Inductive matches : regex -> place -> place -> Prop :=
  | m_chr p pv c s : p c = true -> matches (Chr p) (pv, String c s) (Some c, s)
  | m_word x : is_word x.1 <> is_word (head_byte x.2) -> matches WordB x x
  | m_cat r1 r2 x y z : matches r1 x y -> matches r2 y z -> matches (Cat r1 r2) x z
  | m_rep greedy lo hi r n x y :
      lo <= n -> (forall h, hi = Some h -> n <= h) -> repeats_to r n x y ->
      matches (Rep greedy lo hi r) x y
with repeats_to : regex -> nat -> place -> place -> Prop :=
  | r_nil r x : repeats_to r 0 x x
  | r_cons r n x y z : matches r x y -> repeats_to r n y z -> repeats_to r (S n) x z.

Scheme matches_mind := Induction for matches Sort Prop
  with repeats_mind := Induction for repeats_to Sort Prop.

(** The least number of bytes a match has. *)
Fixpoint min_width (r : regex) : nat :=
  match r with
  | Chr _ => 1
  | WordB => 0
  | Cat r1 r2 => min_width r1 + min_width r2
  | Rep _ lo _ r => lo * min_width r
  end.

(** Bounds that make sense, and no unbounded repetition of something that may be empty. *)
Fixpoint regex_ok (r : regex) : bool :=
  match r with
  | Chr _ | WordB => true
  | Cat r1 r2 => regex_ok r1 && regex_ok r2
  | Rep _ lo hi r =>
      regex_ok r && match hi with Some h => Nat.leb lo h | None => Nat.leb 1 (min_width r) end
  end.

(** [text] cut into bytes that begin no match and matches. *)
Inductive cut (r : regex) : place -> list (Ascii.ascii + string) -> Prop :=
  | cut_end pv : cut r (pv, "") []
  | cut_byte pv c s l :
      (forall y, ~ matches r (pv, String c s) y) -> cut r (Some c, s) l ->
      cut r (pv, String c s) (inl c :: l)
  | cut_match x y t l :
      t <> "" -> matches r x y -> x.2 = (t +:+ y.2) -> cut r y l -> cut r x (inr t :: l).

(** The pieces of a cut, the matches changed by [f]. *)
Definition glue (f : string -> string) (l : list (Ascii.ascii + string)) : string :=
  foldr (fun piece acc => match piece with inl c => String c acc | inr t => f t +:+ acc end) "" l.

(** ** Lemmas *)

Lemma orelse_Some {A} (x y : option A) a : orelse x y = Some a -> x = Some a \/ y = Some a.
Proof. destruct x; simpl; eauto. Qed.

Lemma orelse_is_Some {A} (x y : option A) : is_Some x \/ is_Some y -> is_Some (orelse x y).
Proof. destruct x; simpl; [eauto|]. by intros [[]|]. Qed.

Section matcher.
Context {A : Type}.

(** What a search finds lies behind a step of [R], and it finds something when
    something lies behind one. *)
Definition searches (m : search (A := A)) (R : place -> place -> Prop) : Prop :=
  forall x k,
    (forall a, m x k = Some a -> exists y, R x y /\ k y = Some a) /\
    (forall y, R x y -> is_Some (k y) -> is_Some (m x k)).

Lemma searches_iff m R R' : (forall x y, R x y <-> R' x y) -> searches m R -> searches m R'.
Proof.
  intros HR Hm x k. destruct (Hm x k) as [H1 H2]. split.
  - intros a (y & Hy & Hk)%H1. exists y. split; [by apply HR | done].
  - intros y Hy%HR. by apply H2.
Qed.

Lemma searches_seq m1 R1 (m2 : place -> search (A := A)) (R2 : place -> place -> Prop) :
  searches m1 R1 -> searches (fun y => m2 y y) R2 ->
  searches (fun x k => m1 x (fun y => m2 y y k)) (fun x z => exists y, R1 x y /\ R2 y z).
Proof.
  intros H1 H2 x k. split.
  - intros a (y & Hy & (z & Hz & Hk)%H2)%H1. eauto.
  - intros z (y & Hy & Hz) Hk. eapply H1; [exact Hy|]. by eapply H2.
Qed.

Lemma times_spec m r n :
  searches m (matches r) -> searches (fun x k => times m n x k) (repeats_to r n).
Proof.
  intros Hm. induction n as [|n IH].
  - intros x k. split; [intros a Hk; exists x; split; [constructor | done]|].
    intros y Hy Hk. by inversion Hy; subst.
  - pose proof (searches_seq m (matches r) (fun _ x k => times m n x k) _ Hm IH) as Hs.
    eapply searches_iff; [|exact Hs]. intros x z. split.
    + intros (y & Hy & Hz). by econstructor.
    + intros Hz. inversion Hz; subst. eauto.
Qed.

Lemma rounds_spec m r greedy n :
  searches m (matches r) ->
  searches (fun x k => rounds m greedy n x k) (fun x y => exists i, i <= n /\ repeats_to r i x y).
Proof.
  intros Hm. induction n as [|n IH]; intros x k.
  - split; [intros a Hk; exists x; split; [exists 0; split; [lia | constructor] | done]|].
    intros y (i & Hi & Hy) Hk. assert (i = 0) as -> by lia. by inversion Hy; subst.
  - pose proof (searches_seq m (matches r) (fun _ x k => rounds m greedy n x k) _ Hm IH x k)
      as [Hs1 Hs2]. simpl in *. split.
    + intros a Ha.
      assert (m x (fun y => rounds m greedy n y k) = Some a \/ k x = Some a) as [Hm'|Hk].
      { destruct greedy; apply orelse_Some in Ha; tauto. }
      * destruct (Hs1 a Hm') as (z & (y & Hy & i & Hi & Hz) & Hk). exists z. split; [|done].
        exists (S i). split; [lia | by econstructor].
      * exists x. split; [exists 0; split; [lia | constructor] | done].
    + intros z (i & Hi & Hz) Hk.
      assert (is_Some (m x (fun y => rounds m greedy n y k)) \/ is_Some (k x)) as Hor.
      { inversion Hz; subst; [by right|]. left. apply (Hs2 z); [|done].
        eexists. split; [done|]. eexists. split; [|done]. lia. }
      destruct greedy; apply orelse_is_Some; tauto.
Qed.
End matcher.

Lemma matches_width r x y :
  matches r x y -> exists t, x.2 = (t +:+ y.2) /\ min_width r <= String.length t.
Proof.
  intros H. induction H using matches_mind with
    (P0 := fun r n x y _ => exists t, x.2 = (t +:+ y.2) /\ n * min_width r <= String.length t).
  - by exists (String c "").
  - exists "". split; [done | simpl; lia].
  - destruct IHmatches1 as (t1 & -> & H1), IHmatches2 as (t2 & Ht2 & H2). rewrite Ht2.
    exists (t1 +:+ t2). split; [by rewrite append_assoc|]. rewrite length_append. simpl. lia.
  - destruct IHmatches as (t & -> & Ht). exists t. split; [done|]. simpl.
    etransitivity; [|exact Ht]. by apply Nat.mul_le_mono_r.
  - exists "". split; [done | simpl; lia].
  - destruct IHmatches as (t1 & -> & H1), IHmatches0 as (t2 & Ht2 & H2). rewrite Ht2.
    exists (t1 +:+ t2). split; [by rewrite append_assoc|]. rewrite length_append. simpl. lia.
Qed.

Lemma repeats_width r n x y :
  repeats_to r n x y -> String.length y.2 + n * min_width r <= String.length x.2.
Proof.
  induction 1 as [|r n x y z Hm _ IH]; [simpl; lia|].
  destruct (matches_width _ _ _ Hm) as (t & Ht & Hw). rewrite Ht, length_append. simpl. lia.
Qed.

Lemma repeats_app r n1 n2 x z :
  repeats_to r (n1 + n2) x z <-> exists y, repeats_to r n1 x y /\ repeats_to r n2 y z.
Proof.
  revert x. induction n1 as [|n1 IH]; intros x; simpl.
  - split; [intros H; exists x; split; [constructor | done]|].
    intros (y & H1 & H2). by inversion H1; subst.
  - split.
    + intros H. inversion H as [|? ? ? y ? Hm Hr]; subst. apply IH in Hr as (y' & H1 & H2).
      exists y'. split; [by econstructor | done].
    + intros (y & H1 & H2). inversion H1 as [|? ? ? y' ? Hm Hr]; subst.
      econstructor; [done|]. apply IH. eauto.
Qed.

(** The search of [rmatch] finds exactly what the relation allows. *)
Lemma rmatch_spec {A} (r : regex) :
  regex_ok r = true -> searches (A := A) (rmatch r) (matches r).
Proof.
  induction r as [p| |r1 IH1 r2 IH2|greedy lo hi r IH]; intros Hok; simpl in Hok.
  - intros [pv s] k. simpl. split.
    + intros a. destruct s as [|c s]; [done|]. destruct (p c) eqn:Hp; [|done]. intros Hk.
      exists (Some c, s). by split; [constructor|].
    + intros y Hy Hk. inversion Hy as [? ? ? ? Hp| | |]; subst. by rewrite Hp.
  - intros x k. simpl. split.
    + intros a. destruct (xorb _ _) eqn:Hx; [|done]. intros Hk. exists x. split; [|done].
      constructor. intros He. by rewrite He, xorb_nilpotent in Hx.
    + intros y Hy Hk. inversion Hy as [|? Hne| |]; subst.
      by destruct (is_word y.1), (is_word (head_byte y.2)).
  - apply andb_prop in Hok as [H1 H2]. eapply searches_iff;
      [|exact (searches_seq (rmatch r1) _ (fun _ => rmatch r2) _ (IH1 H1) (IH2 H2))].
    intros x z. split; [intros (y & Hy & Hz); by econstructor|].
    intros H. inversion H; subst. eauto.
  - apply andb_prop in Hok as [Hr Hb]. specialize (IH Hr).
    pose (fuel := fun y : place => match hi with Some h => h - lo | None => String.length y.2 end).
    assert (Hrounds : searches (fun y k => rounds (A := A) (rmatch r) greedy (fuel y) y k)
              (fun y z => exists i, i <= fuel y /\ repeats_to r i y z)).
    { intros y k. exact (rounds_spec (rmatch r) r greedy (fuel y) IH y k). }
    eapply searches_iff;
      [|exact (searches_seq _ _ (fun _ y k => rounds (rmatch r) greedy (fuel y) y k) _
                 (times_spec _ r lo IH) Hrounds)].
    intros x z. split.
    + intros (y & Hy & i & Hi & Hz). apply (m_rep greedy lo hi r (lo + i)); [lia| |].
      * intros h ->. unfold fuel in Hi. apply Nat.leb_le in Hb. lia.
      * apply repeats_app. eauto.
    + intros H. inversion H as [| | |? ? ? ? n ? ? Hlo Hhi Hrep]; subst.
      replace n with (lo + (n - lo)) in Hrep by lia. apply repeats_app in Hrep as (y & Hy & Hz).
      exists y. split; [done|]. exists (n - lo). split; [|done].
      unfold fuel. destruct hi as [h|]; [specialize (Hhi h eq_refl); lia|].
      apply (Nat.leb_le 1) in Hb. apply repeats_width in Hz. nia.
Qed.

Lemma match_at_Some r x y : regex_ok r = true -> match_at r x = Some y -> matches r x y.
Proof. intros Hok H. apply (rmatch_spec r Hok) in H as (z & Hz & [= ->]). done. Qed.

Lemma match_at_None r x y : regex_ok r = true -> match_at r x = None -> ~ matches r x y.
Proof.
  intros Hok H Hm. destruct (proj2 (rmatch_spec r Hok x Some) y Hm) as [? Heq]; [done|].
  unfold match_at in H. congruence.
Qed.

(** A replacement cuts the text into matches and bytes that begin none. *)
Lemma replace_from_cut r f fuel x :
  regex_ok r = true -> 0 < min_width r -> String.length x.2 <= fuel ->
  exists l, cut r x l /\ replace_from fuel r f x = glue f l /\
    Forall (fun piece => match piece with inl _ => True | inr t => min_width r <= String.length t end) l.
Proof.
  intros Hok Hw. revert x. induction fuel as [|fuel IH]; intros [pv s] Hl; simpl in Hl |- *;
    (destruct s as [|c s]; [exists []; repeat split; constructor|]); [simpl in Hl; lia|].
  simpl in Hl. destruct (match_at r (pv, String c s)) as [y|] eqn:Hm.
  - apply match_at_Some in Hm; [|done]. destruct (matches_width _ _ _ Hm) as (t & Ht & Hwt).
    simpl in Ht. pose proof (f_equal String.length Ht) as Hlen. rewrite length_append in Hlen.
    simpl in Hlen. destruct (IH y) as (l & Hc & Hr & Hf); [lia|].
    exists (inr t :: l). split; [|split].
    + econstructor; [|exact Hm|exact Ht|exact Hc]. intros ->. simpl in Hwt. lia.
    + rewrite Hr. simpl. f_equal. f_equal. unfold between. simpl (snd (pv, _)).
      rewrite Ht, length_append.
      replace (String.length t + String.length y.2 - String.length y.2) with (String.length t) by lia.
      apply take_str_append.
    + by constructor.
  - destruct (IH (Some c, s)) as (l & Hc & Hr & Hf); [simpl; lia|].
    exists (inl c :: l). split; [|split].
    + constructor; [|done]. intros y. by apply match_at_None.
    + by rewrite Hr.
    + by constructor.
Qed.

Lemma ReplaceAllStringFunc_cut r f text :
  regex_ok r = true -> 0 < min_width r ->
  exists l, cut r (None, text) l /\ ReplaceAllStringFunc r f text = glue f l /\
    Forall (fun piece => match piece with inl _ => True | inr t => min_width r <= String.length t end) l.
Proof. intros Hok Hw. by apply replace_from_cut. Qed.

(** The pieces of a cut make up the text. *)
Lemma cut_glue r x l : cut r x l -> x.2 = glue id l.
Proof.
  induction 1 as [|pv c s l _ _ IH|x y t l _ _ Ht _ IH]; simpl; [done|by rewrite <- IH|].
  by rewrite Ht, IH.
Qed.
