(* ===== verification/Guard.v ===== *)
(** * security/guard.go: the masks of the answers

    [piiPatterns] is a map: every call of [applyMask] ranges over it in an order
    of the runtime, which the definitions take as an argument. [OnHook] writes
    the parts of a message in place. A state copied by [Clone] shares the array
    of the parts of its messages, so the parts live in a [Mem] of their own:
    arrays of parts, and the results that the [ToolResult] pointers lead to. *)

From S2P Require Import Prelude GoLang Core World Engine Regex.
From Stdlib Require Import Ascii.
From stdpp Require Import base strings list.

(** ** The patterns *)

Definition CREDIT_CARD : regex :=
  Rep true 13 (Some 16) (Cat (Chr is_digit) (Rep false 0 None (Chr (one_of_bytes [" "; "-"]%char)))).

Definition EMAIL : regex :=
  Cat (Rep true 1 None
        (Chr (fun c => is_letter c || is_digit c || one_of_bytes ["."; "_"; "%"; "+"; "-"]%char c)))
  (Cat (Chr (one_of_bytes ["@"]%char))
  (Cat (Rep true 1 None (Chr (fun c => is_letter c || is_digit c || one_of_bytes ["."; "-"]%char c)))
  (Cat (Chr (one_of_bytes ["."]%char)) (Rep true 2 None (Chr is_letter))))).

Definition IP_ADDRESS : regex :=
  Cat WordB
  (Cat (Rep true 3 (Some 3) (Cat (Rep true 1 (Some 3) (Chr is_digit)) (Chr (one_of_bytes ["."]%char))))
  (Cat (Rep true 1 (Some 3) (Chr is_digit)) WordB)).

Definition piiPatterns : list regex := [CREDIT_CARD; EMAIL; IP_ADDRESS].

(** [strings.Repeat("*", n)]. *)
Fixpoint stars (n : nat) : string :=
  match n with O => "" | S n' => String "*"%char (stars n') end.

(** The function [applyMask] gives to [ReplaceAllStringFunc]. *)
Definition mask (text : string) : string :=
  let n := String.length text in
  if Nat.leb n 4 then "****" else take_str 2 text +:+ stars (n - 4) +:+ drop_str (n - 2) text.

Definition applyMask (order : list regex) (text : string) : string :=
  foldl (fun content p => ReplaceAllStringFunc p mask content) text order.

(** [ReplaceAllString] expands [$] in its replacement; there is none here. *)
Definition MaskPII (order : list regex) (text : string) : string :=
  foldl (fun content p => ReplaceAllStringFunc p (fun _ => "****") content) text order.

(** ** The memory of the parts *)

(** A [core.Part] whose [ToolResult] is the pointer [sp_ToolResult]; that field
    of [sp_Part] itself is not used. *)
Record SharedPart := mkSharedPart { sp_Part : Part; sp_ToolResult : option nat }.

Record Mem := mkMem {
  arrays : list (list SharedPart);
  results : list ToolResultPart;
}.

(** A message whose [Parts] are the array [sm_Parts]; that field of
    [sm_Message] itself is not used. *)
Record SharedMessage := mkSharedMessage { sm_Message : Message; sm_Parts : nat }.

Definition set_Text (t : string) (p : Part) : Part :=
  mkPart (part_Type p) t (part_File p) (part_StructuredData p) (part_ToolCall p) (part_ToolResult p).

Definition set_ToolResult (r : option ToolResultPart) (p : Part) : Part :=
  mkPart (part_Type p) (part_Text p) (part_File p) (part_StructuredData p) (part_ToolCall p) r.

Definition set_Result (t : string) (r : ToolResultPart) : ToolResultPart :=
  mkToolResultPart (tr_CallID r) t (tr_IsError r).

Definition set_Parts (ps : list Part) (m : Message) : Message :=
  mkMessage (msg_ID m) (msg_Role m) ps (msg_Timestamp m) (msg_Metadata m) (msg_ContextID m) (msg_TaskID m).

(** The part [i] of the array [a]. *)
Definition cell (m : Mem) (a i : nat) : option SharedPart := arrays m !! a ≫= fun ps => ps !! i.

(** [part.Text = h.applyMask(part.Text)]. *)
Definition mask_text (order : list regex) (p : SharedPart) : SharedPart :=
  mkSharedPart (set_Text (applyMask order (part_Text (sp_Part p))) (sp_Part p)) (sp_ToolResult p).

(** [part.ToolResult.Result = h.applyMask(part.ToolResult.Result)]. *)
Definition mask_result (order : list regex) (r : ToolResultPart) : ToolResultPart :=
  set_Result (applyMask order (tr_Result r)) r.

(** The body of the loop for the part [i] of the array [a]; [order] is the order
    its call of [applyMask] ranges in. *)
Definition mask_at (a i : nat) (order : list regex) (m : Mem) : Mem :=
  match cell m a i with
  | None => m
  | Some p =>
      if bool_decide (part_Type (sp_Part p) = PartTypeText) then
        mkMem (alter (alter (mask_text order) i) a (arrays m)) (results m)
      else if bool_decide (part_Type (sp_Part p) = PartTypeToolResult) then
        match sp_ToolResult p with
        | Some r => mkMem (arrays m) (alter (mask_result order) r (results m))
        | None => m
        end
      else m
  end.

(** The loop over the parts of the array [a]; [orders i] is the order of the
    runtime for the part [i]. *)
Definition mask_parts (orders : nat -> list regex) (a : nat) (m : Mem) : Mem :=
  foldl (fun m i => mask_at a i (orders i) m) m (seq 0 (length (default [] (arrays m !! a)))).

(** [OnHook] on a state with the messages [state], or on a nil state. *)
Definition OnHook (orders : nat -> list regex) (state : option (list SharedMessage)) (point : HookPoint)
    (m : Mem) : outcome unit * Mem :=
  if bool_decide (point = HookAfterNode) then
    match state with
    | None => (Panic nil_deref, m)
    | Some msgs =>
        match last msgs with
        | None => (Ret tt, m)
        | Some lastMsg =>
            if bool_decide (msg_Role (sm_Message lastMsg) = RoleAssistant) then
              (Ret tt, mask_parts orders (sm_Parts lastMsg) m)
            else (Ret tt, m)
        end
    end
  else (Ret tt, m).

(** ** What a reader sees *)

(** The value behind the pointers. *)
Definition part_of (m : Mem) (p : SharedPart) : Part :=
  set_ToolResult (sp_ToolResult p ≫= fun r => results m !! r) (sp_Part p).

Definition parts_at (m : Mem) (a : nat) : list Part := part_of m <$> default [] (arrays m !! a).

Definition message_of (m : Mem) (msg : SharedMessage) : Message :=
  set_Parts (parts_at m (sm_Parts msg)) (sm_Message msg).

(** What masking makes of a part. *)
Definition mask_part (order : list regex) (p : Part) : Part :=
  if bool_decide (part_Type p = PartTypeText) then set_Text (applyMask order (part_Text p)) p
  else if bool_decide (part_Type p = PartTypeToolResult) then
    set_ToolResult (mask_result order <$> part_ToolResult p) p
  else p.

(** No two parts of the memory lead to the same result. *)
Definition no_shared_results (m : Mem) : Prop :=
  forall a a' i i' r,
    cell m a i ≫= sp_ToolResult = Some r -> cell m a' i' ≫= sp_ToolResult = Some r -> a = a' /\ i = i'.

(** A match of [r] begins at a place or behind it. *)
Inductive found (r : regex) : place -> Prop :=
  | found_here x y : matches r x y -> found r x
  | found_later pv c s : found r (Some c, s) -> found r (pv, String c s).

(** [t] is [s] with some bytes replaced by stars. *)
Inductive masked : string -> string -> Prop :=
  | masked_nil : masked "" ""
  | masked_cons c c' s t : c' = c \/ c' = "*"%char -> masked s t -> masked (String c s) (String c' t).

(** No match of the expression has a star. *)
Fixpoint no_star (r : regex) : bool :=
  match r with
  | Chr p => negb (p "*"%char)
  | WordB => true
  | Cat r1 r2 => no_star r1 && no_star r2
  | Rep _ _ _ r => no_star r
  end.

Fixpoint star_in (s : string) : bool :=
  match s with EmptyString => false | String c s' => Ascii.eqb c "*"%char || star_in s' end.

(** ** Lemmas: masked texts *)

Lemma masked_refl s : masked s s.
Proof. induction s; constructor; auto. Qed.

Lemma masked_trans s t u : masked s t -> masked t u -> masked s u.
Proof.
  intros H. revert u. induction H as [|c c' s t Hc _ IH]; intros u Hu; inversion Hu; subst; [constructor|].
  constructor; [|auto]. naive_solver.
Qed.

Lemma masked_antisym s t : masked s t -> masked t s -> s = t.
Proof.
  induction 1 as [|c c' s t Hc _ IH]; intros Hu; [done|]. inversion Hu; subst.
  f_equal; [naive_solver | auto].
Qed.

Lemma masked_length s t : masked s t -> String.length t = String.length s.
Proof. induction 1; simpl; congruence. Qed.

Lemma masked_app s s' t t' : masked s s' -> masked t t' -> masked (s +:+ t) (s' +:+ t').
Proof. induction 1; intros Ht; [done|]. simpl. constructor; auto. Qed.

Lemma masked_stars s : masked s (stars (String.length s)).
Proof. induction s; constructor; auto. Qed.

Lemma length_take_str n s : String.length (take_str n s) = Nat.min n (String.length s).
Proof. revert s. induction n as [|n IH]; intros [|c s]; simpl; [done..|]. by rewrite IH. Qed.

Lemma length_drop_str n s : String.length (drop_str n s) = String.length s - n.
Proof. revert s. induction n as [|n IH]; intros [|c s]; simpl; [done..|]. by rewrite IH. Qed.

Lemma drop_drop_str n k s : drop_str n (drop_str k s) = drop_str (k + n) s.
Proof. revert s. induction k as [|k IH]; intros s; [done|]. destruct s as [|c s]; [by destruct n | apply IH]. Qed.

(** A match of five bytes or more keeps its first two and its last two. *)
Lemma mask_long t :
  4 < String.length t ->
  exists a b c, t = (a +:+ b +:+ c) /\ mask t = (a +:+ stars (String.length b) +:+ c) /\
    String.length a = 2 /\ String.length c = 2 /\ 0 < String.length b.
Proof.
  intros Hl. set (n := String.length t) in *.
  exists (take_str 2 t), (take_str (n - 4) (drop_str 2 t)), (drop_str (n - 2) t).
  replace (n - 2) with (2 + (n - 4)) by lia. rewrite <- drop_drop_str, !take_drop_str.
  rewrite !length_drop_str, !length_take_str, length_drop_str. fold n.
  split; [done|]. split; [|lia]. unfold mask. fold n.
  rewrite (proj2 (Nat.leb_gt n 4)) by lia. rewrite drop_drop_str.
  by replace (Nat.min (n - 4) (n - 2)) with (n - 4) by lia; replace (2 + (n - 4)) with (n - 2) by lia.
Qed.

Lemma mask_masked t : 4 < String.length t -> masked t (mask t).
Proof.
  intros (a & b & c & -> & -> & _)%mask_long.
  apply masked_app; [apply masked_refl|]. apply masked_app; [apply masked_stars | apply masked_refl].
Qed.

Lemma star_in_app s t : star_in (s +:+ t) = star_in s || star_in t.
Proof. induction s as [|c s IH]; [done|]. simpl. by rewrite IH, orb_assoc. Qed.

Lemma star_in_mask t : 4 < String.length t -> star_in (mask t) = true.
Proof.
  intros (a & b & c & _ & -> & _ & _ & Hb)%mask_long. rewrite !star_in_app.
  destruct b; [simpl in Hb; lia|]. simpl. apply orb_true_r.
Qed.

Lemma matches_no_star r x y :
  matches r x y -> no_star r = true -> exists t, x.2 = (t +:+ y.2) /\ star_in t = false.
Proof.
  intros H. induction H as [p pv c s Hp| |r1 r2 x y z _ IH1 _ IH2|greedy lo hi r n x y _ _ _ IH| |r n x y z _ IH1 _ IH2]
    using matches_mind with
    (P0 := fun r n x y _ => no_star r = true -> exists t, x.2 = (t +:+ y.2) /\ star_in t = false);
    simpl; intros Hs; try (by exists "").
  - exists (String c ""). split; [done|]. simpl. rewrite orb_false_r.
    apply Ascii.eqb_neq. intros ->. by rewrite Hp in Hs.
  - apply andb_prop in Hs as [Hs1 Hs2]. destruct (IH1 Hs1) as (t1 & -> & H1), (IH2 Hs2) as (t2 & -> & H2).
    exists (t1 +:+ t2). by rewrite append_assoc, star_in_app, H1, H2.
  - by apply IH.
  - destruct (IH1 Hs) as (t1 & -> & H1), (IH2 Hs) as (t2 & -> & H2).
    exists (t1 +:+ t2). by rewrite append_assoc, star_in_app, H1, H2.
Qed.

(** ** Lemmas: the passes *)

(** What the passes need of a pattern. *)
Definition maskable (r : regex) : Prop :=
  regex_ok r = true /\ no_star r = true /\ 4 < min_width r.

Lemma piiPatterns_maskable r : r ∈ piiPatterns -> maskable r.
Proof.
  unfold piiPatterns. intros [->|[->|[->|[]%elem_of_nil]%elem_of_cons]%elem_of_cons]%elem_of_cons;
    (split; [reflexivity|]; split; [reflexivity|]; simpl; lia).
Qed.

(** What a pass makes of a cut text. *)
Lemma pass_cut r x l :
  maskable r -> cut r x l ->
  Forall (fun piece => match piece with inl _ => True | inr t => min_width r <= String.length t end) l ->
  masked x.2 (glue mask l) /\ (glue mask l = x.2 <-> ~ found r x).
Proof.
  intros (Hok & Hns & Hw). induction 1 as [pv|pv c s l Hno Hc IH|x y t l Hne Hm Ht Hc IH]; intros Hf; simpl.
  - split; [constructor|]. split; [|done]. intros _ Hfd. inversion Hfd as [? y Hm|]; subst.
    apply matches_width in Hm as (t & Ht & Hl). simpl in Ht.
    pose proof (f_equal String.length Ht) as He. rewrite length_append in He. simpl in He. lia.
  - apply Forall_cons in Hf as [_ Hf]. destruct (IH Hf) as [IH1 IH2]. simpl in IH1, IH2.
    split; [constructor; auto|]. split.
    + intros [= Hg] Hfd. inversion Hfd as [? y Hm|]; subst; [by apply (Hno y)|]. by apply IH2.
    + intros Hnf. f_equal. apply IH2. intros Hfd. by apply Hnf, found_later.
  - apply Forall_cons in Hf as [Hlt Hf]. destruct (IH Hf) as [IH1 IH2]. rewrite Ht.
    split; [apply masked_app; [apply mask_masked; lia | done]|]. split.
    + intros Hg _. apply append_inj_len in Hg as [Hg _]; [|apply masked_length, mask_masked; lia].
      destruct (matches_no_star _ _ _ Hm Hns) as (t' & Ht' & Hst).
      rewrite Ht in Ht'. apply append_inj_r in Ht' as ->.
      rewrite <- Hg, star_in_mask in Hst; [done | lia].
    + intros []. by econstructor.
Qed.

Lemma pass_spec r text :
  maskable r ->
  masked text (ReplaceAllStringFunc r mask text) /\
  (ReplaceAllStringFunc r mask text = text <-> ~ found r (None, text)).
Proof.
  intros Hr. destruct (ReplaceAllStringFunc_cut r mask text) as (l & Hc & -> & Hf);
    [apply Hr | destruct Hr as (_ & _ & ?); lia |]. exact (pass_cut r (None, text) l Hr Hc Hf).
Qed.

Lemma applyMask_spec order text :
  Forall maskable order ->
  masked text (applyMask order text) /\
  (applyMask order text = text <-> Forall (fun p => ~ found p (None, text)) order).
Proof.
  revert text. induction order as [|p order IH]; intros text Hall.
  - split; [apply masked_refl | done].
  - apply Forall_cons in Hall as [Hp Hall]. destruct (pass_spec p text Hp) as [H1 H2].
    destruct (IH (ReplaceAllStringFunc p mask text) Hall) as [H3 H4].
    change (applyMask (p :: order) text) with (applyMask order (ReplaceAllStringFunc p mask text)).
    split; [by eapply masked_trans|]. rewrite Forall_cons, <- H2. split.
    + intros He. assert (Hr : ReplaceAllStringFunc p mask text = text).
      { symmetry. apply masked_antisym; [done|]. by rewrite He in H3. }
      rewrite Hr in *. tauto.
    + intros [-> Hno]. by apply IH.
Qed.

(** ** Lemmas: the memory *)

Lemma parts_at_lookup m a i : parts_at m a !! i = part_of m <$> cell m a i.
Proof. unfold parts_at, cell. rewrite list_lookup_fmap. by destruct (arrays m !! a). Qed.

(** The cell a loop writes; the other cells are as they were. *)
Lemma cell_write f a i m rs a' i' :
  cell (mkMem (alter (alter f i) a (arrays m)) rs) a' i' =
  if decide (a' = a /\ i' = i) then f <$> cell m a i else cell m a' i'.
Proof.
  unfold cell. simpl. destruct (decide (a' = a)) as [->|Hne].
  2: { rewrite list_lookup_alter_ne by done. rewrite decide_False by (by intros []). done. }
  rewrite list_lookup_alter_eq. destruct (arrays m !! a) as [ps|]; simpl; [|by destruct (decide _)].
  destruct (decide (i' = i)) as [->|Hne].
  - by rewrite list_lookup_alter_eq, decide_True.
  - rewrite list_lookup_alter_ne by done. rewrite decide_False by (by intros []). done.
Qed.

(** The loop writes neither types nor pointers. *)
Lemma mask_at_pointers a i order m a' i' :
  cell (mask_at a i order m) a' i' ≫= sp_ToolResult = cell m a' i' ≫= sp_ToolResult.
Proof.
  unfold mask_at. destruct (cell m a i) as [p|] eqn:Hc; [|done].
  repeat case_bool_decide; [|by destruct (sp_ToolResult p)|done].
  rewrite cell_write. destruct (decide _) as [[-> ->]|]; [|done]. by rewrite Hc.
Qed.

(** What a reader sees of the parts after the body of the loop. *)
Lemma mask_at_parts a i order m a' i' :
  no_shared_results m ->
  parts_at (mask_at a i order m) a' !! i' =
  if decide (a' = a /\ i' = i) then mask_part order <$> parts_at m a !! i else parts_at m a' !! i'.
Proof.
  intros Hns. rewrite !parts_at_lookup. unfold mask_at. destruct (cell m a i) as [p|] eqn:Hc; simpl.
  2: { destruct (decide _) as [[-> ->]|]; [by rewrite Hc | done]. }
  unfold mask_part. simpl. case_bool_decide as Ht.
  { rewrite cell_write. destruct (decide _) as [[-> ->]|]; [by rewrite Hc | done]. }
  case_bool_decide as Hr; [destruct (sp_ToolResult p) as [r|] eqn:Hp; [|]|].
  - change (cell (mkMem (arrays m) (alter (mask_result order) r (results m))) a' i') with (cell m a' i').
    destruct (decide (a' = a /\ i' = i)) as [[-> ->]|Hne].
    { rewrite Hc. unfold part_of. simpl. rewrite Hp. simpl. by rewrite list_lookup_alter_eq. }
    destruct (cell m a' i') as [p'|] eqn:Hc'; [|done]. simpl. f_equal. unfold part_of. f_equal.
    destruct (sp_ToolResult p') as [r'|] eqn:Hp'; [|done]. simpl. apply list_lookup_alter_ne.
    intros ->. apply Hne. apply (Hns a' a i' i r'); [by rewrite Hc' | by rewrite Hc].
  - destruct (decide _) as [[-> ->]|]; [|done]. rewrite Hc. unfold part_of. simpl. by rewrite Hp.
  - destruct (decide _) as [[-> ->]|]; [by rewrite Hc | done].
Qed.

Lemma mask_loop orders a k m a' i' :
  no_shared_results m ->
  let m' := foldl (fun m i => mask_at a i (orders i) m) m (seq 0 k) in
  no_shared_results m' /\
  parts_at m' a' !! i' =
  if decide (a' = a /\ i' < k) then mask_part (orders i') <$> parts_at m a !! i' else parts_at m a' !! i'.
Proof.
  intros Hns. revert a' i'. induction k as [|k IH]; intros a' i'.
  - split; [done|]. rewrite decide_False by lia. done.
  - rewrite seq_S, foldl_app. cbn [foldl Nat.add].
    set (mk := foldl _ m (seq 0 k)) in *. assert (Hk : no_shared_results mk) by apply (IH 0 0).
    split.
    + intros b b' j j' r. rewrite !mask_at_pointers. apply Hk.
    + rewrite mask_at_parts by done. destruct (decide (a' = a /\ i' = k)) as [[-> ->]|Hne].
      * rewrite decide_True by lia. rewrite (proj2 (IH a k)). by rewrite decide_False by lia.
      * rewrite (proj2 (IH a' i')). destruct (decide (a' = a /\ i' < k)).
        { by rewrite decide_True by lia. }
        rewrite decide_False; [done|]. intros [-> ?]. assert (i' = k) by lia. naive_solver.
Qed.

Lemma mask_loop_results orders a js m :
  (forall i p, cell m a i = Some p -> part_Type (sp_Part p) <> PartTypeToolResult) ->
  results (foldl (fun m i => mask_at a i (orders i) m) m js) = results m.
Proof.
  revert m. induction js as [|i js IH]; intros m Hno; [done|]. cbn [foldl].
  assert (Hr : results (mask_at a i (orders i) m) = results m).
  { unfold mask_at. destruct (cell m a i) as [p|] eqn:Hc; [|done].
    repeat case_bool_decide; [done | by destruct (Hno i p Hc) | done]. }
  rewrite IH; [done|]. intros j p. unfold mask_at. destruct (cell m a i) as [q|] eqn:Hc; [|apply Hno].
  repeat case_bool_decide; [|by destruct (Hno i q Hc)|apply Hno].
  rewrite cell_write. destruct (decide _) as [[_ ->]|]; [|apply Hno]. rewrite Hc. intros [= <-]. simpl.
  by apply Hno in Hc.
Qed.

Lemma validate_parts_no_results r ps i p :
  r = RoleAssistant -> validate_parts r ps = None -> ps !! i = Some p -> part_Type p <> PartTypeToolResult.
Proof.
  intros ->. revert i. induction ps as [|q ps IH]; intros i Hv Hi; [done|]. simpl in Hv.
  destruct (part_rejected RoleAssistant q) eqn:Hq; [done|].
  destruct i as [|i]; [|by eapply IH]. injection Hi as ->. intros He.
  unfold part_rejected in Hq. by rewrite He in Hq.
Qed.

(** What every reader sees when the array [a] is masked. *)
Lemma message_of_masked orders a m msg : no_shared_results m ->
  message_of (mask_parts orders a m) msg =
  if decide (sm_Parts msg = a)
  then set_Parts (imap (fun i => mask_part (orders i)) (msg_Parts (message_of m msg))) (message_of m msg)
  else message_of m msg.
Proof.
  intros Hns. unfold mask_parts, message_of. destruct (decide (sm_Parts msg = a)) as [->|Hne]; simpl.
  - unfold set_Parts at 1 2. simpl. f_equal. apply list_eq. intros i. rewrite list_lookup_imap.
    rewrite (proj2 (mask_loop orders a _ m a i Hns)). destruct (decide _) as [_|Hge]; [done|].
    rewrite (proj2 (lookup_ge_None (parts_at m a) i)); [done|].
    unfold parts_at. rewrite length_fmap. lia.
  - unfold set_Parts. f_equal. apply list_eq. intros i.
    rewrite (proj2 (mask_loop orders a _ m _ i Hns)). by rewrite decide_False by naive_solver.
Qed.

(** ** Properties *)

(** C37: the masks write stars and nothing else, and only where they should. In
    whatever order the runtime takes the patterns, the masked text has the
    length of the text and its bytes, but for some that are stars; it is the
    text itself exactly when no pattern has a match in it. A pass with one
    pattern cuts the text into matches and bytes that begin none, and of each
    match it keeps the first two bytes and the last two; no match is so short
    that all of it goes. *)
Theorem applyMask_stars (order : list regex) (text : string) :
  order ≡ₚ piiPatterns ->
  masked text (applyMask order text) /\
  (applyMask order text = text <-> forall p, p ∈ piiPatterns -> ~ found p (None, text)) /\
  forall p s, p ∈ piiPatterns ->
    exists l, cut p (None, s) l /\ ReplaceAllStringFunc p mask s = glue mask l /\
      forall t, inr t ∈ l ->
        exists a b c, t = (a +:+ b +:+ c) /\ mask t = (a +:+ stars (String.length b) +:+ c) /\
          String.length a = 2 /\ String.length c = 2 /\ 0 < String.length b.
Proof.
  intros Hp. destruct (applyMask_spec order text) as [H1 H2].
  { apply Forall_forall. intros p Hin. apply piiPatterns_maskable. by rewrite <- Hp. }
  split; [done|]. split.
  { rewrite H2, Forall_forall. split; intros H p Hin; apply H; [by rewrite Hp | by rewrite <- Hp]. }
  intros p s (Hok & _ & Hw)%piiPatterns_maskable.
  destruct (ReplaceAllStringFunc_cut p mask s Hok) as (l & Hc & He & Hf); [lia|].
  exists l. split_and!; [done | done|]. intros t Ht. rewrite Forall_forall in Hf.
  apply mask_long. specialize (Hf _ Ht). simpl in Hf. lia.
Qed.

(** The hook masks the last message in place. After a node, when the last
    message of the state is one of the assistant, every reader of its array of
    parts - this state and each state that shares the array - sees the masked
    parts, and no other message changes; when that message is valid, no tool
    result changes at all. In every other case the hook does nothing. *)
Theorem OnHook_masks (orders : nat -> list regex) (msgs : list SharedMessage) (point : HookPoint)
    (m m' : Mem) :
  no_shared_results m -> OnHook orders (Some msgs) point m = (Ret tt, m') ->
  match last msgs with
  | Some lastMsg =>
      if decide (point = HookAfterNode /\ msg_Role (sm_Message lastMsg) = RoleAssistant) then
        (forall msg, message_of m' msg =
           if decide (sm_Parts msg = sm_Parts lastMsg) then
             set_Parts (imap (fun i => mask_part (orders i)) (msg_Parts (message_of m msg))) (message_of m msg)
           else message_of m msg) /\
        (Validate (message_of m lastMsg) = None -> results m' = results m)
      else m' = m
  | None => m' = m
  end.
Proof.
  intros Hns Ho. unfold OnHook in Ho. destruct (last msgs) as [lm|]; [|by case_bool_decide; injection Ho].
  destruct (decide _) as [[-> Hr]|Hno].
  2: { repeat case_bool_decide; injection Ho; [by destruct Hno | done | done]. }
  rewrite !bool_decide_eq_true_2 in Ho by done. injection Ho as <-.
  split.
  - intros msg. by apply message_of_masked.
  - intros Hv. apply mask_loop_results. intros i p Hc.
    apply (validate_parts_no_results _ (parts_at m (sm_Parts lm)) i (part_of m p) Hr Hv).
    by rewrite parts_at_lookup, Hc.
Qed.

(** ** Witnesses *)

Lemma applyMask_stars_witness :
  piiPatterns ≡ₚ piiPatterns /\
  applyMask piiPatterns "mail test@example.com, card 1234-5678-9012-3456" =
    "mail te************om, card 12***************56" /\
  masked "mail test@example.com, card 1234-5678-9012-3456"
    (applyMask piiPatterns "mail test@example.com, card 1234-5678-9012-3456").
Proof.
  split; [reflexivity|]. split; [vm_compute; reflexivity|].
  apply (applyMask_stars piiPatterns "mail test@example.com, card 1234-5678-9012-3456"). reflexivity.
Defined.

(** Two messages share the array of the last one, as after a [Clone]. *)
Definition shared_mem : Mem :=
  mkMem [[mkSharedPart (text_part "hello") None]; [mkSharedPart (text_part "from 10.20.30.40") None]] [].

Definition shared_messages : list SharedMessage :=
  [mkSharedMessage (message RoleUser []) 0; mkSharedMessage (message RoleAssistant []) 1].

Lemma OnHook_masks_witness :
  no_shared_results shared_mem /\
  exists m', OnHook (fun _ => piiPatterns) (Some shared_messages) HookAfterNode shared_mem = (Ret tt, m') /\
    message_of m' (mkSharedMessage (message RoleAssistant []) 1) =
      message RoleAssistant [text_part "from 10*******40"].
Proof.
  assert (H : no_shared_results shared_mem).
  { intros a a' i i' r. destruct a as [|[|a]], i as [|i]; cbn; done. }
  split; [exact H|]. eexists. split; [reflexivity|].
  pose proof (OnHook_masks (fun _ => piiPatterns) shared_messages HookAfterNode shared_mem _ H eq_refl) as Ho.
  simpl in Ho. rewrite (proj1 Ho). vm_compute. reflexivity.
Defined.
