(* ===== verification/RedisDriver.v ===== *)
(** * storage/redis_driver.go: the driver over go-redis

    [GoRedisDriver] gives the stores of [Storage] their [RedisClient]. The
    go-redis client is a parameter, [UniversalClient], and [GoRedisLaws] is its
    documented behaviour on one server without expiry. [Storage] takes the
    commands that a closure given to [TxExec] queues; here the closures are the
    ones of the code, run against the adapter of a pipeline. *)

From S2P Require Import Prelude GoLang Core Json World Interfaces Memory TaskJson Storage.
From stdpp Require Import base gmap strings list.

#[local] Open Scope go_scope.

(** ** go-redis *)

(** The commands of a [redis.Pipeliner] that the program uses, with their
    [Err()]. *)
Record Pipeliner (E : Type) := mkPipeliner {
  p_Set : context -> string -> redis_value -> Duration -> M E (option error);
  p_RPush : context -> string -> list redis_value -> M E (option error);
  p_LTrim : context -> string -> Z -> Z -> M E (option error);
  p_ZAdd : context -> string -> float64 -> redis_value -> M E (option error);
  p_ZRemRangeByRank : context -> string -> Z -> Z -> M E (option error);
}.

Arguments mkPipeliner {E}.
Arguments p_Set {E} p.
Arguments p_RPush {E} p.
Arguments p_LTrim {E} p.
Arguments p_ZAdd {E} p.
Arguments p_ZRemRangeByRank {E} p.

(** The commands of a [redis.UniversalClient], with their [Result()] or
    [Err()]; [uc_Nil] is [redis.Nil]. *)
Record UniversalClient (E : Type) := mkUniversalClient {
  uc_Nil : error;
  uc_Get : context -> string -> M E (redis_value * option error);
  uc_Set : context -> string -> redis_value -> Duration -> M E (option error);
  uc_RPush : context -> string -> list redis_value -> M E (option error);
  uc_LRange : context -> string -> Z -> Z -> M E (list redis_value * option error);
  uc_LTrim : context -> string -> Z -> Z -> M E (option error);
  uc_ZAdd : context -> string -> float64 -> redis_value -> M E (option error);
  uc_ZRange : context -> string -> Z -> Z -> M E (list redis_value * option error);
  uc_ZRemRangeByRank : context -> string -> Z -> Z -> M E (option error);
  uc_Pipelined : context -> (Pipeliner E -> M E (option error)) -> M E (option error);
}.

Arguments mkUniversalClient {E}.
Arguments uc_Nil {E} u.
Arguments uc_Get {E} u.
Arguments uc_Set {E} u.
Arguments uc_RPush {E} u.
Arguments uc_LRange {E} u.
Arguments uc_LTrim {E} u.
Arguments uc_ZAdd {E} u.
Arguments uc_ZRange {E} u.
Arguments uc_ZRemRangeByRank {E} u.
Arguments uc_Pipelined {E} u.

(** ** The interface of storage/redis_store.go

    All of it but [TxExec], whose closure takes the interface again. *)
Record Tx (E : Type) := mkTx {
  tx_Get : context -> string -> M E (redis_value * option error);
  tx_Set : context -> string -> redis_value -> Duration -> M E (option error);
  tx_RPush : context -> string -> list redis_value -> M E (option error);
  tx_LRange : context -> string -> Z -> Z -> M E (list redis_value * option error);
  tx_LTrim : context -> string -> Z -> Z -> M E (option error);
  tx_ZAdd : context -> string -> float64 -> redis_value -> M E (option error);
  tx_ZRange : context -> string -> Z -> Z -> M E (list redis_value * option error);
  tx_ZRemRangeByRank : context -> string -> Z -> Z -> M E (option error);
}.

Arguments mkTx {E}.
Arguments tx_Get {E} t.
Arguments tx_Set {E} t.
Arguments tx_RPush {E} t.
Arguments tx_LRange {E} t.
Arguments tx_LTrim {E} t.
Arguments tx_ZAdd {E} t.
Arguments tx_ZRange {E} t.
Arguments tx_ZRemRangeByRank {E} t.

(** ** storage/redis_driver.go *)

Record GoRedisDriver (E : Type) := mkGoRedisDriver { gr_client : UniversalClient E }.

Arguments mkGoRedisDriver {E}.
Arguments gr_client {E} g.

(** What [NewRedisDriver] calls, with options of a type [O]. *)
Record RedisLib (E O : Type) := mkRedisLib {
  rl_ParseURL : string -> O + error;
  rl_set_PoolSize : Z -> O -> O;
  rl_NewClient : O -> UniversalClient E;
  rl_Ping : UniversalClient E -> context -> M E (option error);
}.

Arguments mkRedisLib {E O}.
Arguments rl_ParseURL {E O} r.
Arguments rl_set_PoolSize {E O} r.
Arguments rl_NewClient {E O} r.
Arguments rl_Ping {E O} r.

Definition NewRedisDriver {E O} (lib : RedisLib E O) (url : string) (poolSize : Z) :
    M E (GoRedisDriver E + error) :=
  match rl_ParseURL lib url with
  | inr err => ret (inr err)
  | inl opts =>
      let client := rl_NewClient lib (rl_set_PoolSize lib poolSize opts) in
      err <- rl_Ping lib client Background ;;
      ret (match err with Some e => inr e | None => inl (mkGoRedisDriver client) end)
  end.

Section driver.
Context {E : Type} (d : GoRedisDriver E).

Definition driver_Get (ctx : context) (key : string) : M E (redis_value * option error) :=
  let* (val, err) := uc_Get (gr_client d) ctx key in
  if bool_decide (err = Some (uc_Nil (gr_client d))) then ret (VStr "", Some ErrRedisKeyNotFound)
  else ret (val, err).

Definition driver_Set (ctx : context) (key : string) (value : redis_value) (ttl : Duration) :
    M E (option error) := uc_Set (gr_client d) ctx key value ttl.

Definition driver_RPush (ctx : context) (key : string) (values : list redis_value) :
    M E (option error) := uc_RPush (gr_client d) ctx key values.

Definition driver_LRange (ctx : context) (key : string) (start stop : Z) :
    M E (list redis_value * option error) := uc_LRange (gr_client d) ctx key start stop.

Definition driver_LTrim (ctx : context) (key : string) (start stop : Z) : M E (option error) :=
  uc_LTrim (gr_client d) ctx key start stop.

Definition driver_ZAdd (ctx : context) (key : string) (score : float64) (member : redis_value) :
    M E (option error) := uc_ZAdd (gr_client d) ctx key score member.

Definition driver_ZRange (ctx : context) (key : string) (start stop : Z) :
    M E (list redis_value * option error) := uc_ZRange (gr_client d) ctx key start stop.

Definition driver_ZRemRangeByRank (ctx : context) (key : string) (start stop : Z) : M E (option error) :=
  uc_ZRemRangeByRank (gr_client d) ctx key start stop.

(** The reads of the adapter answer nothing and no error. *)
Definition pipelinerAdapter (p : Pipeliner E) : Tx E :=
  mkTx (fun _ _ => ret (VStr "", None)) (p_Set p) (p_RPush p) (fun _ _ _ _ => ret ([], None))
    (p_LTrim p) (p_ZAdd p) (fun _ _ _ _ => ret ([], None)) (p_ZRemRangeByRank p).

(** [pipelinerAdapter.TxExec]: the closure is dropped. *)
Definition nested_TxExec (ctx : context) (fn : Tx E -> M E (option error)) : M E (option error) :=
  ret None.

Definition driver_TxExec (ctx : context) (fn : Tx E -> M E (option error)) : M E (option error) :=
  uc_Pipelined (gr_client d) ctx (fun p => fn (pipelinerAdapter p)).
End driver.

(** ** The closures of the stores *)

(** [if err := m; err != nil { return err }; k]. *)
Definition then_ {E} (m k : M E (option error)) : M E (option error) :=
  err <- m ;; match err with Some e => ret (Some e) | None => k end.

Definition save_fn {E} (st : RedisMemoryStore E) (ctx : context) (tenantID sessionID ckptID : string)
    (now : Z) (data : json) (tx : Tx E) : M E (option error) :=
  then_ (tx_Set tx ctx (stateKey (keyPrefix st) tenantID sessionID) (VDoc data) (stateTTL st))
  (then_ (tx_Set tx ctx (ckptDataKey (keyPrefix st) ckptID) (VDoc data) (int64 (stateTTL st * 2)))
  (then_ (tx_ZAdd tx ctx (ckptIndexKey (keyPrefix st) tenantID sessionID) (score_of now)
            (VDoc (marshal_CheckpointMeta (mkCheckpointMeta ckptID sessionID now))))
     (ret None))).

Definition create_fn {E} (ts : RedisTaskStore E) (ctx : context) (tenantID : string) (task : Task)
    (data : json) (tx : Tx E) : M E (option error) :=
  then_ (tx_Set tx ctx (taskKey (tkeyPrefix ts) tenantID (task_ID task)) (VDoc data) (ttl ts))
  (let index :=
     then_ (tx_ZAdd tx ctx (tenantIndexKey (tkeyPrefix ts) tenantID) (score_of (task_UpdatedAt task))
              (VStr (task_ID task)))
       (ret None) in
   if bool_decide (task_ContextID task <> "") then
     then_ (tx_RPush tx ctx (contextKey (tkeyPrefix ts) tenantID (task_ContextID task))
              [VStr (task_ID task)]) index
   else index).

Definition update_fn {E} (ts : RedisTaskStore E) (ctx : context) (tenantID taskID : string) (task : Task)
    (data : json) (tx : Tx E) : M E (option error) :=
  then_ (tx_Set tx ctx (taskKey (tkeyPrefix ts) tenantID taskID) (VDoc data) (ttl ts))
    (tx_ZAdd tx ctx (tenantIndexKey (tkeyPrefix ts) tenantID) (score_of (task_UpdatedAt task)) (VStr taskID)).

(** A closure that issues the commands [cmds], one after the other. *)
Definition send {E} (tx : Tx E) (ctx : context) (cmd : redis_cmd) : M E (option error) :=
  match cmd with
  | CSet key value ttl => tx_Set tx ctx key value ttl
  | CRPush key value => tx_RPush tx ctx key [value]
  | CZAdd key score member => tx_ZAdd tx ctx key score member
  end.

Fixpoint issue {E} (ctx : context) (cmds : list redis_cmd) (tx : Tx E) : M E (option error) :=
  match cmds with
  | [] => ret None
  | cmd :: rest => then_ (send tx ctx cmd) (issue ctx rest tx)
  end.

(** The client that the stores are given. *)
Definition driver_client {E} (d : GoRedisDriver E) : RedisClient E :=
  mkRedisClient (driver_Get d) (fun ctx key v => driver_RPush d ctx key [v]) (driver_LRange d)
    (driver_LTrim d) (driver_ZRange d) (driver_ZRemRangeByRank d)
    (fun ctx cmds => driver_TxExec d ctx (issue ctx cmds)).

(** ** What the driver relies on *)

(** [queues ctx fn cmds]: on a pipeline, whose commands queue and report no
    error, [fn] queues [cmds] and returns no error. *)
Inductive queues {E} (ctx : context) : (Pipeliner E -> M E (option error)) -> list redis_cmd -> Prop :=
  | q_done : queues ctx (fun _ => ret None) []
  | q_set key value ttl fn cmds :
      queues ctx fn cmds ->
      queues ctx (fun p => then_ (p_Set p ctx key value ttl) (fn p)) (CSet key value ttl :: cmds)
  | q_rpush key value fn cmds :
      queues ctx fn cmds ->
      queues ctx (fun p => then_ (p_RPush p ctx key [value]) (fn p)) (CRPush key value :: cmds)
  | q_zadd key score member fn cmds :
      queues ctx fn cmds ->
      queues ctx (fun p => then_ (p_ZAdd p ctx key score member) (fn p)) (CZAdd key score member :: cmds)
  | q_ext fn fn' cmds : queues ctx fn cmds -> (forall p w, fn p w = fn' p w) -> queues ctx fn' cmds.

(** go-redis on one server with the database [db_of]: [GET] of a missing key is
    [redis.Nil]; [Pipelined] runs the commands its closure queues and returns
    the first error; nothing writes the states. *)
Class GoRedisLaws {E} (c : UniversalClient E) (db_of : E -> redis_db) : Prop := {
  go_get : forall ctx key w, uc_Get c ctx key w =
    (Ret (match db_of (w_ext w) !! key with
          | None => (VStr "", Some (uc_Nil c))
          | e => get_answer e
          end), w);
  go_nil : uc_Nil c <> ErrWrongType;
  go_rpush : forall ctx key v w, exists err w',
    uc_RPush c ctx key [v] w = (Ret err, w') /\
    exec_cmds [CRPush key v] (db_of (w_ext w)) err (db_of (w_ext w')) /\ w_heap w' = w_heap w;
  go_pipelined : forall ctx fn cmds w, queues ctx fn cmds -> exists err w',
    uc_Pipelined c ctx fn w = (Ret err, w') /\
    exec_cmds cmds (db_of (w_ext w)) err (db_of (w_ext w')) /\ w_heap w' = w_heap w;
}.

(** ** Lemmas *)

Lemma issue_queues {E} ctx cmds : queues (E := E) ctx (fun p => issue ctx cmds (pipelinerAdapter p)) cmds.
Proof. induction cmds as [|[] cmds IH]; simpl; by constructor. Qed.

Lemma then_ret {E} (m : M E (option error)) w : then_ m (ret None) w = m w.
Proof. unfold then_, bind. by destruct (m w) as [[[e|]| |] w']. Qed.

Lemma then_ext {E} (m k k' : M E (option error)) w :
  (forall w', k w' = k' w') -> then_ m k w = then_ m k' w.
Proof. intros H. unfold then_, bind. destruct (m w) as [[[e|]| |] w']; [done | apply H | done | done]. Qed.

Lemma save_fn_issue {E} (st : RedisMemoryStore E) ctx t sid id now data tx w :
  save_fn st ctx t sid id now data tx w = issue ctx (save_cmds st t sid id now data) tx w.
Proof. reflexivity. Qed.

Lemma create_fn_issue {E} (ts : RedisTaskStore E) ctx t task data tx w :
  create_fn ts ctx t task data tx w = issue ctx (create_cmds ts t task data) tx w.
Proof.
  unfold create_fn, create_cmds. destruct (decide (task_ContextID task = "")) as [He|Hne].
  - by rewrite bool_decide_eq_false_2, bool_decide_eq_true_2 by auto.
  - by rewrite bool_decide_eq_true_2, bool_decide_eq_false_2 by auto.
Qed.

(** The closures the stores give to [TxExec], with the commands [Storage] has
    for them. *)
Inductive store_closure {E} (ctx : context) : (Tx E -> M E (option error)) -> list redis_cmd -> Prop :=
  | sc_save st tenantID sessionID ckptID now data :
      store_closure ctx (save_fn st ctx tenantID sessionID ckptID now data)
        (save_cmds st tenantID sessionID ckptID now data)
  | sc_create ts tenantID task data :
      store_closure ctx (create_fn ts ctx tenantID task data) (create_cmds ts tenantID task data)
  | sc_update ts tenantID taskID task data :
      store_closure ctx (update_fn ts ctx tenantID taskID task data)
        [CSet (taskKey (tkeyPrefix ts) tenantID taskID) (VDoc data) (ttl ts);
         CZAdd (tenantIndexKey (tkeyPrefix ts) tenantID) (score_of (task_UpdatedAt task)) (VStr taskID)].

Lemma store_closure_queues {E} ctx (fn : Tx E -> M E (option error)) cmds :
  store_closure ctx fn cmds -> queues ctx (fun p => fn (pipelinerAdapter p)) cmds.
Proof.
  intros H. eapply q_ext; [apply issue_queues|]. intros p w. symmetry. destruct H.
  - apply save_fn_issue.
  - apply create_fn_issue.
  - simpl. unfold update_fn. apply then_ext. intros w'. by rewrite then_ret.
Qed.

Lemma driver_laws {E} (c : UniversalClient E) (db_of : E -> redis_db) :
  GoRedisLaws c db_of -> RedisLaws (driver_client (mkGoRedisDriver c)) db_of.
Proof.
  intros Hc. split.
  - intros ctx key w. simpl. unfold driver_Get. rewrite (bind_Ret _ _ _ _ _ (go_get (db_of := db_of) _ _ _)).
    pose proof (go_nil (db_of := db_of) (c := c)) as Hn. cbn beta iota. cbn [gr_client].
    destruct (db_of (w_ext w) !! key) as [[v|l|z]|]; cbn [get_answer]; case_bool_decide; first [done | congruence].
  - intros ctx cmds w. apply (go_pipelined (db_of := db_of)). apply issue_queues.
  - intros ctx key v w. apply (go_rpush (db_of := db_of)).
Qed.

(** ** Properties *)

(** C22: the driver gives the stores the client they rely on. Over a go-redis
    client that behaves as documented, the driver meets the laws that the
    properties of the Redis stores are proved against - a missing key is
    [ErrRedisKeyNotFound], which the stores look for, every other answer is the
    server's - and each closure that a store gives to [TxExec] runs exactly the
    commands [Storage] has for it, whose first error it returns; the others run
    all the same. *)
Theorem driver_serves_stores {E} (c : UniversalClient E) (db_of : E -> redis_db) :
  GoRedisLaws c db_of ->
  let d := mkGoRedisDriver c in
  RedisLaws (driver_client d) db_of /\
  (forall ctx fn cmds w, store_closure ctx fn cmds ->
     exists err w', driver_TxExec d ctx fn w = (Ret err, w') /\
       exec_cmds cmds (db_of (w_ext w)) err (db_of (w_ext w')) /\ w_heap w' = w_heap w) /\
  (forall ctx key w, db_of (w_ext w) !! key = None ->
     driver_Get d ctx key w = (Ret (VStr "", Some ErrRedisKeyNotFound), w)).
Proof.
  intros Hc d. split; [by apply driver_laws|]. split.
  - intros ctx fn cmds w Hfn. apply (go_pipelined (db_of := db_of)). by apply store_closure_queues.
  - intros ctx key w Hk. pose proof (driver_laws c db_of Hc) as Hl.
    etransitivity; [apply (law_get (db_of := db_of) (c := driver_client d))|]. by rewrite Hk.
Qed.

(** ** Witnesses *)

(** A server in memory: the database and the queue of the pipeline. *)
Definition demo_server : Type := redis_db * list redis_cmd.

Definition demo_queue (cmd : redis_cmd) : M demo_server (option error) :=
  q <- get (T := list redis_cmd) ;; put (q ++ [cmd]) ;; ret None.

Definition demo_pipe : Pipeliner demo_server :=
  mkPipeliner (fun _ key v ttl => demo_queue (CSet key v ttl))
    (fun _ key vs => match vs with [v] => demo_queue (CRPush key v) | _ => ret None end)
    (fun _ _ _ _ => ret None) (fun _ key score m => demo_queue (CZAdd key score m))
    (fun _ _ _ _ => ret None).

Definition demo_Nil : error := ErrNew "redis: nil".

Definition demo_go_redis : UniversalClient demo_server :=
  mkUniversalClient demo_Nil
    (fun _ key w => (Ret (match (w_ext w).1 !! key with
                          | None => (VStr "", Some demo_Nil)
                          | e => get_answer e
                          end), w))
    (fun _ key v ttl => demo_run [CSet key v ttl])
    (fun _ key vs => demo_run (CRPush key <$> vs))
    (fun _ _ _ _ => ret ([], None)) (fun _ _ _ _ => ret None)
    (fun _ key score m => demo_run [CZAdd key score m])
    (fun _ _ _ _ => ret ([], None)) (fun _ _ _ _ => ret None)
    (fun _ fn =>
       put (T := list redis_cmd) [] ;;
       then_ (fn demo_pipe) (q <- get (T := list redis_cmd) ;; demo_run q)).

Lemma demo_pipe_queues ctx fn cmds (w : World demo_server) :
  queues ctx fn cmds ->
  fn demo_pipe w = (Ret None, set_ext ((w_ext w).1, (w_ext w).2 ++ cmds) w).
Proof.
  assert (Hnil : forall w : World demo_server, w = set_ext ((w_ext w).1, (w_ext w).2 ++ []) w).
  { intros [h o [db q]]. unfold set_ext. simpl. by rewrite app_nil_r. }
  assert (Hcons : forall (w : World demo_server) k cmd cmds,
    k (set_ext ((w_ext w).1, (w_ext w).2 ++ [cmd]) w) =
      (Ret None, set_ext ((w_ext w).1, (w_ext w).2 ++ cmd :: cmds) w) ->
    then_ (demo_queue cmd) k w = (Ret None, set_ext ((w_ext w).1, (w_ext w).2 ++ cmd :: cmds) w)).
  { intros [h o [db q]] k cmd cs Hk. exact Hk. }
  intros H. revert w. induction H as [|k v t fn cmds _ IH|k v fn cmds _ IH|k s m fn cmds _ IH|fn fn' cmds _ IH He];
    intros w; [by rewrite <- Hnil| | | |by rewrite <- He, IH]; cbn beta;
    apply Hcons; rewrite IH; unfold set_ext; simpl; by rewrite <- app_assoc.
Qed.

#[export] Instance demo_go_laws : GoRedisLaws demo_go_redis fst.
Proof.
  split; [done | done | |].
  - intros ctx key v w. exact (demo_run_ok (E := demo_server) [CRPush key v] w).
  - intros ctx fn cmds w Hq. simpl. unfold then_.
    set (w0 := set_ext ((w_ext w).1, []) w).
    assert (Hfn : fn demo_pipe w0 = (Ret None, set_ext ((w_ext w).1, cmds) w)) by apply (demo_pipe_queues _ _ _ w0 Hq).
    destruct (demo_run_ok (E := demo_server) cmds (set_ext ((w_ext w).1, cmds) w)) as (err & w' & Hr & Hex & Hh).
    exists err, w'. split; [|done].
    change ((err <- fn demo_pipe ;;
             match err with Some e => ret (Some e) | None => q <- get (T := list redis_cmd) ;; demo_run q end) w0
            = (Ret err, w')).
    rewrite (bind_Ret _ _ _ _ _ Hfn). exact Hr.
Qed.

Lemma driver_serves_stores_witness :
  RedisLaws (driver_client (mkGoRedisDriver demo_go_redis)) fst /\
  driver_Get (mkGoRedisDriver demo_go_redis) Background "k" (mkWorld [] demo_oracle (∅, [])) =
    (Ret (VStr "", Some ErrRedisKeyNotFound), mkWorld [] demo_oracle (∅, [])).
Proof.
  split; [apply (driver_serves_stores demo_go_redis fst demo_go_laws)|].
  apply (driver_serves_stores demo_go_redis fst demo_go_laws). reflexivity.
Defined.
