(* ===== verification/ExecContext.v ===== *)
(** * core/context.go: execution contexts

    A context of the standard library is the list of its layers, innermost
    first. [context.WithTimeout] and [context.WithCancel] put a layer on their
    parent; a layer ends by its cancel function or at its deadline, and a context
    is done as soon as one of its layers is. The layers and the [Metadata] maps,
    which are references, live in a [Runtime]. *)

From S2P Require Import Prelude GoLang.
From stdpp Require Import base gmap strings list relations.

(** ** The contexts of the standard library *)

Record layer := mkLayer { ly_deadline : option Z; ly_canceled : bool }.

Record Runtime := mkRuntime { rt_layers : list layer; rt_maps : list (gmap string any) }.

Definition std_context : Type := list nat.

Definition layer_done (rt : Runtime) (t : Z) (i : nat) : bool :=
  match rt_layers rt !! i with
  | None => false
  | Some l => ly_canceled l || match ly_deadline l with Some d => (d <=? t)%Z | None => false end
  end.

(** [ctx.Done()] is closed at the instant [t]. *)
Definition Done (rt : Runtime) (t : Z) (ctx : std_context) : bool := existsb (layer_done rt t) ctx.

(** The new context and the layer its cancel function ends. *)
Definition add_layer (deadline : option Z) (parent : std_context) (rt : Runtime) :
    std_context * nat * Runtime :=
  let i := length (rt_layers rt) in
  (i :: parent, i, mkRuntime (rt_layers rt ++ [mkLayer deadline false]) (rt_maps rt)).

Definition WithTimeout (now : Z) (parent : std_context) (timeout : Duration) (rt : Runtime) :
    std_context * nat * Runtime :=
  add_layer (Some (now + timeout)%Z) parent rt.

Definition WithCancel (parent : std_context) (rt : Runtime) : std_context * nat * Runtime :=
  add_layer None parent rt.

Definition cancel (i : nat) (rt : Runtime) : Runtime :=
  mkRuntime (alter (fun l => mkLayer (ly_deadline l) true) i (rt_layers rt)) (rt_maps rt).

(** [make(map[string]any)] with the entries [m]. *)
Definition make_map (m : gmap string any) (rt : Runtime) : nat * Runtime :=
  (length (rt_maps rt), mkRuntime (rt_layers rt) (rt_maps rt ++ [m])).

(** ** core/context.go *)

Definition ErrMissingTenantID : error := ErrNew "tenantID is required".

Record ExecutionContext := mkExecutionContext {
  ec_Context : std_context;
  ec_cancelFunc : option nat;
  ec_TraceID : string;
  ec_SpanID : string;
  ec_TenantID : string;
  ec_SessionID : string;
  ec_Metadata : nat;
}.

Definition NewContext (now : Z) (parent : std_context) (tenantID : string) (timeout : Duration)
    (rt : Runtime) : (ExecutionContext + error) * Runtime :=
  if bool_decide (tenantID = "") then (inr ErrMissingTenantID, rt)
  else
    let '(ctx, cf, rt) := WithTimeout now parent timeout rt in
    let (m, rt) := make_map ∅ rt in
    (inl (mkExecutionContext ctx (Some cf) "" "" tenantID "" m), rt).

Definition Derive (now : Z) (c : ExecutionContext) (timeout : Duration) (rt : Runtime) :
    ExecutionContext * Runtime :=
  let '(ctx, cf, rt) :=
    if (0 <? timeout)%Z then WithTimeout now (ec_Context c) timeout rt
    else WithCancel (ec_Context c) rt in
  let (m, rt) := make_map (default ∅ (rt_maps rt !! ec_Metadata c)) rt in
  (mkExecutionContext ctx (Some cf) (ec_TraceID c) (ec_SpanID c) (ec_TenantID c) (ec_SessionID c) m, rt).

Definition Cancel (c : ExecutionContext) (rt : Runtime) : Runtime :=
  match ec_cancelFunc c with Some f => cancel f rt | None => rt end.

(** ** The uses of a context *)

(** [c.Metadata[k] = v]. *)
Definition SetMetadata (c : ExecutionContext) (k : string) (v : any) (rt : Runtime) : Runtime :=
  mkRuntime (rt_layers rt) (alter (fun m : gmap string any => <[k := v]> m) (ec_Metadata c) (rt_maps rt)).

Definition metadata (rt : Runtime) (c : ExecutionContext) : gmap string any :=
  default ∅ (rt_maps rt !! ec_Metadata c).

(** The contexts made so far, and the runtime. A program makes a context under
    [context.Background()] or one it has, derives one, cancels one or writes into
    its metadata. *)
Definition contexts : Type := list ExecutionContext * Runtime.

Inductive use : contexts -> contexts -> Prop :=
  | use_new cs rt now parent tenantID timeout c rt' :
      (parent = [] \/ exists i p, cs !! i = Some p /\ ec_Context p = parent) ->
      NewContext now parent tenantID timeout rt = (inl c, rt') -> use (cs, rt) (cs ++ [c], rt')
  | use_derive cs rt now i c timeout c' rt' :
      cs !! i = Some c -> Derive now c timeout rt = (c', rt') -> use (cs, rt) (cs ++ [c'], rt')
  | use_cancel cs rt i c : cs !! i = Some c -> use (cs, rt) (cs, Cancel c rt)
  | use_set cs rt i c k v : cs !! i = Some c -> use (cs, rt) (cs, SetMetadata c k v rt).

(** [c'] was made under [c], directly or not, or is [c]. *)
Definition descends (c' c : ExecutionContext) : Prop := suffix (ec_Context c) (ec_Context c').

(** What holds of the contexts of a program. *)
Record contexts_ok (x : contexts) : Prop := {
  ok_tenant : forall i c, x.1 !! i = Some c -> ec_TenantID c <> "";
  (** each has a layer of its own, which its cancel function ends *)
  ok_layer : forall i c, x.1 !! i = Some c ->
    exists f rest, ec_cancelFunc c = Some f /\ ec_Context c = f :: rest /\ (f ∉ rest) /\
      Forall (fun g => g < length (rt_layers x.2)) (ec_Context c);
  ok_own : forall i j c c' f, x.1 !! i = Some c -> x.1 !! j = Some c' ->
    ec_cancelFunc c = Some f -> f ∈ ec_Context c' -> descends c' c;
  (** and a map of its own *)
  ok_map : forall i c, x.1 !! i = Some c -> ec_Metadata c < length (rt_maps x.2);
  ok_maps : forall i j c c', x.1 !! i = Some c -> x.1 !! j = Some c' ->
    ec_Metadata c = ec_Metadata c' -> i = j;
}.

(** ** Lemmas *)

Lemma layer_done_cancel rt t i j :
  i < length (rt_layers rt) ->
  layer_done (cancel i rt) t j = bool_decide (j = i) || layer_done rt t j.
Proof.
  intros Hi. unfold layer_done, cancel. simpl. case_bool_decide as Hj.
  - subst j. rewrite list_lookup_alter_eq. apply lookup_lt_is_Some_2 in Hi as [l ->]. done.
  - by rewrite list_lookup_alter_ne.
Qed.

Lemma Done_cancel rt t i ctx :
  i < length (rt_layers rt) ->
  Done (cancel i rt) t ctx = bool_decide (i ∈ ctx) || Done rt t ctx.
Proof.
  intros Hi. unfold Done. induction ctx as [|j ctx IH]; simpl; [done|].
  rewrite IH, layer_done_cancel by done.
  destruct (decide (j = i)) as [->|Hne].
  - rewrite (bool_decide_eq_true_2 (i = i)), (bool_decide_eq_true_2 (i ∈ i :: ctx)); [done | by left | done].
  - rewrite (bool_decide_eq_false_2 (j = i)) by done. simpl.
    rewrite (bool_decide_ext (i ∈ j :: ctx) (i ∈ ctx)) by set_solver.
    rewrite !orb_assoc. f_equal. apply orb_comm.
Qed.

Lemma layer_done_grow rt t i ls :
  i < length (rt_layers rt) ->
  layer_done (mkRuntime (rt_layers rt ++ ls) (rt_maps rt)) t i = layer_done rt t i.
Proof. intros Hi. unfold layer_done. simpl. by rewrite lookup_app_l. Qed.

Lemma Done_descends rt t c c' : descends c' c -> Done rt t (ec_Context c) = true -> Done rt t (ec_Context c') = true.
Proof. intros [k ->] H. unfold Done in *. rewrite existsb_app, H. apply orb_true_r. Qed.

Lemma contexts_ok_grow cs rt c f parent n m :
  contexts_ok (cs, rt) ->
  ec_TenantID c <> "" -> ec_cancelFunc c = Some f -> f = length (rt_layers rt) ->
  ec_Context c = f :: parent -> ec_Metadata c = length (rt_maps rt) ->
  (parent = [] \/ exists i p, cs !! i = Some p /\ ec_Context p = parent) ->
  contexts_ok (cs ++ [c], mkRuntime (rt_layers rt ++ [n]) (rt_maps rt ++ [m])).
Proof.
  intros [Ht Hl Ho Hm Hms] Htc Hf -> Hc Hmc Hp.
  assert (Hpl : Forall (fun g => g < length (rt_layers rt)) parent).
  { destruct Hp as [->|(i & p & Hi & <-)]; [constructor|]. by destruct (Hl _ _ Hi) as (? & ? & _ & _ & _ & ?). }
  split; simpl.
  - intros i c' [[_ Hi]|[_ <-]]%lookup_snoc_Some; [by eapply Ht | done].
  - intros i c' Hi. rewrite length_app. simpl. apply lookup_snoc_Some in Hi as [[_ Hi]|[_ <-]].
    + destruct (Hl _ _ Hi) as (f & rest & H1 & H2 & H3 & H4). exists f, rest. split_and!; try done.
      eapply Forall_impl; [exact H4|]. simpl. lia.
    + eexists _, _. split_and!; [exact Hf | exact Hc| |].
      * intros Hin. rewrite Forall_forall in Hpl. specialize (Hpl _ Hin). simpl in Hpl. lia.
      * rewrite Hc. constructor; [lia|]. eapply Forall_impl; [exact Hpl|]. simpl. lia.
  - intros i j c1 c2 f1 Hi Hj Hf1 Hin.
    apply lookup_snoc_Some in Hi as [[_ Hi]|[_ <-]], Hj as [[_ Hj]|[_ <-]].
    + by eapply Ho.
    + destruct (Hl _ _ Hi) as (f2 & rest & H1 & H2 & _ & H4). rewrite Hf1 in H1. injection H1 as ->.
      rewrite Hc in Hin. apply elem_of_cons in Hin as [->|Hin].
      { exfalso. rewrite H2 in H4. apply Forall_cons in H4 as [H4 _]. simpl in H4. lia. }
      destruct Hp as [->|(k & p & Hk & <-)]; [by apply elem_of_nil in Hin|].
      destruct (Ho _ _ _ _ _ Hi Hk Hf1 Hin) as [z Hz]. exists (length (rt_layers rt) :: z).
      by rewrite Hc, Hz.
    + rewrite Hf in Hf1. injection Hf1 as <-.
      destruct (Hl _ _ Hj) as (? & ? & _ & _ & _ & H4). rewrite Forall_forall in H4.
      specialize (H4 _ Hin). simpl in H4. lia.
    + by exists [].
  - intros i c' Hi. rewrite length_app. simpl. apply lookup_snoc_Some in Hi as [[_ Hi]|[_ <-]]; [|lia].
    specialize (Hm _ _ Hi). simpl in Hm. lia.
  - intros i j c1 c2 Hi Hj He.
    apply lookup_snoc_Some in Hi as [[_ Hi]|[-> <-]], Hj as [[_ Hj]|[-> <-]]; [by eapply Hms | | |done].
    + specialize (Hm _ _ Hi). simpl in Hm. lia.
    + specialize (Hm _ _ Hj). simpl in Hm. lia.
Qed.

Lemma contexts_ok_same cs rt rt' :
  contexts_ok (cs, rt) -> length (rt_layers rt') = length (rt_layers rt) ->
  length (rt_maps rt') = length (rt_maps rt) -> contexts_ok (cs, rt').
Proof.
  intros [Ht Hl Ho Hm Hms] H1 H2. split; simpl; try done.
  - intros i c Hi. rewrite H1. by eapply Hl.
  - intros i c Hi. rewrite H2. by eapply Hm.
Qed.

Lemma use_ok x y : contexts_ok x -> use x y -> contexts_ok y.
Proof.
  intros Hx Hu. destruct Hu as [cs rt now par tid d c rt' Hp Hn|cs rt now i p d c rt' Hi Hd|cs rt i c Hi|cs rt i c k v Hi].
  - unfold NewContext in Hn. case_bool_decide; [done|]. injection Hn as <- <-.
    by eapply contexts_ok_grow; eauto.
  - assert (exists dl, c = mkExecutionContext (length (rt_layers rt) :: ec_Context p)
        (Some (length (rt_layers rt))) (ec_TraceID p) (ec_SpanID p) (ec_TenantID p) (ec_SessionID p)
        (length (rt_maps rt)) /\
      rt' = mkRuntime (rt_layers rt ++ [mkLayer dl false])
              (rt_maps rt ++ [default ∅ (rt_maps rt !! ec_Metadata p)])) as (dl & -> & ->).
    { unfold Derive, WithTimeout, WithCancel in Hd. destruct (0 <? d)%Z; injection Hd as <- <-; eauto. }
    eapply contexts_ok_grow; eauto. exact (ok_tenant _ Hx _ _ Hi).
  - unfold Cancel. destruct (ec_cancelFunc c) as [f|]; [|done].
    eapply contexts_ok_same; [done | apply length_alter | done].
  - eapply contexts_ok_same; [done | done | apply length_alter].
Qed.

Lemma uses_ok x : rtc use ([], mkRuntime [] []) x -> contexts_ok x.
Proof.
  intros H. remember ([], mkRuntime [] []) as x0 eqn:He.
  assert (Hx : contexts_ok x0) by (subst; by split).
  clear He. induction H as [|x y z Hxy _ IH]; [done|]. apply IH. by eapply use_ok.
Qed.

Lemma Done_grow rt t ctx l ms :
  Forall (fun g => g < length (rt_layers rt)) ctx ->
  Done (mkRuntime (rt_layers rt ++ [l]) ms) t ctx = Done rt t ctx.
Proof.
  unfold Done. induction 1 as [|g ctx Hg _ IH]; [done|]. cbn [existsb]. rewrite IH. f_equal.
  exact (layer_done_grow rt t g [l] Hg).
Qed.

Lemma metadata_new rt ls m ctx cf a b d e :
  metadata (mkRuntime ls (rt_maps rt ++ [m])) (mkExecutionContext ctx cf a b d e (length (rt_maps rt))) = m.
Proof. unfold metadata. simpl. by rewrite lookup_app_r, Nat.sub_diag. Qed.

Lemma Derive_spec now c timeout rt :
  Forall (fun g => g < length (rt_layers rt)) (ec_Context c) ->
  let (c', rt') := Derive now c timeout rt in
  ec_TenantID c' = ec_TenantID c /\ ec_TraceID c' = ec_TraceID c /\ ec_SpanID c' = ec_SpanID c /\
  ec_SessionID c' = ec_SessionID c /\ metadata rt' c' = metadata rt c /\ descends c' c /\
  forall t, Done rt' t (ec_Context c') =
    (0 <? timeout)%Z && (now + timeout <=? t)%Z || Done rt t (ec_Context c).
Proof.
  intros Hl. unfold Derive, WithTimeout, WithCancel, add_layer, make_map.
  destruct (0 <? timeout)%Z; cbn [rt_maps rt_layers];
    (split_and!; [done | done | done | done | apply metadata_new | by exists [length (rt_layers rt)] |]);
    intros t; cbn [ec_Context]; unfold Done at 1; cbn [existsb]; fold (Done (mkRuntime (rt_layers rt ++ [mkLayer (Some (now + timeout)%Z) false]) (rt_maps rt ++ [default ∅ (rt_maps rt !! ec_Metadata c)])) t (ec_Context c));
    fold (Done (mkRuntime (rt_layers rt ++ [mkLayer None false]) (rt_maps rt ++ [default ∅ (rt_maps rt !! ec_Metadata c)])) t (ec_Context c));
    rewrite Done_grow by done; unfold layer_done; cbn [rt_layers];
    rewrite lookup_app_r, Nat.sub_diag by done; done.
Qed.

(** ** Properties *)

(** Execution contexts are scoped. However a program makes, derives, cancels
    and annotates contexts, each one has a tenant; a context is done whenever
    one it descends from is; cancelling a context ends exactly it and its
    descendants; a write to the metadata of one context is seen by no other. A
    derived context starts with the identifiers and the metadata of its parent
    and ends with it, or at its own deadline when it has one. *)
Theorem contexts_scoped (cs : list ExecutionContext) (rt : Runtime) :
  rtc use ([], mkRuntime [] []) (cs, rt) ->
  (forall i c, cs !! i = Some c -> ec_TenantID c <> "") /\
  (forall i j c c', cs !! i = Some c -> cs !! j = Some c' ->
     (forall t, descends c' c -> Done rt t (ec_Context c) = true -> Done rt t (ec_Context c') = true) /\
     (forall t, Done (Cancel c rt) t (ec_Context c') = true <->
        descends c' c \/ Done rt t (ec_Context c') = true) /\
     (forall k v, metadata (SetMetadata c k v rt) c' =
        if decide (i = j) then <[k := v]> (metadata rt c') else metadata rt c')) /\
  (forall i c now timeout, cs !! i = Some c ->
     let (c', rt') := Derive now c timeout rt in
     ec_TenantID c' = ec_TenantID c /\ ec_TraceID c' = ec_TraceID c /\ ec_SpanID c' = ec_SpanID c /\
     ec_SessionID c' = ec_SessionID c /\ metadata rt' c' = metadata rt c /\ descends c' c /\
     forall t, Done rt' t (ec_Context c') =
       (0 <? timeout)%Z && (now + timeout <=? t)%Z || Done rt t (ec_Context c)).
Proof.
  intros [Ht Hl Ho Hm Hms]%uses_ok. simpl in *. split_and!; [done| |].
  - intros i j c c' Hi Hj. split_and!.
    + intros t. apply Done_descends.
    + intros t. destruct (Hl _ _ Hi) as (f & rest & Hf & Hc & _ & Hlt).
      unfold Cancel. rewrite Hf, Done_cancel, orb_true_iff, bool_decide_eq_true.
      2: { rewrite Hc in Hlt. by apply Forall_cons in Hlt as [? _]. }
      assert (f ∈ ec_Context c' <-> descends c' c) as ->; [|done]. split; [by eapply Ho|].
      intros [z ->]. rewrite Hc. set_solver.
    + intros k v. unfold metadata, SetMetadata. simpl. destruct (decide (i = j)) as [->|Hne].
      * rewrite Hi in Hj. injection Hj as <-. rewrite list_lookup_alter_eq.
        apply Hm, lookup_lt_is_Some_2 in Hi as [m ->]. done.
      * rewrite list_lookup_alter_ne; [done|]. intros He. by apply Hne, (Hms _ _ _ _ Hi Hj).
  - intros i c now timeout Hi. apply Derive_spec. by destruct (Hl _ _ Hi) as (? & ? & _ & _ & _ & ?).
Qed.

(** ** Witnesses *)

(** A context with a deadline, a context derived from it, and the cancellation
    of the first. *)
Definition demo_parent : ExecutionContext := mkExecutionContext [0] (Some 0) "" "" "acme" "" 0.

Definition demo_child : ExecutionContext := mkExecutionContext [1; 0] (Some 1) "" "" "acme" "" 1.

Definition demo_runtime : Runtime := mkRuntime [mkLayer (Some 30%Z) true; mkLayer None false] [∅; ∅].

Lemma contexts_scoped_witness :
  rtc use ([], mkRuntime [] []) ([demo_parent; demo_child], demo_runtime) /\
  Done demo_runtime 10 (ec_Context demo_child) = true /\
  forall v, metadata (SetMetadata demo_child "k" v demo_runtime) demo_parent = ∅.
Proof.
  assert (H : rtc use ([], mkRuntime [] []) ([demo_parent; demo_child], demo_runtime)).
  { eapply rtc_l; [by apply (use_new [] (mkRuntime [] []) 0%Z [] "acme" 30%Z demo_parent); [left|]|].
    eapply rtc_l; [by apply (use_derive [demo_parent] _ 0%Z 0 demo_parent 0%Z demo_child)|].
    eapply rtc_l; [by apply (use_cancel _ _ 0 demo_parent)|]. apply rtc_refl. }
  destruct (contexts_scoped _ _ H) as (_ & Hs & _). split; [exact H|]. split.
  - apply (proj1 (Hs 0 1 demo_parent demo_child eq_refl eq_refl)); [by exists [1] | reflexivity].
  - intros v. exact (proj2 (proj2 (Hs 1 0 demo_child demo_parent eq_refl eq_refl)) "k" v).
Defined.
