(* ===== verification/Metrics.v ===== *)
(** * observability/metrics.go, otel.go: the exporters

    Two hooks whose work is calls into Prometheus and OpenTelemetry. The calls
    are recorded in order; that is all the model says about the two libraries,
    except that a call on a metric may panic: [refuses] answers when, as for a
    label that is not UTF-8 or a counter that would decrease. A span is named by
    the number of calls before the one that started it. The metrics are registered
    by a parameter, [MustRegister]; [InitTracer] sets the globals of OpenTelemetry.
    The HTTP handler of Prometheus is the library's. *)

From S2P Require Import Prelude GoLang Core Json World Interfaces Memory Graph Resilience Engine.
From Stdlib Require Import SpecFloat.
From stdpp Require Import base gmap strings list sets.

#[local] Open Scope go_scope.

(** ** metrics.go *)

Inductive metric := llmInputTokens | llmOutputTokens | nodeDuration | toolCallsTotal | activeSessions.

#[export] Instance metric_eq_dec : EqDecision metric.
Proof. solve_decision. Defined.

Inductive metric_kind := Counter | Gauge | Histogram (buckets : list float64).

Record metric_desc := mkMetricDesc {
  md_kind : metric_kind;
  md_Name : string;
  md_Help : string;
  md_labels : list string;
}.

(** The constant [a/b]. *)
Definition decimal (a b : Z) : float64 := SFdiv 53 1024 (float_of_Z a) (float_of_Z b).

Definition desc (m : metric) : metric_desc :=
  match m with
  | llmInputTokens =>
      mkMetricDesc Counter "fluxgraph_llm_input_tokens_total" "Total number of input tokens consumed by LLM nodes."
        ["tenant_id"; "model"]
  | llmOutputTokens =>
      mkMetricDesc Counter "fluxgraph_llm_output_tokens_total" "Total number of output tokens consumed by LLM nodes."
        ["tenant_id"; "model"]
  | nodeDuration =>
      mkMetricDesc
        (Histogram [decimal 1 100; decimal 5 100; decimal 1 10; decimal 5 10; float_of_Z 1; float_of_Z 2;
                    float_of_Z 5; float_of_Z 10; float_of_Z 30])
        "fluxgraph_node_duration_seconds" "Histogram of node execution duration in seconds." ["tenant_id"; "node_id"]
  | toolCallsTotal =>
      mkMetricDesc Counter "fluxgraph_tool_calls_total" "Total number of tool calls processed." ["tool_name"; "status"]
  | activeSessions =>
      mkMetricDesc Gauge "fluxgraph_active_sessions" "Number of currently active agent sessions." ["tenant_id"]
  end.

(** The metrics in the order in which [init] registers them. *)
Definition registered_metrics : list metric :=
  [llmInputTokens; llmOutputTokens; nodeDuration; toolCallsTotal; activeSessions].

Definition metrics_init {E} (MustRegister : metric_desc -> M E unit) : M E unit :=
  for_each (fun m => MustRegister (desc m)) registered_metrics.

(** [m.WithLabelValues(labels...).Observe(v)] or [.Add(v)]. *)
Record metric_call := mkMetricCall { mc_metric : metric; mc_labels : list string; mc_value : float64 }.

Definition Exporter : Type := list metric_call.

(** [d.Seconds()]. *)
Definition Seconds (d : Duration) : float64 :=
  fadd (float_of_Z (Z.quot d Second)) (SFdiv 53 1024 (float_of_Z (Z.rem d Second)) (float_of_Z Second)).

(** [v.(map[string]any)], [v.(int)]. *)
Definition as_map (v : option any) : option amap :=
  match v with Some (AMap m) => Some m | _ => None end.

Definition as_int (v : option any) : option Z :=
  match v with Some (AInt z) => Some z | _ => None end.

Definition metric_tenant (state : option AgentState) : string :=
  match state with
  | Some s =>
      let tid := string_or_empty (var_get s "tenant_id") in
      if bool_decide (tid = "") then "default" else tid
  | None => "default"
  end.

(** The calls of the two [Add]s. *)
Definition token_calls (tenantID : string) (state : option AgentState) : list metric_call :=
  match state with
  | Some s =>
      match as_map (var_get s "__token_usage__") with
      | Some usage =>
          let name := string_or_empty (var_get s "model_name") in
          let model := if bool_decide (name = "") then "unknown" else name in
          (match as_int (alookup "in" usage) with
           | Some inp => [mkMetricCall llmInputTokens [tenantID; model] (float_of_Z inp)]
           | None => []
           end) ++
          (match as_int (alookup "out" usage) with
           | Some out => [mkMetricCall llmOutputTokens [tenantID; model] (float_of_Z out)]
           | None => []
           end)
      | None => []
      end
  | None => []
  end.

Definition metric_calls (state : option AgentState) (meta : HookMeta) : list metric_call :=
  if bool_decide (hm_Point meta = HookAfterNode) then
    mkMetricCall nodeDuration [metric_tenant state; hm_NodeID meta] (Seconds (hm_Elapsed meta))
      :: token_calls (metric_tenant state) state
  else [].

(** ** otel.go *)

(** The provider of the tracers: the exporter behind its batcher, if any, and the
    resource, of a type [R]. *)
Record TracerProvider (R : Type) := mkTracerProvider { tp_exporter : option string; tp_resource : R }.

Arguments mkTracerProvider {R}.
Arguments tp_exporter {R} t.
Arguments tp_resource {R} t.

Inductive propagator := TraceContext | Baggage.

(** The globals of OpenTelemetry. *)
Record OtelGlobals (R : Type) := mkOtelGlobals {
  og_TracerProvider : option (TracerProvider R);
  og_TextMapPropagator : list propagator;
}.

Arguments mkOtelGlobals {R}.
Arguments og_TracerProvider {R} o.
Arguments og_TextMapPropagator {R} o.

Section tracer.
Context {E R : Type} `{!Has (OtelGlobals R) E} (resource_New : list (string * string) -> R + error).

(** [sdktrace.WithBatcher(nil)]: no exporter. *)
Definition InitTracer (serviceName : string) : M E (option (TracerProvider R) * option error) :=
  match resource_New [("service.name", serviceName); ("environment", "production")] with
  | inr err => ret (None, Some (ErrWrap ("failed to create resource: " +:+ Error err) err))
  | inl res =>
      let tp := mkTracerProvider None res in
      put (mkOtelGlobals (Some tp) [TraceContext; Baggage]) ;;
      ret (Some tp, None)
  end.

Definition GetTextMapPropagator : M E (list propagator) :=
  g <- get (T := OtelGlobals R) ;; ret (og_TextMapPropagator g).
End tracer.

Inductive trace_call :=
  | TStart (name node_id tenant_id task_id context_id : string) (step_count : Z)
  | TRecordError (span : nat) (err : option error)
  | TSetError (span : nat)
  | TEnd (span : nat).

Definition Tracing : Type := list trace_call.

Record OtelTracingHook := mkOtelTracingHook { spans : gmap string nat }.

Definition NewOtelTracingHook : OtelTracingHook := mkOtelTracingHook ∅.

(** The state of the span that [meta] closes, when it is open. *)
Definition close_span (meta : HookMeta) (last_calls : nat -> list trace_call) (x : OtelTracingHook * Tracing) :
    OtelTracingHook * Tracing :=
  match spans x.1 !! hm_NodeID meta with
  | Some span => (mkOtelTracingHook (delete (hm_NodeID meta) (spans x.1)), x.2 ++ last_calls span)
  | None => x
  end.

Definition start_call (s : AgentState) (meta : HookMeta) : trace_call :=
  let tid := string_or_empty (var_get s "tenant_id") in
  TStart ("node." +:+ hm_NodeID meta) (hm_NodeID meta) (if bool_decide (tid = "") then "default" else tid)
    (TaskID s) (ContextID s) (hm_StepCount meta).

(** The cases of the [switch]; the state is read in the first only. *)
Definition otel_step (s : AgentState) (meta : HookMeta) (x : OtelTracingHook * Tracing) :
    OtelTracingHook * Tracing :=
  if bool_decide (hm_Point meta = HookBeforeNode) then
    (mkOtelTracingHook (<[hm_NodeID meta := length x.2]> (spans x.1)), x.2 ++ [start_call s meta])
  else if bool_decide (hm_Point meta = HookAfterNode) then
    close_span meta (fun span => [TEnd span]) x
  else if bool_decide (hm_Point meta = HookOnError) then
    close_span meta (fun span => [TRecordError span (hm_Err meta); TSetError span; TEnd span]) x
  else x.

(** ** The methods *)

Section hooks.
Context {E : Type} (refuses : metric_call -> option string).

Definition call_metric `{!Has Exporter E} (c : metric_call) : M E unit :=
  match refuses c with
  | Some v => panic v
  | None => log <- get (T := Exporter) ;; put (log ++ [c])
  end.

(** A pointer that may be nil, read. *)
Definition load_ptr (p : option loc) : M E (option AgentState) :=
  match p with None => ret None | Some l => s <- load l ;; ret (Some s) end.

Definition Prometheus_OnHook `{!Has Exporter E} (state : option loc) (meta : HookMeta) : M E unit :=
  s <- load_ptr state ;; for_each call_metric (metric_calls s meta).

(** A hook with its tracer. *)
Definition Otel_OnHook `{!Has (OtelTracingHook * Tracing) E} (state : option loc) (meta : HookMeta) :
    M E unit :=
  s <- (if bool_decide (hm_Point meta = HookBeforeNode) then l <- deref state ;; load l
        else ret zero_AgentState) ;;
  x <- get (T := OtelTracingHook * Tracing) ;;
  put (otel_step s meta x).
End hooks.

(** ** What is counted *)

(** The hook on a list of events. *)
Definition otel_run (evs : list (AgentState * HookMeta)) : OtelTracingHook * Tracing :=
  foldl (fun x ev => otel_step ev.1 ev.2 x) (NewOtelTracingHook, []) evs.

(** The events that start a span while the one of their node is open. *)
Fixpoint overlaps (open : gset string) (evs : list (AgentState * HookMeta)) : nat :=
  match evs with
  | [] => 0
  | (_, meta) :: rest =>
      let id := hm_NodeID meta in
      if bool_decide (hm_Point meta = HookBeforeNode) then
        (if bool_decide (id ∈ open) then 1 else 0) + overlaps ({[id]} ∪ open) rest
      else if bool_decide (hm_Point meta = HookAfterNode) || bool_decide (hm_Point meta = HookOnError) then
        overlaps (open ∖ {[id]}) rest
      else overlaps open rest
  end.

(** The spans that were started, and the ones that were ended, in order. *)
Fixpoint started_from (n : nat) (log : Tracing) : list nat :=
  match log with
  | [] => []
  | TStart _ _ _ _ _ _ :: rest => n :: started_from (S n) rest
  | _ :: rest => started_from (S n) rest
  end.

Definition started (log : Tracing) : list nat := started_from 0 log.

Definition ended (log : Tracing) : list nat :=
  omap (fun c => match c with TEnd span => Some span | _ => None end) log.

(** The visits of nodes one after the other: a start, then an end or an error. *)
Definition visit_events (v : AgentState * HookMeta * HookMeta) : list (AgentState * HookMeta) :=
  [(v.1.1, v.1.2); (v.1.1, v.2)].

Definition one_visit (v : AgentState * HookMeta * HookMeta) : Prop :=
  hm_Point v.1.2 = HookBeforeNode /\ (hm_Point v.2 = HookAfterNode \/ hm_Point v.2 = HookOnError) /\
  hm_NodeID v.1.2 = hm_NodeID v.2.

(** ** Lemmas *)

(** The registration cannot panic in a registry that refuses only names it has. *)
Lemma metrics_init_ok {E} (MustRegister : metric_desc -> M E unit) (names : World E -> list string) w :
  (forall d w, md_Name d ∉ names w -> exists w', MustRegister d w = (Ret tt, w') /\ names w' = md_Name d :: names w) ->
  names w = [] ->
  exists w', metrics_init MustRegister w = (Ret tt, w') /\
    names w' = reverse ((fun m => md_Name (desc m)) <$> registered_metrics).
Proof.
  intros Hreg. assert (Hall : forall l w, NoDup (((fun m => md_Name (desc m)) <$> l) ++ names w) ->
    exists w', for_each (fun m => MustRegister (desc m)) l w = (Ret tt, w') /\
      names w' = reverse ((fun m => md_Name (desc m)) <$> l) ++ names w).
  { induction l as [|m l IH]; intros w0 Hnd; [by exists w0|]. rewrite fmap_cons in *. apply NoDup_cons in Hnd as [Hm Hnd].
    destruct (Hreg (desc m) w0) as (w1 & Hr & Hn); [intros Hin; apply Hm, elem_of_app; by right|].
    destruct (IH w1) as (w2 & Hl & Hn2).
    { rewrite Hn. apply NoDup_app in Hnd as (H1 & H2 & H3). apply NoDup_app. split_and!; [done| |].
      - intros x Hx [->|Hx']%elem_of_cons; [by apply Hm, elem_of_app; left | by eapply H2].
      - constructor; [|done]. intros Hin. apply Hm, elem_of_app. by right. }
    exists w2. simpl. rewrite (bind_Ret _ _ _ _ _ Hr). split; [exact Hl|]. rewrite Hn2, Hn, reverse_cons, <- app_assoc. done. }
  intros Hn. destruct (Hall registered_metrics w) as (w' & H1 & H2).
  - rewrite Hn, app_nil_r. by apply (bool_decide_unpack _).
  - exists w'. split; [exact H1|]. by rewrite H2, Hn, app_nil_r.
Qed.

(** Every call of the hook is on a registered metric with as many values as the
    metric has labels; the counter of the tool calls and the gauge of the sessions
    are registered and never touched. *)
Lemma metric_calls_fit s meta c :
  c ∈ metric_calls s meta ->
  mc_metric c ∈ [llmInputTokens; llmOutputTokens; nodeDuration] /\
  length (mc_labels c) = length (md_labels (desc (mc_metric c))).
Proof.
  unfold metric_calls, token_calls. case_bool_decide; [|by intros ?%elem_of_nil].
  intros [->|Hc]%elem_of_cons; [split; [set_solver | done]|]. destruct s as [s|]; [|by apply elem_of_nil in Hc].
  destruct (as_map _) as [usage|]; [|by apply elem_of_nil in Hc].
  apply elem_of_app in Hc as [Hc|Hc]; (destruct (as_int _); [|by apply elem_of_nil in Hc]);
    apply list_elem_of_singleton in Hc as ->; (split; [set_solver | done]).
Qed.

(** What the tracer is set up with: no exporter, whatever the resource. *)
Lemma InitTracer_outcomes {E R} `{!Has (OtelGlobals R) E} resource_New name (w : World E) :
  exists tp err w', InitTracer (R := R) resource_New name w = (Ret (tp, err), w') /\ w_heap w' = w_heap w /\
    (tp = None <-> err <> None) /\ forall t, tp = Some t -> tp_exporter t = None.
Proof.
  unfold InitTracer. destruct (resource_New _) as [res|err].
  - eexists _, _, _. split_and!; [reflexivity|done|by split|]. by intros t [= <-].
  - eexists _, _, _. by split_and!.
Qed.

Lemma started_app n log log' : started_from n (log ++ log') = started_from n log ++ started_from (n + length log) log'.
Proof.
  revert n. induction log as [|c log IH]; intros n; simpl; [by rewrite Nat.add_0_r|].
  rewrite IH. replace (S n + length log) with (n + S (length log)) by lia. by destruct c.
Qed.

Lemma started_snoc log c :
  started (log ++ [c]) = started log ++ match c with TStart _ _ _ _ _ _ => [length log] | _ => [] end.
Proof. unfold started. rewrite started_app. by destruct c. Qed.

Lemma started_bound log i : i ∈ started log -> i < length log.
Proof.
  induction log as [|c log IH] using rev_ind; [by intros ?%elem_of_nil|].
  rewrite started_snoc, elem_of_app, length_app. simpl. intros [H%IH|H]; [lia|].
  destruct c; try (by apply elem_of_nil in H). apply list_elem_of_singleton in H. lia.
Qed.

Lemma ended_app log log' : ended (log ++ log') = ended log ++ ended log'.
Proof. apply omap_app. Qed.

(** The spans of the map are started, not ended, and those of different nodes
    differ; no span is ended twice. *)
Record spans_ok (x : OtelTracingHook * Tracing) : Prop := {
  so_open : forall id i, spans x.1 !! id = Some i -> i ∈ started x.2 /\ i ∉ ended x.2;
  so_inj : forall id id' i, spans x.1 !! id = Some i -> spans x.1 !! id' = Some i -> id = id';
  so_ended : forall i, i ∈ ended x.2 -> i ∈ started x.2;
  so_once : NoDup (ended x.2);
}.

Lemma spans_ok_start s meta x :
  hm_Point meta = HookBeforeNode -> spans_ok x -> spans_ok (otel_step s meta x).
Proof.
  intros Hp [H1 H2 H3 H4]. unfold otel_step. rewrite bool_decide_eq_true_2 by done.
  assert (Hnew : forall i, i ∈ started x.2 -> i <> length x.2) by (intros i ?%started_bound; lia).
  split; simpl; rewrite ?started_snoc, ?ended_app, ?app_nil_r; simpl.
  - intros id i. rewrite lookup_insert_Some. intros [[_ <-]|[_ Hi]]; [|apply H1 in Hi as [? ?]; set_solver].
    split; [set_solver|]. intros Hin%H3%Hnew. done.
  - intros id id' i. rewrite !lookup_insert_Some.
    intros [[<- <-]|[Hne Hi]] [[<- He]|[Hne' Hi']]; [done| | |by eapply H2].
    + apply H1 in Hi' as [Hi' _]. by apply Hnew in Hi'.
    + subst i. apply H1 in Hi as [Hi _]. by apply Hnew in Hi.
  - intros i Hi%H3. set_solver.
  - done.
Qed.

Lemma spans_ok_close meta k x :
  (forall i, started (k i) = [] /\ ended (k i) = [i] /\ forall n, started_from n (k i) = []) ->
  spans_ok x -> spans_ok (close_span meta k x).
Proof.
  intros Hk [H1 H2 H3 H4]. unfold close_span. destruct (spans x.1 !! hm_NodeID meta) as [j|] eqn:Hj; [|by split].
  destruct (Hk j) as (_ & He & Hs). destruct (H1 _ _ Hj) as [Hjs Hje].
  assert (Hst : started (x.2 ++ k j) = started x.2).
  { unfold started. by rewrite started_app, Hs, app_nil_r. }
  split; simpl; rewrite ?Hst, ?ended_app, ?He.
  - intros id i. rewrite lookup_delete_Some. intros [Hne Hi]. destruct (H1 _ _ Hi) as [? ?].
    split; [done|]. rewrite elem_of_app, list_elem_of_singleton. intros [? | ->]; [done|].
    by apply Hne, (H2 _ _ j).
  - intros id id' i. rewrite !lookup_delete_Some. intros [_ Hi] [_ Hi']. by eapply H2.
  - intros i. rewrite elem_of_app, list_elem_of_singleton. intros [? | ->]; auto.
  - apply NoDup_app. split; [done|]. split; [|apply NoDup_singleton].
    intros i Hi ->%list_elem_of_singleton. done.
Qed.

Lemma otel_step_ok s meta x : spans_ok x -> spans_ok (otel_step s meta x).
Proof.
  intros Hx. destruct (decide (hm_Point meta = HookBeforeNode)) as [Hp|Hp]; [by apply spans_ok_start|].
  unfold otel_step. rewrite bool_decide_eq_false_2 by done.
  repeat case_bool_decide; [by apply spans_ok_close | by apply spans_ok_close | done].
Qed.

Lemma otel_run_ok evs : spans_ok (otel_run evs).
Proof.
  unfold otel_run. assert (H : spans_ok (NewOtelTracingHook, [])).
  { split; simpl; try done; by constructor. }
  revert H. generalize ((NewOtelTracingHook, []) : OtelTracingHook * Tracing).
  induction evs as [|ev evs IH]; intros x Hx; [done|]. by apply IH, otel_step_ok.
Qed.

(** The spans that were started and are neither ended nor open. *)
Definition lost (x : OtelTracingHook * Tracing) : Z :=
  (Z.of_nat (length (started x.2)) - Z.of_nat (length (ended x.2)) - Z.of_nat (size (spans x.1)))%Z.

Lemma lost_close meta k x :
  (forall i n, ended (k i) = [i] /\ started_from n (k i) = []) ->
  lost (close_span meta k x) = lost x /\
  dom (spans (close_span meta k x).1) = dom (spans x.1) ∖ {[hm_NodeID meta]}.
Proof.
  intros Hk. unfold close_span. destruct (spans x.1 !! hm_NodeID meta) as [j|] eqn:Hj.
  2: { split; [done|]. apply not_elem_of_dom in Hj. set_solver. }
  unfold lost. simpl. unfold started at 1. rewrite started_app, ended_app.
  destruct (Hk j (0 + length x.2)) as [-> ->]. rewrite app_nil_r, length_app. simpl.
  rewrite map_size_delete, Hj. split; [|by rewrite dom_delete_L]. fold (started x.2).
  assert (size (spans x.1) <> 0); [|lia]. rewrite map_size_non_empty_iff. intros He. by rewrite He in Hj.
Qed.

Lemma lost_run evs x :
  lost (foldl (fun x ev => otel_step ev.1 ev.2 x) x evs) =
  (lost x + Z.of_nat (overlaps (dom (spans x.1)) evs))%Z.
Proof.
  revert x. induction evs as [|[s meta] evs IH]; intros x; [simpl; lia|]. simpl.
  rewrite IH. clear IH. unfold otel_step. case_bool_decide as Hb.
  - simpl. rewrite dom_insert_L. unfold lost. simpl. rewrite started_snoc, ended_app, !length_app. simpl.
    rewrite map_size_insert. case_bool_decide as Hin.
    + apply elem_of_dom in Hin as [j ->]. unfold id. lia.
    + apply not_elem_of_dom in Hin. rewrite Hin. lia.
  - case_bool_decide; simpl; [|case_bool_decide; simpl; [|done]].
    + by destruct (lost_close meta (fun span => [TEnd span]) x) as [-> ->].
    + by destruct (lost_close meta (fun span => [TRecordError span (hm_Err meta); TSetError span; TEnd span]) x)
        as [-> ->].
Qed.

Lemma visit_run v x :
  one_visit v -> spans x.1 = ∅ ->
  let x' := foldl (fun x ev => otel_step ev.1 ev.2 x) x (visit_events v) in
  spans x'.1 = ∅ /\ started x'.2 = started x.2 ++ [length x.2] /\ ended x'.2 = ended x.2 ++ [length x.2].
Proof.
  destruct v as [[s m1] m2]. intros (Hb & Ha & Hid) Hx. simpl in *.
  assert (H1 : otel_step s m1 x = (mkOtelTracingHook {[hm_NodeID m2 := length x.2]}, x.2 ++ [start_call s m1])).
  { unfold otel_step. by rewrite bool_decide_eq_true_2, Hid, Hx by done. }
  rewrite H1. unfold otel_step. rewrite bool_decide_eq_false_2 by (by destruct Ha as [-> | ->]).
  assert (Hc : forall k : nat -> list trace_call,
    (forall i n, ended (k i) = [i] /\ started_from n (k i) = []) ->
    let x' := close_span m2 k (mkOtelTracingHook {[hm_NodeID m2 := length x.2]}, x.2 ++ [start_call s m1]) in
    spans x'.1 = ∅ /\ started x'.2 = started x.2 ++ [length x.2] /\ ended x'.2 = ended x.2 ++ [length x.2]).
  { intros k Hk. unfold close_span. simpl. rewrite lookup_singleton_eq. simpl.
    rewrite delete_singleton_eq. split; [done|]. unfold started at 1.
    rewrite started_app, !ended_app. destruct (Hk (length x.2) (0 + length (x.2 ++ [start_call s m1]))) as [-> ->].
    rewrite app_nil_r. fold (started (x.2 ++ [start_call s m1])). by rewrite started_snoc, app_nil_r. }
  destruct Ha as [-> | ->]; [apply Hc | apply Hc]; done.
Qed.

Lemma visits_run vs x :
  Forall one_visit vs -> spans x.1 = ∅ ->
  let x' := foldl (fun x ev => otel_step ev.1 ev.2 x) x (vs ≫= visit_events) in
  spans x'.1 = ∅ /\ exists l, started x'.2 = started x.2 ++ l /\ ended x'.2 = ended x.2 ++ l.
Proof.
  intros Hvs. revert x. induction Hvs as [|v vs Hv _ IH]; intros x Hx.
  - split; [done|]. exists []. by rewrite !app_nil_r.
  - cbn [mbind list_bind]. cbn zeta. rewrite foldl_app. destruct (visit_run v x Hv Hx) as (H1 & H2 & H3).
    destruct (IH _ H1) as (H4 & l & H5 & H6). split; [exact H4|].
    exists (length x.2 :: l). rewrite H5, H6, H2, H3. by rewrite <- !app_assoc.
Qed.

Lemma for_each_call {E} `{!Has Exporter E} refuses cs (w : World E) :
  Forall (fun c => refuses c = None) cs ->
  exists w', for_each (call_metric refuses) cs w = (Ret tt, w') /\
    get_of (w_ext w') = get_of (T := Exporter) (w_ext w) ++ cs /\ w_heap w' = w_heap w.
Proof.
  intros Hcs. revert w. induction Hcs as [|c cs Hc _ IH]; intros w; simpl.
  - exists w. by rewrite app_nil_r.
  - destruct (IH (set_ext (set_of (get_of (T := Exporter) (w_ext w) ++ [c]) (w_ext w)) w)) as (w' & H1 & H2 & H3).
    exists w'. simpl in H2, H3. rewrite get_set_of, <- app_assoc in H2. split; [|done].
    unfold call_metric at 1. rewrite Hc. exact H1.
Qed.

Lemma unmarshal_any_no_int j m k : unmarshal_any j = AMap m -> as_int (alookup k m) = None.
Proof.
  destruct j as [|b|z|f|s|t|l|o]; simpl; try done. intros [= <-].
  induction o as [|[k' j'] o IH]; simpl; [done|].
  destruct (String.eqb k k'); [by destruct j' | exact IH].
Qed.

(** Every variable of a decoded state is a decoded value. *)
Lemma loaded_variable doc s key v :
  unmarshal_AgentState doc = Some s -> var_get s key = Some v -> exists j, v = unmarshal_any j.
Proof.
  intros Hu Hv. destruct doc as [| | | | | | |m]; try done. simpl in Hu.
  destruct (field None dec_Variables "Variables" m) as [vs|] eqn:Hf;
    [|by repeat case_match].
  assert (Variables s = vs) as Hs by (repeat case_match; by simplify_eq).
  unfold var_get in Hv. rewrite Hs in Hv. clear Hu Hs. destruct vs as [vs|]; [|done].
  unfold field in Hf. destruct (alookup "Variables" m) as [[| | | | | | |o]|]; try done. simpl in Hf.
  injection Hf as <-. apply elem_of_list_to_map_2 in Hv.
  apply list_elem_of_fmap in Hv as ([k j] & [= _ ->] & _). by exists j.
Qed.

Lemma loaded_no_tokens doc s tenantID : unmarshal_AgentState doc = Some s -> token_calls tenantID (Some s) = [].
Proof.
  intros Hu. unfold token_calls. destruct (var_get s "__token_usage__") as [v|] eqn:Hv; [|done].
  destruct (loaded_variable _ _ _ _ Hu Hv) as [j ->]. unfold as_map.
  destruct (unmarshal_any j) as [| | | | | | | |usage| | | | |] eqn:Hj; try done.
  by rewrite !(unmarshal_any_no_int _ _ _ Hj).
Qed.

Lemma Otel_OnHook_eq {E} `{!Has (OtelTracingHook * Tracing) E} l s meta (w : World E) :
  w_heap w !! l = Some s ->
  Otel_OnHook (Some l) meta w =
    (Ret tt, set_ext (set_of (otel_step s meta (get_of (w_ext w))) (w_ext w)) w).
Proof.
  intros Hl. unfold Otel_OnHook. case_bool_decide as Hb.
  - unfold deref, load, bind, get, put, ret. by rewrite Hl.
  - unfold bind, get, put, ret. unfold otel_step. by rewrite (bool_decide_eq_false_2 _ Hb).
Qed.

Lemma token_calls_ext tenantID s s' :
  var_get s' "__token_usage__" = var_get s "__token_usage__" ->
  var_get s' "model_name" = var_get s "model_name" ->
  token_calls tenantID (Some s') = token_calls tenantID (Some s).
Proof. intros H1 H2. unfold token_calls. by rewrite H1, H2. Qed.

Lemma token_calls_tokens tenantID s :
  filter (fun c => mc_metric c <> nodeDuration) (token_calls tenantID s) = token_calls tenantID s.
Proof.
  unfold token_calls. destruct s as [s|]; [|done]. destruct (as_map _) as [m|]; [|done].
  by destruct (as_int (alookup "in" m)), (as_int (alookup "out" m)).
Qed.

Lemma metric_calls_tokens s meta :
  hm_Point meta = HookAfterNode ->
  filter (fun c => mc_metric c <> nodeDuration) (metric_calls s meta) = token_calls (metric_tenant s) s.
Proof.
  intros Hp. unfold metric_calls. rewrite bool_decide_eq_true_2 by done.
  rewrite filter_cons_False by (intros Hn; by apply Hn). apply token_calls_tokens.
Qed.

(** ** Properties *)

(** What the metrics hook exports. Where the library accepts the calls, the
    hook makes the calls of [metric_calls], and nothing else: after a node, one
    observation of its duration and the token usage that the variables hold.
    Nothing removes the usage: after every later node that keeps the variables,
    the tokens of the same answer are added again. In a state that was loaded
    from a store the numbers are no longer of type [int], and none is added. *)
Theorem metrics_exported {E} `{!Has Exporter E} (refuses : metric_call -> option string) (s : AgentState) :
  (forall l meta (w : World E),
     w_heap w !! l = Some s -> Forall (fun c => refuses c = None) (metric_calls (Some s) meta) ->
     exists w', Prometheus_OnHook refuses (Some l) meta w = (Ret tt, w') /\
       get_of (w_ext w') = get_of (T := Exporter) (w_ext w) ++ metric_calls (Some s) meta /\
       w_heap w' = w_heap w) /\
  (forall visits : list (AgentState * HookMeta),
     Forall (fun v => hm_Point v.2 = HookAfterNode /\
       Forall (fun k => var_get v.1 k = var_get s k) ["tenant_id"; "model_name"; "__token_usage__"]) visits ->
     filter (fun c => mc_metric c <> nodeDuration) (visits ≫= fun v => metric_calls (Some v.1) v.2) =
     mjoin (replicate (length visits) (token_calls (metric_tenant (Some s)) (Some s)))) /\
  (forall doc meta, unmarshal_AgentState doc = Some s ->
     Forall (fun c => mc_metric c = nodeDuration) (metric_calls (Some s) meta)).
Proof.
  split_and!.
  - intros l meta w Hl Hr. destruct (for_each_call refuses _ w Hr) as (w' & H1 & H2 & H3).
    exists w'. split; [|done]. unfold Prometheus_OnHook, load_ptr, load, bind, ret. by rewrite Hl.
  - induction 1 as [|v visits [Hp Hv] _ IH]; [done|]. cbn [mbind list_bind length replicate].
    rewrite filter_app, IH, metric_calls_tokens by done. simpl. f_equal.
    rewrite !Forall_cons in Hv. destruct Hv as (Ht & Hm & Hu & _).
    unfold metric_tenant. rewrite Ht. by apply token_calls_ext.
  - intros doc meta Hd. unfold metric_calls. case_bool_decide; [|done].
    rewrite (loaded_no_tokens doc) by done. by repeat constructor.
Qed.

(** C40: the tracing hook ends the spans it starts, one session at a time. Each
    dispatch is one [otel_step]. Over any events, a span is ended at most once
    and only after it was started, and a span is lost - started, neither open nor
    ended - exactly when a node is entered while its span is open, as when two
    sessions are in one node. When each visit of a node ends before the next one
    starts, every span is ended, in the order of the starts. *)
Theorem spans_balanced {E} `{!Has (OtelTracingHook * Tracing) E} (evs : list (AgentState * HookMeta))
    (vs : list (AgentState * HookMeta * HookMeta)) :
  (forall l s meta (w : World E), w_heap w !! l = Some s ->
     exists w', Otel_OnHook (Some l) meta w = (Ret tt, w') /\
       get_of (w_ext w') = otel_step s meta (get_of (w_ext w)) /\ w_heap w' = w_heap w) /\
  (let x := otel_run evs in
   NoDup (ended x.2) /\ (forall i, i ∈ ended x.2 -> i ∈ started x.2) /\
   length (started x.2) = length (ended x.2) + size (spans x.1) + overlaps ∅ evs) /\
  (Forall one_visit vs ->
   let x := otel_run (vs ≫= visit_events) in spans x.1 = ∅ /\ ended x.2 = started x.2).
Proof.
  split_and!.
  - intros l s meta w Hl.
    exists (set_ext (set_of (otel_step s meta (get_of (w_ext w))) (w_ext w)) w).
    split; [by apply Otel_OnHook_eq|]. simpl. by rewrite get_set_of.
  - destruct (otel_run_ok evs) as [_ _ H3 H4]. split_and!; [done | done|].
    pose proof (lost_run evs (NewOtelTracingHook, [])) as Hl.
    change (dom (spans (NewOtelTracingHook, [] : Tracing).1)) with (dom (∅ : gmap string nat)) in Hl.
    rewrite dom_empty_L in Hl. unfold lost in Hl at 1. fold (otel_run evs) in Hl.
    change (lost (NewOtelTracingHook, [])) with 0%Z in Hl. lia.
  - intros Hvs. destruct (visits_run vs (NewOtelTracingHook, []) Hvs eq_refl) as (H1 & l & H2 & H3).
    split; [exact H1|]. etransitivity; [exact H3 | symmetry; exact H2].
Qed.

(** ** Witnesses *)

(** A state whose last answer used 3 and 5 tokens, and two events of a node. *)
Definition usage_state : AgentState :=
  with_variables [("__token_usage__", AMap [("in", AInt 3%Z); ("out", AInt 5%Z)]); ("model_name", AString "m")]
    NewState.

Definition before (id : string) : HookMeta := mkHookMeta HookBeforeNode id 0%Z 0%Z None.

Definition after (id : string) : HookMeta := mkHookMeta HookAfterNode id 1%Z Second None.

Lemma metrics_exported_witness :
  filter (fun c => mc_metric c <> nodeDuration)
    (metric_calls (Some usage_state) (after "a") ++ metric_calls (Some usage_state) (after "b")) =
  [mkMetricCall llmInputTokens ["default"; "m"] (float_of_Z 3);
   mkMetricCall llmOutputTokens ["default"; "m"] (float_of_Z 5);
   mkMetricCall llmInputTokens ["default"; "m"] (float_of_Z 3);
   mkMetricCall llmOutputTokens ["default"; "m"] (float_of_Z 5)].
Proof.
  pose proof (proj1 (proj2 (metrics_exported (E := Exporter) (fun _ => None) usage_state))
    [(usage_state, after "a"); (usage_state, after "b")]) as H.
  cbn [mbind list_bind fst snd] in H. rewrite app_nil_r in H. rewrite H; [reflexivity|]. by repeat constructor.
Defined.

(** Two sessions in one node: the span of the first is lost. *)
Lemma spans_balanced_witness :
  one_visit (usage_state, before "a", after "a") /\
  ended (otel_run (visit_events (usage_state, before "a", after "a"))).2 = [0] /\
  let x := otel_run [(usage_state, before "a"); (usage_state, before "a"); (usage_state, after "a");
                     (usage_state, after "a")] in
  length (started x.2) = 2 /\ ended x.2 = [1] /\ spans x.1 = ∅.
Proof.
  assert (Hv : one_visit (usage_state, before "a", after "a")) by (split; [done|]; split; [by left | done]).
  split; [exact Hv|]. split; [|split; [reflexivity|]; split; reflexivity].
  destruct (proj2 (proj2 (spans_balanced (E := OtelTracingHook * Tracing) []
    [(usage_state, before "a", after "a")])) ltac:(by constructor)) as [_ H].
  cbn [mbind list_bind] in H. rewrite app_nil_r in H. rewrite H. reflexivity.
Defined.
