(* ===== verification/Headers.v ===== *)
(** * The headers of a2a/client.go and server.go

    The headers of the client's requests and of the service's answers, and the
    context of a trace in them. A header is a map from canonical keys; the two
    propagators of [observability/otel.go] are parameters that write to a header
    and read from one. The headers of a webhook are in [Webhook]. *)

From S2P Require Import Prelude GoLang Core World Interfaces Memory Engine Inspector Storage Security A2A Metrics.
From stdpp Require Import base gmap strings list.

#[local] Open Scope go_scope.

Abbreviation Header := (gmap string string).

(** ** Requests *)

(** [if c.token != "" { req.Header.Set("Authorization", "Bearer "+c.token) }]. *)
Definition set_token (token : string) (h : Header) : Header :=
  if bool_decide (token = "") then h else <["Authorization" := "Bearer " +:+ token]> h.

Definition SendMessage_headers (token : string) : Header :=
  set_token token {["Content-Type" := "application/json"]}.

Section trace.
Context (Inject : propagator -> context -> Header -> Header) (Extract : propagator -> context -> Header -> context).

(** [otel.GetTextMapPropagator().Inject] and [.Extract] of a composite. *)
Definition inject_all (ps : list propagator) (ctx : context) (h : Header) : Header :=
  foldl (fun h p => Inject p ctx h) h ps.

Definition extract_all (ps : list propagator) (ctx : context) (h : Header) : context :=
  foldl (fun ctx p => Extract p ctx h) ctx ps.

Definition StreamEvents_headers (ps : list propagator) (ctx : context) (token : string) : Header :=
  inject_all ps ctx (<["Accept" := "text/event-stream"]> (set_token token ∅)).

(** The context in which [handleJSONRPC] goes on, for a request with the headers [h]. *)
Definition rpc_context (ps : list propagator) (ctx : context) (h : Header) : context := extract_all ps ctx h.

(** ** Answers *)

(** [http.Error] replaces the type of the content. *)
Definition reply_headers (r : Reply) : Header :=
  match r with
  | HTTPError _ _ => <["Content-Type" := "text/plain; charset=utf-8"]> {["X-Content-Type-Options" := "nosniff"]}
  | RPC _ | JSON _ => {["Content-Type" := "application/json"]}
  | StatusOnly _ => ∅
  end.

Definition events_headers : Header :=
  <["Content-Type" := "text/event-stream"]> (<["Cache-Control" := "no-cache"]>
    (<["Connection" := "keep-alive"]> {["Access-Control-Allow-Origin" := "*"]})).

(** ** Lemmas *)

(** A propagator reads the keys it writes, and nothing without them. *)
Class ReadsKeys (keys : propagator -> list string) : Prop := {
  rk_none : forall p ctx h, (forall k, k ∈ keys p -> h !! k = None) -> Extract p ctx h = ctx;
}.

(** The trace of the caller does not reach the service. The request that carries a
    message is the one whose headers [handleJSONRPC] reads, and the client does not
    write the trace there; it writes it on the request for the events, whose
    handler does not read it. *)
Lemma trace_not_carried ps ctx token keys `{!ReadsKeys keys} :
  (forall p k, k ∈ keys p -> k <> "Content-Type" /\ k <> "Authorization") ->
  rpc_context ps ctx (SendMessage_headers token) = ctx.
Proof.
  intros Hk. unfold rpc_context, extract_all. induction ps as [|p ps IH]; [done|]. simpl.
  rewrite (rk_none (keys := keys)); [exact IH|]. intros k Hin. destruct (Hk p k Hin) as [H1 H2].
  unfold SendMessage_headers, set_token. case_bool_decide; [|rewrite lookup_insert_ne by congruence]; apply lookup_singleton_ne; congruence.
Qed.

(** The token is on every request of a client that has one, and only there. *)
Lemma token_on_requests ps ctx token :
  (forall p ctx h, Inject p ctx h !! "Authorization" = h !! "Authorization") ->
  let auth := if bool_decide (token = "") then None else Some ("Bearer " +:+ token) in
  SendMessage_headers token !! "Authorization" = auth /\
  StreamEvents_headers ps ctx token !! "Authorization" = auth.
Proof.
  intros Hinj auth. split.
  - unfold SendMessage_headers, set_token, auth. by case_bool_decide.
  - unfold StreamEvents_headers, inject_all. set (h := <["Accept" := _]> _).
    assert (Hh : h !! "Authorization" = auth) by (unfold h, set_token, auth; by case_bool_decide).
    revert Hh. generalize h. induction ps as [|p ps IH]; intros h' Hh; [done|]. simpl. apply IH. by rewrite Hinj.
Qed.
End trace.

(** What is sent as JSON says so. *)
Lemma reply_is_json r :
  reply_headers r !! "Content-Type" = Some "application/json" <->
  match r with RPC _ | JSON _ => True | _ => False end.
Proof. by destruct r. Qed.
