(* ===== verification/TaskEvents.v ===== *)
(** * The subscription of a stream of events: handleTaskEvents of a2a/server.go

    [Sse] has what the handler writes; here is how the events reach it. The
    handler subscribes a function to three types of events; the bus calls it in
    the goroutine of the publisher ([memory/eventbus.go]), and it sends to a
    channel with ten places, which the loop of the handler empties. One
    goroutine publishes - the run of the task - and the steps of the two
    interleave. *)

From S2P Require Import Prelude GoLang Core Json World Interfaces Memory Webhook Sse.
From stdpp Require Import base gmap strings list relations.

(** ** The handler *)

(** The types in the order of the three subscriptions. *)
Definition sse_types : list EventType := [EventNodeCompleted; EventTaskCompleted; EventAgentPaused].

Definition eventChan_capacity : nat := 10.

(** The goroutine that publishes: events to come, or in the subscribed function,
    at the send. *)
Inductive publisher :=
  | Ready (evs : list Event)
  | Sending (ev : Event) (rest : list Event).

(** The handler: at its three calls of [Subscribe], in its loop, or in the deferred
    calls of [Unsubscribe] after its [return]. *)
Inductive loop_state := Opening | Serving | Returned.

Record stream := mkStream {
  s_pub : publisher;
  s_chan : list Event;
  s_loop : loop_state;
  s_subs : list EventType;
  s_inputs : list sse_input;
}.

(** Whether the bus calls the function, and the function sends. *)
Definition relevant (taskID : string) (subs : list EventType) (ev : Event) : bool :=
  bool_decide (ev_Type ev ∈ subs) && concerns taskID ev.

(** The request has come, a goroutine is about to publish [evs]. *)
Definition open_stream (evs : list Event) : stream := mkStream (Ready evs) [] Opening [] [].

(** One step of the publisher or of the handler; the deferred calls run in the
    reverse order of the subscriptions. *)
Inductive stream_step (taskID : string) : stream -> stream -> Prop :=
  | step_skip ev rest c l subs ins :
      relevant taskID subs ev = false ->
      stream_step taskID (mkStream (Ready (ev :: rest)) c l subs ins) (mkStream (Ready rest) c l subs ins)
  | step_call ev rest c l subs ins :
      relevant taskID subs ev = true ->
      stream_step taskID (mkStream (Ready (ev :: rest)) c l subs ins)
        (mkStream (Sending ev rest) c l subs ins)
  | step_send ev rest c l subs ins :
      length c < eventChan_capacity ->
      stream_step taskID (mkStream (Sending ev rest) c l subs ins)
        (mkStream (Ready rest) (c ++ [ev]) l subs ins)
  | step_subscribe p c ty subs later ins :
      sse_types = subs ++ ty :: later ->
      stream_step taskID (mkStream p c Opening subs ins) (mkStream p c Opening (subs ++ [ty]) ins)
  | step_loop p c ins :
      stream_step taskID (mkStream p c Opening sse_types ins) (mkStream p c Serving sse_types ins)
  | step_receive p ev c subs ins :
      stream_step taskID (mkStream p (ev :: c) Serving subs ins)
        (mkStream p c (if bool_decide (ev_Type ev = EventTaskCompleted) then Returned else Serving) subs
           (ins ++ [SEvent ev]))
  | step_tick p c subs ins :
      stream_step taskID (mkStream p c Serving subs ins) (mkStream p c Serving subs (ins ++ [STick]))
  | step_done p c subs ins :
      stream_step taskID (mkStream p c Serving subs ins) (mkStream p c Returned subs (ins ++ [SDone]))
  | step_unsubscribe p c ty subs ins :
      stream_step taskID (mkStream p c Returned (subs ++ [ty]) ins) (mkStream p c Returned subs ins).

(** The subscriptions of the handler on the bus: one function for the three types. *)
Definition sse_subscriptions (ids : list SubscriptionID) (handler : EventHandler) :
    list (SubscriptionID * EventType * EventHandler) :=
  zip_with (fun id ty => (id, ty, handler)) ids sse_types.

(** ** Specifications *)

(** What was published, with the types that were subscribed to at that moment. *)
Abbreviation history := (list (list EventType * Event)).

(** The steps from a stream to another, with what the publisher published. *)
Inductive streams (taskID : string) (s : stream) : history -> stream -> Prop :=
  | streams_refl : streams taskID s [] s
  | streams_publish L ev rest s1 s2 :
      streams taskID s L s1 -> stream_step taskID s1 s2 -> s_pub s1 = Ready (ev :: rest) ->
      s_pub s2 <> s_pub s1 -> streams taskID s (L ++ [(s_subs s1, ev)]) s2
  | streams_other L s1 s2 :
      streams taskID s L s1 -> stream_step taskID s1 s2 ->
      (s_pub s2 = s_pub s1 \/ exists ev rest, s_pub s1 = Sending ev rest) -> streams taskID s L s2.

(** The events that were sent for: those that concern the stream and whose type was
    subscribed to when they were published. *)
Definition caught (taskID : string) (L : history) : list Event :=
  (filter (fun p => relevant taskID p.1 p.2 = true) L).*2.

(** The events that are yet to be published. *)
Definition unpublished (p : publisher) : list Event :=
  match p with Ready evs => evs | Sending _ rest => rest end.

(** The events of the task that a handler which had subscribed would have caught. *)
Definition task_events (taskID : string) (evs : list Event) : list Event :=
  filter (fun ev => relevant taskID sse_types ev = true) evs.

(** The events up to the completion of the task. *)
Fixpoint until_completed (evs : list Event) : list Event :=
  match evs with
  | [] => []
  | ev :: rest =>
      ev :: (if bool_decide (ev_Type ev = EventTaskCompleted) then [] else until_completed rest)
  end.

(** What the publisher is about to send. *)
Definition sending (p : publisher) : list Event :=
  match p with Ready _ => [] | Sending ev _ => [ev] end.

(** The events the loop has received. *)
Definition received (ins : list sse_input) : list Event :=
  omap (fun i => match i with SEvent ev => Some ev | _ => None end) ins.

(** The publisher waits in the subscribed function and nobody empties the
    channel. *)
Definition blocked (s : stream) : Prop :=
  (exists ev rest, s_pub s = Sending ev rest) /\ s_loop s = Returned /\
  eventChan_capacity <= length (s_chan s).

(** The steps until the loop returns, but for the end of the request and the ticks. *)
Definition serving_step (taskID : string) (s s' : stream) : Prop :=
  stream_step taskID s s' /\ s_loop s <> Returned /\
  (s_inputs s' = s_inputs s \/ exists ev, s_inputs s' = s_inputs s ++ [SEvent ev]).

(** The steps that are left to the publisher and the handler. *)
Definition work (s : stream) : nat :=
  match s_pub s with
  | Ready evs => 3 * length evs
  | Sending _ rest => 3 * length rest + 2
  end + length (s_chan s) +
  match s_loop s with Opening => S (length sse_types - length (s_subs s)) | _ => 0 end.

(** What holds before, in and after the loop, when [L] has been published. *)
Definition stream_inv (taskID : string) (L : history) (s : stream) : Prop :=
  let incomplete evs := Forall (fun ev => ev_Type ev <> EventTaskCompleted) evs in
  match s_loop s with
  | Opening => (exists later, sse_types = s_subs s ++ later) /\ s_inputs s = [] /\
      s_chan s ++ sending (s_pub s) = caught taskID L
  | Serving =>
      s_subs s = sse_types /\ delivered (s_inputs s) = received (s_inputs s) /\
      incomplete (received (s_inputs s)) /\ (SDone ∉ s_inputs s) /\
      received (s_inputs s) ++ s_chan s ++ sending (s_pub s) = caught taskID L
  | Returned => delivered (s_inputs s) = received (s_inputs s) /\
      (exists rest, caught taskID L = received (s_inputs s) ++ rest) /\
      (SDone ∈ s_inputs s \/
       exists evs ev, received (s_inputs s) = evs ++ [ev] /\ incomplete evs /\ ev_Type ev = EventTaskCompleted)
  end.

(** ** Lemmas *)

Lemma task_events_cons taskID ev evs :
  task_events taskID (ev :: evs) =
  (if relevant taskID sse_types ev then [ev] else []) ++ task_events taskID evs.
Proof. unfold task_events. rewrite filter_cons. by destruct (relevant taskID sse_types ev). Qed.

Lemma caught_published taskID L ev : ev ∈ caught taskID L -> ev ∈ L.*2.
Proof.
  unfold caught. rewrite !list_elem_of_fmap. intros (p & -> & Hp). apply list_elem_of_filter in Hp as [_ Hp]. eauto.
Qed.

Lemma caught_snoc taskID L subs ev :
  caught taskID (L ++ [(subs, ev)]) = caught taskID L ++ (if relevant taskID subs ev then [ev] else []).
Proof. unfold caught. rewrite filter_app, fmap_app, filter_cons. cbn. by destruct (relevant taskID subs ev). Qed.

Lemma streams_rtc taskID s L s' : streams taskID s L s' -> rtc (stream_step taskID) s s'.
Proof. induction 1; [done | by eapply rtc_r..]. Qed.

Lemma received_snoc ins i :
  received (ins ++ [i]) = received ins ++ match i with SEvent ev => [ev] | _ => [] end.
Proof. unfold received. rewrite omap_app. by destruct i. Qed.

Lemma delivered_snoc ins i :
  SDone ∉ ins -> Forall (fun ev => ev_Type ev <> EventTaskCompleted) (received ins) ->
  delivered (ins ++ [i]) = delivered ins ++ match i with SEvent ev => [ev] | _ => [] end.
Proof.
  induction ins as [|j ins IH]; intros Hd Hr.
  - destruct i as [| |ev]; simpl; [done..|]. by destruct (bool_decide _).
  - apply not_elem_of_cons in Hd as [Hj Hd]. destruct j as [| |ev]; simpl; [done| |].
    + by apply IH.
    + unfold received in Hr. simpl in Hr. apply Forall_cons in Hr as [Hev Hr].
      rewrite bool_decide_eq_false_2 by done. rewrite IH by done. done.
Qed.

Lemma until_completed_app l ev rest :
  Forall (fun ev => ev_Type ev <> EventTaskCompleted) l -> ev_Type ev = EventTaskCompleted ->
  until_completed (l ++ ev :: rest) = l ++ [ev].
Proof.
  intros Hl Hev. induction Hl as [|x l Hx _ IH]; simpl.
  - by rewrite bool_decide_eq_true_2.
  - by rewrite bool_decide_eq_false_2, IH.
Qed.

Lemma until_completed_id l :
  Forall (fun ev => ev_Type ev <> EventTaskCompleted) l -> until_completed l = l.
Proof. induction 1 as [|x l Hx _ IH]; simpl; [done|]. by rewrite bool_decide_eq_false_2, IH. Qed.

(** The bus calls the function once for an event of the three types, and not for
    the others: what [relevant] asks of the type. *)
Lemma sse_handlers id1 id2 id3 handler ty :
  handlers_of ty (sse_subscriptions [id1; id2; id3] handler) =
  if decide (ty ∈ sse_types) then [handler] else [].
Proof.
  unfold handlers_of, sse_subscriptions. simpl. rewrite !filter_cons. simpl.
  repeat case_decide; subst; try done; set_solver.
Qed.

(** A step publishes nothing, or the next event. *)
Lemma stream_step_kind taskID s s' : stream_step taskID s s' ->
  (exists ev rest, s_pub s = Ready (ev :: rest) /\ unpublished (s_pub s') = rest /\ s_pub s' <> s_pub s /\
    s_loop s' = s_loop s /\ s_subs s' = s_subs s /\ s_inputs s' = s_inputs s /\ s_chan s' = s_chan s /\
    sending (s_pub s') = if relevant taskID (s_subs s) ev then [ev] else []) \/
  (unpublished (s_pub s') = unpublished (s_pub s) /\
   (s_pub s' = s_pub s \/ exists ev rest, s_pub s = Sending ev rest)).
Proof.
  destruct 1 as [ev rest c l subs ins Hr|ev rest c l subs ins Hr|ev rest c l subs ins _| | | | | |]; simpl.
  - left. exists ev, rest. rewrite Hr. split_and!; try done. intros [= H]. by apply (f_equal length) in H; simpl in H; lia.
  - left. exists ev, rest. rewrite Hr. by split_and!.
  - right. split; [done|]. right. by eexists _, _.
  - right. split; [done | by left].
  - right. split; [done | by left].
  - right. split; [done | by left].
  - right. split; [done | by left].
  - right. split; [done | by left].
  - right. split; [done | by left].
Qed.

Lemma stream_inv_publish taskID L s s' ev rest :
  stream_inv taskID L s -> s_pub s = Ready (ev :: rest) -> s_loop s' = s_loop s -> s_subs s' = s_subs s ->
  s_inputs s' = s_inputs s -> s_chan s' = s_chan s ->
  sending (s_pub s') = (if relevant taskID (s_subs s) ev then [ev] else []) ->
  stream_inv taskID (L ++ [(s_subs s, ev)]) s'.
Proof.
  unfold stream_inv. intros Hi Hp Hl Hsub Hin Hc Hsend. rewrite Hl, Hsub, Hin, Hc, Hsend, caught_snoc.
  rewrite Hp in Hi. cbn [sending] in Hi. rewrite ?app_nil_r in Hi. destruct (s_loop s).
  - destruct Hi as (H1 & H2 & <-). done.
  - destruct Hi as (H1 & H2 & H3 & H4 & <-). split_and!; try done. by rewrite <- app_assoc.
  - destruct Hi as (H1 & (rest' & ->) & H3). split; [done|]. split; [|done]. eexists. by rewrite <- app_assoc.
Qed.

Lemma stream_inv_other taskID L s s' :
  stream_inv taskID L s -> stream_step taskID s s' ->
  (s_pub s' = s_pub s \/ exists ev rest, s_pub s = Sending ev rest) -> stream_inv taskID L s'.
Proof.
  unfold stream_inv. intros Hi Hs Hp.
  destruct Hs as [ev rest c l subs ins Hr|ev rest c l subs ins Hr|ev rest c l subs ins Hlt
    |p c ty subs later ins Hl|p c ins|p ev c subs ins|p c subs ins|p c subs ins|p c ty subs ins]; simpl in *.
  - destruct Hp as [[= Hp]|(? & ? & ?)]; [by apply (f_equal length) in Hp; simpl in Hp; lia | done].
  - by destruct Hp as [?|(? & ? & ?)].
  - destruct l; [| |done]; rewrite ?app_nil_r, <- ?app_assoc; exact Hi.
  - destruct Hi as (_ & H2 & H3). split; [|done]. exists later. by rewrite <- app_assoc.
  - destruct Hi as (_ & -> & H3). split_and!; [done..|constructor | by intros ?%elem_of_nil | done].
  - destruct Hi as (-> & H1 & H2 & H3 & H4). rewrite delivered_snoc, received_snoc, H1 by done.
    case_bool_decide as Hev.
    + split; [done|]. split; [exists (c ++ sending p); by rewrite <- H4, <- app_assoc|]. right. eauto.
    + split_and!; [done | done | | | by rewrite <- H4, <- app_assoc].
      * apply Forall_app. split; [done|]. by constructor.
      * rewrite elem_of_app, list_elem_of_singleton. by intros [?|?].
  - destruct Hi as (-> & H1 & H2 & H3 & H4). rewrite delivered_snoc, received_snoc, H1, !app_nil_r by done.
    split_and!; try done. rewrite elem_of_app, list_elem_of_singleton. by intros [?|?].
  - destruct Hi as (-> & H1 & H2 & H3 & H4). rewrite delivered_snoc, received_snoc, H1, !app_nil_r by done.
    split; [done|]. split; [by exists (c ++ sending p)|]. left. set_solver.
  - exact Hi.
Qed.

(** Every run has a history, and what it published is a first part of what there
    was to publish. *)
Lemma rtc_streams taskID s s' : rtc (stream_step taskID) s s' -> exists L, streams taskID s L s'.
Proof.
  revert s'. apply rtc_ind_r; [by exists []; constructor|]. intros s1 s2 H1 Hs IH.
  destruct IH as [L HL]. destruct (stream_step_kind _ _ _ Hs) as [(ev & rest & Hp & _ & Hne & _)|[_ Hp]].
  - exists (L ++ [(s_subs s1, ev)]). by eapply streams_publish.
  - exists L. by eapply streams_other.
Qed.

Lemma streams_inv taskID evs L s :
  streams taskID (open_stream evs) L s -> stream_inv taskID L s /\ L.*2 ++ unpublished (s_pub s) = evs.
Proof.
  induction 1 as [|L ev rest s1 s2 _ [Hi Hu] Hs Hp Hne|L s1 s2 _ [Hi Hu] Hs Hp].
  - split; [|done]. split; [by exists sse_types | done].
  - destruct (stream_step_kind _ _ _ Hs) as [(ev' & rest' & Hp' & Hu' & _ & H)|[_ [?|(? & ? & ?)]]]; [|congruence..].
    rewrite Hp in Hp'. injection Hp' as <- <-. split; [apply (stream_inv_publish _ _ s1 _ _ rest); tauto|].
    by rewrite fmap_app, Hu', <- app_assoc, <- Hu, Hp.
  - split; [by eapply stream_inv_other|].
    destruct (stream_step_kind _ _ _ Hs) as [(ev' & rest' & Hp' & _ & Hne & _)|[-> _]]; [|done].
    destruct Hp as [?|(? & ? & ?)]; congruence.
Qed.

Lemma blocked_step taskID s s' : blocked s -> stream_step taskID s s' -> blocked s' /\ s_pub s' = s_pub s.
Proof.
  intros ((ev0 & rest0 & Hp) & Hl & Hc) Hs. destruct Hs; simpl in *; simplify_eq; try lia.
  split; [|done]. split; [eauto | done].
Qed.

Lemma blocked_forever taskID s s' :
  blocked s -> rtc (stream_step taskID) s s' -> blocked s' /\ s_pub s' = s_pub s.
Proof.
  intros Hb H. induction H as [|s1 s2 s3 Hs _ IH]; [done|].
  destruct (blocked_step _ _ _ Hb Hs) as [Hb2 <-]. by apply IH.
Qed.

(** A publisher with more events than places fills the channel. *)
Lemma fill_channel taskID evs c ins :
  length c <= eventChan_capacity -> eventChan_capacity < length c + length (task_events taskID evs) ->
  exists ev rest c', eventChan_capacity <= length c' /\
    rtc (stream_step taskID) (mkStream (Ready evs) c Serving sse_types ins)
      (mkStream (Sending ev rest) c' Serving sse_types ins).
Proof.
  revert c. induction evs as [|ev evs IH]; intros c Hc Ht; [simpl in Ht; lia|].
  rewrite task_events_cons, length_app in Ht. destruct (relevant taskID sse_types ev) eqn:Hr.
  - simpl in Ht. destruct (decide (length c = eventChan_capacity)) as [He|Hne].
    + exists ev, evs, c. split; [lia|]. apply rtc_once. by apply step_call.
    + destruct (IH (c ++ [ev])) as (ev' & rest & c' & Hl & Hs); [rewrite length_app; simpl; lia.. |].
      exists ev', rest, c'. split; [done|]. eapply rtc_l; [by apply step_call|].
      eapply rtc_l; [apply step_send; lia | exact Hs].
  - destruct (IH c) as (ev' & rest & c' & Hl & Hs); [done | simpl in Ht; lia|].
    exists ev', rest, c'. split; [done|]. eapply rtc_l; [by apply step_skip | exact Hs].
Qed.

(** What was published before the first subscription is lost. *)
Definition waiting : stream := mkStream (Ready []) [] Serving sse_types [].

Lemma late_handler taskID evs : rtc (stream_step taskID) (open_stream evs) waiting.
Proof.
  induction evs as [|ev evs IH].
  - do 3 (eapply rtc_l; [eapply step_subscribe; reflexivity|]). apply rtc_once, step_loop.
  - eapply rtc_l; [by apply step_skip | exact IH].
Qed.

Lemma waiting_stays taskID s : rtc (stream_step taskID) waiting s ->
  received (s_inputs s) = [] /\ (s_loop s = Returned -> SDone ∈ s_inputs s).
Proof.
  intros Hr. assert (H : s_pub s = Ready [] /\ s_chan s = [] /\ s_loop s <> Opening /\
    received (s_inputs s) = [] /\ (s_loop s = Returned -> SDone ∈ s_inputs s)); [|tauto].
  revert s Hr. apply rtc_ind_r; [by split_and!|]. intros s1 s2 _ Hs (Hp & Hc & Hl & Hr & Hd).
  destruct Hs; simpl in *; simplify_eq; rewrite ?received_snoc, ?app_nil_r; split_and!; try done.
  intros _. apply elem_of_app. right. by left.
Qed.

Lemma serving_work taskID s s' : serving_step taskID s s' -> work s' < work s.
Proof.
  intros (Hs & Hl & Hi). unfold work.
  destruct Hs as [| |ev rest c l|p c ty subs later ins Hsub| |p ev c subs ins| | |]; simpl in *; rewrite ?length_app; simpl.
  1-3: by destruct l; lia.
  - apply (f_equal length) in Hsub. rewrite length_app in Hsub. simpl in Hsub. lia.
  - lia.
  - case_bool_decide; lia.
  - destruct Hi as [Hi|[ev Hi]]; [|by simplify_list_eq].
    apply (f_equal length) in Hi. rewrite length_app in Hi. simpl in Hi. lia.
  - destruct Hi as [Hi|[ev Hi]]; [|by simplify_list_eq].
    apply (f_equal length) in Hi. rewrite length_app in Hi. simpl in Hi. lia.
  - done.
Qed.

Lemma serving_progress taskID L s : stream_inv taskID L s -> s_loop s <> Returned ->
  (s_loop s = Serving /\ s_pub s = Ready [] /\ s_chan s = []) \/ exists s', serving_step taskID s s'.
Proof.
  unfold stream_inv. destruct s as [p c l subs ins]. simpl. intros Hi Hl. destruct l; [| |done].
  - right. destruct Hi as ([later Hs] & _). destruct later as [|ty later].
    + rewrite app_nil_r in Hs. subst subs. eexists. split; [apply step_loop|]. split; [done | by left].
    + eexists. split; [eapply step_subscribe; exact Hs|]. split; [done | by left].
  - destruct c as [|ev c]; [|right; eexists; split; [apply step_receive|]; split; [done|]; right; by exists ev].
    destruct p as [[|ev rest]|ev rest]; [by left| |]; right.
    + destruct (relevant taskID subs ev) eqn:Hr.
      * eexists. split; [by apply step_call|]. split; [done | by left].
      * eexists. split; [by apply step_skip|]. split; [done | by left].
    + eexists. split; [apply step_send; simpl; unfold eventChan_capacity; lia|]. split; [done | by left].
Qed.

Lemma until_completed_received evs ev rest :
  Forall (fun ev => ev_Type ev <> EventTaskCompleted) evs -> ev_Type ev = EventTaskCompleted ->
  until_completed ((evs ++ [ev]) ++ rest) = evs ++ [ev].
Proof. intros Hevs Hev. rewrite <- app_assoc. by apply until_completed_app. Qed.

Lemma received_caught taskID L s : stream_inv taskID L s ->
  delivered (s_inputs s) = received (s_inputs s) /\ exists rest, caught taskID L = received (s_inputs s) ++ rest.
Proof.
  unfold stream_inv. destruct (s_loop s).
  - intros (_ & -> & _). split; [done | by eexists].
  - intros (_ & Hd & _ & _ & <-). split; [done | by eexists].
  - intros (Hd & Hr & _). done.
Qed.

(** The stream of a run that announces pauses at most: the service never closes it
    by itself, the client has to go. *)
Lemma stream_of_pauses taskID evs s :
  Forall (fun ev => ev_Type ev = EventAgentPaused) evs -> rtc (stream_step taskID) (open_stream evs) s ->
  Forall (fun ev => ev_Type ev = EventAgentPaused) (delivered (s_inputs s)) /\
  (s_loop s = Returned -> SDone ∈ s_inputs s).
Proof.
  intros Hevs Hr. apply rtc_streams in Hr as [L HL]. apply streams_inv in HL as [Hi Hu].
  destruct (received_caught _ _ _ Hi) as [Hd [rest Hc]].
  assert (Hp : Forall (fun ev => ev_Type ev = EventAgentPaused) (received (s_inputs s))).
  { apply Forall_forall. intros ev Hev. rewrite Forall_forall in Hevs. apply Hevs. rewrite <- Hu. apply elem_of_app. left.
    apply (caught_published taskID). rewrite Hc. apply elem_of_app. by left. }
  split; [by rewrite Hd|]. intros Hl. unfold stream_inv in Hi. rewrite Hl in Hi.
  destruct Hi as (_ & _ & [?|(evs' & ev & He & _ & Hev)]); [done|]. rewrite He in Hp.
  apply Forall_app in Hp as [_ Hp]. apply Forall_cons in Hp as [Hp _]. cbv beta in Hp. by rewrite Hp in Hev.
Qed.

(** ** Properties *)

(** C15: the stream delivers the events of its task that are published once it has
    subscribed to their type. In every interleaving of the publisher with the
    handler, its three calls of [Subscribe] included - [L] is what has been
    published, with the subscriptions of that moment ([rtc_streams]: every run has
    such an [L]) - the loop has received, and written, a first part of the events
    that were caught, in their order, each once, and nothing after the
    completion; it holds all three subscriptions. As long as the request is not
    ended and the loop has not returned, some step can be made until there is
    nothing left to do, the number of such steps is bounded, and at their end
    everything is published and everything caught up to the completion has been
    received. What is published before its subscription is lost: for every run
    there is an interleaving that leaves the loop with nothing, waiting until the
    request ends, whether the task was completed or not. *)
Theorem stream_delivers (taskID : string) (evs : list Event) (L : list (list EventType * Event)) (s : stream) :
  streams taskID (open_stream evs) L s ->
  L.*2 ++ unpublished (s_pub s) = evs /\
  delivered (s_inputs s) = received (s_inputs s) /\
  (exists rest, caught taskID L = received (s_inputs s) ++ rest) /\
  (s_loop s = Serving -> s_subs s = sse_types) /\
  (s_loop s <> Returned ->
     (work s = 0 /\ s_loop s = Serving /\ L.*2 = evs /\ received (s_inputs s) = until_completed (caught taskID L)) \/
     exists s', serving_step taskID s s') /\
  (forall s', serving_step taskID s s' -> work s' < work s) /\
  (s_loop s = Returned -> (SDone ∉ s_inputs s) ->
     received (s_inputs s) = until_completed (caught taskID L)) /\
  (rtc (stream_step taskID) (open_stream evs) waiting /\
   forall s', rtc (stream_step taskID) waiting s' ->
     received (s_inputs s') = [] /\ (s_loop s' = Returned -> SDone ∈ s_inputs s')).
Proof.
  intros Hr. destruct (streams_inv _ _ _ _ Hr) as [Hi Hu]. destruct (received_caught _ _ _ Hi) as [Hd Hrest].
  split_and!; [done | done | done | | | apply serving_work | | apply late_handler | apply waiting_stays].
  - intros Hl. unfold stream_inv in Hi. rewrite Hl in Hi. apply Hi.
  - intros Hl. destruct (serving_progress taskID L s Hi Hl) as [(Hs & Hp & Hc)|]; [left | by right].
    unfold stream_inv, work in *. rewrite Hs, Hp, Hc in *. destruct Hi as (_ & _ & Hno & _ & He). simpl in He, Hu.
    rewrite app_nil_r in He, Hu. split_and!; [done..|]. rewrite <- He. symmetry. by apply until_completed_id.
  - intros Hl Hdone. unfold stream_inv in Hi. rewrite Hl in Hi. destruct Hi as (_ & [rest ->] & [?|(es & ev & -> & Hes & Hev)]); [done|].
    symmetry. by apply until_completed_received.
Qed.

(** A reader that goes away can block the run of the task. Once the loop has
    returned with the channel full, a publisher at the send waits there in every
    continuation; and for every run that publishes more than ten events of the
    task there is an interleaving in which that happens - the run is the
    goroutine of the publisher. *)
Theorem publisher_blocks (taskID : string) (evs : list Event) :
  (forall s s', blocked s -> rtc (stream_step taskID) s s' -> blocked s' /\ s_pub s' = s_pub s) /\
  (eventChan_capacity < length (task_events taskID evs) ->
   exists s, rtc (stream_step taskID) (open_stream evs) s /\ blocked s).
Proof.
  split; [intros s s'; apply blocked_forever|]. intros Hl.
  destruct (fill_channel taskID evs [] []) as (ev & rest & c & Hc & Hs); [simpl; lia | done|].
  exists (mkStream (Sending ev rest) c Returned sse_types ([] ++ [SDone])). split.
  - do 3 (eapply rtc_l; [eapply step_subscribe; reflexivity|]). eapply rtc_l; [apply step_loop|].
    eapply rtc_r; [exact Hs | apply step_done].
  - split; [simpl; eauto | done].
Qed.

(** ** Witnesses *)

Definition node_event : Event := mkEvent EventNodeCompleted "s" "t1" [] 0%Z.

Definition completed_event : Event := mkEvent EventTaskCompleted "s" "t1" [] 0%Z.

(** A run with three events: the first is published before its subscription and
    lost, the second is received, the third is still to come. *)
Lemma stream_delivers_witness :
  streams "t1" (open_stream [node_event; node_event; completed_event])
    [([], node_event); (sse_types, node_event)]
    (mkStream (Ready [completed_event]) [] Serving sse_types [SEvent node_event]) /\
  exists rest, caught "t1" [([], node_event); (sse_types, node_event)] = [node_event] ++ rest.
Proof.
  assert (H : streams "t1" (open_stream [node_event; node_event; completed_event])
    [([], node_event); (sse_types, node_event)]
    (mkStream (Ready [completed_event]) [] Serving sse_types [SEvent node_event])).
  { eapply streams_other; [|exact (step_receive "t1" (Ready [completed_event]) node_event [] sse_types []) | by left].
    eapply streams_other;
      [|eapply (step_send "t1" node_event [completed_event] []); simpl; unfold eventChan_capacity; lia | right; by eexists _, _].
    change [([], node_event); (sse_types, node_event)] with ([([], node_event)] ++ [(sse_types, node_event)]).
    eapply (streams_publish _ _ _ _ _ (mkStream (Ready [node_event; completed_event]) [] Serving sse_types []));
      [|by apply step_call | done | done].
    eapply streams_other; [|apply step_loop | by left].
    eapply streams_other; [|by eapply (step_subscribe _ _ _ EventAgentPaused [EventNodeCompleted; EventTaskCompleted]) | by left].
    eapply streams_other; [|by eapply (step_subscribe _ _ _ EventTaskCompleted [EventNodeCompleted]) | by left].
    eapply streams_other; [|by eapply (step_subscribe _ _ _ EventNodeCompleted []) | by left].
    eapply (streams_publish _ _ [] _ _ (open_stream [node_event; node_event; completed_event]));
      [apply streams_refl | by apply step_skip | done | done]. }
  split; [exact H|]. exact (proj1 (proj2 (proj2 (stream_delivers _ _ _ _ H)))).
Defined.

Lemma publisher_blocks_witness :
  eventChan_capacity < length (task_events "t1" (replicate 11 node_event)) /\
  exists s, rtc (stream_step "t1") (open_stream (replicate 11 node_event)) s /\ blocked s.
Proof.
  assert (H : eventChan_capacity < length (task_events "t1" (replicate 11 node_event))) by (vm_compute; lia).
  split; [exact H|]. exact (proj2 (publisher_blocks "t1" (replicate 11 node_event)) H).
Defined.
