(* ===== verification/Auth.v ===== *)
(** * The tokens of the service: a2a/auth.go

    [GenerateToken] makes the token that the middleware of [A2A] asks for. The
    JWT library is a parameter: [SignedString] signs claims with a key,
    [parse_token] gives the claims of a token that the key verifies and that has
    not expired, [NumericDate] is the precision of its times. *)

From S2P Require Import Prelude GoLang Core Json World Interfaces Memory TaskJson Inspector Engine Tools Storage Security A2A.
From stdpp Require Import base gmap strings list.

#[local] Open Scope go_scope.

Record Authenticator := mkAuthenticator { au_secret : string }.

Definition NewAuthenticator (secret : string) : Authenticator := mkAuthenticator secret.

Section tokens.
Context (SignedString : Claims -> string -> string + error) (NumericDate : Z -> Z).

(** The two calls of [time.Now] in the order of the fields. *)
Definition GenerateToken {E} (a : Authenticator) (tenantID : string) (scopes : list string)
    (duration : Duration) : M E (string + error) :=
  expires <- now ;;
  issued <- now ;;
  ret (SignedString (mkClaims tenantID scopes (NumericDate issued) (NumericDate (expires + duration)%Z))
         (au_secret a)).
End tokens.

(** ** What the tokens rely on *)

(** A signed token has no space in it; its key gives the claims back until they
    expire. *)
Class JWTLaws (SignedString : Claims -> string -> string + error)
    (parse_token : string -> Z -> string -> option Claims) : Prop := {
  jwt_parse : forall claims secret tok t, SignedString claims secret = inl tok ->
    parse_token secret t tok = if (t <? cl_ExpiresAt claims)%Z then Some claims else None;
  jwt_text : forall claims secret tok, SignedString claims secret = inl tok -> split_space tok = [tok];
}.

(** ** Properties *)

(** C28: a token admits what it was made for. A request that carries a token of
    the authenticator of the service is handed on, with the tenant and the
    scopes the token was made with in its context, until the time the token was
    made for has passed; then it is answered 401 and nothing is handed on. In
    that context a scope is granted when it or [agent:admin] is among those of
    the token, and the Redis stores find the tenant. *)
Theorem token_admits {E} `{!Has AuditLog E} (SignedString : Claims -> string -> string + error)
    (NumericDate : Z -> Z) (parse_token : string -> Z -> string -> option Claims)
    (s : Server E) (tenantID tok : string) (scopes : list string) (d : Duration) (ctx : context)
    (next : context -> M E (Reply * list Job)) (w w1 w2 : World E) :
  JWTLaws SignedString parse_token ->
  GenerateToken SignedString NumericDate (NewAuthenticator (sv_secret s)) tenantID scopes d w
    = (Ret (inl tok), w1) ->
  let t := or_now (w_orc w2) (or_tick (w_orc w2)) in
  let expires := NumericDate (or_now (w_orc w) (or_tick (w_orc w)) + d)%Z in
  exists ctx' w3,
    now w2 = (Ret t, w3) /\
    Middleware parse_token s ctx ("Bearer " +:+ tok) next w2 =
      (if (t <? expires)%Z then next ctx' w3 else (Ret (HTTPError "invalid token" 401, []), w3)) /\
    tenantFromCtx ctx' = tenantID /\
    forall scope, HasScope ctx' scope = true <-> scope ∈ scopes \/ "agent:admin" ∈ scopes.
Proof.
  intros Hl Hg t expires. unfold GenerateToken, bind, now, ask, ret in Hg. simpl in Hg.
  injection Hg as Hs _. set (claims := mkClaims _ _ _ _) in Hs.
  exists (claims_ctx ctx claims), (set_orc (next_tick (w_orc w2)) w2). split_and!.
  - reflexivity.
  - unfold Middleware. rewrite (bearer_token_bearer tok) by (eapply jwt_text; exact Hs).
    unfold bind at 1, now, ask. fold t. rewrite (jwt_parse _ _ _ t Hs).
    change (cl_ExpiresAt claims) with expires. by destruct (t <? expires)%Z.
  - reflexivity.
  - intros scope. apply HasScope_claims.
Qed.

(** ** Witnesses *)

#[export] Instance Claims_eq_dec : EqDecision Claims.
Proof. solve_decision. Defined.

(** A library that signs one token. *)
Definition one_claims : Claims := mkClaims "acme" ["agent:write"] 1%Z 9%Z.

Definition one_sign (claims : Claims) (secret : string) : string + error :=
  if decide (claims = one_claims /\ secret = "secret") then inl "tok" else inr (ErrNew "no key").

Definition one_parse (secret : string) (t : Z) (tok : string) : option Claims :=
  if bool_decide (secret = "secret" /\ tok = "tok") && (t <? cl_ExpiresAt one_claims)%Z
  then Some one_claims else None.

#[export] Instance one_laws : JWTLaws one_sign one_parse.
Proof.
  split; unfold one_sign.
  - intros claims secret tok t. destruct (decide _) as [[-> ->]|]; [|done]. intros [= <-]. done.
  - intros claims secret tok. destruct (decide _) as [_|]; [|done]. by intros [= <-].
Defined.

Lemma token_admits_witness :
  (GenerateToken one_sign (fun t => t) (NewAuthenticator "secret") "acme" ["agent:write"] 9%Z demo_world2).1
    = Ret (inl "tok") /\
  exists ctx', tenantFromCtx ctx' = "acme" /\ HasScope ctx' "agent:write" = true /\
    (Middleware one_parse demo_server Background ("Bearer " +:+ "tok")
       (fun ctx => reply (HTTPError (tenantFromCtx ctx) 0)) demo_world2).1
    = Ret (HTTPError (tenantFromCtx ctx') 0, []).
Proof.
  split; [reflexivity|].
  destruct (token_admits one_sign (fun t => t) one_parse demo_server "acme" "tok" ["agent:write"] 9%Z Background
    (fun ctx => reply (HTTPError (tenantFromCtx ctx) 0)) demo_world2 _ demo_world2 one_laws eq_refl)
    as (ctx' & w3 & _ & Hm & Ht & Hs).
  exists ctx'. split; [exact Ht|]. split; [apply Hs; left; by left|].
  rewrite Hm. reflexivity.
Defined.
