(* ===== verification/Config.v ===== *)
(** * config/config.go: the configuration

    viper and the validator are libraries and parameters here. The calls
    [LoadConfig] makes on its viper are a value ([ViperSetup]); reading the file
    and filling the struct are functions of it. The tags of the struct are the
    list of checks [struct_checks]. *)

From S2P Require Import Prelude GoLang.
From stdpp Require Import base gmap strings list.

(** ** The structs *)

Record AppConfig := mkAppConfig {
  Name : string;
  Env : string;
  Port : Z;
  GRPCPort : Z;
  A2ASecret : string;
}.

Record RedisConfig := mkRedisConfig {
  redis_URL : string;
  redis_PoolSize : Z;
  redis_TTL : Duration;
}.

Record PostgresConfig := mkPostgresConfig {
  pg_URL : string;
  pg_MaxConns : Z;
}.

Record StorageConfig := mkStorageConfig { Redis : RedisConfig; Postgres : PostgresConfig }.

Record ProviderConfig := mkProviderConfig {
  prov_APIKey : string;
  prov_BaseURL : string;
  prov_Model : string;
  prov_Timeout : Duration;
}.

Record CircuitBreakerConfig := mkCircuitBreakerConfig {
  cbc_MaxFailures : Z;
  cbc_Interval : Duration;
  cbc_Timeout : Duration;
}.

Record ResiliencyConfig := mkResiliencyConfig { CircuitBreaker : CircuitBreakerConfig }.

Record LLMConfig := mkLLMConfig {
  OpenAI : ProviderConfig;
  Anthropic : ProviderConfig;
  Resiliency : ResiliencyConfig;
}.

Record ObservabilityConfig := mkObservabilityConfig {
  OtelEndpoint : string;
  PrometheusPort : Z;
}.

Record Config := mkConfig {
  App : AppConfig;
  Storage : StorageConfig;
  LLM : LLMConfig;
  Observability : ObservabilityConfig;
}.

(** The tag of a field that is checked, with what it says of the value. *)
Definition required_string (s : string) : bool := negb (bool_decide (s = "")).

Definition required_int (z : Z) : bool := negb (z =? 0)%Z.

Definition oneof (values : list string) (s : string) : bool := existsb (String.eqb s) values.

Definition struct_checks (c : Config) : list (string * bool) :=
  [("App.Name", required_string (Name (App c)));
   ("App.Env", oneof ["development"; "production"; "test"] (Env (App c)));
   ("App.Port", required_int (Port (App c)));
   ("App.A2ASecret", required_string (A2ASecret (App c)));
   ("Storage.Redis.URL", required_string (redis_URL (Redis (Storage c))));
   ("Storage.Postgres.URL", required_string (pg_URL (Postgres (Storage c))))].

(** ** LoadConfig *)

Inductive setting := VStr (s : string) | VInt (z : Z) | VDur (d : Duration).

(** A file that is named, or one that is looked for. *)
Inductive config_source :=
  | ConfigFile (path : string)
  | ConfigSearch (name type : string) (paths : list string).

(** The calls on the viper: the defaults, the prefix, replacer and use of the
    environment, the file. *)
Record ViperSetup := mkViperSetup {
  vs_defaults : list (string * setting);
  vs_env_prefix : string;
  vs_env_replacer : list (string * string);
  vs_automatic_env : bool;
  vs_source : config_source;
}.

Definition defaults : list (string * setting) :=
  [("app.name", VStr "fluxgraph");
   ("app.env", VStr "development");
   ("app.port", VInt 8080);
   ("app.grpc_port", VInt 50051);
   ("storage.redis.pool_size", VInt 10);
   ("storage.redis.ttl", VDur (24 * Hour)%Z);
   ("storage.postgres.max_conns", VInt 20);
   ("observability.prometheus_port", VInt 9090);
   ("llm.resiliency.circuit_breaker.max_failures", VInt 5);
   ("llm.resiliency.circuit_breaker.interval", VDur (60 * Second)%Z);
   ("llm.resiliency.circuit_breaker.timeout", VDur (30 * Second)%Z)].

Definition viper_setup (path : string) : ViperSetup :=
  mkViperSetup defaults "FLUXGRAPH" [(".", "_")] true
    (if bool_decide (path <> "") then ConfigFile path
     else ConfigSearch "config" "yaml" ["."; "./config"]).

Inductive read_error := ConfigFileNotFoundError | OtherReadError (e : error).

Section load.
Context (ReadInConfig : ViperSetup -> option read_error) (Unmarshal : ViperSetup -> Config + error).
Context (validate_Struct : list (string * bool) -> option error).

Definition LoadConfig (path : string) : Config + error :=
  let v := viper_setup path in
  match ReadInConfig v with
  | Some (OtherReadError err) => inr err
  | _ =>
      match Unmarshal v with
      | inr err => inr err
      | inl config =>
          match validate_Struct (struct_checks config) with
          | Some err => inr err
          | None => inl config
          end
      end
  end.
End load.

(** ** What the configuration relies on *)

(** The required texts of the struct that the settings may give, by their keys. *)
Definition text_fields : list (string * (Config -> string)) :=
  [("app.name", fun c => Name (App c)); ("app.env", fun c => Env (App c));
   ("app.a2a_secret", fun c => A2ASecret (App c));
   ("storage.redis.url", fun c => redis_URL (Redis (Storage c)));
   ("storage.postgres.url", fun c => pg_URL (Postgres (Storage c)))].

(** viper fills the struct from the keys it knows, [AllKeys]: those with a
    default or in the file that was read. The environment gives another value to
    such a key; a variable for another key is not seen. A validation passes when
    all checks do. *)
Class ConfigLaws (ReadInConfig : ViperSetup -> option read_error) (Unmarshal : ViperSetup -> Config + error)
    (validate_Struct : list (string * bool) -> option error) (file_keys : ViperSetup -> list string) :
    Prop := {
  viper_unknown : forall v c key field, Unmarshal v = inl c -> (key, field) ∈ text_fields ->
    key ∉ (vs_defaults v).*1 -> key ∉ file_keys v -> field c = "";
  viper_no_file : forall v, ReadInConfig v = Some ConfigFileNotFoundError -> file_keys v = [];
  validator_all : forall checks, validate_Struct checks = None <-> Forall (fun ch => ch.2 = true) checks;
}.

(** A configuration the program can start with. *)
Record config_ok (c : Config) : Prop := {
  ok_name : Name (App c) <> "";
  ok_env : Env (App c) ∈ ["development"; "production"; "test"];
  ok_port : Port (App c) <> 0%Z;
  ok_secret : A2ASecret (App c) <> "";
  ok_redis : redis_URL (Redis (Storage c)) <> "";
  ok_postgres : pg_URL (Postgres (Storage c)) <> "";
}.

(** ** Lemmas *)

Lemma required_string_iff s : required_string s = true <-> s <> "".
Proof. unfold required_string. by rewrite negb_true_iff, bool_decide_eq_false. Qed.

Lemma required_int_iff z : required_int z = true <-> z <> 0%Z.
Proof. unfold required_int. rewrite negb_true_iff. lia. Qed.

Lemma oneof_iff values s : oneof values s = true <-> s ∈ values.
Proof.
  unfold oneof. rewrite existsb_exists. setoid_rewrite String.eqb_eq.
  setoid_rewrite <- list_elem_of_In. naive_solver.
Qed.

Lemma struct_checks_iff c : Forall (fun ch => ch.2 = true) (struct_checks c) <-> config_ok c.
Proof.
  unfold struct_checks. rewrite !Forall_cons. cbn [snd].
  rewrite !required_string_iff, required_int_iff, oneof_iff.
  split; [intros (? & ? & ? & ? & ? & ? & _); by split | intros []; repeat split; auto].
Qed.

Lemma LoadConfig_inl ReadInConfig Unmarshal validate_Struct file_keys path c :
  ConfigLaws ReadInConfig Unmarshal validate_Struct file_keys ->
  LoadConfig ReadInConfig Unmarshal validate_Struct path = inl c <->
  (ReadInConfig (viper_setup path) = None \/
   ReadInConfig (viper_setup path) = Some ConfigFileNotFoundError) /\
  Unmarshal (viper_setup path) = inl c /\ config_ok c.
Proof.
  intros Hl. rewrite <- struct_checks_iff, <- (validator_all (file_keys := file_keys)). unfold LoadConfig.
  destruct (ReadInConfig (viper_setup path)) as [[|e]|].
  2: { split; [done|]. by intros [[?|?] _]. }
  all: destruct (Unmarshal (viper_setup path)) as [c'|e']; [|split; [done|]; by intros (_ & ? & _)].
  all: destruct (validate_Struct (struct_checks c')) as [e''|] eqn:Hs.
  all: split; [intros [= <-] || done; auto|].
  all: intros (_ & [= <-] & Hv); congruence.
Qed.

(** ** Properties *)

(** C39: a configuration that loads is one the program can start with. [LoadConfig]
    gives a configuration exactly when the file was read or was not found, the
    settings fill the struct and the required fields have values; an error of
    the file other than its absence is returned. Without a file no configuration
    loads, whatever is in the environment: the secret and the addresses of the
    stores have no default, and viper does not look for the variables of keys it
    does not know. *)
Theorem LoadConfig_iff (ReadInConfig : ViperSetup -> option read_error)
    (Unmarshal : ViperSetup -> Config + error) (validate_Struct : list (string * bool) -> option error)
    (file_keys : ViperSetup -> list string) (path : string) :
  ConfigLaws ReadInConfig Unmarshal validate_Struct file_keys ->
  let load := LoadConfig ReadInConfig Unmarshal validate_Struct path in
  let v := viper_setup path in
  (forall c, load = inl c <->
     (ReadInConfig v = None \/ ReadInConfig v = Some ConfigFileNotFoundError) /\
     Unmarshal v = inl c /\ config_ok c) /\
  (forall e, ReadInConfig v = Some (OtherReadError e) -> load = inr e) /\
  (ReadInConfig v = Some ConfigFileNotFoundError -> exists e, load = inr e).
Proof.
  intros Hl load v. pose proof (fun c =>
    LoadConfig_inl ReadInConfig Unmarshal validate_Struct file_keys path c Hl) as Hiff.
  split_and!; [exact Hiff| |].
  - intros e He. unfold load, LoadConfig. fold v. by rewrite He.
  - intros Hn. destruct load as [c|e] eqn:Hc; [|by exists e]. exfalso.
    apply Hiff in Hc as (_ & Hu & Hok). apply (ok_secret c Hok).
    apply (viper_unknown (ConfigLaws := Hl) v c "app.a2a_secret" (fun c => A2ASecret (App c)) Hu).
    + do 2 right. by left.
    + apply (bool_decide_unpack _). vm_compute. done.
    + rewrite (viper_no_file (ConfigLaws := Hl)) by done. apply not_elem_of_nil.
Qed.

(** ** Witnesses *)

(** Libraries on a machine with one file, [good.yaml], that has every required
    setting, and with the variables of the whole example file set. *)
Definition good_config (secret redis postgres : string) : Config :=
  mkConfig (mkAppConfig "fluxgraph" "production" 8080 50051 secret)
    (mkStorageConfig (mkRedisConfig redis 10 (24 * Hour)%Z) (mkPostgresConfig postgres 20))
    (mkLLMConfig (mkProviderConfig "" "" "" 0%Z) (mkProviderConfig "" "" "" 0%Z)
       (mkResiliencyConfig (mkCircuitBreakerConfig 5 (60 * Second)%Z (30 * Second)%Z)))
    (mkObservabilityConfig "" 9090).

Definition has_good_file (v : ViperSetup) : bool :=
  match vs_source v with ConfigFile path => String.eqb path "good.yaml" | _ => false end.

Definition demo_ReadInConfig (v : ViperSetup) : option read_error :=
  if has_good_file v then None
  else match vs_source v with
       | ConfigFile path => Some (OtherReadError (ErrNew ("open " +:+ path +:+ ": no such file or directory")))
       | _ => Some ConfigFileNotFoundError
       end.

Definition demo_file_keys (v : ViperSetup) : list string :=
  if has_good_file v then ["app.name"; "app.env"; "app.a2a_secret"; "storage.redis.url"; "storage.postgres.url"]
  else [].

(** A key that is known gets the value of its variable, the others stay empty. *)
Definition demo_Unmarshal (v : ViperSetup) : Config + error :=
  let text key value :=
    if bool_decide (key ∈ (vs_defaults v).*1 ++ demo_file_keys v) then value else "" in
  inl (mkConfig (mkAppConfig (text "app.name" "fluxgraph") (text "app.env" "production") 8080 50051
                   (text "app.a2a_secret" "s3cret"))
    (mkStorageConfig (mkRedisConfig (text "storage.redis.url" "redis://localhost") 10 (24 * Hour)%Z)
       (mkPostgresConfig (text "storage.postgres.url" "postgres://localhost") 20))
    (LLM (good_config "" "" "")) (Observability (good_config "" "" ""))).

Definition demo_validate (checks : list (string * bool)) : option error :=
  if forallb (fun ch => ch.2) checks then None else Some (ErrNew "validation failed").

#[export] Instance demo_config_laws : ConfigLaws demo_ReadInConfig demo_Unmarshal demo_validate demo_file_keys.
Proof.
  split.
  - intros v c key field [= <-] Hin Hd Hf.
    assert (Hk : key ∉ (vs_defaults v).*1 ++ demo_file_keys v).
    { rewrite elem_of_app. by intros [?|?]. }
    unfold text_fields in Hin.
    repeat (apply elem_of_cons in Hin as [[= -> ->]|Hin]; [simpl; by rewrite bool_decide_eq_false_2|]).
    by apply elem_of_nil in Hin.
  - intros v. unfold demo_ReadInConfig, demo_file_keys. by destruct (has_good_file v).
  - intros checks. unfold demo_validate. destruct (forallb _ checks) eqn:Hc.
    + split; [|done]. intros _. apply Forall_forall. intros ch Hin.
      apply (proj1 (forallb_forall _ checks) Hc). by apply list_elem_of_In.
    + split; [done|]. intros H. exfalso. rewrite <- not_true_iff_false in Hc. apply Hc.
      apply forallb_forall. intros ch Hin. rewrite Forall_forall in H. apply H. by apply list_elem_of_In.
Defined.

(** The named file loads; without it nothing does, although the environment has
    every value. *)
Lemma LoadConfig_iff_witness :
  LoadConfig demo_ReadInConfig demo_Unmarshal demo_validate "good.yaml" =
    inl (good_config "s3cret" "redis://localhost" "postgres://localhost") /\
  (exists e, LoadConfig demo_ReadInConfig demo_Unmarshal demo_validate "" = inr e) /\
  config_ok (good_config "s3cret" "redis://localhost" "postgres://localhost").
Proof.
  assert (H : LoadConfig demo_ReadInConfig demo_Unmarshal demo_validate "good.yaml" =
    inl (good_config "s3cret" "redis://localhost" "postgres://localhost")) by (vm_compute; reflexivity).
  split; [exact H|]. split.
  - apply (LoadConfig_iff demo_ReadInConfig demo_Unmarshal demo_validate demo_file_keys "" demo_config_laws).
    reflexivity.
  - apply (LoadConfig_iff demo_ReadInConfig demo_Unmarshal demo_validate demo_file_keys "good.yaml" demo_config_laws).
    exact H.
Defined.
