(* ===== verification/Main.v ===== *)
(** * cmd/fluxgraph/main.go: the program

    [main] up to the moment it serves: it loads the configuration, opens the two
    stores and puts the engine and the service together, or stops with a message.
    The logger and the provider that is made and dropped are left out; the
    goroutines that listen and the shutdown are in [Serving]. The libraries are
    parameters. *)

From S2P Require Import Prelude GoLang Core Json World Interfaces Memory Graph Resilience Engine EngineSpec Inspector Tools TaskJson Storage Providers Http OpenAI Embedding Postgres Security A2A Requests RedisDriver Metrics Config.
From stdpp Require Import base gmap strings list.

#[local] Open Scope go_scope.

(** The two servers: their addresses and the service behind them. *)
Record Program (E : Type) := mkProgram {
  http_Addr : string;
  http_Handler : Server E;
  grpc_Addr : string;
  grpc_Server : Server E;
}.

Arguments mkProgram {E}.
Arguments http_Addr {E} p.
Arguments http_Handler {E} p.
Arguments grpc_Addr {E} p.
Arguments grpc_Server {E} p.

(** [log.Fatal().Err(err).Msg(msg)] ends the process. *)
Record Exit := mkExit { exit_msg : string; exit_err : error }.

(** [g, _ := builder.Build()] of a builder nothing was added to. *)
Definition main_graph {E} : option (Graph E) :=
  match Build NewBuilder [] with inl g => Some g | inr _ => None end.

Definition main_opts (cfg : Config) : ServerOptions :=
  mkServerOptions (Name (App cfg)) "" "1.0.0" ("http://localhost:" +:+ itoa (Port (App cfg))) (A2ASecret (App cfg)).

Section main.
Context {E O C F R : Type} `{!PlanDocs E} `{!Has Exporter E} `{!Has (OtelTracingHook * Tracing) E} `{!Has (OtelGlobals R) E}.
Context (ReadInConfig : ViperSetup -> option read_error) (Unmarshal : ViperSetup -> Config + error).
Context (validate_Struct : list (string * bool) -> option error) (resource_New : list (string * string) -> R + error).
Context (redis : RedisLib E O) (pgx : PgxLib E (list F) C).
Context (lib : Libs) (cb : Breaker E) (default_client : http_client E) (float32_of : json -> option F).
Context (partial : json -> AgentState) (json_text : option json -> string) (pj : nat -> option json).
Context (refuses : metric_call -> option string) (net_Listen : string -> M E (unit + error)) (log_opens : bool).

(** The provider of the embeddings of a configuration. *)
Definition main_embedder (cfg : Config) : EmbeddingProvider E (list F) :=
  OpenAIEmbedding float32_of lib cb (NewOpenAIEmbedding default_client
    (mkOpenAIOptions (prov_APIKey (OpenAI (LLM cfg))) (prov_BaseURL (OpenAI (LLM cfg))) "" None)).

Definition main_registry (pgStore : MemoryStore E) : ConcreteToolRegistry E :=
  (Register (SearchMemoryTool pgStore json_text pj) [] NewConcreteToolRegistry).1.

Definition main_engine (memStore : MemoryStore E) : Engine E :=
  NewEngine main_graph memStore None
    [WithHooks [mkLifecycleHook Otel_OnHook; mkLifecycleHook (Prometheus_OnHook refuses)]].

(** The stores and the service of a configuration on two open drivers. *)
Definition main_server (cfg : Config) (redisDriver : RedisClient E) (pgDriver : DBQuerier E (list F)) : Server E :=
  let pgStore := Postgres.Postgres (NewPostgresMemoryStore pgDriver (mkPostgresMemoryStoreOptions 0 0 (Some (main_embedder cfg)))) partial in
  let memStore := RedisMemory (NewRedisMemoryStore redisDriver
                    (mkRedisMemoryStoreOptions "" (redis_TTL (Config.Redis (Config.Storage cfg))) 0%Z 0%Z)) in
  let ts := RedisTasks (NewRedisTaskStore redisDriver "fluxgraph" (redis_TTL (Config.Redis (Config.Storage cfg)))) in
  NewServer (main_engine memStore) ts memStore (ListTools (main_registry pgStore)) None (main_opts cfg) log_opens.

Definition main : M E (Program E + Exit) :=
  match LoadConfig ReadInConfig Unmarshal validate_Struct "" with
  | inr err => ret (inr (mkExit "failed to load configuration" err))
  | inl cfg =>
      InitTracer resource_New (Config.Name (App cfg)) ;;
      redisDriver <- NewRedisDriver redis (redis_URL (Config.Redis (Config.Storage cfg)))
                       (redis_PoolSize (Config.Redis (Config.Storage cfg))) ;;
      match redisDriver with
      | inr err => ret (inr (mkExit "failed to connect to redis" err))
      | inl redisDriver =>
          pgDriver <- NewPostgresDriver pgx (pg_URL (Config.Postgres (Config.Storage cfg)))
                        (pg_MaxConns (Config.Postgres (Config.Storage cfg))) ;;
          match pgDriver with
          | inr err => ret (inr (mkExit "failed to connect to postgres" err))
          | inl pgDriver =>
              let a2aSrv := main_server cfg (driver_client redisDriver) pgDriver in
              let grpcAddr := ":" +:+ itoa (GRPCPort (App cfg)) in
              lis <- net_Listen grpcAddr ;;
              match lis with
              | inr err => ret (inr (mkExit "failed to listen for gRPC" err))
              | inl _ => ret (inl (mkProgram (":" +:+ itoa (Port (App cfg))) a2aSrv grpcAddr (NewGRPCServer a2aSrv)))
              end
          end
      end
  end.
End main.

(** ** Lemmas *)

(** The program is put together without a graph. *)
Lemma main_graph_nil {E} : main_graph (E := E) = None.
Proof. reflexivity. Qed.

(** The service the program serves, of the configuration it loaded. *)
Section served.
Context {E O C F R : Type} `{!PlanDocs E} `{!Has Exporter E} `{!Has (OtelTracingHook * Tracing) E} `{!Has (OtelGlobals R) E}.

Definition serves_config (cfg : Config) (log_opens : bool) (p : Program E) : Prop :=
  grpc_Server p = http_Handler p /\
  http_Addr p = ":" +:+ itoa (Port (App cfg)) /\ grpc_Addr p = ":" +:+ itoa (GRPCPort (App cfg)) /\
  sv_secret (http_Handler p) = A2ASecret (App cfg) /\ sv_eventBus (http_Handler p) = None /\
  taskStore (sv_engine (http_Handler p)) = None /\ graph (sv_engine (http_Handler p)) = None.

Lemma main_serves ReadInConfig Unmarshal validate_Struct resource_New (redis : RedisLib E O) (pgx : PgxLib E (list F) C) lib cb
    default_client float32_of partial json_text pj refuses net_Listen log_opens w p w' :
  main ReadInConfig Unmarshal validate_Struct resource_New redis pgx lib cb default_client float32_of partial json_text pj
    refuses net_Listen log_opens w = (Ret (inl p), w') ->
  exists cfg, LoadConfig ReadInConfig Unmarshal validate_Struct "" = inl cfg /\ serves_config cfg log_opens p.
Proof.
  unfold main. destruct (LoadConfig _ _ _ _) as [cfg|err]; [|done]. intros Hm. exists cfg. split; [done|].
  revert Hm. unfold bind. destruct (InitTracer _ _ w) as [[t|v|] w0]; [|done..].
  destruct (NewRedisDriver _ _ _ w0) as [[[rd|e]|v|] w1]; [|done..].
  destruct (NewPostgresDriver _ _ _ w1) as [[[pg|e]|v|] w2]; [|done..]. cbv zeta.
  destruct (net_Listen _ w2) as [[[u|e]|v|] w3]; [|done..]. intros [= <- <-]. done.
Qed.
End served.

(** ** Properties *)

(** C8: the first message ends the program. What [main] serves, over HTTP and
    gRPC, is one service with the secret of the configuration, without an event
    bus, with an engine that has no task store and no graph: [Build] refuses the
    empty builder and its error is dropped. Every run that a message starts - the
    handler has answered by then - panics at the nil graph, whatever happened
    between the answer and the run; nothing recovers a panic of that goroutine. *)
Theorem message_ends_program {E O C F R} `{!PlanDocs E} `{!Has AuditLog E} `{!Has Exporter E}
    `{!Has (OtelTracingHook * Tracing) E} `{!Has (OtelGlobals R) E} ReadInConfig Unmarshal validate_Struct resource_New (redis : RedisLib E O)
    (pgx : PgxLib E (list F) C) lib cb default_client float32_of partial json_text pj refuses net_Listen log_opens
    (w0 : World E) p w1 :
  main ReadInConfig Unmarshal validate_Struct resource_New redis pgx lib cb default_client float32_of partial json_text pj
    refuses net_Listen log_opens w0 = (Ret (inl p), w1) ->
  (exists cfg, LoadConfig ReadInConfig Unmarshal validate_Struct "" = inl cfg /\ serves_config cfg log_opens p) /\
  forall parse_token sort_Slice Sprintf_v Q j w later fuel,
    begins parse_token sort_Slice Sprintf_v (http_Handler p) Q j w -> heap_frame w later ->
    (run_job fuel (http_Handler p) j later).1 = Panic nil_deref.
Proof.
  intros Hm. apply main_serves in Hm as (cfg & Hload & Hs). split; [by exists cfg|].
  intros parse_token sort_Slice Sprintf_v Q j w later fuel Hb Hf.
  apply begins_begun in Hb. eapply job_panics; [by apply Hs | exact Hb | intros l; by apply (begun_frame Q)].
Qed.

(** ** Witnesses *)

Definition main_ext : Type := AuditLog * (Exporter * ((OtelTracingHook * Tracing) * OtelGlobals unit)).

#[local] Instance main_log : Has AuditLog main_ext := Has_fst _ _.

#[local] Instance has_snd_fst {A B C} : Has B (A * (B * C)).
Proof.
  refine {| get_of e := e.2.1; set_of t e := (e.1, (t, e.2.2)) |}; [done | by intros [? []]].
Defined.

#[local] Instance has_third {A B C D} : Has C (A * (B * (C * D))).
Proof.
  refine {| get_of e := e.2.2.1; set_of t e := (e.1, (e.2.1, (t, e.2.2.2))) |}; [done | by intros [? [? []]]].
Defined.

#[local] Instance has_fourth {A B C D} : Has D (A * (B * (C * D))).
Proof.
  refine {| get_of e := e.2.2.2; set_of t e := (e.1, (e.2.1, (e.2.2.1, t))) |}; [done | by intros [? [? []]]].
Defined.

(** Stores that answer and keep nothing. *)
Definition blank_redis : RedisLib main_ext unit :=
  let pipe := mkPipeliner (fun _ _ _ _ => ret None) (fun _ _ _ => ret None) (fun _ _ _ _ => ret None)
    (fun _ _ _ _ => ret None) (fun _ _ _ _ => ret None) in
  let missing := ErrNew "redis: nil" in
  mkRedisLib (fun _ => inl tt) (fun _ o => o)
    (fun _ => mkUniversalClient missing (fun _ _ => ret (Storage.VStr "", Some missing)) (fun _ _ _ _ => ret None)
      (fun _ _ _ => ret None) (fun _ _ _ _ => ret ([], None)) (fun _ _ _ _ => ret None) (fun _ _ _ _ => ret None)
      (fun _ _ _ _ => ret ([], None)) (fun _ _ _ _ => ret None) (fun _ fn => fn pipe))
    (fun _ _ => ret None).

Definition blank_pgx : PgxLib main_ext (list unit) unit :=
  mkPgxLib (fun _ => inl tt) (fun _ c => c) (fun c => c)
    (fun _ _ => ret (inl (mkDBQuerier (fun _ _ => ret (inr errNoRows)) (fun _ _ _ => ret (inr errNoRows))
       (fun _ _ _ _ => ret (inr errNoRows)) (fun _ _ => ret None) (fun _ => ret (inr errNoRows)))))
    (fun _ _ => ret None).

Definition main_world : World main_ext := mkWorld [] demo_oracle (NewAuditLog, ([], ((NewOtelTracingHook, []), mkOtelGlobals None []))).

Definition demo_main : M main_ext (Program main_ext + Exit) :=
  main (fun _ => None) (fun _ => inl (good_config "secret" "redis://localhost" "postgres://localhost"))
    demo_validate (fun _ => inl tt) blank_redis blank_pgx (mkLibs (fun _ => "") (fun _ => None) (fun _ => inr ErrNoNextNode) (fun _ => None))
    (fun m => m) (fun _ _ => ret (inr ErrNoNextNode)) (fun _ => None) (fun _ => NewState) (fun _ => "") (fun _ => None)
    (fun _ => None) (fun _ => ret (inl tt)) true.

Definition demo_program : option (Program main_ext) :=
  match (demo_main main_world).1 with Ret (inl p) => Some p | _ => None end.

(** The world the program begins to serve in, and the one after the answer to a
    message. *)
Definition main_up : World main_ext := (demo_main main_world).2.

Definition main_asked (p : Program main_ext) : outcome (Reply * list Job) * World main_ext :=
  handle_route demo_parse (fun l => l) (fun _ => "") (http_Handler p) Background "Bearer tok"
    (RJSONRPC (Some (demo_send "t1" "hello"))) main_up.

Lemma message_ends_program_witness :
  exists p, demo_program = Some p /\ http_Addr p = ":8080" /\
    (exists rep, (main_asked p).1 = Ret (rep, [mkJob "t1" (Some 1)])) /\
    (run_job 9 (http_Handler p) (mkJob "t1" (Some 1)) (main_asked p).2).1 = Panic nil_deref.
Proof.
  assert (Hp : exists p, demo_main main_world = (Ret (inl p), main_up) /\ demo_program = Some p /\
    http_Addr p = ":8080" /\ exists rep, (main_asked p).1 = Ret (rep, [mkJob "t1" (Some 1)])).
  { eexists. split; [reflexivity|]. split; [reflexivity|]. split; [vm_compute; reflexivity|].
    eexists. vm_compute. reflexivity. }
  destruct Hp as (p & Hm & Hp & Ha & rep & Hr). exists p. split; [exact Hp|]. split; [exact Ha|].
  split; [by exists rep|].
  refine (proj2 (message_ends_program _ _ _ _ _ _ _ _ _ _ _ _ _ _ _ _ main_world p main_up Hm)
    demo_parse (fun l => l) (fun _ => "") _ (mkJob "t1" (Some 1)) (main_asked p).2 (main_asked p).2 9 _ _).
  - eapply (b_http demo_parse (fun l => l) (fun _ => "") (http_Handler p) Background "Bearer tok" (Some (demo_send "t1" "hello"))
      main_up rep [mkJob "t1" (Some 1)]).
    + unfold main_asked in *. destruct (handle_route _ _ _ _ _ _ _ _) as [o w']. cbn [fst snd] in *. by rewrite Hr.
    + by left.
  - apply heap_frame_refl.
Defined.
