(* ===== verification/Serving.v ===== *)
(** * cmd/fluxgraph/main.go: the process from its listeners to its exit

    What [main] does once the program of [Main] is put together: the two
    listening goroutines, the requests they answer, the runs the answers start,
    the signal, [Shutdown] and [GracefulStop]. A request and a run are each one
    step; a panic of a run, or of an RPC, which nothing recovers, ends the
    process. [http.Server] and [grpc.Server] are modelled by their documentation:
    the first step of a shutdown is that no request is accepted any more, and it
    ends when none is in flight or, for HTTP, at its deadline. *)

From S2P Require Import Prelude GoLang Core Json World Interfaces Memory Graph Resilience Engine Inspector Tools TaskJson Storage Security A2A Webhook Sse Delegate Wire Providers Http OpenAI Embedding Postgres RedisDriver Metrics Config Main.
From stdpp Require Import base gmap strings list relations.

#[local] Open Scope go_scope.

(** Where [main] is: before the signal, in [httpSrv.Shutdown], in
    [grpcSrv.GracefulStop], or gone with a status and a last message. *)
Inductive phase :=
  | Serving
  | Draining
  | Stopping
  | Exited (code : Z) (msg : string).

#[export] Instance phase_eq_dec : EqDecision phase.
Proof. solve_decision. Defined.

(** A request to the HTTP server. *)
Record http_request := mkHttpRequest {
  rq_ctx : context;
  rq_Authorization : string;
  rq_Method : string;
  rq_path : string;
  rq_body : option json;
}.

(** A call of the gRPC service. *)
Inductive grpc_request :=
  | GSendMessage (ctx : context) (taskId contextId : string) (msg : option PBMessage)
  | GGetTask (ctx : context) (taskId : string)
  | GStreamTaskEvents (ctx : context) (taskId : string).

(** The process: its phase, the requests in flight, the runs that have begun and
    not ended, and the world. *)
Record process (E : Type) := mkProcess {
  pr_phase : phase;
  pr_http : list http_request;
  pr_grpc : list grpc_request;
  pr_runs : list Job;
  pr_world : World E;
}.

Arguments mkProcess {E}.
Arguments pr_phase {E} p.
Arguments pr_http {E} p.
Arguments pr_grpc {E} p.
Arguments pr_runs {E} p.
Arguments pr_world {E} p.

Section process.
Context {E : Type} `{!Has AuditLog E} `{!PlanDocs E}.
Context (parse_token : string -> Z -> string -> option Claims).
Context (sort_Slice : list StateSnapshot -> list StateSnapshot) (Sprintf_v : any -> string).
Context (print : json -> string) (parse : string -> option json) (url_query : string -> string -> string).
Context (stream_inputs : string -> list sse_input) (metrics_page : ClientResponse).
Context (p : Program E).

(** The runs that the answer to a request starts. *)
Definition http_answer (rq : http_request) : M E (list Job) :=
  let* (_, jobs) := serve parse_token sort_Slice Sprintf_v print parse url_query stream_inputs metrics_page
    (http_Handler p) (rq_ctx rq) (rq_Authorization rq) (rq_Method rq) (rq_path rq) (rq_body rq) in
  ret jobs.

Definition grpc_answer (rq : grpc_request) : M E (list Job) :=
  match rq with
  | GSendMessage ctx taskId contextId msg =>
      let* (_, jobs) := Grpc_SendMessage ctx taskId contextId msg in ret jobs
  | GGetTask ctx taskId => Grpc_GetTask (grpc_Server p) ctx taskId ;; ret []
  | GStreamTaskEvents ctx taskId => Grpc_StreamTaskEvents (grpc_Server p) ctx taskId ;; ret []
  end.

Inductive proc_step : process E -> process E -> Prop :=
  | ps_http_accept rq hs gs js w :
      proc_step (mkProcess Serving hs gs js w) (mkProcess Serving (hs ++ [rq]) gs js w)
  | ps_grpc_accept ph rq hs gs js w :
      ph = Serving \/ ph = Draining ->
      proc_step (mkProcess ph hs gs js w) (mkProcess ph hs (gs ++ [rq]) js w)
  | ps_http_answer ph hs1 rq hs2 gs js jobs w w' :
      ph = Serving \/ ph = Draining -> http_answer rq w = (Ret jobs, w') ->
      proc_step (mkProcess ph (hs1 ++ rq :: hs2) gs js w) (mkProcess ph (hs1 ++ hs2) gs (js ++ jobs) w')
  | ps_grpc_answer ph hs gs1 rq gs2 js jobs w w' :
      ph = Serving \/ ph = Draining \/ ph = Stopping -> grpc_answer rq w = (Ret jobs, w') ->
      proc_step (mkProcess ph hs (gs1 ++ rq :: gs2) js w) (mkProcess ph hs (gs1 ++ gs2) (js ++ jobs) w')
  | ps_grpc_panic ph hs gs1 rq gs2 js v w w' :
      ph = Serving \/ ph = Draining \/ ph = Stopping -> grpc_answer rq w = (Panic v, w') ->
      proc_step (mkProcess ph hs (gs1 ++ rq :: gs2) js w) (mkProcess (Exited 2 v) hs (gs1 ++ rq :: gs2) js w')
  | ps_run_ends ph hs gs js1 j js2 fuel r w w' :
      ph = Serving \/ ph = Draining \/ ph = Stopping -> run_job fuel (http_Handler p) j w = (Ret r, w') ->
      proc_step (mkProcess ph hs gs (js1 ++ j :: js2) w) (mkProcess ph hs gs (js1 ++ js2) w')
  | ps_run_panics ph hs gs js1 j js2 fuel v w w' :
      ph = Serving \/ ph = Draining \/ ph = Stopping -> run_job fuel (http_Handler p) j w = (Panic v, w') ->
      proc_step (mkProcess ph hs gs (js1 ++ j :: js2) w) (mkProcess (Exited 2 v) hs gs (js1 ++ j :: js2) w')
  | ps_http_fails hs gs js w :
      proc_step (mkProcess Serving hs gs js w) (mkProcess (Exited 1 "http server failed") hs gs js w)
  | ps_grpc_fails ph hs gs js w :
      ph = Serving \/ ph = Draining ->
      proc_step (mkProcess ph hs gs js w) (mkProcess (Exited 1 "gRPC server failed") hs gs js w)
  | ps_signal hs gs js w : proc_step (mkProcess Serving hs gs js w) (mkProcess Draining hs gs js w)
  | ps_drained gs js w : proc_step (mkProcess Draining [] gs js w) (mkProcess Stopping [] gs js w)
  | ps_forced hs gs js w :
      proc_step (mkProcess Draining hs gs js w) (mkProcess (Exited 1 "http server forced to shutdown") hs gs js w)
  | ps_stopped hs js w :
      proc_step (mkProcess Stopping hs [] js w) (mkProcess (Exited 0 "servers exited gracefully") hs [] js w).

(** The process when it begins to serve. *)
Definition serving (w : World E) : process E := mkProcess Serving [] [] [] w.

(** A request that is answered in any world. *)
Definition http_answers (rq : http_request) : Prop := forall w, exists jobs w', http_answer rq w = (Ret jobs, w').

Definition grpc_answers (rq : grpc_request) : Prop := forall w, exists jobs w', grpc_answer rq w = (Ret jobs, w').

(** ** Lemmas *)

(** No HTTP request is in flight once [Shutdown] has returned, and no RPC at the
    graceful exit. *)
Definition proc_ok (x : process E) : Prop :=
  match pr_phase x with
  | Stopping => pr_http x = []
  | Exited 0 _ => pr_http x = [] /\ pr_grpc x = []
  | _ => True
  end.

Lemma proc_step_ok x y : proc_step x y -> proc_ok x -> proc_ok y.
Proof.
  unfold proc_ok. destruct 1; cbn [pr_phase pr_http pr_grpc]; try done;
    repeat match goal with H : _ \/ _ |- _ => destruct H as [->|H] end; subst; done.
Qed.

Lemma proc_reached_ok x y : rtc proc_step x y -> proc_ok x -> proc_ok y.
Proof. induction 1; [done|]. eauto using proc_step_ok. Qed.

Lemma exited_stuck x y code msg : pr_phase x = Exited code msg -> ~ proc_step x y.
Proof.
  intros Hx H. destruct H; simpl in Hx; try discriminate;
    repeat match goal with H : _ \/ _ |- _ => destruct H as [->|H] end; by subst.
Qed.

Lemma rtc_trans (x y z : process E) : rtc proc_step x y -> rtc proc_step y z -> rtc proc_step x z.
Proof. intros H1 H2. by transitivity y. Qed.

(** The HTTP requests in flight are answered one after the other. *)
Lemma drain_http ph hs gs js w :
  ph = Serving \/ ph = Draining -> Forall http_answers hs ->
  exists jobs w', rtc proc_step (mkProcess ph hs gs js w) (mkProcess ph [] gs (js ++ jobs) w').
Proof.
  intros Hph Hhs. revert js w. induction Hhs as [|rq hs Hrq _ IH]; intros js w; [exists [], w; by rewrite app_nil_r|].
  destruct (Hrq w) as (jobs & w1 & Ha). destruct (IH (js ++ jobs) w1) as (jobs' & w2 & Hr).
  exists (jobs ++ jobs'), w2. eapply rtc_l; [exact (ps_http_answer ph [] rq hs gs js jobs w w1 Hph Ha)|].
  by rewrite app_assoc.
Qed.

Lemma drain_grpc ph hs gs js w :
  ph = Serving \/ ph = Draining \/ ph = Stopping -> Forall grpc_answers gs ->
  exists jobs w', rtc proc_step (mkProcess ph hs gs js w) (mkProcess ph hs [] (js ++ jobs) w').
Proof.
  intros Hph Hgs. revert js w. induction Hgs as [|rq gs Hrq _ IH]; intros js w; [exists [], w; by rewrite app_nil_r|].
  destruct (Hrq w) as (jobs & w1 & Ha). destruct (IH (js ++ jobs) w1) as (jobs' & w2 & Hr).
  exists (jobs ++ jobs'), w2. eapply rtc_l; [exact (ps_grpc_answer ph hs [] rq gs js jobs w w1 Hph Ha)|].
  by rewrite app_assoc.
Qed.

Lemma grpc_nil_message ctx taskId contextId w :
  exists v w', grpc_answer (GSendMessage ctx taskId contextId None) w = (Panic v, w').
Proof.
  unfold grpc_answer, Grpc_SendMessage, or_uuid_New. destruct (bool_decide _); by eexists _, _.
Qed.
End process.

(** ** Properties *)

(** C9: a graceful exit answers the requests and cuts the runs. When the process
    has exited with status 0, every request it had accepted was answered and it
    takes no further step. From any moment before the exit at which the requests
    in flight can be answered, the signal leads to that exit on a schedule on
    which no run makes progress: the runs in flight, and those the last answers
    start, are lost, since nothing waits for them. One RPC without a message,
    at any time before the exit, ends the process with status 2. *)
Theorem graceful_exit {E} `{!Has AuditLog E} `{!PlanDocs E} parse_token sort_Slice Sprintf_v print parse url_query
    stream_inputs metrics_page (p : Program E) (w0 : World E) (x : process E) :
  let step := proc_step parse_token sort_Slice Sprintf_v print parse url_query stream_inputs metrics_page p in
  rtc step (serving w0) x ->
  (forall msg, pr_phase x = Exited 0 msg -> pr_http x = [] /\ pr_grpc x = [] /\ forall y, ~ step x y) /\
  (pr_phase x = Serving \/ pr_phase x = Draining ->
     Forall (http_answers parse_token sort_Slice Sprintf_v print parse url_query stream_inputs metrics_page p) (pr_http x) ->
     Forall (grpc_answers p) (pr_grpc x) ->
     exists jobs w', rtc step x
       (mkProcess (Exited 0 "servers exited gracefully") [] [] (pr_runs x ++ jobs) w')) /\
  (forall ctx taskId contextId, GSendMessage ctx taskId contextId None ∈ pr_grpc x ->
     (forall code msg, pr_phase x <> Exited code msg) -> exists v y, step x y /\ pr_phase y = Exited 2 v).
Proof.
  intros step Hreach.
  assert (Hok : proc_ok x) by (by eapply proc_reached_ok; [exact Hreach|]).
  split_and!.
  - intros msg Hx. unfold proc_ok in Hok. rewrite Hx in Hok. destruct Hok. split_and!; [done..|].
    intros y. by eapply exited_stuck.
  - intros Hph Hhs Hgs. destruct x as [ph hs gs js w]. cbn [pr_phase pr_http pr_grpc pr_runs] in *.
    assert (Hdrain : rtc step (mkProcess ph hs gs js w) (mkProcess Draining hs gs js w)).
    { destruct Hph as [->| ->]; [apply rtc_once; apply ps_signal | done]. }
    destruct (drain_http parse_token sort_Slice Sprintf_v print parse url_query stream_inputs metrics_page p
      Draining hs gs js w) as (jobs1 & w1 & H1); [by right | exact Hhs|].
    destruct (drain_grpc parse_token sort_Slice Sprintf_v print parse url_query stream_inputs metrics_page p
      Stopping [] gs (js ++ jobs1) w1) as (jobs2 & w2 & H2); [by right; right | exact Hgs|].
    exists (jobs1 ++ jobs2), w2. rewrite app_assoc. eapply rtc_trans; [exact Hdrain|].
    eapply rtc_trans; [exact H1|]. eapply rtc_l; [apply ps_drained|]. eapply rtc_trans; [exact H2|].
    apply rtc_once. apply ps_stopped.
  - intros ctx taskId contextId Hin Hex. destruct x as [ph hs gs js w]. cbn [pr_phase pr_grpc] in *.
    apply list_elem_of_split in Hin as (gs1 & gs2 & ->).
    destruct (grpc_nil_message p ctx taskId contextId w) as (v & w' & Hv).
    exists v. eexists. split; [|shelve]. eapply ps_grpc_panic; [|exact Hv].
    destruct ph as [| | |code msg]; [by left | by right; left | by right; right | by destruct (Hex code msg)].
    Unshelve. done.
Qed.

(** ** Witnesses *)

#[local] Instance served_docs : PlanDocs demo_ext2 := fun _ _ => None.

#[local] Instance served_log : Has AuditLog demo_ext2 := Has_snd _ _.

Definition served_program : Program demo_ext2 := mkProgram ":8080" A2A.demo_server ":9090" A2A.demo_server.

Definition served_answer (rq : http_request) : M demo_ext2 (list Job) :=
  http_answer A2A.demo_parse (fun l => l) (fun _ => "") (fun _ => "") (fun _ => None) (fun _ _ => "") (fun _ => [])
    (mkClientResponse 200 None "") served_program rq.

Definition served_request : http_request :=
  mkHttpRequest Background "Bearer tok" "POST" "/" (Some (A2A.demo_send "t1" "hello")).

(** A message was answered and its run has not begun; a stream is being asked for. *)
Definition served_run : process demo_ext2 :=
  mkProcess Serving [] [GStreamTaskEvents Background "t1"] [mkJob "t1" (Some 1)] (served_answer served_request A2A.demo_world2).2.

Definition served_step : process demo_ext2 -> process demo_ext2 -> Prop :=
  proc_step A2A.demo_parse (fun l => l) (fun _ => "") (fun _ => "") (fun _ => None) (fun _ _ => "") (fun _ => [])
    (mkClientResponse 200 None "") served_program.

Lemma graceful_exit_witness :
  rtc served_step (serving A2A.demo_world2) served_run /\
  exists jobs w', rtc served_step served_run
    (mkProcess (Exited 0 "servers exited gracefully") [] [] ([mkJob "t1" (Some 1)] ++ jobs) w').
Proof.
  assert (Hreach : rtc served_step (serving A2A.demo_world2) served_run).
  { eapply rtc_l; [apply (ps_http_accept _ _ _ _ _ _ _ _ _ served_request)|].
    eapply rtc_l; [eapply (ps_http_answer _ _ _ _ _ _ _ _ _ Serving [] served_request [] [] [] [mkJob "t1" (Some 1)]);
      [by left | apply (run_eq (served_answer served_request)); vm_compute; reflexivity]|].
    eapply rtc_l; [apply (ps_grpc_accept _ _ _ _ _ _ _ _ _ Serving (GStreamTaskEvents Background "t1")); by left|].
    apply rtc_refl. }
  split; [exact Hreach|].
  apply (graceful_exit A2A.demo_parse (fun l => l) (fun _ => "") (fun _ => "") (fun _ => None) (fun _ _ => "") (fun _ => [])
    (mkClientResponse 200 None "") served_program A2A.demo_world2 served_run Hreach).
  - by left.
  - constructor.
  - constructor; [|constructor]. intros w. eexists _, _. reflexivity.
Defined.
